(* ===== verification/_CoqProject ===== *)
-Q . S2P
Prelude.v
Utf8.v
Io.v
Ieee.v
Algorithm.v
CoreWire.v
ServerWire.v
WireParity.v
Gate.v
GateTests.v
Strings.v
Net.v
Primitives.v
Sha256.v
WireTests.v
HybridKem.v
CoreClient.v
Fs.v
ServerHandshake.v
Agreement.v
Registry.v
RegistryFacts.v
Tunnel.v
Server.v
ServerFacts.v
Transport.v
EndToEnd.v
ServerTrace.v
Threads.v
Liveness.v
Main.v
Recovery.v
TestClient.v
RekeyCommand.v
Spike.v
Vectors.v
FrozenVectors.v
CryptoTests.v
HandshakeTests.v
KeyStore.v
StatePipeline.v
Desktop.v
TunnelHandle.v
UnitTests.v
