(* ===== verification/Prelude.v ===== *)
(** * A verified model of the PQC-VPN handshake, registry and policy gate

    PQC-VPN is a WireGuard VPN whose pre-shared keys come from a hybrid
    X25519 + ML-KEM handshake, authenticated by an ML-DSA signature.  The
    client library is [core/], the server is [server/handshake-server/], and a
    desktop shell is [desktop/src-tauri/].  A client sends [ClientHello]; the
    server answers with a signed [ServerHello]; both derive a PSK and a
    confirmation key; after [ClientFinish] the server updates its peer
    registry, installs the PSK into WireGuard, saves the registry and sends
    [ServerFinish].  A [RekeyRequest] takes the same path for a known session.
    Independently, the client's decision gate turns the output of a policy
    into algorithm changes and rekeys, from a state vector of device readings.

    ** Files, and the code they model

    - [Prelude] (this file): the result type, bytes, sized arrays, machine
      integers, and the lemmas and tactics the other files share.  [Utf8]:
      strings as valid UTF-8, and lossy decoding.  [Io]: the monad of
      stateful fallible code, I/O errors, byte streams with a scripted end.
      [Ieee]: binary32 and binary64 on the executable [spec_float].
      [Strings], [Net]: the text functions of the standard library that the
      code calls.  [Fs]: files, modes and scripted faults.  All of these model
      the language and its library, not the program.
    - [Algorithm]: [core/src/crypto/algorithm.rs].
    - [CoreWire]: [core/src/protocol/wire.rs]; [ServerWire]: the server's own
      [wire.rs] and [error.rs]; [WireParity] relates the two.
    - [Gate]: [core/src/rl/gate.rs].
    - [Primitives]: the interface to the cryptographic crates, with the laws
      the code relies on and a concrete instance; [HybridKem]:
      [core/src/crypto/hybrid_kem.rs], [auth.rs] and [kdf.rs];
      [CoreClient]: [core/src/protocol/client.rs] and [tags.rs].
    - [ServerHandshake]: [handshake.rs], [kdf.rs], [transcript.rs],
      [identity.rs] and [client_handshake.rs] of the server; [Agreement]
      relates it to the client.
    - [Registry]: [registry.rs], facts in [RegistryFacts]; [Tunnel]:
      [tunnel.rs]; [Server]: [server.rs], facts about its state in [ServerFacts]
      and about what it sends in [ServerTrace];
      [Transport]: [core/src/protocol/transport.rs]; [EndToEnd] runs
      [Transport.connect] against [Server.handle_connection].
    - [Threads]: the threads of [serve] and [spawn_idle_sweep] in [server.rs],
      cut at their accesses to what they share; [Main]: [main.rs], the command
      line and the start, whose result is the system that [Threads] runs;
      [Liveness]: what becomes of a connection and of a sweep turn in that
      system; [Recovery]: the lives of a server from one crash to the next.
    - The programs beside the server: [TestClient] ([src/bin/test-client.rs];
      [RekeyCommand] runs the command that its report ends with),
      [Vectors] ([src/bin/emit-vectors.rs]) and [Spike]
      ([server/crypto-spike/src/main.rs]).
    - [KeyStore]: [core/src/crypto/key_store.rs]; [StatePipeline] and
      [TunnelHandle]: [core/src/state/mod.rs]; [Desktop]: [device_state.rs]
      and [lib.rs] of the desktop shell.
    - The repository's own evidence, run on the model: [Sha256], the standard
      hash, HMAC and HKDF, which [with_sha] puts in place of those of any
      [Primitives]; [FrozenVectors], the committed [server/handshake-vectors.json];
      [GateTests], [contracts/decision_gate_vectors.json] and the tests of
      [gate.rs]; [WireTests], [CryptoTests] and [UnitTests], the other test
      modules; [HandshakeTests], [tests/handshake.rs] and the tests of
      [transport.rs], where a client and the server talk over one connection.

    ** How the code is rendered

    A method keeps its Rust name, prefixed by its type where two types share
    it ([Message_read], [Registry_new]).  [Result] is [result]; code that
    mutates through [&mut self], a socket or a file is a function of the
    monad [M], with the state before and after; a panic is the [None] of an
    option.  [u8] is [byte], [[u8; N]] is [arr N], wider integers are [Z] with
    wrap-around written out where it can happen.  Random draws, the clock and
    the outcome of the operating system's calls are arguments.  A [HashMap]
    is a [gmap].

    Concurrency: a public method of the registry holds the mutex for its whole
    body and [persist] holds it until the file is renamed, so each is one step.
    A connection's thread is the sequence of a first step (reading, answering
    and checking the client's messages, which touches nothing shared), the
    registry update, the install, the save and the answer; the sweep's is one
    step per access.  An [event] picks the thread that moves.

    ** Interfaces

    [Primitives] and [PrimitiveLaws] (cryptography: key exchange commutes,
    decapsulation inverts encapsulation, honest signatures verify, encodings
    round-trip; nothing is assumed about secrecy or unforgeability; that
    decapsulation always succeeds idealises away ML-KEM's negligible rate of
    decapsulation failures),
    [Codecs] and [CodecLaws] (base64, hex and JSON round-trip, their alphabets
    and the length of a hex text), [PskInstaller] (the trait of [tunnel.rs],
    implemented by [DryRun] and [WgCli]), [WgProgram] (the [wg] executable),
    [ObservableWg] (the peers on an interface) and [TunnelHandle] with
    [TunnelHandleLaws] (the client's side of a tunnel).  The laws are
    instantiated by [Primitives.Toy], [Registry.ToyCodecs],
    [ServerFacts.WgTable] and the double of [TunnelHandle], on which the
    witnesses run.

    ** What the theorems show

    - Wire format: round trip, canonical decoding, prefix-freedom,
      size bounds on both sides of the wire, and that the two independent codecs
      agree on every message and on every input, errors included; the
      published fixtures are the common ground of both.
    - Handshake: the client authenticates before it decapsulates; the
      transcript fixes exactly the fields it lists; an accepted hello means
      both sides hold the same keys; a reflected tag is a MAC collision; the
      two programs run to completion against each other; the server's own
      client is the product's; a rekey runs from a command line to the
      registry and the interface; and the rekey command that the test client
      prints works after a handshake up to ML-KEM-768, but never after one at
      ML-KEM-1024, which it would downgrade.
    - Registry: the invariant (limit, unique addresses in the subnet), every
      branch of every operation, no downgrade within a session, atomic
      persistence and reload.
    - Server: no effect without a confirmed key, rejections without effect,
      the exact effect of the idle sweep, which reads the clock anew for every
      peer it touches, and of reconciliation, and the invariant throughout; what
      happens on a failed install; and the messages a client is sent, against
      what it sent and what the server then holds.
    - Threads: two lemmas tie the steps to the sequential code (a thread alone
      is the handler, a sweep alone is the sweep); under every interleaving the registry's
      invariant holds, each registered session is that of an accepted
      connection whose byte stream holds the finish message that proves its
      keys, and the interface is only given the PSKs of such connections; and what the
      interleaving does not exclude, each run to completion with both ends told
      of success: a mixed pair of handshakes, and the eviction of a client that
      just came back.
    - Progress: under every interleaving a connection's thread returns after
      five turns and a turn of the sweep ends; and an honest client gets its
      handshake, with the PSK and address of the session that was confirmed,
      unless more connections than the limit have filled the registry.
    - Start: what a command line means, option by option and without reference
      to the parser, and what the others report; that
      a restart resumes with identity and registry; when it cannot; and that
      after any number of crashes and failed starts, with any disk faults while
      starting and serving, every start that succeeds resumes from a state that
      the last life went through.  Only the very first start, which writes the
      seed, must not be cut short: then no later start succeeds.
    - Gate: the update refines a level-by-level specification, and over whole
      runs the debounce and the cooldown hold in both directions.
    - State: the vector lies in the unit interval, and where NaN can enter; the
      desktop's readings from what the system reports, and that they are what is shown; a
      lawful tunnel handle behaves by the history of its operations; the
      desktop shell answers every command from the history of the commands
      before it until the menu ends it, or panics at the start if its tray cannot
      be set up.
    - Identity, key store, [wg] output parsing, CIDR parsing.
    - Conformance: the gate gives every decision of the contract file; the
      vector generator on the real hashes writes the committed fixtures,
      whatever the other primitives are; and each test of the repository is a
      boolean function of what it draws, true for all lawful primitives and all
      draws where it expects success, and true on a concrete instance where it
      expects a rejection that no law promises.

    ** Bounds and fuel

    Five recursions carry fuel: UTF-8 chunking ([chunks_fuel]), trimming
    ([drop_ws]), splitting into words ([words_from]) and cutting a padded
    message into blocks ([Sha256.pieces]) the length of their input, of which
    every turn consumes at least one byte, and decimal printing ([fmt_digits])
    the number's binary digits, of which every turn drops three.
    The lemmas [chunks_fuel_enough], [drop_ws_enough], [words_from_enough],
    [fmt_digits_enough] and [pieces_concat] show that it is enough.  Two turns
    are enough for the conversations of [HandshakeTests]: each end sends two
    messages, and [talk] checks that nothing more would be sent.  No other
    recursion needs any.  [usize] is taken to be 64 bits wide.

    ** Not modelled

    Log output, and of the programs' printing all but the test client's final
    report and the sizes of [Spike]; the memory that the key store zeroes; the
    Python training code.  Code outside the repository is an argument: the
    cryptographic crates, [base64], [hex], [serde_json], the programs [wg] and
    [ping], what [sysinfo] reads and [tauri] reports, [exp], Unicode
    lower-casing and [{:?}] formatting.  A poisoned mutex, which needs a panic
    inside a method that has none, is not considered.  Paths are
    taken to be in normal form, without empty or [.] components. *)

From Stdlib Require Export ZArith Lia.
From Stdlib Require Export Init.Byte.
From Stdlib Require Strings.Byte Strings.String.
From stdpp Require Export base option list gmap strings countable.

#[export] Set Default Goal Selector "!".

Declare Scope pqc_scope.
Delimit Scope pqc_scope with pqc.
#[global] Open Scope Z_scope.

(** ** Fallible computations

    [result E T] is Rust's [Result<T, E>]; [?] is the monadic bind. *)

Inductive result (E T : Type) : Type :=
  | Ok (t : T)
  | Err (e : E).

Arguments Ok {E T} t.
Arguments Err {E T} e.

#[export] Instance result_ret {E} : MRet (result E) := fun _ t => Ok t.
#[export] Instance result_bind {E} : MBind (result E) :=
  fun _ _ f m => match m with Ok t => f t | Err e => Err e end.
#[export] Instance result_fmap {E} : FMap (result E) :=
  fun _ _ f m => match m with Ok t => Ok (f t) | Err e => Err e end.

(** [Result::map_err], [Option::ok_or] and [Result::ok]. *)
Definition map_err {E F T} (f : E -> F) (m : result E T) : result F T :=
  match m with Ok t => Ok t | Err e => Err (f e) end.
Definition ok_or {E T} (e : E) (o : option T) : result E T :=
  match o with Some t => Ok t | None => Err e end.
Definition ok {E T} (m : result E T) : option T :=
  match m with Ok t => Some t | Err _ => None end.

#[export] Instance result_eq_dec {E T} `{EqDecision E, EqDecision T} :
  EqDecision (result E T).
Proof. solve_decision. Defined.

Lemma bind_Ok_inv {E A B} (m : result E A) (f : A -> result E B) b :
  m ≫= f = Ok b -> exists a, m = Ok a /\ f a = Ok b.
Proof. destruct m; [eauto | discriminate]. Qed.

Lemma result_bind_assoc {E A B C} (m : result E A) (f : A -> result E B) (g : B -> result E C) :
  (m ≫= f) ≫= g = m ≫= (fun x => f x ≫= g).
Proof. by destruct m. Qed.

(** Peel every successful bind of a hypothesis. *)
Ltac bind_inv :=
  repeat match goal with
  | H : mbind _ _ = Ok _ |- _ =>
      let a := fresh "a" in let Ha := fresh "Ha" in
      apply bind_Ok_inv in H as (a & Ha & H)
  | H : Ok _ = Ok _ |- _ => injection H as H; try subst
  | H : Err _ = Ok _ |- _ => discriminate H
  | H : Ok _ = Err _ |- _ => discriminate H
  end.

(** ** Booleans carried in data

    Sized arrays and Rust strings carry a boolean proof.  [canon] rebuilds
    such a proof so that on closed data it computes to [eq_refl]: two values
    with the same payload are then convertible. *)

Definition canon {b : bool} (e : b = true) : b = true :=
  match Bool.bool_dec b true with
  | left e' => e'
  | right n => match n e with end
  end.

Lemma bool_irrel (b : bool) (e1 e2 : b = true) : e1 = e2.
Proof. apply Eqdep_dec.UIP_dec, Bool.bool_dec. Qed.

(** ** Bytes *)

Abbreviation u8 := Byte.byte.
Abbreviation bytes := (list Byte.byte).

#[export] Instance byte_eq_dec : EqDecision Byte.byte := Byte.byte_eq_dec.
#[export] Instance byte_inhabited : Inhabited Byte.byte := populate x00.

(** [u8 as usize] and its inverse modulo 256 ([as u8]). *)
Definition b2z (b : u8) : Z := Z.of_N (Byte.to_N b).
Definition z2b (z : Z) : u8 := default x00 (Byte.of_N (Z.to_N (z mod 256))).

Lemma b2z_range b : 0 <= b2z b < 256.
Proof.
  unfold b2z. pose proof (Byte.to_N_bounded b). lia.
Qed.

Lemma b2z_inj b1 b2 : b2z b1 = b2z b2 -> b1 = b2.
Proof.
  unfold b2z. intros H%N2Z.inj.
  apply (f_equal Byte.of_N) in H. rewrite !Byte.of_to_N in H. congruence.
Qed.

Lemma b2z_z2b z : b2z (z2b z) = z mod 256.
Proof.
  unfold b2z, z2b. pose proof (Z.mod_pos_bound z 256 ltac:(lia)).
  destruct (Byte.of_N _) as [b|] eqn:E; simpl.
  - apply Byte.to_of_N in E. rewrite E. lia.
  - apply Byte.of_N_None_iff in E. lia.
Qed.

Lemma z2b_b2z b : z2b (b2z b) = b.
Proof.
  apply b2z_inj. rewrite b2z_z2b. apply Z.mod_small, b2z_range.
Qed.

#[export] Instance byte_countable : Countable Byte.byte :=
  inj_countable Byte.to_N Byte.of_N Byte.of_to_N.

(** The length of a slice, as a [usize]. *)
Definition len {A} (l : list A) : Z := Z.of_nat (length l).

Lemma len_app {A} (l k : list A) : len (l ++ k) = len l + len k.
Proof. unfold len. rewrite length_app. lia. Qed.
Lemma len_cons {A} (x : A) l : len (x :: l) = 1 + len l.
Proof. unfold len. simpl length. lia. Qed.
Lemma len_nil {A} : len (@nil A) = 0.
Proof. done. Qed.
Lemma len_nonneg {A} (l : list A) : 0 <= len l.
Proof. unfold len. lia. Qed.

(** [u16::to_be_bytes] and [u16::from_be_bytes]. *)
Definition u16_to_be_bytes (v : Z) : bytes := [z2b (v / 256); z2b v].
Definition u16_from_be_bytes (hi lo : u8) : Z := 256 * b2z hi + b2z lo.
(** [v as u16]. *)
Definition as_u16 (v : Z) : Z := v mod 65536.
(** [u32] arithmetic of a release build. *)
Definition u32_wrap (z : Z) : Z := z mod 2 ^ 32.

Lemma u16_from_be_bytes_range hi lo : 0 <= u16_from_be_bytes hi lo < 65536.
Proof.
  unfold u16_from_be_bytes. pose proof (b2z_range hi). pose proof (b2z_range lo). lia.
Qed.

Lemma u16_from_to_be v :
  0 <= v < 65536 -> u16_from_be_bytes (z2b (v / 256)) (z2b v) = v.
Proof.
  intros Hv. unfold u16_from_be_bytes. rewrite !b2z_z2b.
  rewrite (Z.mod_small (v / 256)) by (split; [apply Z.div_pos; lia | apply Z.div_lt_upper_bound; lia]).
  pose proof (Z.div_mod v 256 ltac:(lia)). lia.
Qed.

Lemma u16_to_from_be hi lo : u16_to_be_bytes (u16_from_be_bytes hi lo) = [hi; lo].
Proof.
  unfold u16_to_be_bytes, u16_from_be_bytes.
  pose proof (b2z_range hi). pose proof (b2z_range lo).
  f_equal; [| f_equal]; apply b2z_inj; rewrite b2z_z2b.
  - rewrite Z.mul_comm, Z.div_add_l, (Z.div_small (b2z lo)), Z.add_0_r by lia.
    apply Z.mod_small; lia.
  - rewrite Z.add_comm, Z.mul_comm, Z.mod_add by lia. apply Z.mod_small; lia.
Qed.

(** ** Bounded unsigned integers stored in messages *)

Record uint (w : Z) : Set := UInt {
  uval :> Z;
  uval_ok : ((0 <=? uval) && (uval <? 2 ^ w))%Z = true
}.
Arguments UInt {w} uval uval_ok.
Arguments uval {w} _.
Arguments uval_ok {w} _.

Abbreviation u16 := (uint 16).

Lemma uint_range {w} (x : uint w) : 0 <= x < 2 ^ w.
Proof. pose proof (uval_ok x). lia. Qed.

Lemma uint_eq {w} (x y : uint w) : uval x = uval y -> x = y.
Proof.
  destruct x as [x ox], y as [y oy]. simpl. intros ->. f_equal. apply bool_irrel.
Qed.

#[export] Instance uint_eq_dec {w} : EqDecision (uint w).
Proof.
  refine (fun x y => cast_if (decide (uval x = uval y))).
  - by apply uint_eq.
  - congruence.
Defined.

Lemma u16_of_be_ok hi lo :
  ((0 <=? u16_from_be_bytes hi lo) && (u16_from_be_bytes hi lo <? 2 ^ 16))%Z = true.
Proof. pose proof (u16_from_be_bytes_range hi lo). lia. Qed.

(** A [u16] value read from two big-endian bytes. *)
Definition u16_of_be (hi lo : u8) : u16 :=
  UInt (u16_from_be_bytes hi lo) (canon (u16_of_be_ok hi lo)).

(** ** Sized byte arrays: [arr n] is Rust's [[u8; n]] *)

Record arr (n : N) : Set := Arr {
  arr_list :> bytes;
  arr_ok : (N.of_nat (length arr_list) =? n)%N = true
}.
Arguments Arr {n} arr_list arr_ok.
Arguments arr_list {n} _.
Arguments arr_ok {n} _.

Lemma arr_length {n} (a : arr n) : length (arr_list a) = N.to_nat n.
Proof. pose proof (arr_ok a) as H. apply N.eqb_eq in H. lia. Qed.
Lemma arr_len {n} (a : arr n) : len (arr_list a) = Z.of_N n.
Proof. unfold len. rewrite arr_length. lia. Qed.

Lemma arr_eq {n} (a b : arr n) : arr_list a = arr_list b -> a = b.
Proof.
  destruct a as [a oa], b as [b ob]. simpl. intros ->. f_equal. apply bool_irrel.
Qed.

#[export] Instance arr_eq_dec {n} : EqDecision (arr n).
Proof.
  refine (fun x y => cast_if (decide (arr_list x = arr_list y))).
  - by apply arr_eq.
  - congruence.
Defined.

(** [<[u8; n]>::try_from(slice)]: only the exact length converts. *)
Definition arr_try_from (n : N) (l : bytes) : option (arr n) :=
  match Bool.bool_dec (N.of_nat (length l) =? n)%N true with
  | left e => Some (Arr l e)
  | right _ => None
  end.

Lemma arr_try_from_Some n l a : arr_try_from n l = Some a <-> arr_list a = l.
Proof.
  unfold arr_try_from. split.
  - destruct (Bool.bool_dec _ _) as [e|]; [|done]. by intros [= <-].
  - intros <-. destruct (Bool.bool_dec _ _) as [e|ne].
    + f_equal. by apply arr_eq.
    + destruct (ne (arr_ok a)).
Qed.

Lemma arr_try_from_arr {n} (a : arr n) : arr_try_from n a = Some a.
Proof. by apply arr_try_from_Some. Qed.

Lemma arr_try_from_None n l : arr_try_from n l = None <-> len l <> Z.of_N n.
Proof.
  unfold arr_try_from, len. destruct (Bool.bool_dec _ _) as [e|ne].
  - pose proof (proj1 (N.eqb_eq _ _) e). split; [done|]. intros Hne. exfalso. lia.
  - split; [|done]. intros _ H. apply ne, N.eqb_eq. lia.
Qed.

#[export] Instance arr_countable {n} : Countable (arr n) :=
  inj_countable arr_list (arr_try_from n) arr_try_from_arr.

Lemma arr_resize_ok n (l : bytes) :
  (N.of_nat (length (resize (N.to_nat n) x00 l)) =? n)%N = true.
Proof. rewrite length_resize. apply N.eqb_eq. lia. Qed.

(** [let mut a = [0u8; n]; a.copy_from_slice(l)].  Rust panics unless the
    lengths agree; every use in the source copies a slice of length [n]
    ([arr_copy_exact]). *)
Definition arr_copy (n : N) (l : bytes) : arr n :=
  Arr (resize (N.to_nat n) x00 l) (canon (arr_resize_ok n l)).

Lemma arr_copy_exact n l : len l = Z.of_N n -> arr_list (arr_copy n l) = l.
Proof.
  unfold len. intros H. simpl. apply resize_all_alt. lia.
Qed.

Lemma arr_copy_arr {n} (a : arr n) : arr_copy n (arr_list a) = a.
Proof. apply arr_eq, arr_copy_exact, arr_len. Qed.

(** [[b; n]]. *)
Definition arr_fill (n : N) (b : u8) : arr n :=
  arr_copy n (replicate (N.to_nat n) b).

#[export] Instance arr_inhabited {n} : Inhabited (arr n) := populate (arr_fill n x00).

(** ** Lists *)

Lemma app_inj_len {A} (a b c d : list A) :
  len a = len c -> a ++ b = c ++ d -> a = c /\ b = d.
Proof.
  unfold len. intros Hl H. apply app_inj_1; [lia | done].
Qed.

Lemma take_app_len {A} (l k : list A) : take (Z.to_nat (len l)) (l ++ k) = l.
Proof. unfold len. rewrite Nat2Z.id. apply take_app_length. Qed.
Lemma drop_app_len {A} (l k : list A) : drop (Z.to_nat (len l)) (l ++ k) = k.
Proof. unfold len. rewrite Nat2Z.id. apply drop_app_length. Qed.

(** ** Automation *)

Create HintDb pqc discriminated.
Create Rewrite HintDb len.
#[export] Hint Rewrite @len_app @len_cons @len_nil @arr_len : len.
#[export] Hint Resolve arr_copy_arr arr_try_from_arr len_nonneg : pqc.

(** Normalise lengths of concatenations and decide with [lia]. *)
Ltac len_solve :=
  autorewrite with len in *; simpl in *;
  repeat match goal with
  | |- context [len ?l] => unless (0 <= len l) by assumption; pose proof (len_nonneg l)
  end; lia.
