(* ===== verification/Utf8.v ===== *)
(** * Rust strings: UTF-8 validity and [String::from_utf8_lossy]

    The wire protocol carries one text field ([ErrorMsg.message]), decoded with
    [String::from_utf8_lossy].  [utf8_chunks] follows the standard library's
    chunk iterator: it splits a byte string into well-formed characters and
    maximal ill-formed subparts; the lossy conversion replaces each of the
    latter with U+FFFD.  A Rust [String] is a byte string with a proof of
    validity ([rstring]). *)

From S2P Require Import Prelude.

Definition utf8_char_width (b : u8) : nat :=
  let z := b2z b in
  if z <? 0x80 then 1%nat
  else if (0xC2 <=? z) && (z <=? 0xDF) then 2%nat
  else if (0xE0 <=? z) && (z <=? 0xEF) then 3%nat
  else if (0xF0 <=? z) && (z <=? 0xF4) then 4%nat
  else 0%nat.

Definition within (lo hi : Z) (b : u8) : bool := (lo <=? b2z b) && (b2z b <=? hi).

(** [b & 192 == TAG_CONT_U8]. *)
Definition is_cont (b : u8) : bool := Z.land (b2z b) 192 =? 128.

(** The admissible second bytes of three- and four-byte sequences. *)
Definition second_of_3 (b0 b1 : u8) : bool :=
  (within 0xE0 0xE0 b0 && within 0xA0 0xBF b1)
  || (within 0xE1 0xEC b0 && within 0x80 0xBF b1)
  || (within 0xED 0xED b0 && within 0x80 0x9F b1)
  || (within 0xEE 0xEF b0 && within 0x80 0xBF b1).
Definition second_of_4 (b0 b1 : u8) : bool :=
  (within 0xF0 0xF0 b0 && within 0x90 0xBF b1)
  || (within 0xF1 0xF3 b0 && within 0x80 0xBF b1)
  || (within 0xF4 0xF4 b0 && within 0x80 0x8F b1).

Arguments utf8_char_width : simpl never.
Arguments is_cont : simpl never.
Arguments second_of_3 : simpl never.
Arguments second_of_4 : simpl never.

Inductive chunk := Valid (s : bytes) | Invalid (s : bytes).

Definition raw (c : chunk) : bytes := match c with Valid s | Invalid s => s end.
Definition chunk_ok (c : chunk) : bool := match c with Valid _ => true | Invalid _ => false end.

(** One turn of the iterator's loop at the lead byte [b0]: is a well-formed
    character there, and how many of the following bytes belong to it (or to
    the maximal ill-formed subpart). *)
Definition utf8_head (b0 : u8) (r0 : bytes) : bool * nat :=
  match utf8_char_width b0, r0 with
  | 1%nat, _ => (true, 0%nat)
  | 2%nat, b1 :: _ => if is_cont b1 then (true, 1%nat) else (false, 0%nat)
  | 3%nat, b1 :: r1 =>
      if second_of_3 b0 b1 then
        match r1 with
        | b2 :: _ => if is_cont b2 then (true, 2%nat) else (false, 1%nat)
        | [] => (false, 1%nat)
        end
      else (false, 0%nat)
  | 4%nat, b1 :: r1 =>
      if second_of_4 b0 b1 then
        match r1 with
        | b2 :: r2 =>
            if is_cont b2 then
              match r2 with
              | b3 :: _ => if is_cont b3 then (true, 3%nat) else (false, 2%nat)
              | [] => (false, 2%nat)
              end
            else (false, 1%nat)
        | [] => (false, 1%nat)
        end
      else (false, 0%nat)
  | _, _ => (false, 0%nat)
  end.

(** The iterator, with the length of the input as fuel: each turn consumes at
    least one byte ([chunks_cons]). *)
Fixpoint chunks_fuel (fuel : nat) (l : bytes) : list chunk :=
  match fuel, l with
  | S fuel, b0 :: r0 =>
      let '(good, k) := utf8_head b0 r0 in
      (if good then Valid (b0 :: take k r0) else Invalid (b0 :: take k r0))
      :: chunks_fuel fuel (drop k r0)
  | _, _ => []
  end.
Definition utf8_chunks (l : bytes) : list chunk := chunks_fuel (length l) l.

(** [str::from_utf8(l).is_ok()]. *)
Definition utf8_valid (l : bytes) : bool := forallb chunk_ok (utf8_chunks l).

(** U+FFFD REPLACEMENT CHARACTER. *)
Definition REPLACEMENT : bytes := [xef; xbf; xbd].
Definition render (c : chunk) : bytes :=
  match c with Valid s => s | Invalid _ => REPLACEMENT end.
Definition lossy (l : bytes) : bytes := concat (map render (utf8_chunks l)).

(** ** The iterator's equation *)

Lemma chunks_fuel_enough n l :
  (length l <= n)%nat -> chunks_fuel n l = utf8_chunks l.
Proof.
  unfold utf8_chunks. remember (length l) as m eqn:Hm.
  assert (length l <= m)%nat as Hl by lia. clear Hm. revert n m l Hl.
  induction n as [|n IH]; intros m l Hl Hn.
  - by replace m with 0%nat by lia.
  - destruct m as [|m], l as [|b0 r0]; simpl in *; try done; [lia..|].
    destruct (utf8_head b0 r0) as [g k]. f_equal.
    apply IH; rewrite ?length_drop; lia.
Qed.

Lemma chunks_cons b0 r0 :
  utf8_chunks (b0 :: r0) =
    (if (utf8_head b0 r0).1 then Valid else Invalid) (b0 :: take (utf8_head b0 r0).2 r0)
    :: utf8_chunks (drop (utf8_head b0 r0).2 r0).
Proof.
  unfold utf8_chunks at 1. simpl. destruct (utf8_head b0 r0) as [g k]. simpl.
  rewrite chunks_fuel_enough by (rewrite length_drop; lia). by destruct g.
Qed.

Lemma chunks_ind (P : bytes -> Prop) :
  P [] -> (forall b0 r0, P (drop (utf8_head b0 r0).2 r0) -> P (b0 :: r0)) -> forall l, P l.
Proof.
  intros H0 Hs l.
  induction l as [l IH] using (well_founded_ind (Wf_nat.well_founded_ltof _ length)).
  destruct l as [|b0 r0]; [done|]. apply Hs, IH.
  unfold ltof. rewrite length_drop. simpl. lia.
Qed.

(** Whether a character is well formed depends on that character only. *)
Lemma utf8_head_app b0 r0 k s :
  utf8_head b0 r0 = (true, k) ->
  utf8_head b0 (r0 ++ s) = (true, k) /\ utf8_head b0 (take k r0) = (true, k) /\
  (k <= length r0)%nat.
Proof.
  unfold utf8_head. intros H.
  repeat (case_match; simpl in *; simplify_eq); split_and!; done || lia.
Qed.

(** ** Splitting loses nothing *)

Lemma chunks_concat l : concat (map raw (utf8_chunks l)) = l.
Proof.
  induction l as [|b0 r0 IH] using chunks_ind; [done|].
  rewrite chunks_cons. cbn [map concat]. rewrite IH.
  transitivity (b0 :: take (utf8_head b0 r0).2 r0 ++ drop (utf8_head b0 r0).2 r0).
  - by destruct (utf8_head b0 r0) as [[] k].
  - by rewrite take_drop.
Qed.

Lemma chunks_app a b :
  utf8_valid a = true -> utf8_chunks (a ++ b) = utf8_chunks a ++ utf8_chunks b.
Proof.
  unfold utf8_valid. induction a as [|b0 r0 IH] using chunks_ind; [done|].
  cbn [app]. rewrite !chunks_cons. destruct (utf8_head b0 r0) as [[] k] eqn:Hh; [|done].
  simpl in *. intros Ha.
  destruct (utf8_head_app b0 r0 k b Hh) as (-> & _ & Hk). simpl.
  by rewrite take_app_le, drop_app_le, IH by done.
Qed.

Lemma utf8_valid_app a b :
  utf8_valid a = true -> utf8_valid b = true -> utf8_valid (a ++ b) = true.
Proof.
  intros Ha Hb. unfold utf8_valid in *. rewrite chunks_app by done.
  by rewrite forallb_app, Ha, Hb.
Qed.

Lemma chunks_valid_chars l :
  Forall (fun c => chunk_ok c = true -> utf8_valid (raw c) = true) (utf8_chunks l).
Proof.
  induction l as [|b0 r0 IH] using chunks_ind; [constructor|].
  rewrite chunks_cons. constructor; [|done].
  destruct (utf8_head b0 r0) as [[] k] eqn:Hh; [|done]. simpl. intros _.
  destruct (utf8_head_app b0 r0 k [] Hh) as (_ & Ht & _).
  unfold utf8_valid. rewrite chunks_cons, Ht. simpl.
  by rewrite drop_ge by (rewrite length_take; lia).
Qed.

(** The lossy conversion always yields UTF-8, and is the identity on it. *)
Lemma lossy_valid l : utf8_valid (lossy l) = true.
Proof.
  unfold lossy. pose proof (chunks_valid_chars l) as H.
  induction H as [|c cs Hc _ IH]; [done|]. simpl.
  apply utf8_valid_app; [|done]. destruct c; [by apply Hc | done].
Qed.

Lemma lossy_id l : utf8_valid l = true -> lossy l = l.
Proof.
  unfold lossy, utf8_valid. intros H. rewrite <- (chunks_concat l) at 2.
  induction (utf8_chunks l) as [|c cs IH]; [done|]. simpl in *.
  apply andb_prop in H as [Hc H]. rewrite IH by done. by destruct c.
Qed.

(** ** Rust's [String] *)

Record rstring : Set := RString {
  str_bytes :> bytes;
  str_ok : utf8_valid str_bytes = true
}.

Lemma rstring_eq (a b : rstring) : str_bytes a = str_bytes b -> a = b.
Proof.
  destruct a as [a oa], b as [b ob]. simpl. intros ->. f_equal. apply bool_irrel.
Qed.

#[export] Instance rstring_eq_dec : EqDecision rstring.
Proof.
  refine (fun x y => cast_if (decide (str_bytes x = str_bytes y))).
  - by apply rstring_eq.
  - congruence.
Defined.

Definition from_utf8_lossy (l : bytes) : rstring := RString (lossy l) (canon (lossy_valid l)).

Lemma from_utf8_lossy_str (s : rstring) : from_utf8_lossy (str_bytes s) = s.
Proof. apply rstring_eq. simpl. apply lossy_id, str_ok. Qed.

(** String literals and concatenation, for the texts built by [format!]. *)
Definition lit (s : string) : rstring := from_utf8_lossy (String.list_byte_of_string s).
Definition str_app (a b : rstring) : rstring :=
  RString (str_bytes a ++ str_bytes b) (canon (utf8_valid_app a b (str_ok a) (str_ok b))).

Declare Scope rstring_scope.
Delimit Scope rstring_scope with rs.
Infix "+:+" := str_app (at level 60, right associativity) : rstring_scope.

(** [{b:#04x}]: two lower-case hexadecimal digits after [0x]. *)
Definition hex_digit (z : Z) : u8 := if z <? 10 then z2b (48 + z) else z2b (87 + z).
Definition fmt_hex8 (b : u8) : rstring :=
  from_utf8_lossy ([x30; x78] ++ [hex_digit (b2z b / 16); hex_digit (b2z b mod 16)]).

#[export] Hint Resolve lossy_valid from_utf8_lossy_str : pqc.
