(* ===== verification/Io.v ===== *)
(** * Byte streams and effectful code

    The handshake code is generic over [std::io::Read] and [std::io::Write] and
    runs over a [TcpStream].  A [stream] is what one end of a connection sees:
    the bytes the peer still delivers, what a read past them reports, the bytes
    written so far, and the faults of the writes to come.  Effectful functions
    are in the state-and-error monad [M]: the state survives an error, because
    the effects done before an early return stay done. *)

From S2P Require Import Prelude Utf8.

(** ** The state-and-error monad *)

Definition M (S E A : Type) : Type := S -> result E A * S.

#[export] Instance M_ret {S E} : MRet (M S E) := fun _ a s => (Ok a, s).
#[export] Instance M_bind {S E} : MBind (M S E) := fun _ _ k m s =>
  match m s with
  | (Ok a, s') => k a s'
  | (Err e, s') => (Err e, s')
  end.

Definition throw {S E A} (e : E) : M S E A := fun s => (Err e, s).
Definition lift {S E A} (r : result E A) : M S E A := fun s => (r, s).
Definition get {S E} : M S E S := fun s => (Ok s, s).
Definition modify {S E} (f : S -> S) : M S E unit := fun s => (Ok tt, f s).
(** [?] across error types: [From::from] applied to the error. *)
Definition err_into {S E F A} (f : E -> F) (m : M S E A) : M S F A := fun s =>
  let '(r, s') := m s in (map_err f r, s').
(** [match m { Ok .. Err .. }]: make the outcome a value. *)
Definition attempt {S E F A} (m : M S E A) : M S F (result E A) := fun s =>
  let '(r, s') := m s in (Ok r, s').

(** Run a computation on a part of the state. *)
Definition zoom {S T E A} (part : S -> T) (put : T -> S -> S) (m : M T E A) : M S E A := fun s =>
  let '(r, t) := m (part s) in (r, put t s).

Lemma zoom_eq {S T E A} (part : S -> T) (put : T -> S -> S) (m : M T E A) s r t :
  m (part s) = (r, t) -> zoom part put m s = (r, put t s).
Proof. unfold zoom. by intros ->. Qed.

Lemma M_bind_Ok {S E A B} (m : M S E A) (k : A -> M S E B) s a s' :
  m s = (Ok a, s') -> (m ≫= k) s = k a s'.
Proof. unfold mbind, M_bind. by intros ->. Qed.

Lemma M_bind_ext {S E A B} (m : M S E A) (f g : A -> M S E B) s :
  (forall a s', f a s' = g a s') -> (m ≫= f) s = (m ≫= g) s.
Proof. intros H. unfold mbind, M_bind. destruct (m s) as [[a|] ?]; [apply H|done]. Qed.

Lemma M_bind_Err {S E A B} (m : M S E A) (k : A -> M S E B) s e s' :
  m s = (Err e, s') -> (m ≫= k) s = (Err e, s').
Proof. unfold mbind, M_bind. by intros ->. Qed.

Lemma M_bind_inv {S E A B} (m : M S E A) (k : A -> M S E B) s r s' :
  (m ≫= k) s = (r, s') ->
  (exists a s1, m s = (Ok a, s1) /\ k a s1 = (r, s')) \/
  (exists e, m s = (Err e, s') /\ r = Err e).
Proof.
  unfold mbind, M_bind. destruct (m s) as [[a|e] s1]; [by eauto|].
  intros [= <- <-]. eauto.
Qed.

(** ** I/O errors and streams *)

Inductive ErrorKind :=
  | NotFound | PermissionDenied | UnexpectedEof | InvalidData | WouldBlock | OtherKind.

#[export] Instance ErrorKind_eq_dec : EqDecision ErrorKind.
Proof. solve_decision. Defined.

(** [std::io::Error]: its kind and the text its [Display] prints. *)
Record io_error := IoError { io_kind : ErrorKind; io_text : rstring }.

#[export] Instance io_error_eq_dec : EqDecision io_error.
Proof. solve_decision. Defined.

Record stream := Stream {
  (** bytes the peer delivers from here on *)
  rx : bytes;
  (** what a read that wants more than [rx] reports (end of file, timeout) *)
  rx_end : io_error;
  (** bytes this end has written *)
  tx : bytes;
  (** outcomes of the writes to come: [Some (k, e)] is a write that delivers
      [k] bytes and then fails with [e]; past the end of the list writes succeed *)
  tx_faults : list (option (nat * io_error))
}.

(** An in-memory reader or writer: reads end with end-of-file, writes succeed. *)
Definition eof : io_error := IoError UnexpectedEof (lit "failed to fill whole buffer").
Definition mem_stream (input : bytes) : stream := Stream input eof [] [].

(** [Read::read_exact] into a buffer of [n] bytes. *)
Definition read_exact (n : Z) : M stream io_error bytes := fun s =>
  if len (rx s) <? n then
    (Err (rx_end s), Stream [] (rx_end s) (tx s) (tx_faults s))
  else
    (Ok (take (Z.to_nat n) (rx s)),
     Stream (drop (Z.to_nat n) (rx s)) (rx_end s) (tx s) (tx_faults s)).

(** [Write::write_all]. *)
Definition write_all (bs : bytes) : M stream io_error unit := fun s =>
  match tx_faults s with
  | Some (k, e) :: fs => (Err e, Stream (rx s) (rx_end s) (tx s ++ take k bs) fs)
  | None :: fs => (Ok tt, Stream (rx s) (rx_end s) (tx s ++ bs) fs)
  | [] => (Ok tt, Stream (rx s) (rx_end s) (tx s ++ bs) [])
  end.

Lemma read_exact_app (l k : bytes) re t fs :
  read_exact (len l) (Stream (l ++ k) re t fs) = (Ok l, Stream k re t fs).
Proof.
  unfold read_exact. cbn [rx rx_end tx tx_faults].
  rewrite len_app. destruct (Z.ltb_spec (len l + len k) (len l)).
  - pose proof (len_nonneg k). lia.
  - by rewrite take_app_len, drop_app_len.
Qed.

Lemma read_exact_Ok_inv n s b s' :
  0 <= n -> read_exact n s = (Ok b, s') ->
  len b = n /\ rx s = b ++ rx s' /\ rx_end s' = rx_end s /\ tx s' = tx s /\
  tx_faults s' = tx_faults s.
Proof.
  unfold read_exact. intros Hn. destruct (Z.ltb_spec (len (rx s)) n); intros [= <- <-].
  cbn. rewrite take_drop. split_and!; try done.
  unfold len in *. rewrite length_take. lia.
Qed.

(** Reading does not write. *)
Lemma read_exact_tx n s r s' :
  read_exact n s = (r, s') -> tx s' = tx s /\ tx_faults s' = tx_faults s /\ rx_end s' = rx_end s.
Proof. unfold read_exact. case_match; by intros [= <- <-]. Qed.

(** ** How much of a stream a computation takes

    [reads_at_most n m]: whatever its outcome, [m] takes at most [n] bytes off
    the stream and writes none. *)

Definition reads_at_most {E A} (n : Z) (m : M stream E A) : Prop :=
  forall s r s', m s = (r, s') ->
  tx s' = tx s /\ exists l, rx s = l ++ rx s' /\ len l <= n.

Lemma ram_stay {E A} (m : M stream E A) n :
  0 <= n -> (forall s, (m s).2 = s) -> reads_at_most n m.
Proof.
  intros Hn Hm s r s' H. specialize (Hm s). rewrite H in Hm. simpl in Hm. subst.
  split; [done|]. by exists [].
Qed.

Lemma ram_lift {E A} (r : result E A) n : 0 <= n -> reads_at_most n (lift r).
Proof. intros. by apply ram_stay. Qed.
Lemma ram_throw {E A} (e : E) n : 0 <= n -> reads_at_most n (throw e : M stream E A).
Proof. intros. by apply ram_stay. Qed.

Lemma ram_err_into {E F A} (f : E -> F) (m : M stream E A) n :
  reads_at_most n m -> reads_at_most n (err_into f m).
Proof.
  intros Hm s r s' H. unfold err_into in H. destruct (m s) as [r0 s0] eqn:E0.
  injection H as _ <-. by eapply Hm.
Qed.

Lemma ram_read_exact n : 0 <= n -> reads_at_most n (read_exact n).
Proof.
  intros Hn s r s' H. split; [by apply read_exact_tx in H as (? & _)|].
  unfold read_exact in H. destruct (Z.ltb_spec (len (rx s)) n); injection H as <- <-; cbn.
  - exists (rx s). rewrite app_nil_r. split; [done|lia].
  - exists (take (Z.to_nat n) (rx s)). rewrite take_drop. split; [done|].
    unfold len. rewrite length_take. lia.
Qed.

Lemma ram_bind {E A B} (m : M stream E A) (k : A -> M stream E B) n1 n2 :
  0 <= n2 -> reads_at_most n1 m -> (forall a, reads_at_most n2 (k a)) ->
  reads_at_most (n1 + n2) (m ≫= k).
Proof.
  intros Hn Hm Hk s r s' H. apply M_bind_inv in H as [(a & s1 & H1 & H2)|(e & H1 & ->)].
  - destruct (Hm _ _ _ H1) as (Ht1 & l1 & Hr1 & Hl1).
    destruct (Hk a _ _ _ H2) as (Ht2 & l2 & Hr2 & Hl2).
    split; [congruence|]. exists (l1 ++ l2). rewrite Hr1, Hr2, app_assoc.
    split; [done|]. rewrite len_app. lia.
  - destruct (Hm _ _ _ H1) as (Ht1 & l1 & Hr1 & Hl1). split; [done|].
    exists l1. split; [done|lia].
Qed.

Lemma ram_weaken {E A} n n' (m : M stream E A) :
  reads_at_most n m -> n <= n' -> reads_at_most n' m.
Proof.
  intros Hm Hn s r s' H. destruct (Hm _ _ _ H) as (? & l & ? & ?).
  split; [done|]. exists l. split; [done|lia].
Qed.
