(* ===== verification/Ieee.v ===== *)
(** * Binary32 and binary64

    The gate and the state pipeline compute with [f32] and [f64].  Values are
    the Standard Library's executable IEEE 754 specification [spec_float]:
    precision 24 and exponent bound 128 for [f32], 53 and 1024 for [f64], with
    signed zeros, infinities, NaN and rounding to nearest even. *)

From Stdlib Require Export Floats.SpecFloat.
From S2P Require Import Prelude.

Abbreviation f32 := spec_float.
Abbreviation f64 := spec_float.

#[export] Instance spec_float_eq_dec : EqDecision spec_float.
Proof. solve_decision. Defined.

(** ** Operations *)

Definition f32_add : f32 -> f32 -> f32 := SFadd 24 128.
Definition f32_sub : f32 -> f32 -> f32 := SFsub 24 128.
Definition f32_div : f32 -> f32 -> f32 := SFdiv 24 128.
Definition f64_add : f64 -> f64 -> f64 := SFadd 53 1024.
Definition f64_mul : f64 -> f64 -> f64 := SFmul 53 1024.
Definition f64_div : f64 -> f64 -> f64 := SFdiv 53 1024.

(** Rust's comparison operators: false as soon as one side is NaN. *)
Definition f_lt (x y : spec_float) : bool :=
  match SFcompare x y with Some Lt => true | _ => false end.
Definition f_gt (x y : spec_float) : bool := f_lt y x.
Definition f_le (x y : spec_float) : bool :=
  match SFcompare x y with Some (Lt | Eq) => true | _ => false end.
Definition f_ge (x y : spec_float) : bool := f_le y x.

Definition is_nan (x : spec_float) : bool :=
  match x with S754_nan => true | _ => false end.

(** [f32::max] and [f64::max]: a NaN operand is ignored. *)
Definition f_max (x y : spec_float) : spec_float :=
  if is_nan x then y else if is_nan y then x else if f_lt x y then y else x.

(** [clamp]: NaN stays NaN. *)
Definition f_clamp (x lo hi : spec_float) : spec_float :=
  let x := if f_lt x lo then lo else x in
  if f_gt x hi then hi else x.

(** An integer as a float ([as f32], [as f64]): rounded to nearest even. *)
Definition f32_of_Z (z : Z) : f32 := binary_normalize 24 128 z 0 false.
Definition f64_of_Z (z : Z) : f64 := binary_normalize 53 1024 z 0 false.

(** The decimal literal [n / d], for [n] and [d] exactly representable: the
    correctly rounded quotient. *)
Definition f32_lit (n d : Z) : f32 := f32_div (f32_of_Z n) (f32_of_Z d).
Definition f64_lit (n d : Z) : f64 := f64_div (f64_of_Z n) (f64_of_Z d).

(** [f64 as f32]. *)
Definition f32_of_f64 (x : f64) : f32 :=
  match x with
  | S754_finite s m e => binary_round 24 128 s m e
  | _ => x
  end.

Definition f_zero : spec_float := S754_zero false.
Definition f32_one : f32 := f32_of_Z 1.
Definition f64_one : f64 := f64_of_Z 1.

(** ** The order on finite values *)

Lemma SFcompare_swap x y :
  SFcompare y x = option_map CompOpp (SFcompare x y).
Proof.
  destruct x as [sx|sx| |sx mx ex], y as [sy|sy| |sy my ey]; try destruct sx; try destruct sy;
    try reflexivity; simpl; rewrite (Z.compare_antisym ex ey);
    destruct (ex ?= ey); try reflexivity; simpl; f_equal;
    rewrite Pos.compare_cont_antisym; simpl; try (by rewrite CompOpp_involutive); done.
Qed.

Lemma SFcompare_refl x : is_nan x = false -> SFcompare x x = Some Eq.
Proof.
  destruct x as [s|s| |s m e]; try (destruct s; done); try done.
  intros _. simpl. rewrite Z.compare_refl.
  assert (Pos.compare_cont Eq m m = Eq) as -> by apply Pos.compare_refl.
  by destruct s.
Qed.

Lemma f_lt_irrefl x : f_lt x x = false.
Proof.
  unfold f_lt. destruct (is_nan x) eqn:E; [by destruct x|]. by rewrite SFcompare_refl.
Qed.

Lemma f_lt_le x y : f_lt x y = true -> f_le x y = true.
Proof. unfold f_lt, f_le. by destruct (SFcompare x y) as [[]|]. Qed.

(** Without NaN the order is total. *)
Lemma f_lt_total x y :
  is_nan x = false -> is_nan y = false -> f_lt x y = false -> f_le y x = true.
Proof.
  unfold f_lt, f_le. rewrite (SFcompare_swap x y).
  destruct (SFcompare x y) as [[]|] eqn:E; try done.
  by destruct x as [|[]| |], y as [|[]| |].
Qed.

(** [clamp] lands in the interval, or is NaN. *)
Lemma f_clamp_range x lo hi :
  is_nan x = false -> is_nan lo = false -> is_nan hi = false -> f_le lo hi = true ->
  f_le lo (f_clamp x lo hi) = true /\ f_le (f_clamp x lo hi) hi = true.
Proof.
  intros Hx Hl Hh Hlh. unfold f_clamp, f_gt.
  assert (Hrefl : forall z, is_nan z = false -> f_le z z = true)
    by (intros z Hz; unfold f_le; by rewrite SFcompare_refl).
  destruct (f_lt x lo) eqn:E1.
  - destruct (f_lt hi lo) eqn:E2; [by split; [|apply Hrefl]|]. split; [by apply Hrefl|done].
  - destruct (f_lt hi x) eqn:E2; [by split; [|apply Hrefl]|].
    split; by apply f_lt_total.
Qed.

Lemma f_clamp_nan lo hi : f_clamp S754_nan lo hi = S754_nan.
Proof. unfold f_clamp, f_gt, f_lt. simpl. by destruct hi. Qed.

(** ** Signs: what never produces NaN *)

(** At least zero, infinity included; both zeros count. *)
Definition nonneg (x : spec_float) : bool :=
  match x with
  | S754_zero _ | S754_infinity false | S754_finite false _ _ => true
  | _ => false
  end.

Definition positive_finite (x : spec_float) : bool :=
  match x with S754_finite false _ _ => true | _ => false end.

Lemma nonneg_not_nan x : nonneg x = true -> is_nan x = false.
Proof. by destruct x. Qed.

Section rounding_sign.
Variables prec emax : Z.

Lemma shr_1_nonneg mrs : 0 <= shr_m mrs -> 0 <= shr_m (shr_1 mrs).
Proof. destruct mrs as [[|[p|p|]|p] r s]; simpl; lia. Qed.

Lemma iter_pos_nonneg p : forall mrs, 0 <= shr_m mrs -> 0 <= shr_m (SpecFloat.iter_pos shr_1 p mrs).
Proof.
  induction p as [p IH|p IH|]; intros mrs H; simpl; auto using shr_1_nonneg.
Qed.

Lemma shr_fexp_nonneg m e l : 0 <= m -> 0 <= shr_m (shr_fexp prec emax m e l).1.
Proof.
  intros Hm. unfold shr_fexp, shr.
  assert (H0 : 0 <= shr_m (shr_record_of_loc m l)) by (by destruct l as [|[]]).
  destruct (fexp prec emax (Zdigits2 m + e) - e); [done|by apply iter_pos_nonneg|done].
Qed.

Lemma round_nearest_even_nonneg m l : 0 <= m -> 0 <= round_nearest_even m l.
Proof. intros H. destruct l as [|[]]; simpl; try destruct (Z.even m); lia. Qed.

Lemma binary_round_aux_nonneg m e l : 0 <= m -> nonneg (binary_round_aux prec emax false m e l) = true.
Proof.
  intros Hm. unfold binary_round_aux.
  pose proof (shr_fexp_nonneg m e l Hm) as H1.
  destruct (shr_fexp prec emax m e l) as [mrs e1]; simpl in H1.
  pose proof (shr_fexp_nonneg _ e1 loc_Exact
    (round_nearest_even_nonneg _ (loc_of_shr_record mrs) H1)) as H2.
  destruct (shr_fexp prec emax (round_nearest_even (shr_m mrs) (loc_of_shr_record mrs)) e1 loc_Exact)
    as [mrs2 e2]; simpl in H2.
  destruct (shr_m mrs2); [done| |lia]. by destruct (e2 <=? emax - prec).
Qed.

Lemma binary_round_nonneg m e : nonneg (binary_round prec emax false m e) = true.
Proof. unfold binary_round. destruct (shl_align _ _ _). by apply binary_round_aux_nonneg. Qed.

Lemma binary_normalize_nonneg m e b : 0 <= m -> nonneg (binary_normalize prec emax m e b) = true.
Proof. destruct m; simpl; [done|intros _; apply binary_round_nonneg|lia]. Qed.

Lemma SFadd_nonneg x y : nonneg x = true -> nonneg y = true -> nonneg (SFadd prec emax x y) = true.
Proof.
  destruct x as [[]|[]| |[] mx ex], y as [[]|[]| |[] my ey]; try done; intros _ _;
    by apply binary_round_nonneg.
Qed.

Lemma SFdiv_core_nonneg m1 e1 m2 e2 :
  0 <= m1 -> 0 < m2 -> 0 <= (SFdiv_core_binary prec emax m1 e1 m2 e2).1.1.
Proof.
  intros H1 H2. unfold SFdiv_core_binary. cbv zeta.
  match goal with |- context [Z.div_eucl ?m m2] => set (m' := m) end.
  assert (Hm' : 0 <= m').
  { unfold m'. destruct (_ - _ - _); [lia| |lia]. by apply Z.shiftl_nonneg. }
  pose proof (Z.div_pos m' m2 Hm' H2) as Hq. unfold Z.div in Hq.
  by destruct (Z.div_eucl m' m2) as [q r].
Qed.

Lemma SFdiv_nonneg x y :
  nonneg x = true -> positive_finite y = true -> nonneg (SFdiv prec emax x y) = true.
Proof.
  destruct y as [| | |[] my ey]; try done.
  destruct x as [[]|[]| |[] mx ex]; try done. intros _ _. unfold SFdiv.
  pose proof (SFdiv_core_nonneg (Zpos mx) ex (Zpos my) ey ltac:(lia) ltac:(lia)) as H.
  destruct (SFdiv_core_binary prec emax (Zpos mx) ex (Zpos my) ey) as [[q e] l].
  by apply binary_round_aux_nonneg.
Qed.
End rounding_sign.

Lemma f_max_zero_nonneg x : nonneg (f_max x f_zero) = true.
Proof. by destruct x as [[]|[]| |[] m e]. Qed.

Lemma f_clamp_nonneg x hi : nonneg x = true -> nonneg hi = true -> nonneg (f_clamp x f_zero hi) = true.
Proof.
  intros Hx Hh. unfold f_clamp. destruct (f_lt x f_zero); by destruct (f_gt _ hi).
Qed.

Lemma f32_of_f64_nonneg x : nonneg x = true -> nonneg (f32_of_f64 x) = true.
Proof. destruct x as [| | |[] m e]; try done. intros _. apply binary_round_nonneg. Qed.

(** ** Positive integers stay positive and finite *)

Lemma digits2_bounds p : 2 ^ (Zpos (digits2_pos p) - 1) <= Zpos p < 2 ^ Zpos (digits2_pos p).
Proof.
  induction p as [p IH|p IH|]; cbn [digits2_pos]; [| |done].
  all: rewrite Pos2Z.inj_succ, Z.pow_succ_r by lia;
    replace (Z.succ (Zpos (digits2_pos p)) - 1) with (Z.succ (Zpos (digits2_pos p) - 1)) by lia;
    rewrite Z.pow_succ_r by lia; lia.
Qed.

Lemma digits2_le p n : Zpos p < 2 ^ n -> 0 <= n -> Zpos (digits2_pos p) <= n.
Proof.
  intros H Hn. destruct (Z.le_gt_cases (Zpos (digits2_pos p)) n); [done|].
  pose proof (digits2_bounds p) as [Hl _].
  pose proof (Z.pow_le_mono_r 2 n (Zpos (digits2_pos p) - 1)). lia.
Qed.

Lemma shr_1_div2 mrs : 0 <= shr_m mrs -> shr_m (shr_1 mrs) = shr_m mrs / 2.
Proof.
  destruct mrs as [[|[p|p|]|p] r s]; cbn; intros H; try lia; try done; symmetry.
  - by rewrite (Z.div_unique_pos (Zpos p~1) 2 (Zpos p) 1) by lia.
  - by rewrite (Z.div_unique_pos (Zpos p~0) 2 (Zpos p) 0) by lia.
Qed.

Lemma iter_pos_div p : forall mrs, 0 <= shr_m mrs ->
  shr_m (SpecFloat.iter_pos shr_1 p mrs) = shr_m mrs / 2 ^ Zpos p.
Proof.
  induction p as [p IH|p IH|]; intros mrs H; cbn [SpecFloat.iter_pos];
    rewrite ?IH by auto using shr_1_nonneg, iter_pos_nonneg; rewrite ?shr_1_div2 by done; [| |done];
    rewrite ?Z.div_div by lia; f_equal.
  - replace (Zpos p~1) with (Zpos p + Zpos p + 1) by lia. rewrite !Z.pow_add_r by lia. ring.
  - replace (Zpos p~0) with (Zpos p + Zpos p) by lia. by rewrite Z.pow_add_r by lia.
Qed.

Lemma iter_xO p k : Zpos (Pos.iter xO p k) = Zpos p * 2 ^ Zpos k.
Proof.
  induction k as [|k IH] using Pos.peano_ind; [cbn; lia|].
  rewrite Pos.iter_succ, Pos2Z.inj_xO, IH, Pos2Z.inj_succ, Z.pow_succ_r by lia. lia.
Qed.

Section positive_ints.
Variables prec emax : Z.
Hypothesis prec_pos : 0 < prec.

(** A right shift to the canonical exponent keeps a leading bit. *)
Lemma shr_fexp_positive p e l mrs e' :
  emin prec emax <= e -> shr_fexp prec emax (Zpos p) e l = (mrs, e') ->
  0 < shr_m mrs <= Zpos p /\ e <= e' <= Z.max e (Zpos (digits2_pos p) + e - prec).
Proof.
  intros He. unfold shr_fexp, shr, fexp. simpl Zdigits2.
  assert (Hm : shr_m (shr_record_of_loc (Zpos p) l) = Zpos p) by (by destruct l as [|[]]).
  destruct (_ - _) as [|n|n] eqn:En; intros [= <- <-]; try (rewrite Hm; lia).
  rewrite iter_pos_div, Hm by (rewrite Hm; lia). split; [|lia].
  pose proof (digits2_bounds p) as [Hl _].
  assert (Hn : Zpos n <= Zpos (digits2_pos p) - 1) by lia.
  pose proof (Z.pow_le_mono_r 2 _ _ ltac:(lia) Hn).
  pose proof (Z.pow_pos_nonneg 2 (Zpos n) ltac:(lia) ltac:(lia)). split.
  - apply Z.div_str_pos. lia.
  - apply Z.div_le_upper_bound; nia.
Qed.

Lemma round_nearest_even_bounds m l : m <= round_nearest_even m l <= m + 1.
Proof. destruct l as [|[]]; simpl; try destruct (Z.even m); lia. Qed.

Lemma binary_round_aux_positive p e l n :
  0 <= n -> Zpos p < 2 ^ n -> emin prec emax <= e -> e + 2 * Z.max n prec + 2 <= emax + prec ->
  positive_finite (binary_round_aux prec emax false (Zpos p) e l) = true.
Proof.
  intros Hn Hp He Hmax. unfold binary_round_aux.
  destruct (shr_fexp prec emax (Zpos p) e l) as [m1 e1] eqn:E1.
  apply shr_fexp_positive in E1 as [[H1 H1'] [He1 He1']]; [|done].
  pose proof (round_nearest_even_bounds (shr_m m1) (loc_of_shr_record m1)) as Hr.
  destruct (round_nearest_even _ _) as [|q|] eqn:Eq; [lia| |lia].
  destruct (shr_fexp prec emax (Zpos q) e1 loc_Exact) as [m2 e2] eqn:E2.
  apply shr_fexp_positive in E2 as [[H2 H2'] [He2 He2']]; [|lia].
  pose proof (digits2_le p n Hp Hn).
  assert (Zpos (digits2_pos q) <= n + 1).
  { apply digits2_le; [|lia]. rewrite Z.pow_add_r by lia. lia. }
  destruct (shr_m m2) as [|m|] eqn:Em; [lia| |lia].
  destruct (Z.leb_spec e2 (emax - prec)); [done|]. simpl. lia.
Qed.

(** [shl_align] to the canonical exponent of [p] keeps the value in range. *)
Lemma binary_round_positive p n :
  0 <= n -> Zpos p < 2 ^ n -> emin prec emax <= 0 -> 2 * Z.max n prec + 2 <= emax + prec ->
  positive_finite (binary_round prec emax false p 0) = true.
Proof.
  intros Hn Hp He Hmax. unfold binary_round, shl_align, fexp.
  rewrite Z.add_0_r, Z.sub_0_r.
  pose proof (digits2_bounds p) as [_ Hd]. pose proof (digits2_le p n Hp Hn) as Hdn.
  destruct (Z.max (Zpos (digits2_pos p) - prec) _) as [|k|k] eqn:Ek.
  1, 2: by apply (binary_round_aux_positive _ 0 _ n); lia.
  apply (binary_round_aux_positive _ (Zneg k) _ (Z.max n prec)); [lia| |lia|lia].
  rewrite iter_xO. apply Z.lt_le_trans with (2 ^ Zpos (digits2_pos p) * 2 ^ Zpos k); [nia|].
  rewrite <- Z.pow_add_r by lia. apply Z.pow_le_mono_r; lia.
Qed.
End positive_ints.

(** Any positive [u64] converts to a positive finite [f32]. *)
Lemma f32_of_u64_positive z : 0 < z < 2 ^ 64 -> positive_finite (f32_of_Z z) = true.
Proof.
  intros Hz. destruct z as [|p|p]; [lia| |lia].
  apply (binary_round_positive 24 128 ltac:(lia) p 64); [lia|lia|by vm_compute|lia].
Qed.
