(* ===== verification/Algorithm.v ===== *)
(** * The ML-KEM levels shared by the client core

    [core/src/crypto/algorithm.rs]: the three levels, their names, wire codes
    and encoded lengths, and the derived ordering that the no-downgrade checks
    use. *)

From S2P Require Import Prelude.

Inductive MlKemLevel : Set := MlKem512 | MlKem768 | MlKem1024.

#[export] Instance MlKemLevel_eq_dec : EqDecision MlKemLevel.
Proof. solve_decision. Defined.
#[export] Instance MlKemLevel_inhabited : Inhabited MlKemLevel := populate MlKem512.

(** The derived [Ord] compares variants in declaration order. *)
Definition level_rank (l : MlKemLevel) : Z :=
  match l with MlKem512 => 0 | MlKem768 => 1 | MlKem1024 => 2 end.
Definition level_ltb (a b : MlKemLevel) : bool := level_rank a <? level_rank b.
Definition level_le (a b : MlKemLevel) : Prop := level_rank a <= level_rank b.

#[export] Instance level_le_dec a b : Decision (level_le a b).
Proof. unfold level_le. apply _. Defined.

Definition name (l : MlKemLevel) : string :=
  match l with
  | MlKem512 => "ML-KEM-512"
  | MlKem768 => "ML-KEM-768"
  | MlKem1024 => "ML-KEM-1024"
  end.

Definition wire_code (l : MlKemLevel) : u8 :=
  match l with MlKem512 => x00 | MlKem768 => x01 | MlKem1024 => x02 end.

Definition from_wire_code (b : u8) : option MlKemLevel :=
  match b with
  | x00 => Some MlKem512
  | x01 => Some MlKem768
  | x02 => Some MlKem1024
  | _ => None
  end.

Definition mlkem_pub_len (l : MlKemLevel) : Z :=
  match l with MlKem512 => 800 | MlKem768 => 1184 | MlKem1024 => 1568 end.

Definition ciphertext_len (l : MlKemLevel) : Z :=
  match l with MlKem512 => 768 | MlKem768 => 1088 | MlKem1024 => 1568 end.

(** ** Facts *)

Lemma from_wire_code_wire_code l : from_wire_code (wire_code l) = Some l.
Proof. by destruct l. Qed.

Lemma wire_code_from_wire_code b l : from_wire_code b = Some l -> wire_code l = b.
Proof. destruct b; intros [= <-]; done. Qed.

Lemma wire_code_rank l : b2z (wire_code l) = level_rank l.
Proof. by destruct l. Qed.

Lemma level_rank_inj a b : level_rank a = level_rank b -> a = b.
Proof. by destruct a, b. Qed.

#[export] Instance level_le_order : PartialOrder level_le.
Proof.
  unfold level_le. split; [split|].
  - intros ?. lia.
  - intros ???. lia.
  - intros ????. apply level_rank_inj. lia.
Qed.

Lemma level_ltb_spec a b : level_ltb a b = true <-> ~ level_le b a.
Proof. unfold level_ltb, level_le. lia. Qed.

#[export] Hint Resolve from_wire_code_wire_code : pqc.
