(* ===== verification/CoreWire.v ===== *)
(** * The client's copy of the wire format

    [core/src/protocol/wire.rs]: framing, the byte writer and reader, the six
    messages, their encoders and decoders, and [Message::write] and
    [Message::read].  A Rust method on a type is named [Type_method]; the
    constructors of [MsgType] and [Message] carry a [T] and an [M] because the
    message records have the same names. *)

From S2P Require Import Prelude Utf8 Io Algorithm.

Definition PROTOCOL_VERSION : u8 := x01.
Definition MAX_PAYLOAD : Z := 8192.
Definition SIGNATURE_LEN : Z := 3309.

(** ** Errors *)

Inductive WireError : Set :=
  | UnsupportedVersion (v : u8)
  | UnknownMsgType (t : u8)
  | LengthOutOfRange
  | Truncated
  | Invalid (what : string).

(** [Display for WireError]. *)
Definition WireError_to_string (e : WireError) : rstring :=
  match e with
  | UnsupportedVersion v => (lit "unsupported protocol version " +:+ fmt_hex8 v)%rs
  | UnknownMsgType t => (lit "unknown message type " +:+ fmt_hex8 t)%rs
  | LengthOutOfRange => lit "declared length out of range"
  | Truncated => lit "message truncated"
  | Invalid what => (lit "invalid " +:+ lit what)%rs
  end.

Inductive FrameError : Set :=
  | FrameIo (e : io_error)
  | FrameWire (e : WireError).

(** [Display for FrameError]. *)
Definition FrameError_to_string (e : FrameError) : rstring :=
  match e with
  | FrameIo e => (lit "transport error: " +:+ io_text e)%rs
  | FrameWire e => WireError_to_string e
  end.

(** ** Message types *)

Inductive MsgType : Set :=
  | TClientHello | TServerHello | TClientFinish | TServerFinish | TRekeyRequest | TError.

Definition MsgType_to_u8 (t : MsgType) : u8 :=
  match t with
  | TClientHello => x01
  | TServerHello => x02
  | TClientFinish => x03
  | TServerFinish => x04
  | TRekeyRequest => x05
  | TError => xee
  end.

Definition MsgType_from_u8 (b : u8) : result WireError MsgType :=
  match b with
  | x01 => Ok TClientHello
  | x02 => Ok TServerHello
  | x03 => Ok TClientFinish
  | x04 => Ok TServerFinish
  | x05 => Ok TRekeyRequest
  | xee => Ok TError
  | other => Err (UnknownMsgType other)
  end.

(** ** The byte writer *)

Record Writer : Set := { wbuf : bytes }.

Definition Writer_new : Writer := {| wbuf := [] |}.
Definition Writer_u8 (v : u8) (w : Writer) : Writer := {| wbuf := wbuf w ++ [v] |}.
Definition Writer_bytes (v : bytes) (w : Writer) : Writer := {| wbuf := wbuf w ++ v |}.
Definition Writer_lv (v : bytes) (w : Writer) : Writer :=
  let w := {| wbuf := wbuf w ++ u16_to_be_bytes (as_u16 (len v)) |} in
  {| wbuf := wbuf w ++ v |}.
Definition Writer_into_vec (w : Writer) : bytes := wbuf w.

(** ** The byte reader *)

Record Reader : Set := { buf : bytes; pos : Z }.

(** A method of [&mut Reader]: on an error the source drops the reader. *)
Definition Rd (A : Type) : Type := Reader -> result WireError (A * Reader).
#[export] Instance Rd_ret : MRet Rd := fun _ a r => Ok (a, r).
#[export] Instance Rd_bind : MBind Rd := fun _ _ k m r =>
  match m r with Ok (a, r') => k a r' | Err e => Err e end.
Definition rd_lift {A} (x : result WireError A) : Rd A := fun r =>
  match x with Ok a => Ok (a, r) | Err e => Err e end.
Definition rd_map_err {A} (f : WireError -> WireError) (m : Rd A) : Rd A := fun r =>
  map_err f (m r).

Definition Reader_new (b : bytes) : Reader := {| buf := b; pos := 0 |}.
Definition Reader_remaining (r : Reader) : Z := len (buf r) - pos r.

Definition Reader_take (n : Z) : Rd bytes := fun r =>
  if Reader_remaining r <? n then Err Truncated
  else
    let s := take (Z.to_nat n) (drop (Z.to_nat (pos r)) (buf r)) in
    Ok (s, {| buf := buf r; pos := pos r + n |}).

Definition Reader_take_u8 : Rd u8 :=
  s ← Reader_take 1; mret (nth 0 s x00).

Definition Reader_take_u16 : Rd u16 :=
  b ← Reader_take 2; mret (u16_of_be (nth 0 b x00) (nth 1 b x00)).

Definition Reader_take_arr (N : N) (what : string) : Rd (arr N) :=
  s ← rd_map_err (fun _ => Invalid what) (Reader_take (Z.of_N N));
  mret (arr_copy N s).

Definition Reader_take_lv : Rd bytes :=
  n ← Reader_take_u16;
  if MAX_PAYLOAD <? uval n then rd_lift (Err LengthOutOfRange)
  else Reader_take (uval n).

Definition Reader_expect_end : Rd unit := fun r =>
  if Reader_remaining r =? 0 then Ok (tt, r) else Err (Invalid "trailing bytes").

Definition algo_from_u8 (b : u8) : result WireError MlKemLevel :=
  ok_or (Invalid "algorithm code") (from_wire_code b).

(** ** Messages *)

Record ClientHello : Set := {
  ch_algo : MlKemLevel;
  client_nonce : arr 32;
  client_wg_pubkey : arr 32;
  client_x25519_pub : arr 32;
  client_mlkem_pub : bytes
}.

Definition ClientHello_encode_into (h : ClientHello) (w : Writer) : Writer :=
  let w := Writer_u8 (wire_code (ch_algo h)) w in
  let w := Writer_bytes (client_nonce h) w in
  let w := Writer_bytes (client_wg_pubkey h) w in
  let w := Writer_lv (client_x25519_pub h) w in
  Writer_lv (client_mlkem_pub h) w.

Definition ClientHello_decode_from : Rd ClientHello :=
  b ← Reader_take_u8;
  algo ← rd_lift (algo_from_u8 b);
  nonce ← Reader_take_arr 32 "client_nonce";
  wg ← Reader_take_arr 32 "client_wg_pubkey";
  x ← Reader_take_lv;
  if negb (len x =? 32) then rd_lift (Err (Invalid "client_x25519_pub length")) else
  mk ← Reader_take_lv;
  if negb (len mk =? mlkem_pub_len algo) then rd_lift (Err (Invalid "client_mlkem_pub length"))
  else mret {| ch_algo := algo; client_nonce := nonce; client_wg_pubkey := wg;
               client_x25519_pub := arr_copy 32 x; client_mlkem_pub := mk |}.

Record ServerHello : Set := {
  sh_algo : MlKemLevel;
  sh_session_id : arr 16;
  server_nonce : arr 32;
  server_x25519_pub : arr 32;
  mlkem_ciphertext : bytes;
  signature : bytes
}.

Definition ServerHello_encode_into (h : ServerHello) (w : Writer) : Writer :=
  let w := Writer_u8 (wire_code (sh_algo h)) w in
  let w := Writer_bytes (sh_session_id h) w in
  let w := Writer_bytes (server_nonce h) w in
  let w := Writer_lv (server_x25519_pub h) w in
  let w := Writer_lv (mlkem_ciphertext h) w in
  Writer_lv (signature h) w.

Definition ServerHello_decode_from : Rd ServerHello :=
  b ← Reader_take_u8;
  algo ← rd_lift (algo_from_u8 b);
  sid ← Reader_take_arr 16 "session_id";
  nonce ← Reader_take_arr 32 "server_nonce";
  x ← Reader_take_lv;
  if negb (len x =? 32) then rd_lift (Err (Invalid "server_x25519_pub length")) else
  ct ← Reader_take_lv;
  if negb (len ct =? ciphertext_len algo) then rd_lift (Err (Invalid "mlkem_ciphertext length")) else
  sig ← Reader_take_lv;
  if negb (len sig =? SIGNATURE_LEN) then rd_lift (Err (Invalid "signature length"))
  else mret {| sh_algo := algo; sh_session_id := sid; server_nonce := nonce;
               server_x25519_pub := arr_copy 32 x; mlkem_ciphertext := ct; signature := sig |}.

Record ClientFinish : Set := { cf_session_id : arr 16; client_tag : arr 32 }.

Record ServerFinish : Set := {
  sf_session_id : arr 16;
  server_tag : arr 32;
  server_wg_pubkey : arr 32;
  assigned_ip : arr 4;
  wg_port : u16
}.

Record RekeyRequest : Set := { rk_session_id : arr 16; hello : ClientHello }.

Record ErrorMsg : Set := { code : u8; message : rstring }.

Inductive Message : Set :=
  | MClientHello (m : ClientHello)
  | MServerHello (m : ServerHello)
  | MClientFinish (m : ClientFinish)
  | MServerFinish (m : ServerFinish)
  | MRekeyRequest (m : RekeyRequest)
  | MError (m : ErrorMsg).

Definition Message_msg_type (m : Message) : MsgType :=
  match m with
  | MClientHello _ => TClientHello
  | MServerHello _ => TServerHello
  | MClientFinish _ => TClientFinish
  | MServerFinish _ => TServerFinish
  | MRekeyRequest _ => TRekeyRequest
  | MError _ => TError
  end.

Definition Message_encode_payload (m : Message) : bytes :=
  let w := Writer_new in
  let w :=
    match m with
    | MClientHello m => ClientHello_encode_into m w
    | MServerHello m => ServerHello_encode_into m w
    | MClientFinish m =>
        let w := Writer_bytes (cf_session_id m) w in
        Writer_bytes (client_tag m) w
    | MServerFinish m =>
        let w := Writer_bytes (sf_session_id m) w in
        let w := Writer_bytes (server_tag m) w in
        let w := Writer_bytes (server_wg_pubkey m) w in
        let w := Writer_bytes (assigned_ip m) w in
        Writer_bytes (u16_to_be_bytes (uval (wg_port m))) w
    | MRekeyRequest m =>
        let w := Writer_bytes (rk_session_id m) w in
        ClientHello_encode_into (hello m) w
    | MError m =>
        let w := Writer_u8 (code m) w in
        Writer_lv (str_bytes (message m)) w
    end in
  Writer_into_vec w.

Definition Message_decode_body (ty : MsgType) : Rd Message :=
  match ty with
  | TClientHello => m ← ClientHello_decode_from; mret (MClientHello m)
  | TServerHello => m ← ServerHello_decode_from; mret (MServerHello m)
  | TClientFinish =>
      sid ← Reader_take_arr 16 "session_id";
      tag ← Reader_take_arr 32 "client_tag";
      mret (MClientFinish {| cf_session_id := sid; client_tag := tag |})
  | TServerFinish =>
      sid ← Reader_take_arr 16 "session_id";
      tag ← Reader_take_arr 32 "server_tag";
      pk ← Reader_take_arr 32 "server_wg_pubkey";
      ip ← Reader_take_arr 4 "assigned_ip";
      port ← Reader_take_u16;
      mret (MServerFinish {| sf_session_id := sid; server_tag := tag; server_wg_pubkey := pk;
                             assigned_ip := ip; wg_port := port |})
  | TRekeyRequest =>
      sid ← Reader_take_arr 16 "session_id";
      h ← ClientHello_decode_from;
      mret (MRekeyRequest {| rk_session_id := sid; hello := h |})
  | TError =>
      c ← Reader_take_u8;
      l ← Reader_take_lv;
      mret (MError {| code := c; message := from_utf8_lossy l |})
  end.

Definition Message_decode_payload (ty : MsgType) (payload : bytes) : result WireError Message :=
  match (msg ← Message_decode_body ty; _ ← Reader_expect_end; mret msg) (Reader_new payload) with
  | Ok (msg, _) => Ok msg
  | Err e => Err e
  end.

(** ** Frame I/O *)

Definition payload_too_long : io_error := IoError InvalidData (lit "payload exceeds MAX_PAYLOAD").

Definition Message_write (m : Message) : M stream io_error unit :=
  let payload := Message_encode_payload m in
  if MAX_PAYLOAD <? len payload then throw payload_too_long
  else
    let frame := [PROTOCOL_VERSION] in
    let frame := frame ++ [MsgType_to_u8 (Message_msg_type m)] in
    let frame := frame ++ u16_to_be_bytes (as_u16 (len payload)) in
    let frame := frame ++ payload in
    write_all frame.

Definition Message_read : M stream FrameError Message :=
  header ← err_into FrameIo (read_exact 4);
  if negb (bool_decide (nth 0 header x00 = PROTOCOL_VERSION)) then
    throw (FrameWire (UnsupportedVersion (nth 0 header x00)))
  else
  ty ← lift (map_err FrameWire (MsgType_from_u8 (nth 1 header x00)));
  let l := u16_from_be_bytes (nth 2 header x00) (nth 3 header x00) in
  if MAX_PAYLOAD <? l then throw (FrameWire LengthOutOfRange)
  else
  payload ← err_into FrameIo (read_exact l);
  lift (map_err FrameWire (Message_decode_payload ty payload)).

(** ** Reader lemmas

    [Reader_wf] is the invariant that makes [remaining] never underflow and the
    slice of [take] never out of range.  [parses m l a]: on a reader whose
    remaining bytes start with [l], [m] consumes exactly [l] and returns [a]. *)

Definition Reader_wf (r : Reader) : Prop := 0 <= pos r <= len (buf r).
Definition rest (r : Reader) : bytes := drop (Z.to_nat (pos r)) (buf r).

Definition parses {A} (m : Rd A) (l : bytes) (a : A) : Prop :=
  forall r k, Reader_wf r -> rest r = l ++ k ->
  exists r', m r = Ok (a, r') /\ Reader_wf r' /\ rest r' = k.

(** [consumes m P]: whatever [m] accepts is a prefix that [P] describes. *)
Definition consumes {A} (m : Rd A) (P : bytes -> A -> Prop) : Prop :=
  forall r a r', Reader_wf r -> m r = Ok (a, r') ->
  Reader_wf r' /\ exists l, rest r = l ++ rest r' /\ P l a.

Lemma Reader_new_wf b : Reader_wf (Reader_new b) /\ rest (Reader_new b) = b.
Proof.
  split; [|done]. unfold Reader_wf. simpl. pose proof (len_nonneg b). lia.
Qed.

Lemma rest_len r : Reader_wf r -> len (rest r) = Reader_remaining r.
Proof.
  unfold Reader_wf, rest, Reader_remaining, len. rewrite length_drop. lia.
Qed.

Lemma take_step r n :
  0 <= n <= len (rest r) -> Reader_wf r ->
  Reader_take n r = Ok (take (Z.to_nat n) (rest r), {| buf := buf r; pos := pos r + n |}) /\
  Reader_wf {| buf := buf r; pos := pos r + n |} /\
  rest {| buf := buf r; pos := pos r + n |} = drop (Z.to_nat n) (rest r).
Proof.
  intros Hn Hwf. rewrite rest_len in Hn by done. split_and!.
  - unfold Reader_take. destruct (Z.ltb_spec (Reader_remaining r) n); [lia|done].
  - unfold Reader_wf, Reader_remaining in *. simpl. lia.
  - unfold rest, Reader_wf in *. simpl. rewrite drop_drop. f_equal. lia.
Qed.

Lemma parses_ret {A} (a : A) : parses (mret a) [] a.
Proof. intros r k Hwf Hr. by exists r. Qed.

Lemma parses_lift {A} (a : A) : parses (rd_lift (Ok a)) [] a.
Proof. intros r k Hwf Hr. by exists r. Qed.

Lemma parses_bind {A B} (m : Rd A) (f : A -> Rd B) l1 l2 a b :
  parses m l1 a -> parses (f a) l2 b -> parses (m ≫= f) (l1 ++ l2) b.
Proof.
  intros Hm Hf r k Hwf Hr. rewrite <- app_assoc in Hr.
  destruct (Hm r (l2 ++ k) Hwf Hr) as (r1 & H1 & Hwf1 & Hr1).
  unfold mbind, Rd_bind. rewrite H1. by apply Hf.
Qed.

Lemma parses_take l : parses (Reader_take (len l)) l l.
Proof.
  intros r k Hwf Hr. pose proof (len_nonneg k). pose proof (len_nonneg l).
  assert (0 <= len l <= len (rest r)) as Hn by (rewrite Hr, len_app; lia).
  destruct (take_step r (len l) Hn Hwf) as (-> & Hwf' & Hr').
  rewrite Hr, take_app_len. eexists. split_and!; [done..|].
  by rewrite Hr', Hr, drop_app_len.
Qed.

Lemma parses_eq {A} (m : Rd A) l l' a : parses m l a -> l = l' -> parses m l' a.
Proof. by intros ? <-. Qed.

(** A bind whose continuation returns without reading. *)
Lemma parses_bind_ret {A B} (m : Rd A) (f : A -> Rd B) l a b :
  parses m l a -> parses (f a) [] b -> parses (m ≫= f) l b.
Proof.
  intros Hm Hf. eapply parses_eq; [by eapply parses_bind|]. apply app_nil_r.
Qed.

Lemma parses_u8 b : parses Reader_take_u8 [b] b.
Proof.
  unfold Reader_take_u8. eapply parses_bind_ret; [apply (parses_take [b])|]. apply parses_ret.
Qed.

Lemma u16_of_be_to (v : u16) : u16_of_be (z2b (v / 256)) (z2b v) = v.
Proof. apply uint_eq. simpl. apply u16_from_to_be. pose proof (uint_range v). lia. Qed.

Lemma parses_u16 (v : u16) : parses Reader_take_u16 (u16_to_be_bytes (uval v)) v.
Proof.
  unfold Reader_take_u16. eapply parses_bind_ret.
  - apply (parses_take (u16_to_be_bytes (uval v))).
  - unfold u16_to_be_bytes. cbn [nth]. rewrite u16_of_be_to. apply parses_ret.
Qed.

Lemma parses_map_err {A} f (m : Rd A) l a : parses m l a -> parses (rd_map_err f m) l a.
Proof.
  intros H r k Hwf Hr. destruct (H r k Hwf Hr) as (r' & Hm & ?).
  exists r'. unfold rd_map_err. by rewrite Hm.
Qed.

Lemma parses_arr {N} (a : arr N) what : parses (Reader_take_arr N what) a a.
Proof.
  unfold Reader_take_arr. eapply parses_bind_ret.
  - apply parses_map_err. rewrite <- (arr_len a). apply parses_take.
  - rewrite arr_copy_arr. apply parses_ret.
Qed.

Definition lv (l : bytes) : bytes := u16_to_be_bytes (as_u16 (len l)) ++ l.

Lemma len_u16_ok z : 0 <= z < 65536 -> ((0 <=? z) && (z <? 2 ^ 16))%Z = true.
Proof. intros. apply andb_true_intro. lia. Qed.

Lemma parses_lv l : len l <= MAX_PAYLOAD -> parses Reader_take_lv (lv l) l.
Proof.
  unfold MAX_PAYLOAD. intros Hl. unfold Reader_take_lv, lv.
  pose proof (len_nonneg l). unfold as_u16. rewrite Z.mod_small by lia.
  eapply (parses_bind _ _ _ _ (UInt (len l) (len_u16_ok (len l) ltac:(lia)))).
  - apply (parses_u16 (UInt (len l) _)).
  - simpl. destruct (Z.ltb_spec MAX_PAYLOAD (len l)); [unfold MAX_PAYLOAD in *; lia|].
    apply parses_take.
Qed.

Create HintDb parses discriminated.
#[export] Hint Resolve parses_ret parses_lift parses_u8 parses_u16 parses_arr : parses.

(** ** Messages: what is on the wire *)

(** Sizes the decoder insists on for the variable-length fields. *)
Definition ClientHello_wf (h : ClientHello) : Prop :=
  len (client_mlkem_pub h) = mlkem_pub_len (ch_algo h).
Definition ServerHello_wf (h : ServerHello) : Prop :=
  len (mlkem_ciphertext h) = ciphertext_len (sh_algo h) /\ len (signature h) = SIGNATURE_LEN.
Definition Message_wf (m : Message) : Prop :=
  match m with
  | MClientHello h => ClientHello_wf h
  | MServerHello h => ServerHello_wf h
  | MRekeyRequest r => ClientHello_wf (hello r)
  | _ => True
  end.

#[export] Instance Message_wf_dec m : Decision (Message_wf m).
Proof. destruct m; simpl; unfold ClientHello_wf, ServerHello_wf; apply _. Defined.

Definition ClientHello_bytes (h : ClientHello) : bytes :=
  [wire_code (ch_algo h)] ++ client_nonce h ++ client_wg_pubkey h ++
  lv (client_x25519_pub h) ++ lv (client_mlkem_pub h).
Definition ServerHello_bytes (h : ServerHello) : bytes :=
  [wire_code (sh_algo h)] ++ sh_session_id h ++ server_nonce h ++
  lv (server_x25519_pub h) ++ lv (mlkem_ciphertext h) ++ lv (signature h).

Lemma ClientHello_encode_bytes h w :
  wbuf (ClientHello_encode_into h w) = wbuf w ++ ClientHello_bytes h.
Proof. unfold ClientHello_bytes, lv. simpl. by rewrite <- !app_assoc. Qed.
Lemma ServerHello_encode_bytes h w :
  wbuf (ServerHello_encode_into h w) = wbuf w ++ ServerHello_bytes h.
Proof. unfold ServerHello_bytes, lv. simpl. by rewrite <- !app_assoc. Qed.

Definition payload_bytes (m : Message) : bytes :=
  match m with
  | MClientHello h => ClientHello_bytes h
  | MServerHello h => ServerHello_bytes h
  | MClientFinish m => cf_session_id m ++ client_tag m
  | MServerFinish m =>
      sf_session_id m ++ server_tag m ++ server_wg_pubkey m ++ assigned_ip m ++
      u16_to_be_bytes (uval (wg_port m))
  | MRekeyRequest m => rk_session_id m ++ ClientHello_bytes (hello m)
  | MError m => [code m] ++ lv (message m)
  end.

Lemma encode_payload_bytes m : Message_encode_payload m = payload_bytes m.
Proof.
  unfold Message_encode_payload, Writer_into_vec.
  destruct m; rewrite ?ClientHello_encode_bytes, ?ServerHello_encode_bytes; simpl;
    rewrite <- ?app_assoc; done.
Qed.

Lemma parses_algo l : parses (rd_lift (algo_from_u8 (wire_code l))) [] l.
Proof.
  unfold algo_from_u8. rewrite from_wire_code_wire_code. apply parses_lift.
Qed.

Lemma pub_len_small l : mlkem_pub_len l <= MAX_PAYLOAD.
Proof. by destruct l. Qed.
Lemma ciphertext_len_small l : ciphertext_len l <= MAX_PAYLOAD.
Proof. by destruct l. Qed.

Lemma parses_lv_arr {n} (a : arr n) :
  Z.of_N n <= MAX_PAYLOAD -> parses Reader_take_lv (lv a) (arr_list a).
Proof. intros. apply parses_lv. by rewrite arr_len. Qed.

(** One field of a decoder: read it, then go on with the rest. *)
Ltac parse_field := eapply parses_bind; [solve [eauto with parses] |].
Ltac parse_check := rewrite ?arr_len, ?Z.eqb_refl; cbn [negb].

#[export] Hint Resolve parses_algo : parses.

Lemma parses_ClientHello h :
  ClientHello_wf h -> parses ClientHello_decode_from (ClientHello_bytes h) h.
Proof.
  intros Hwf. unfold ClientHello_decode_from, ClientHello_bytes.
  parse_field. apply (parses_bind _ _ [] _ (ch_algo h)); [apply parses_algo|].
  do 2 parse_field.
  eapply parses_bind; [by apply parses_lv_arr|]. parse_check.
  eapply parses_bind_ret; [apply parses_lv; rewrite Hwf; apply pub_len_small|].
  rewrite Hwf. parse_check. rewrite arr_copy_arr. destruct h. apply parses_ret.
Qed.

Lemma parses_ServerHello h :
  ServerHello_wf h -> parses ServerHello_decode_from (ServerHello_bytes h) h.
Proof.
  intros [Hct Hsig]. unfold ServerHello_decode_from, ServerHello_bytes.
  parse_field. apply (parses_bind _ _ [] _ (sh_algo h)); [apply parses_algo|].
  do 2 parse_field.
  eapply parses_bind; [by apply parses_lv_arr|]. parse_check.
  eapply parses_bind; [apply parses_lv; rewrite Hct; apply ciphertext_len_small|].
  rewrite Hct. parse_check.
  eapply parses_bind_ret; [apply parses_lv; by rewrite Hsig|].
  rewrite Hsig. parse_check. rewrite arr_copy_arr. destruct h. apply parses_ret.
Qed.

Definition fits (m : Message) : Prop := len (Message_encode_payload m) <= MAX_PAYLOAD.

Lemma parses_body m :
  Message_wf m -> fits m ->
  parses (Message_decode_body (Message_msg_type m)) (payload_bytes m) m.
Proof.
  unfold fits. rewrite encode_payload_bytes.
  destruct m as [h|h|m|m|m|m]; simpl; intros Hwf Hfit.
  - eapply parses_bind_ret; [by apply parses_ClientHello|]. apply parses_ret.
  - eapply parses_bind_ret; [by apply parses_ServerHello|]. apply parses_ret.
  - parse_field. eapply parses_bind_ret; [apply parses_arr|]. destruct m. apply parses_ret.
  - do 4 parse_field. eapply parses_bind_ret; [apply parses_u16|]. destruct m. apply parses_ret.
  - parse_field. eapply parses_bind_ret; [by apply parses_ClientHello|].
    destruct m. apply parses_ret.
  - apply (parses_bind _ _ [code m] (lv (message m)) (code m)); [apply parses_u8|].
    unfold lv in Hfit. rewrite len_cons, len_app in Hfit.
    eapply parses_bind_ret.
    + apply parses_lv. pose proof (len_nonneg (u16_to_be_bytes (as_u16 (len (message m))))). lia.
    + rewrite from_utf8_lossy_str. destruct m. apply parses_ret.
Qed.

Lemma expect_end_ok r : Reader_wf r -> rest r = [] -> Reader_expect_end r = Ok (tt, r).
Proof.
  intros Hwf Hr. unfold Reader_expect_end. pose proof (rest_len r Hwf) as H.
  rewrite Hr in H. by rewrite <- H.
Qed.

Lemma decode_encode_payload m :
  Message_wf m -> fits m ->
  Message_decode_payload (Message_msg_type m) (Message_encode_payload m) = Ok m.
Proof.
  intros Hwf Hfit. unfold Message_decode_payload.
  destruct (Reader_new_wf (Message_encode_payload m)) as [Hw Hr].
  rewrite encode_payload_bytes in *. rewrite <- (app_nil_r (payload_bytes m)) in Hr at 2.
  destruct (parses_body m Hwf Hfit _ _ Hw Hr) as (r' & Hb & Hw' & Hr').
  unfold mbind, Rd_bind. rewrite Hb, expect_end_ok by done. done.
Qed.

(** ** Frames *)

Definition frame (m : Message) : bytes :=
  [PROTOCOL_VERSION; MsgType_to_u8 (Message_msg_type m)] ++ lv (Message_encode_payload m).

Lemma MsgType_from_to t : MsgType_from_u8 (MsgType_to_u8 t) = Ok t.
Proof. by destruct t. Qed.

Lemma Message_write_eq m s :
  Message_write m s =
    if MAX_PAYLOAD <? len (Message_encode_payload m) then (Err payload_too_long, s)
    else write_all (frame m) s.
Proof. unfold Message_write, frame, lv. by destruct (_ <? _). Qed.

(** Reading a frame with a good header is decoding its payload. *)
Lemma Message_read_frame ty p k re t fs :
  len p <= MAX_PAYLOAD ->
  Message_read (Stream ([PROTOCOL_VERSION; MsgType_to_u8 ty] ++ lv p ++ k) re t fs) =
    (map_err FrameWire (Message_decode_payload ty p), Stream k re t fs).
Proof.
  unfold MAX_PAYLOAD. intros Hp. pose proof (len_nonneg p). unfold Message_read, lv, as_u16.
  rewrite Z.mod_small by lia. unfold u16_to_be_bytes.
  set (h := [PROTOCOL_VERSION; MsgType_to_u8 ty; z2b (len p / 256); z2b (len p)]).
  replace (_ ++ (_ ++ p) ++ k) with (h ++ p ++ k) by (by rewrite <- app_assoc).
  erewrite M_bind_Ok; [|unfold err_into; change 4 with (len h); by rewrite read_exact_app].
  cbn [nth h]. rewrite bool_decide_true by done. cbn [negb].
  rewrite MsgType_from_to. erewrite M_bind_Ok by done.
  rewrite u16_from_to_be by lia.
  destruct (Z.ltb_spec MAX_PAYLOAD (len p)); [unfold MAX_PAYLOAD in *; lia|].
  erewrite M_bind_Ok; [|unfold err_into; by rewrite read_exact_app]. done.
Qed.

Lemma Message_read_write m k re t fs :
  Message_wf m -> fits m -> Message_read (Stream (frame m ++ k) re t fs) = (Ok m, Stream k re t fs).
Proof.
  intros Hwf Hfit. unfold frame. rewrite <- app_assoc.
  by rewrite Message_read_frame, decode_encode_payload.
Qed.

(** ** What a decoder accepts is what the encoder writes *)

Lemma Rd_bind_inv {A B} (m : Rd A) (f : A -> Rd B) r b r' :
  (m ≫= f) r = Ok (b, r') -> exists a r1, m r = Ok (a, r1) /\ f a r1 = Ok (b, r').
Proof. unfold mbind, Rd_bind. destruct (m r) as [[a r1]|e]; [eauto|done]. Qed.

Lemma consumes_take n : 0 <= n -> consumes (Reader_take n) (fun l s => l = s /\ len s = n).
Proof.
  intros Hn r s r' Hwf H. unfold Reader_take in H.
  destruct (Z.ltb_spec (Reader_remaining r) n) as [|Hr]; [done|].
  rewrite <- rest_len in Hr by done.
  destruct (take_step r n (conj Hn Hr) Hwf) as (_ & Hwf' & Hrest).
  injection H as <- <-. split; [done|]. exists (take (Z.to_nat n) (rest r)). split_and!.
  - by rewrite Hrest, take_drop.
  - done.
  - unfold len in *. rewrite length_take. unfold rest in *. lia.
Qed.

Lemma consumes_u8 : consumes Reader_take_u8 (fun l b => l = [b]).
Proof.
  intros r b r' Hwf (s & r1 & Hs & [= <- <-])%Rd_bind_inv.
  destruct (consumes_take 1 ltac:(lia) _ _ _ Hwf Hs) as (Hwf' & l & Hl & -> & Hlen).
  split; [done|]. exists s. split; [done|].
  destruct s as [|? [|? ?]]; [done..|]. unfold len in Hlen. simpl in Hlen. lia.
Qed.

Lemma consumes_u16 : consumes Reader_take_u16 (fun l v => l = u16_to_be_bytes (uval v)).
Proof.
  intros r v r' Hwf (s & r1 & Hs & [= <- <-])%Rd_bind_inv.
  destruct (consumes_take 2 ltac:(lia) _ _ _ Hwf Hs) as (Hwf' & l & Hl & -> & Hlen).
  split; [done|]. exists s. split; [done|].
  destruct s as [|? [|? [|? ?]]]; unfold len in Hlen; simpl in Hlen; try lia.
  simpl. by rewrite u16_to_from_be.
Qed.

Lemma consumes_arr N what : consumes (Reader_take_arr N what) (fun l a => l = arr_list a).
Proof.
  intros r a r' Hwf (s & r1 & Hs & [= <- <-])%Rd_bind_inv.
  unfold rd_map_err in Hs. destruct (Reader_take _ r) as [[s' r2]|] eqn:Ht; [|done].
  injection Hs as -> ->.
  destruct (consumes_take (Z.of_N N) ltac:(lia) _ _ _ Hwf Ht) as (Hwf' & l & Hl & -> & Hlen).
  split; [done|]. exists s. split; [done|]. by rewrite arr_copy_exact.
Qed.

Lemma consumes_lv : consumes Reader_take_lv (fun l s => l = lv s /\ len s <= MAX_PAYLOAD).
Proof.
  intros r s r' Hwf (n & r1 & Hn & H)%Rd_bind_inv.
  destruct (consumes_u16 _ _ _ Hwf Hn) as (Hwf1 & l1 & Hl1 & ->).
  destruct (Z.ltb_spec MAX_PAYLOAD (uval n)); [done|].
  pose proof (uint_range n).
  destruct (consumes_take (uval n) ltac:(lia) _ _ _ Hwf1 H) as (Hwf2 & l2 & Hl2 & -> & Hlen).
  split; [done|]. exists (lv s). split_and!; [|done|lia].
  unfold lv, as_u16. rewrite Hlen, Z.mod_small by lia. by rewrite Hl1, Hl2, app_assoc.
Qed.

(** Peel the fields of a successful decode, accumulating the bytes consumed. *)
Ltac consume lem Hwf H :=
  let Hw := fresh "Hwf" in let Hl := fresh "Hrest" in
  destruct (lem _ _ _ Hwf H) as (Hw & ? & Hl & ?).
Ltac unbind H := let a := fresh "a" in let r := fresh "r" in let Ha := fresh "Ha" in
  apply Rd_bind_inv in H as (a & r & Ha & H).
Ltac consume_fields :=
  repeat match goal with
  | H : (_ ≫= _) _ = Ok _ |- _ => unbind H
  | H : (if negb (?x =? ?y) then _ else _) _ = Ok _ |- _ =>
      destruct (Z.eqb_spec x y); cbn [negb] in H; [|discriminate H]
  | H : mret _ _ = Ok _ |- _ => injection H as H; try subst
  | Hw : Reader_wf ?r, H : Reader_take_u8 ?r = Ok _ |- _ => consume consumes_u8 Hw H; clear H
  | Hw : Reader_wf ?r, H : Reader_take_u16 ?r = Ok _ |- _ => consume consumes_u16 Hw H; clear H
  | Hw : Reader_wf ?r, H : Reader_take_arr ?n ?w ?r = Ok _ |- _ =>
      consume (consumes_arr n w) Hw H; clear H
  | Hw : Reader_wf ?r, H : Reader_take_lv ?r = Ok _ |- _ => consume consumes_lv Hw H; clear H
  | H : _ /\ _ |- _ => destruct H
  end.

(** Close a [consumes] goal once every field is peeled. *)
Ltac chain_rest :=
  subst; cbn [ch_algo client_nonce client_wg_pubkey client_x25519_pub client_mlkem_pub
              sh_algo sh_session_id server_nonce server_x25519_pub mlkem_ciphertext signature];
  repeat match goal with H : rest ?r = _ |- context [rest ?r] => rewrite H; clear H end;
  rewrite ?arr_copy_exact by assumption; rewrite <- ?app_assoc; reflexivity.
Ltac consumed_body :=
  split; [done|]; eexists; split; [|split; [split; [done|reflexivity]|done]].
Ltac consumed :=
  split; [done|]; eexists; split; [|split; [reflexivity|done]].

Lemma rd_lift_algo_inv b l r r' :
  rd_lift (algo_from_u8 b) r = Ok (l, r') -> b = wire_code l /\ r' = r.
Proof.
  unfold rd_lift, algo_from_u8, ok_or. destruct (from_wire_code b) eqn:E; [|done].
  intros [= <- <-]. by rewrite (wire_code_from_wire_code _ _ E).
Qed.

Lemma consumes_ClientHello :
  consumes ClientHello_decode_from (fun l h => l = ClientHello_bytes h /\ ClientHello_wf h).
Proof.
  intros r h r' Hwf H. unfold ClientHello_decode_from in H. consume_fields.
  match goal with H : rd_lift _ _ = _ |- _ => apply rd_lift_algo_inv in H as [-> ->] end.
  consume_fields. consumed. unfold ClientHello_bytes. chain_rest.
Qed.

Lemma consumes_ServerHello :
  consumes ServerHello_decode_from (fun l h => l = ServerHello_bytes h /\ ServerHello_wf h).
Proof.
  intros r h r' Hwf H. unfold ServerHello_decode_from in H. consume_fields.
  match goal with H : rd_lift _ _ = _ |- _ => apply rd_lift_algo_inv in H as [-> ->] end.
  consume_fields. consumed. unfold ServerHello_bytes. chain_rest.
Qed.

(** The body of a message: the encoder's bytes, except that an [Error] text
    that is not UTF-8 is repaired by the lossy conversion. *)
Definition body_of (l : bytes) (m : Message) : Prop :=
  Message_wf m /\
  match m with
  | MError e => exists t, l = [code e] ++ lv t /\ message e = from_utf8_lossy t /\ len t <= MAX_PAYLOAD
  | _ => l = payload_bytes m
  end.

Lemma consumes_body ty :
  consumes (Message_decode_body ty) (fun l m => body_of l m /\ Message_msg_type m = ty).
Proof.
  intros r m r' Hwf H. unfold body_of.
  destruct ty; cbn [Message_decode_body] in H; consume_fields.
  - consume consumes_ClientHello Hwf Ha. consume_fields. subst. consumed_body. done.
  - consume consumes_ServerHello Hwf Ha. consume_fields. subst. consumed_body. done.
  - consumed_body. simpl. chain_rest.
  - consumed_body. simpl. chain_rest.
  - consume consumes_ClientHello Hwf0 Ha0. consume_fields. subst. consumed_body. simpl. chain_rest.
  - split; [done|]. exists ([a] ++ lv a0). split; [chain_rest|].
    split; [|done]. split; [done|]. by exists a0.
Qed.

Lemma decode_payload_inv ty p m :
  Message_decode_payload ty p = Ok m -> body_of p m /\ Message_msg_type m = ty.
Proof.
  unfold Message_decode_payload. intros H.
  match type of H with match ?x with _ => _ end = _ => destruct x as [[m' r']|] eqn:Hd end;
    [injection H as ->|done].
  apply Rd_bind_inv in Hd as (m1 & r1 & Hb & Hd).
  apply Rd_bind_inv in Hd as ([] & r2 & He & [= -> ->]).
  destruct (Reader_new_wf p) as [Hwf Hr].
  destruct (consumes_body ty _ _ _ Hwf Hb) as (Hwf1 & l & Hl & Hm & Ht).
  unfold Reader_expect_end in He. destruct (Z.eqb_spec (Reader_remaining r1) 0); [|done].
  rewrite <- rest_len in * by done. rewrite Hr in Hl.
  destruct (rest r1) as [|? ?]; [|rewrite len_cons in *; pose proof (len_nonneg l0); lia].
  rewrite app_nil_r in Hl. by subst.
Qed.

Lemma MsgType_from_u8_inv b t : MsgType_from_u8 b = Ok t -> b = MsgType_to_u8 t.
Proof. destruct b; intros [= <-]; done. Qed.

Lemma Message_read_inv s m s' :
  Message_read s = (Ok m, s') ->
  exists p, rx s = [PROTOCOL_VERSION; MsgType_to_u8 (Message_msg_type m)] ++ lv p ++ rx s' /\
    len p <= MAX_PAYLOAD /\ body_of p m.
Proof.
  unfold Message_read. intros H.
  apply M_bind_inv in H as [(h & s1 & Hh & H)|(? & _ & [=])].
  unfold err_into in Hh. destruct (read_exact 4 s) as [[h'|] s1'] eqn:Hrd; [|done].
  injection Hh as -> ->. apply read_exact_Ok_inv in Hrd as (Hlen & Hrx & _); [|lia].
  case_bool_decide as Hv; cbn [negb] in H; [|done].
  apply M_bind_inv in H as [(ty & s2 & Ht & H)|(? & _ & [=])].
  unfold lift in Ht. destruct (MsgType_from_u8 (nth 1 h x00)) as [ty'|] eqn:Hty; [|done].
  injection Ht as -> ->. apply MsgType_from_u8_inv in Hty.
  destruct (Z.ltb_spec MAX_PAYLOAD (u16_from_be_bytes (nth 2 h x00) (nth 3 h x00))); [done|].
  apply M_bind_inv in H as [(p & s3 & Hp & H)|(? & _ & [=])].
  unfold err_into in Hp. destruct (read_exact _ _) as [[p'|] s3'] eqn:Hrd; [|done].
  injection Hp as -> ->.
  pose proof (u16_from_be_bytes_range (nth 2 h x00) (nth 3 h x00)).
  apply read_exact_Ok_inv in Hrd as (Hlenp & Hrx2 & _); [|lia].
  unfold lift in H. destruct (Message_decode_payload ty p) as [m'|] eqn:Hd; [|done].
  injection H as -> ->. apply decode_payload_inv in Hd as [Hb Hmt].
  exists p. split_and!; [|lia|done].
  rewrite Hrx, Hrx2, Hmt. unfold lv, as_u16. rewrite Hlenp, Z.mod_small by lia.
  rewrite u16_to_from_be. do 4 (destruct h as [|? h]; [by unfold len in Hlen; simpl in Hlen; lia|]).
  destruct h; [|rewrite !len_cons in Hlen; pose proof (len_nonneg h); lia].
  cbn [nth] in *. by subst.
Qed.

Lemma body_of_frame p m :
  body_of p m ->
  p = Message_encode_payload m \/
  (exists e t, m = MError e /\ p = [code e] ++ lv t /\ message e = from_utf8_lossy t /\
     utf8_valid t = false).
Proof.
  unfold body_of. rewrite encode_payload_bytes. destruct m as [| | | | |e]; try by (intros [_ ?]; left).
  intros (_ & t & -> & He & _). destruct (utf8_valid t) eqn:Ht; [left|right; eauto 10].
  simpl. rewrite He. unfold lv. simpl. by rewrite lossy_id.
Qed.

(** Every size that appears in a frame is bounded. *)
Definition lv_fields (m : Message) : list bytes :=
  match m with
  | MClientHello h | MRekeyRequest {| hello := h |} =>
      [arr_list (client_x25519_pub h); client_mlkem_pub h]
  | MServerHello h => [arr_list (server_x25519_pub h); mlkem_ciphertext h; signature h]
  | MError e => [str_bytes (message e)]
  | _ => []
  end.

Lemma lv_len l : len (lv l) = 2 + len l.
Proof. unfold lv. by rewrite len_app. Qed.
#[export] Hint Rewrite lv_len : len.

Lemma lv_fields_le m : Forall (fun v => len v <= len (Message_encode_payload m)) (lv_fields m).
Proof.
  rewrite encode_payload_bytes.
  destruct m as [h|h|m|m|[sid h]|m]; cbn [lv_fields payload_bytes hello];
    unfold ClientHello_bytes, ServerHello_bytes;
    repeat apply Forall_cons_2; try apply Forall_nil_2; len_solve.
Qed.

Definition sendable (m : Message) : Prop :=
  Message_wf m /\ match m with MError e => len (message e) <= MAX_PAYLOAD - 3 | _ => True end.

#[export] Instance sendable_dec m : Decision (sendable m).
Proof. unfold sendable. destruct m; apply _. Defined.

Lemma sendable_fits m : sendable m -> fits m.
Proof.
  unfold sendable, fits. rewrite encode_payload_bytes. intros [Hwf He].
  destruct m as [h|h|m|m|[sid h]|m]; simpl in *; unfold ClientHello_bytes, ServerHello_bytes;
    rewrite ?len_app, ?lv_len, ?arr_len; unfold MAX_PAYLOAD, ClientHello_wf, ServerHello_wf, SIGNATURE_LEN in *.
  - rewrite Hwf. by destruct (ch_algo h).
  - destruct Hwf as [-> ->]. by destruct (sh_algo h).
  - done.
  - done.
  - rewrite Hwf. by destruct (ch_algo h).
  - len_solve.
Qed.

(** ** Properties of the wire format *)

(** C12: round trip.  Every sendable message (variable fields of the size its
    algorithm demands, error text within the payload limit) is written as one
    frame, and reading a stream that starts with that frame, whatever follows
    it, gives the message back and consumes exactly the frame. *)
Theorem Message_roundtrip m i re t k re' t' fs' :
  sendable m ->
  Message_write m (Stream i re t []) = (Ok tt, Stream i re (t ++ frame m) []) /\
  Message_read (Stream (frame m ++ k) re' t' fs') = (Ok m, Stream k re' t' fs').
Proof.
  intros H. pose proof (sendable_fits m H) as Hfit. split.
  - rewrite Message_write_eq. unfold fits in Hfit.
    by destruct (Z.ltb_spec MAX_PAYLOAD (len (Message_encode_payload m))); [lia|].
  - apply Message_read_write; [apply H | done].
Qed.

Definition sample_hello : ClientHello :=
  {| ch_algo := MlKem768; client_nonce := arr_fill 32 x01; client_wg_pubkey := arr_fill 32 x02;
     client_x25519_pub := arr_fill 32 x03; client_mlkem_pub := replicate 1184 x04 |}.

Lemma Message_roundtrip_witness :
  sendable (MClientHello sample_hello) /\
  Message_read (Stream (frame (MClientHello sample_hello) ++ [xff]) eof [] []) =
    (Ok (MClientHello sample_hello), Stream [xff] eof [] []).
Proof.
  assert (sendable (MClientHello sample_hello)) as H by (split; [reflexivity | exact I]).
  split; [exact H|].
  exact (proj2 (Message_roundtrip (MClientHello sample_hello) [] eof [] [xff] eof [] [] H)).
Defined.

(** C25: the decoder accepts nothing but encodings.  A message that [read]
    returns is well formed, and the bytes consumed are exactly the frame that
    [write] would produce for it; the only exception is an [Error] whose text
    was not UTF-8, which is repaired to U+FFFD and keeps its code. *)
Theorem Message_read_canonical s m s' :
  Message_read s = (Ok m, s') ->
  Message_wf m /\
  (rx s = frame m ++ rx s' \/
   exists e t, m = MError e /\ utf8_valid t = false /\ message e = from_utf8_lossy t /\
     rx s = [PROTOCOL_VERSION; xee] ++ lv ([code e] ++ lv t) ++ rx s').
Proof.
  intros (p & Hrx & _ & Hb)%Message_read_inv.
  split; [apply Hb|]. destruct (body_of_frame p m Hb) as [->|(e & t & -> & -> & He & Ht)].
  - left. rewrite Hrx. unfold frame. by rewrite <- !app_assoc.
  - right. exists e, t. split_and!; [done..|]. exact Hrx.
Qed.

Lemma Message_read_canonical_witness :
  Message_wf (MClientHello sample_hello) /\
  (rx (Stream (frame (MClientHello sample_hello)) eof [] []) =
     frame (MClientHello sample_hello) ++ rx (Stream [] eof [] []) \/
   exists e t, MClientHello sample_hello = MError e /\ utf8_valid t = false /\
     message e = from_utf8_lossy t /\
     rx (Stream (frame (MClientHello sample_hello)) eof [] []) =
       [PROTOCOL_VERSION; xee] ++ lv ([code e] ++ lv t) ++ rx (Stream [] eof [] [])).
Proof.
  exact (Message_read_canonical (Stream (frame (MClientHello sample_hello)) eof [] [])
           (MClientHello sample_hello) (Stream [] eof [] []) ltac:(vm_compute; reflexivity)).
Defined.

(** frame bounds.  On a stream whose writes succeed, [write] of any message
    whatsoever either refuses (the payload exceeds 8192 bytes) without sending
    a byte, or sends a frame whose two length bytes are the true payload
    length; no [as u16] cast in the frame or in a length-prefixed field
    truncates. *)
Theorem Message_write_bounds m i re t :
  match Message_write m (Stream i re t []) with
  | (Ok _, s') =>
      exists hi lo payload,
        s' = Stream i re (t ++ [PROTOCOL_VERSION; MsgType_to_u8 (Message_msg_type m); hi; lo]
                            ++ payload) [] /\
        payload = Message_encode_payload m /\
        u16_from_be_bytes hi lo = len payload /\ len payload <= MAX_PAYLOAD /\
        Forall (fun v => as_u16 (len v) = len v) (lv_fields m)
  | (Err e, s') =>
      e = payload_too_long /\ s' = Stream i re t [] /\
      MAX_PAYLOAD < len (Message_encode_payload m)
  end.
Proof.
  rewrite Message_write_eq.
  destruct (Z.ltb_spec MAX_PAYLOAD (len (Message_encode_payload m))) as [|Hle]; [done|].
  unfold write_all, frame, lv, as_u16. cbn [rx rx_end tx tx_faults].
  pose proof (len_nonneg (Message_encode_payload m)). unfold MAX_PAYLOAD in Hle.
  rewrite Z.mod_small by lia. eexists _, _, _. split_and!; [done|done| |done|].
  - apply u16_from_to_be. lia.
  - eapply Forall_impl; [|apply lv_fields_le]. intros v Hv. simpl in Hv.
    pose proof (len_nonneg v). apply Z.mod_small. lia.
Qed.

Lemma ram_Message_read : reads_at_most (4 + (0 + MAX_PAYLOAD)) Message_read.
Proof.
  unfold Message_read. apply ram_bind; [done|by apply ram_err_into, ram_read_exact|].
  intros h. destruct (negb _); [by apply ram_throw|].
  apply ram_bind; [done|by apply ram_lift|]. intros ty. cbv zeta.
  pose proof (u16_from_be_bytes_range (nth 2 h x00) (nth 3 h x00)).
  destruct (Z.ltb_spec MAX_PAYLOAD (u16_from_be_bytes (nth 2 h x00) (nth 3 h x00))) as [|Hn];
    [by apply ram_throw|].
  eapply ram_weaken.
  - apply (ram_bind _ _ (u16_from_be_bytes (nth 2 h x00) (nth 3 h x00)) 0); [done| |].
    + apply ram_err_into, ram_read_exact. lia.
    + intros p. by apply ram_lift.
  - lia.
Qed.

(** C33: reading is bounded.  Whatever the peer sends, one call of [read] takes
    at most 4 + 8192 bytes off the stream and writes nothing. *)
Theorem Message_read_bounded s r s' :
  Message_read s = (r, s') ->
  tx s' = tx s /\ exists l, rx s = l ++ rx s' /\ len l <= 4 + MAX_PAYLOAD.
Proof. apply ram_Message_read. Qed.

Lemma Message_read_bounded_witness :
  Message_read (mem_stream [x02; x01; x00; x00]) =
    (Err (FrameWire (UnsupportedVersion x02)), mem_stream []) /\
  exists l, [x02; x01; x00; x00] = l ++ [] /\ len l <= 4 + MAX_PAYLOAD.
Proof.
  assert (Message_read (mem_stream [x02; x01; x00; x00]) =
    (Err (FrameWire (UnsupportedVersion x02)), mem_stream [])) as H by reflexivity.
  split; [exact H|]. exact (proj2 (Message_read_bounded _ _ _ H)).
Defined.

(** frames are prefix-free and the encoding is injective: two sendable
    messages whose frames start the same stream are the same message. *)
Theorem frame_prefix_free m1 m2 k1 k2 :
  sendable m1 -> sendable m2 -> frame m1 ++ k1 = frame m2 ++ k2 -> m1 = m2 /\ k1 = k2.
Proof.
  intros H1 H2 Heq.
  pose proof (Message_read_write m1 k1 eof [] [] (proj1 H1) (sendable_fits m1 H1)) as R1.
  pose proof (Message_read_write m2 k2 eof [] [] (proj1 H2) (sendable_fits m2 H2)) as R2.
  rewrite Heq in R1. rewrite R2 in R1. by injection R1 as -> ->.
Qed.

Lemma frame_prefix_free_witness :
  let m := MError {| code := x05; message := lit "rekey algorithm mismatch" |} in
  sendable m /\ (m = m /\ [x00] = [x00]).
Proof.
  intros m. assert (sendable m) as H by (split; [exact I | vm_compute; discriminate]).
  split; [exact H|]. exact (frame_prefix_free m m [x00] [x00] H H eq_refl).
Defined.
