(* ===== verification/ServerWire.v ===== *)
(** * The server's copy of the wire format

    [server/handshake-server/src/wire.rs] and [error.rs].  The server has its own
    framing code, its own algorithm enumeration ([AlgoCode]) and its own error
    types; the client core's copy is in [CoreWire].  [WireParity] proves the two
    agree byte for byte, and carries the round trip over. *)

From S2P Require Import Prelude Utf8 Io.

Definition PROTOCOL_VERSION : u8 := x01.
Definition MAX_PAYLOAD : Z := 8192.
Definition PROTOCOL_LABEL : bytes := String.list_byte_of_string "PQC-VPN-HANDSHAKE-v1".
Definition SIGNATURE_LEN : Z := 3309.

(** ** Errors: [error.rs] *)

Inductive WireError : Set :=
  | UnsupportedVersion (v : u8)
  | UnknownMsgType (t : u8)
  | LengthOutOfRange
  | Truncated
  | Invalid (what : string).

(** [WireError::protocol_code]. *)
Definition WireError_protocol_code (e : WireError) : u8 :=
  match e with
  | UnsupportedVersion _ => x01
  | _ => x02
  end.

(** [Display for WireError]. *)
Definition WireError_to_string (e : WireError) : rstring :=
  match e with
  | UnsupportedVersion v => (lit "unsupported protocol version " +:+ fmt_hex8 v)%rs
  | UnknownMsgType t => (lit "unknown message type " +:+ fmt_hex8 t)%rs
  | LengthOutOfRange => lit "declared length out of range"
  | Truncated => lit "message truncated"
  | Invalid what => (lit "invalid " +:+ lit what)%rs
  end.

Inductive HandshakeError : Set :=
  | AlgoRejected
  | UnknownSession
  | AlgoMismatch
  | AuthFailed
  | Crypto (m : rstring).

(** [HandshakeError::protocol_code]. *)
Definition HandshakeError_protocol_code (e : HandshakeError) : u8 :=
  match e with
  | AlgoRejected => x03
  | UnknownSession => x04
  | AlgoMismatch => x05
  | AuthFailed => x06
  | Crypto _ => x08
  end.

(** [Display for HandshakeError]. *)
Definition HandshakeError_to_string (e : HandshakeError) : rstring :=
  match e with
  | AlgoRejected => lit "algorithm rejected by server policy"
  | UnknownSession => lit "unknown session id"
  | AlgoMismatch => lit "rekey algorithm mismatch"
  | AuthFailed => lit "client authentication failed"
  | Crypto m => (lit "crypto error: " +:+ m)%rs
  end.

(** [FrameError] and its [Display], from [wire.rs]. *)
Inductive FrameError : Set :=
  | FrameIo (e : io_error)
  | FrameWire (e : WireError).

Definition FrameError_to_string (e : FrameError) : rstring :=
  match e with
  | FrameIo e => (lit "transport error: " +:+ io_text e)%rs
  | FrameWire e => WireError_to_string e
  end.

(** ** Message types *)

Inductive MsgType : Set :=
  | TClientHello | TServerHello | TClientFinish | TServerFinish | TRekeyRequest | TError.

Definition MsgType_to_u8 (t : MsgType) : u8 :=
  match t with
  | TClientHello => x01
  | TServerHello => x02
  | TClientFinish => x03
  | TServerFinish => x04
  | TRekeyRequest => x05
  | TError => xee
  end.

Definition MsgType_from_u8 (b : u8) : result WireError MsgType :=
  match b with
  | x01 => Ok TClientHello
  | x02 => Ok TServerHello
  | x03 => Ok TClientFinish
  | x04 => Ok TServerFinish
  | x05 => Ok TRekeyRequest
  | xee => Ok TError
  | other => Err (UnknownMsgType other)
  end.

(** ** Algorithm codes *)

Inductive AlgoCode : Set := MlKem512 | MlKem768 | MlKem1024.

#[export] Instance AlgoCode_eq_dec : EqDecision AlgoCode.
Proof. solve_decision. Defined.
#[export] Instance AlgoCode_inhabited : Inhabited AlgoCode := populate MlKem512.

(** The derived [Ord]: declaration order. *)
Definition algo_rank (a : AlgoCode) : Z :=
  match a with MlKem512 => 0 | MlKem768 => 1 | MlKem1024 => 2 end.
Definition algo_ltb (a b : AlgoCode) : bool := algo_rank a <? algo_rank b.

Definition AlgoCode_to_u8 (a : AlgoCode) : u8 :=
  match a with MlKem512 => x00 | MlKem768 => x01 | MlKem1024 => x02 end.

Definition AlgoCode_from_u8 (b : u8) : result WireError AlgoCode :=
  match b with
  | x00 => Ok MlKem512
  | x01 => Ok MlKem768
  | x02 => Ok MlKem1024
  | _ => Err (Invalid "algorithm code")
  end.

Definition AlgoCode_transcript_name (a : AlgoCode) : bytes :=
  String.list_byte_of_string
    match a with
    | MlKem512 => "ML-KEM-512"
    | MlKem768 => "ML-KEM-768"
    | MlKem1024 => "ML-KEM-1024"
    end.

Definition AlgoCode_name (a : AlgoCode) : string :=
  match a with
  | MlKem512 => "ML-KEM-512"
  | MlKem768 => "ML-KEM-768"
  | MlKem1024 => "ML-KEM-1024"
  end.

Definition AlgoCode_from_name (s : string) : option AlgoCode :=
  if decide (s = "ML-KEM-512"%string) then Some MlKem512
  else if decide (s = "ML-KEM-768"%string) then Some MlKem768
  else if decide (s = "ML-KEM-1024"%string) then Some MlKem1024
  else None.

Definition AlgoCode_mlkem_pub_len (a : AlgoCode) : Z :=
  match a with MlKem512 => 800 | MlKem768 => 1184 | MlKem1024 => 1568 end.

Definition AlgoCode_ciphertext_len (a : AlgoCode) : Z :=
  match a with MlKem512 => 768 | MlKem768 => 1088 | MlKem1024 => 1568 end.

(** ** The byte writer *)

Record Writer : Set := { wbuf : bytes }.

Definition Writer_new : Writer := {| wbuf := [] |}.
Definition Writer_u8 (v : u8) (w : Writer) : Writer := {| wbuf := wbuf w ++ [v] |}.
Definition Writer_bytes (v : bytes) (w : Writer) : Writer := {| wbuf := wbuf w ++ v |}.
Definition Writer_lv (v : bytes) (w : Writer) : Writer :=
  let w := {| wbuf := wbuf w ++ u16_to_be_bytes (as_u16 (len v)) |} in
  {| wbuf := wbuf w ++ v |}.
Definition Writer_into_vec (w : Writer) : bytes := wbuf w.

(** ** The byte reader *)

Record Reader : Set := { buf : bytes; pos : Z }.

(** A method of [&mut Reader]: on an error the source drops the reader. *)
Definition Rd (A : Type) : Type := Reader -> result WireError (A * Reader).
#[export] Instance Rd_ret : MRet Rd := fun _ a r => Ok (a, r).
#[export] Instance Rd_bind : MBind Rd := fun _ _ k m r =>
  match m r with Ok (a, r') => k a r' | Err e => Err e end.
Definition rd_lift {A} (x : result WireError A) : Rd A := fun r =>
  match x with Ok a => Ok (a, r) | Err e => Err e end.
Definition rd_map_err {A} (f : WireError -> WireError) (m : Rd A) : Rd A := fun r =>
  map_err f (m r).

Definition Reader_new (b : bytes) : Reader := {| buf := b; pos := 0 |}.
Definition Reader_remaining (r : Reader) : Z := len (buf r) - pos r.

Definition Reader_take (n : Z) : Rd bytes := fun r =>
  if Reader_remaining r <? n then Err Truncated
  else
    let s := take (Z.to_nat n) (drop (Z.to_nat (pos r)) (buf r)) in
    Ok (s, {| buf := buf r; pos := pos r + n |}).

Definition Reader_take_u8 : Rd u8 :=
  s ← Reader_take 1; mret (nth 0 s x00).

Definition Reader_take_u16 : Rd u16 :=
  b ← Reader_take 2; mret (u16_of_be (nth 0 b x00) (nth 1 b x00)).

Definition Reader_take_arr (N : N) (what : string) : Rd (arr N) :=
  s ← rd_map_err (fun _ => Invalid what) (Reader_take (Z.of_N N));
  mret (arr_copy N s).

Definition Reader_take_lv : Rd bytes :=
  n ← Reader_take_u16;
  if MAX_PAYLOAD <? uval n then rd_lift (Err LengthOutOfRange)
  else Reader_take (uval n).

Definition Reader_expect_end : Rd unit := fun r =>
  if Reader_remaining r =? 0 then Ok (tt, r) else Err (Invalid "trailing bytes").

(** ** Messages *)

Record ClientHello : Set := {
  ch_algo : AlgoCode;
  client_nonce : arr 32;
  client_wg_pubkey : arr 32;
  client_x25519_pub : arr 32;
  client_mlkem_pub : bytes
}.

Definition ClientHello_encode_into (h : ClientHello) (w : Writer) : Writer :=
  let w := Writer_u8 (AlgoCode_to_u8 (ch_algo h)) w in
  let w := Writer_bytes (client_nonce h) w in
  let w := Writer_bytes (client_wg_pubkey h) w in
  let w := Writer_lv (client_x25519_pub h) w in
  Writer_lv (client_mlkem_pub h) w.

Definition ClientHello_decode_from : Rd ClientHello :=
  b ← Reader_take_u8;
  algo ← rd_lift (AlgoCode_from_u8 b);
  nonce ← Reader_take_arr 32 "client_nonce";
  wg ← Reader_take_arr 32 "client_wg_pubkey";
  x ← Reader_take_lv;
  if negb (len x =? 32) then rd_lift (Err (Invalid "client_x25519_pub length")) else
  mk ← Reader_take_lv;
  if negb (len mk =? AlgoCode_mlkem_pub_len algo) then rd_lift (Err (Invalid "client_mlkem_pub length"))
  else mret {| ch_algo := algo; client_nonce := nonce; client_wg_pubkey := wg;
               client_x25519_pub := arr_copy 32 x; client_mlkem_pub := mk |}.

Record ServerHello : Set := {
  sh_algo : AlgoCode;
  sh_session_id : arr 16;
  server_nonce : arr 32;
  server_x25519_pub : arr 32;
  mlkem_ciphertext : bytes;
  signature : bytes
}.

Definition ServerHello_encode_into (h : ServerHello) (w : Writer) : Writer :=
  let w := Writer_u8 (AlgoCode_to_u8 (sh_algo h)) w in
  let w := Writer_bytes (sh_session_id h) w in
  let w := Writer_bytes (server_nonce h) w in
  let w := Writer_lv (server_x25519_pub h) w in
  let w := Writer_lv (mlkem_ciphertext h) w in
  Writer_lv (signature h) w.

Definition ServerHello_decode_from : Rd ServerHello :=
  b ← Reader_take_u8;
  algo ← rd_lift (AlgoCode_from_u8 b);
  sid ← Reader_take_arr 16 "session_id";
  nonce ← Reader_take_arr 32 "server_nonce";
  x ← Reader_take_lv;
  if negb (len x =? 32) then rd_lift (Err (Invalid "server_x25519_pub length")) else
  ct ← Reader_take_lv;
  if negb (len ct =? AlgoCode_ciphertext_len algo) then rd_lift (Err (Invalid "mlkem_ciphertext length")) else
  sig ← Reader_take_lv;
  if negb (len sig =? SIGNATURE_LEN) then rd_lift (Err (Invalid "signature length"))
  else mret {| sh_algo := algo; sh_session_id := sid; server_nonce := nonce;
               server_x25519_pub := arr_copy 32 x; mlkem_ciphertext := ct; signature := sig |}.

Record ClientFinish : Set := { cf_session_id : arr 16; client_tag : arr 32 }.

Record ServerFinish : Set := {
  sf_session_id : arr 16;
  server_tag : arr 32;
  server_wg_pubkey : arr 32;
  assigned_ip : arr 4;
  wg_port : u16
}.

Record RekeyRequest : Set := { rk_session_id : arr 16; hello : ClientHello }.

Record ErrorMsg : Set := { code : u8; message : rstring }.

Inductive Message : Set :=
  | MClientHello (m : ClientHello)
  | MServerHello (m : ServerHello)
  | MClientFinish (m : ClientFinish)
  | MServerFinish (m : ServerFinish)
  | MRekeyRequest (m : RekeyRequest)
  | MError (m : ErrorMsg).

Definition Message_msg_type (m : Message) : MsgType :=
  match m with
  | MClientHello _ => TClientHello
  | MServerHello _ => TServerHello
  | MClientFinish _ => TClientFinish
  | MServerFinish _ => TServerFinish
  | MRekeyRequest _ => TRekeyRequest
  | MError _ => TError
  end.

Definition Message_encode_payload (m : Message) : bytes :=
  let w := Writer_new in
  let w :=
    match m with
    | MClientHello m => ClientHello_encode_into m w
    | MServerHello m => ServerHello_encode_into m w
    | MClientFinish m =>
        let w := Writer_bytes (cf_session_id m) w in
        Writer_bytes (client_tag m) w
    | MServerFinish m =>
        let w := Writer_bytes (sf_session_id m) w in
        let w := Writer_bytes (server_tag m) w in
        let w := Writer_bytes (server_wg_pubkey m) w in
        let w := Writer_bytes (assigned_ip m) w in
        Writer_bytes (u16_to_be_bytes (uval (wg_port m))) w
    | MRekeyRequest m =>
        let w := Writer_bytes (rk_session_id m) w in
        ClientHello_encode_into (hello m) w
    | MError m =>
        let w := Writer_u8 (code m) w in
        Writer_lv (str_bytes (message m)) w
    end in
  Writer_into_vec w.

Definition Message_decode_body (ty : MsgType) : Rd Message :=
  match ty with
  | TClientHello => m ← ClientHello_decode_from; mret (MClientHello m)
  | TServerHello => m ← ServerHello_decode_from; mret (MServerHello m)
  | TClientFinish =>
      sid ← Reader_take_arr 16 "session_id";
      tag ← Reader_take_arr 32 "client_tag";
      mret (MClientFinish {| cf_session_id := sid; client_tag := tag |})
  | TServerFinish =>
      sid ← Reader_take_arr 16 "session_id";
      tag ← Reader_take_arr 32 "server_tag";
      pk ← Reader_take_arr 32 "server_wg_pubkey";
      ip ← Reader_take_arr 4 "assigned_ip";
      port ← Reader_take_u16;
      mret (MServerFinish {| sf_session_id := sid; server_tag := tag; server_wg_pubkey := pk;
                             assigned_ip := ip; wg_port := port |})
  | TRekeyRequest =>
      sid ← Reader_take_arr 16 "session_id";
      h ← ClientHello_decode_from;
      mret (MRekeyRequest {| rk_session_id := sid; hello := h |})
  | TError =>
      c ← Reader_take_u8;
      l ← Reader_take_lv;
      mret (MError {| code := c; message := from_utf8_lossy l |})
  end.

Definition Message_decode_payload (ty : MsgType) (payload : bytes) : result WireError Message :=
  match (msg ← Message_decode_body ty; _ ← Reader_expect_end; mret msg) (Reader_new payload) with
  | Ok (msg, _) => Ok msg
  | Err e => Err e
  end.

(** ** Frame I/O *)

Definition payload_too_long : io_error := IoError InvalidData (lit "payload exceeds MAX_PAYLOAD").

Definition Message_write (m : Message) : M stream io_error unit :=
  let payload := Message_encode_payload m in
  if MAX_PAYLOAD <? len payload then throw payload_too_long
  else
    let frame := [PROTOCOL_VERSION] in
    let frame := frame ++ [MsgType_to_u8 (Message_msg_type m)] in
    let frame := frame ++ u16_to_be_bytes (as_u16 (len payload)) in
    let frame := frame ++ payload in
    write_all frame.

Definition Message_read : M stream FrameError Message :=
  header ← err_into FrameIo (read_exact 4);
  if negb (bool_decide (nth 0 header x00 = PROTOCOL_VERSION)) then
    throw (FrameWire (UnsupportedVersion (nth 0 header x00)))
  else
  ty ← lift (map_err FrameWire (MsgType_from_u8 (nth 1 header x00)));
  let l := u16_from_be_bytes (nth 2 header x00) (nth 3 header x00) in
  if MAX_PAYLOAD <? l then throw (FrameWire LengthOutOfRange)
  else
  payload ← err_into FrameIo (read_exact l);
  lift (map_err FrameWire (Message_decode_payload ty payload)).
