(* ===== verification/WireParity.v ===== *)
(** * The two wire formats are the same format

    The client core and the server each have their own framing code; the
    comments of [core/src/protocol/wire.rs] call the former a byte-for-byte port
    of the latter.  Here the claim is proved: under the evident renaming of
    types ([to_core]) both sides write the same bytes for the same message and
    read the same message (or report the same error, at the same point of the
    stream) from the same bytes.  Results proved for one side transfer to the
    other. *)

From S2P Require Import Prelude Utf8 Io Algorithm.
From S2P Require Import CoreWire.
From S2P Require Import ServerWire.

(** ** Renaming server types to core types *)

Definition level_of (a : ServerWire.AlgoCode) : MlKemLevel :=
  match a with
  | ServerWire.MlKem512 => Algorithm.MlKem512
  | ServerWire.MlKem768 => Algorithm.MlKem768
  | ServerWire.MlKem1024 => Algorithm.MlKem1024
  end.

Definition hello_to_core (h : ServerWire.ClientHello) : CoreWire.ClientHello :=
  CoreWire.Build_ClientHello (level_of (ch_algo h)) (client_nonce h) (client_wg_pubkey h)
    (client_x25519_pub h) (client_mlkem_pub h).

Definition server_hello_to_core (h : ServerWire.ServerHello) : CoreWire.ServerHello :=
  CoreWire.Build_ServerHello (level_of (sh_algo h)) (sh_session_id h) (server_nonce h)
    (server_x25519_pub h) (mlkem_ciphertext h) (signature h).

Definition to_core (m : ServerWire.Message) : CoreWire.Message :=
  match m with
  | MClientHello h => CoreWire.MClientHello (hello_to_core h)
  | MServerHello h => CoreWire.MServerHello (server_hello_to_core h)
  | MClientFinish f =>
      CoreWire.MClientFinish (CoreWire.Build_ClientFinish (cf_session_id f) (client_tag f))
  | MServerFinish f =>
      CoreWire.MServerFinish (CoreWire.Build_ServerFinish (sf_session_id f) (server_tag f)
        (server_wg_pubkey f) (assigned_ip f) (wg_port f))
  | MRekeyRequest r =>
      CoreWire.MRekeyRequest (CoreWire.Build_RekeyRequest (rk_session_id r) (hello_to_core (hello r)))
  | MError e => CoreWire.MError (CoreWire.Build_ErrorMsg (code e) (message e))
  end.

Definition type_to_core (t : ServerWire.MsgType) : CoreWire.MsgType :=
  match t with
  | TClientHello => CoreWire.TClientHello
  | TServerHello => CoreWire.TServerHello
  | TClientFinish => CoreWire.TClientFinish
  | TServerFinish => CoreWire.TServerFinish
  | TRekeyRequest => CoreWire.TRekeyRequest
  | TError => CoreWire.TError
  end.

Definition wire_err_to_core (e : ServerWire.WireError) : CoreWire.WireError :=
  match e with
  | UnsupportedVersion v => CoreWire.UnsupportedVersion v
  | UnknownMsgType t => CoreWire.UnknownMsgType t
  | LengthOutOfRange => CoreWire.LengthOutOfRange
  | Truncated => CoreWire.Truncated
  | Invalid w => CoreWire.Invalid w
  end.

Definition frame_err_to_core (e : ServerWire.FrameError) : CoreWire.FrameError :=
  match e with
  | FrameIo e => CoreWire.FrameIo e
  | FrameWire e => CoreWire.FrameWire (wire_err_to_core e)
  end.

(** The client prints the server's text for every framing error. *)
Lemma frame_text_parity e :
  CoreWire.FrameError_to_string (frame_err_to_core e) = ServerWire.FrameError_to_string e.
Proof. by destruct e as [|[]]. Qed.

(** Rename a result. *)
Definition both {E F A B} (fe : E -> F) (fa : A -> B) (r : result E A) : result F B :=
  match r with Ok a => Ok (fa a) | Err e => Err (fe e) end.

Lemma level_of_inj a b : level_of a = level_of b -> a = b.
Proof. by destruct a, b. Qed.

Lemma to_core_inj m1 m2 : to_core m1 = to_core m2 -> m1 = m2.
Proof.
  destruct m1 as [[]|[]|[]|[]|[? []]|[]], m2 as [[]|[]|[]|[]|[? []]|[]]; simpl;
    intros H; simplify_eq; f_equal; f_equal; try (by apply level_of_inj); try done;
    f_equal; by apply level_of_inj.
Qed.

(** ** Writing *)

Lemma encode_hello_parity h w w' :
  CoreWire.wbuf w = wbuf w' ->
  CoreWire.wbuf (CoreWire.ClientHello_encode_into (hello_to_core h) w) =
  wbuf (ClientHello_encode_into h w').
Proof. destruct h as [[] ? ? ? ?]; simpl; by intros ->. Qed.

Lemma encode_parity m :
  CoreWire.Message_encode_payload (to_core m) = Message_encode_payload m.
Proof.
  destruct m as [h|[[] ? ? ? ? ?]|m|m|m|m]; try done.
  - by apply encode_hello_parity.
  - by apply encode_hello_parity.
Qed.

Lemma msg_type_parity m :
  CoreWire.Message_msg_type (to_core m) = type_to_core (Message_msg_type m).
Proof. by destruct m. Qed.
Lemma to_u8_parity t : CoreWire.MsgType_to_u8 (type_to_core t) = MsgType_to_u8 t.
Proof. by destruct t. Qed.

Lemma write_parity m s :
  CoreWire.Message_write (to_core m) s = Message_write m s.
Proof.
  unfold CoreWire.Message_write, Message_write.
  by rewrite encode_parity, msg_type_parity, to_u8_parity.
Qed.

(** ** Reading

    [par f mc ms]: run on the same buffer at the same position, the core's
    reader method [mc] and the server's [ms] agree, [f] renaming the value. *)

Definition reader_to_core (r : Reader) : CoreWire.Reader :=
  {| CoreWire.buf := buf r; CoreWire.pos := pos r |}.

Definition par {A B} (f : A -> B) (mc : CoreWire.Rd B) (ms : Rd A) : Prop :=
  forall r, mc (reader_to_core r) =
    both wire_err_to_core (fun '(a, r') => (f a, reader_to_core r')) (ms r).

Lemma par_ret {A B} (f : A -> B) a b : b = f a -> par f (mret b) (mret a).
Proof. by intros -> r. Qed.

Lemma par_bind {A B A' B'} (f : A -> B) (g : A' -> B') mc ms kc ks :
  par f mc ms -> (forall a, par g (kc (f a)) (ks a)) -> par g (mc ≫= kc) (ms ≫= ks).
Proof.
  intros Hm Hk r. unfold mbind, CoreWire.Rd_bind, Rd_bind. rewrite Hm.
  destruct (ms r) as [[a r']|e]; [apply Hk | done].
Qed.

Lemma par_lift {A B} (f : A -> B) xc xs :
  xc = both wire_err_to_core f xs -> par f (CoreWire.rd_lift xc) (rd_lift xs).
Proof. intros -> r. by destruct xs. Qed.

Lemma par_if {A B} (f : A -> B) (b b' : bool) mc ms mc' ms' :
  b = b' -> par f mc ms -> par f mc' ms' ->
  par f (if b then mc else mc') (if b' then ms else ms').
Proof. intros ->. by destruct b'. Qed.

Lemma par_take n : par id (CoreWire.Reader_take n) (Reader_take n).
Proof. intros r. unfold CoreWire.Reader_take, Reader_take, CoreWire.Reader_remaining. simpl.
  unfold Reader_remaining. by destruct (_ <? _). Qed.

Lemma par_u8 : par id CoreWire.Reader_take_u8 Reader_take_u8.
Proof. eapply par_bind; [apply par_take|]. intros. by apply par_ret. Qed.

Lemma par_u16 : par id CoreWire.Reader_take_u16 Reader_take_u16.
Proof. eapply par_bind; [apply par_take|]. intros. by apply par_ret. Qed.

Lemma par_arr N w : par id (CoreWire.Reader_take_arr N w) (Reader_take_arr N w).
Proof.
  eapply (par_bind id id); [|intros; by apply par_ret].
  intros r. unfold CoreWire.rd_map_err, rd_map_err. rewrite (par_take _ r).
  by destruct (Reader_take _ r).
Qed.

Lemma par_lv : par id CoreWire.Reader_take_lv Reader_take_lv.
Proof.
  eapply par_bind; [apply par_u16|]. intros n. apply par_if; [done| |apply par_take].
  by apply par_lift.
Qed.

Lemma par_algo b :
  par level_of (CoreWire.rd_lift (CoreWire.algo_from_u8 b)) (rd_lift (AlgoCode_from_u8 b)).
Proof. apply par_lift. by destruct b. Qed.

Lemma par_expect_end : par id CoreWire.Reader_expect_end Reader_expect_end.
Proof.
  intros r. unfold CoreWire.Reader_expect_end, Reader_expect_end.
  change (CoreWire.Reader_remaining (reader_to_core r)) with (Reader_remaining r).
  by destruct (_ =? _).
Qed.

Create HintDb par discriminated.
#[export] Hint Resolve par_u8 par_u16 par_arr par_lv par_algo par_expect_end : par.

(** Walk two decoders field by field. *)
Ltac par_fields :=
  repeat first
    [ eapply par_bind; [solve [eauto with par] | intros]
    | apply par_if; [| by apply par_lift |]
    | by apply par_ret ].

Lemma pub_len_parity a : mlkem_pub_len (level_of a) = AlgoCode_mlkem_pub_len a.
Proof. by destruct a. Qed.
Lemma ct_len_parity a : ciphertext_len (level_of a) = AlgoCode_ciphertext_len a.
Proof. by destruct a. Qed.

Lemma par_ClientHello : par hello_to_core CoreWire.ClientHello_decode_from ClientHello_decode_from.
Proof. unfold CoreWire.ClientHello_decode_from, ClientHello_decode_from. par_fields; try done.
  by rewrite pub_len_parity. Qed.

Lemma par_ServerHello :
  par server_hello_to_core CoreWire.ServerHello_decode_from ServerHello_decode_from.
Proof. unfold CoreWire.ServerHello_decode_from, ServerHello_decode_from. par_fields; try done.
  by rewrite ct_len_parity. Qed.

#[export] Hint Resolve par_ClientHello par_ServerHello : par.

Lemma par_body t :
  par to_core (CoreWire.Message_decode_body (type_to_core t)) (Message_decode_body t).
Proof. destruct t; simpl; par_fields. Qed.

Lemma decode_parity t p :
  CoreWire.Message_decode_payload (type_to_core t) p =
  both wire_err_to_core to_core (Message_decode_payload t p).
Proof.
  unfold CoreWire.Message_decode_payload, Message_decode_payload.
  change (CoreWire.Reader_new p) with (reader_to_core (Reader_new p)).
  rewrite (par_bind to_core to_core _ _ _ (fun msg => _ ← Reader_expect_end; mret msg) (par_body t)).
  - by match goal with |- context [both _ _ ?x] => destruct x as [[? ?]|] end.
  - intros a. par_fields.
Qed.

Lemma from_u8_parity b :
  CoreWire.MsgType_from_u8 b = both wire_err_to_core type_to_core (MsgType_from_u8 b).
Proof. by destruct b. Qed.

Lemma read_parity s :
  CoreWire.Message_read s =
  let '(r, s') := Message_read s in (both frame_err_to_core to_core r, s').
Proof.
  unfold CoreWire.Message_read, Message_read, mbind, M_bind, err_into.
  destruct (read_exact 4 s) as [[h|e] s1]; [|done]. cbn [map_err].
  change CoreWire.PROTOCOL_VERSION with PROTOCOL_VERSION.
  destruct (negb _); [done|]. rewrite from_u8_parity. unfold lift.
  destruct (MsgType_from_u8 (nth 1 h x00)) as [t|e]; [|done]. cbn [both map_err].
  change CoreWire.MAX_PAYLOAD with MAX_PAYLOAD. destruct (_ <? _); [done|].
  destruct (read_exact _ s1) as [[p|e] s2]; [|done]. cbn [map_err].
  rewrite decode_parity. by destruct (Message_decode_payload t p).
Qed.

(** ** Server-side consequences *)

Definition Message_wf (m : ServerWire.Message) : Prop := CoreWire.Message_wf (to_core m).
Definition sendable (m : ServerWire.Message) : Prop := CoreWire.sendable (to_core m).
Definition frame (m : ServerWire.Message) : bytes := CoreWire.frame (to_core m).

#[export] Instance server_sendable_dec m : Decision (sendable m).
Proof. unfold sendable. apply _. Defined.

Lemma server_write m s :
  Message_write m s =
    if CoreWire.MAX_PAYLOAD <? len (Message_encode_payload m) then (Err payload_too_long, s)
    else write_all (frame m) s.
Proof. rewrite <- write_parity, CoreWire.Message_write_eq, encode_parity. done. Qed.

Lemma server_write_ok m i re t :
  sendable m -> Message_write m (Stream i re t []) = (Ok tt, Stream i re (t ++ frame m) []).
Proof.
  intros Hm. rewrite server_write. pose proof (CoreWire.sendable_fits _ Hm) as Hf.
  unfold CoreWire.fits in Hf. rewrite encode_parity in Hf.
  by destruct (Z.ltb_spec CoreWire.MAX_PAYLOAD (len (Message_encode_payload m))); [lia|].
Qed.

Lemma server_read_frame m k re t fs :
  sendable m -> Message_read (Stream (frame m ++ k) re t fs) = (Ok m, Stream k re t fs).
Proof.
  intros Hm. pose proof (read_parity (Stream (frame m ++ k) re t fs)) as H.
  unfold frame in H. rewrite CoreWire.Message_read_write in H by first
    [apply Hm | by apply CoreWire.sendable_fits].
  fold (frame m) in H. destruct (Message_read _) as [[m'|e] s']; [|done].
  injection H as H ->. by apply to_core_inj in H as ->.
Qed.

Lemma server_read_wf s m s' : Message_read s = (Ok m, s') -> Message_wf m.
Proof.
  intros H. pose proof (read_parity s) as Hp. rewrite H in Hp.
  apply CoreWire.Message_read_inv in Hp as (? & _ & _ & Hb & _). exact Hb.
Qed.

(** Reading back any message but an error (whose text may be repaired). *)
Lemma server_read_frame_inv s m s' :
  Message_read s = (Ok m, s') -> (forall e, m <> MError e) ->
  sendable m /\ rx s = frame m ++ rx s'.
Proof.
  intros H Hne. pose proof (server_read_wf _ _ _ H) as Hwf. pose proof (read_parity s) as Hp.
  rewrite H in Hp. apply CoreWire.Message_read_inv in Hp as (p & Hrx & _ & Hb).
  apply CoreWire.body_of_frame in Hb as [->|(e & t & He & _)].
  - split.
    + split; [exact Hwf|]. destruct m as [| | | | |e]; try exact I. by destruct (Hne e).
    + rewrite Hrx. unfold frame, CoreWire.frame. by rewrite <- !app_assoc.
  - destruct m as [| | | | |e']; try discriminate He. by destruct (Hne e').
Qed.

(** ** Properties *)

(** C13: parity.  For every message and stream, the client's [write] and the
    server's [write] do the same thing, byte for byte; for every stream, the
    client's [read] and the server's [read] return the same message (or the
    same error) and leave the stream at the same place. *)
Theorem wire_formats_agree :
  (forall m s, CoreWire.Message_write (to_core m) s = ServerWire.Message_write m s) /\
  (forall s, CoreWire.Message_read s =
     let '(r, s') := ServerWire.Message_read s in
     (match r with Ok m => Ok (to_core m) | Err e => Err (frame_err_to_core e) end, s')).
Proof. split; [apply write_parity | apply read_parity]. Qed.

(** the server's round trip, and so the two ends understand each other:
    the frame the server writes for a sendable message is read back by the
    server as that message and by the client as its renaming. *)
Theorem server_message_roundtrip m i re t k re' t' fs' :
  sendable m ->
  ServerWire.Message_write m (Stream i re t []) = (Ok tt, Stream i re (t ++ frame m) []) /\
  ServerWire.Message_read (Stream (frame m ++ k) re' t' fs') = (Ok m, Stream k re' t' fs') /\
  CoreWire.Message_read (Stream (frame m ++ k) re' t' fs') = (Ok (to_core m), Stream k re' t' fs').
Proof.
  intros Hm. split_and!; [by apply server_write_ok | by apply server_read_frame|].
  by rewrite read_parity, server_read_frame.
Qed.

Lemma server_message_roundtrip_witness :
  let m := MServerFinish {| sf_session_id := arr_fill 16 xab; server_tag := arr_fill 32 x04;
    server_wg_pubkey := arr_fill 32 x5a; assigned_ip := arr_copy 4 [x0a; x08; x00; x02];
    wg_port := u16_of_be xca x6c |} in
  sendable m /\
  CoreWire.Message_read (Stream (frame m ++ []) eof [] []) = (Ok (to_core m), Stream [] eof [] []).
Proof.
  intros m. assert (sendable m) as H by (split; exact I). split; [exact H|].
  exact (proj2 (proj2 (server_message_roundtrip m [] eof [] [] eof [] [] H))).
Defined.
