(* ===== verification/Gate.v ===== *)
(** * The decision gate

    [core/src/rl/gate.rs]: debounces the policy's per-tick output.  A panic of
    the source ([unreachable!]) is [None]; [u32] counters are integers with the
    release build's wrap-around. *)

From S2P Require Import Prelude Ieee Algorithm.

Definition TICK_SECONDS : Z := 5.
Definition CONFIRM_TICKS : Z := 3.
Definition MIN_MARGIN : f32 := f32_lit 15 100.
Definition REKEY_COOLDOWN_TICKS : Z := 12.
Definition REKEY_ESCALATES : bool := true.
Definition ACTION_COUNT : nat := 4.
Definition REKEY_ACTION_INDEX : nat := 3.

Definition REASON_AGREES : string := "policy agrees with in-force".
Definition REASON_LOW_MARGIN : string := "challenger margin below the minimum".
Definition REASON_ON_STREAK : string := "challenger on streak, not yet confirmed".
Definition REASON_CONFIRMED : string := "challenger confirmed for the full streak".
Definition REASON_REKEY : string := "rekey requested and cooldown clear".
Definition REASON_REKEY_ESCALATED : string :=
  "rekey requested; escalating to the policy's top-ranked KEM".
Definition REASON_REKEY_SUPPRESSED : string := "rekey suppressed, cooldown still running".

Inductive PolicyAction : Set := Kem (l : MlKemLevel) | RekeyNow.

Definition PolicyAction_from_index (index : nat) : option PolicyAction :=
  if (index =? REKEY_ACTION_INDEX)%nat then Some RekeyNow
  else
    b ← (if Z.of_nat index <? 256 then Some (z2b (Z.of_nat index)) else None);
    l ← from_wire_code b;
    Some (Kem l).

Definition PolicyAction_index (a : PolicyAction) : nat :=
  match a with
  | Kem l => Z.to_nat (b2z (wire_code l))
  | RekeyNow => REKEY_ACTION_INDEX
  end.

(** [[f32; ACTION_COUNT]].  Indexing past the end would panic; every index used
    is below 4 ([argmax_range], [in_force_idx]). *)
Record f32x4 : Set := F4 { at0 : f32; at1 : f32; at2 : f32; at3 : f32 }.
Definition at_ (p : f32x4) (i : nat) : f32 :=
  match i with 0%nat => at0 p | 1%nat => at1 p | 2%nat => at2 p | 3%nat => at3 p | _ => S754_nan end.

(** Softmax, over the platform's [f32::exp]. *)
Definition softmax (exp : f32 -> f32) (logits : f32x4) : f32x4 :=
  let max := fold_left f_max [at0 logits; at1 logits; at2 logits; at3 logits] (S754_infinity true) in
  let e x := exp (f32_sub x max) in
  let '(F4 a b c d) := logits in
  let '(a, b, c, d) := (e a, e b, e c, e d) in
  let sum := fold_left f32_add [a; b; c; d] (S754_zero true) in
  F4 (f32_div a sum) (f32_div b sum) (f32_div c sum) (f32_div d sum).

Record Decision : Set := {
  d_in_force : MlKemLevel;
  change_algorithm : bool;
  rekey : bool;
  reason : string
}.

Record DecisionGate : Set := {
  in_force : MlKemLevel;
  confirm_ticks : Z;
  min_margin : f32;
  rekey_cooldown_ticks : Z;
  rekey_escalates : bool;
  candidate : option nat;
  streak : Z;
  rekey_blocked_for : Z
}.

Definition DecisionGate_with_params (l : MlKemLevel) (confirm : Z) (margin : f32)
    (cooldown : Z) (escalates : bool) : DecisionGate :=
  {| in_force := l; confirm_ticks := confirm; min_margin := margin;
     rekey_cooldown_ticks := cooldown; rekey_escalates := escalates;
     candidate := None; streak := 0; rekey_blocked_for := 0 |}.

Definition DecisionGate_new (l : MlKemLevel) : DecisionGate :=
  DecisionGate_with_params l CONFIRM_TICKS MIN_MARGIN REKEY_COOLDOWN_TICKS REKEY_ESCALATES.

(** Assignments to the mutable fields. *)
Definition set_in_force (l : MlKemLevel) (g : DecisionGate) : DecisionGate :=
  {| in_force := l; confirm_ticks := confirm_ticks g; min_margin := min_margin g;
     rekey_cooldown_ticks := rekey_cooldown_ticks g; rekey_escalates := rekey_escalates g;
     candidate := candidate g; streak := streak g; rekey_blocked_for := rekey_blocked_for g |}.
Definition set_streak (c : option nat) (s : Z) (g : DecisionGate) : DecisionGate :=
  {| in_force := in_force g; confirm_ticks := confirm_ticks g; min_margin := min_margin g;
     rekey_cooldown_ticks := rekey_cooldown_ticks g; rekey_escalates := rekey_escalates g;
     candidate := c; streak := s; rekey_blocked_for := rekey_blocked_for g |}.
Definition set_blocked (b : Z) (g : DecisionGate) : DecisionGate :=
  {| in_force := in_force g; confirm_ticks := confirm_ticks g; min_margin := min_margin g;
     rekey_cooldown_ticks := rekey_cooldown_ticks g; rekey_escalates := rekey_escalates g;
     candidate := candidate g; streak := streak g; rekey_blocked_for := b |}.

Definition decision (g : DecisionGate) (change rk : bool) (why : string) : Decision :=
  {| d_in_force := in_force g; change_algorithm := change; rekey := rk; reason := why |}.

(** The loop of [argmax] over [lo..hi]. *)
Definition argmax (p : f32x4) (lo hi : nat) : nat :=
  fold_left (fun best i => if f_gt (at_ p i) (at_ p best) then i else best)
    (seq lo (hi - lo)) lo.

Definition level_at (index : nat) : option MlKemLevel :=
  match PolicyAction_from_index index with
  | Some (Kem l) => Some l
  | _ => None
  end.

Definition DecisionGate_update (probs : f32x4) (g : DecisionGate) : option (DecisionGate * Decision) :=
  let g := set_blocked (Z.max 0 (rekey_blocked_for g - 1)) g in
  let top := argmax probs 0 ACTION_COUNT in
  let in_force_idx := Z.to_nat (b2z (wire_code (in_force g))) in
  let extends_streak :=
    negb (top =? REKEY_ACTION_INDEX)%nat && negb (top =? in_force_idx)%nat
    && f_ge (f32_sub (at_ probs top) (at_ probs in_force_idx)) (min_margin g) in
  let g :=
    if negb extends_streak then set_streak None 0 g
    else if decide (candidate g = Some top) then set_streak (candidate g) (u32_wrap (streak g + 1)) g
    else set_streak (Some top) 1 g in
  if (top =? REKEY_ACTION_INDEX)%nat then
    if 0 <? rekey_blocked_for g then Some (g, decision g false false REASON_REKEY_SUPPRESSED)
    else
      let g := set_blocked (rekey_cooldown_ticks g) g in
      if rekey_escalates g then
        best_kem ← level_at (argmax probs 0 REKEY_ACTION_INDEX);
        if level_ltb (in_force g) best_kem then
          let g := set_in_force best_kem g in
          Some (g, decision g false true REASON_REKEY_ESCALATED)
        else Some (g, decision g false true REASON_REKEY)
      else Some (g, decision g false true REASON_REKEY)
  else if (top =? in_force_idx)%nat then Some (g, decision g false false REASON_AGREES)
  else if negb extends_streak then Some (g, decision g false false REASON_LOW_MARGIN)
  else if confirm_ticks g <=? streak g then
    l ← level_at top;
    let g := set_streak None 0 (set_in_force l g) in
    Some (g, decision g true false REASON_CONFIRMED)
  else Some (g, decision g false false REASON_ON_STREAK).

(** A session: one [update] per tick, decisions in order. *)
Fixpoint run (g : DecisionGate) (ticks : list f32x4) : option (DecisionGate * list Decision) :=
  match ticks with
  | [] => Some (g, [])
  | p :: ps =>
      '(g1, d) ← DecisionGate_update p g;
      '(g2, ds) ← run g1 ps;
      Some (g2, d :: ds)
  end.

(** ** Indices *)

Lemma argmax_range p lo hi : (lo < hi)%nat -> (lo <= argmax p lo hi < hi)%nat.
Proof.
  intros Hlt. unfold argmax.
  enough (H : forall l best, Forall (fun i => lo <= i < hi)%nat l -> (lo <= best < hi)%nat ->
    (lo <= fold_left (fun best i => if f_gt (at_ p i) (at_ p best) then i else best) l best < hi)%nat).
  { apply H; [|lia]. apply Forall_forall. intros i Hi. apply in_seq in Hi. lia. }
  induction l as [|i l IH]; intros best Hl Hb; [done|]. simpl.
  apply Forall_cons_1 in Hl as [Hi Hl]. apply IH; [done|]. by case_match.
Qed.

Definition idx (l : MlKemLevel) : nat := Z.to_nat (b2z (wire_code l)).

Lemma level_at_idx l : level_at (idx l) = Some l.
Proof. by destruct l. Qed.

Lemma idx_inj a b : idx a = idx b -> a = b.
Proof. by destruct a, b. Qed.

Lemma level_at_kem i : (i < 3)%nat -> exists l, level_at i = Some l /\ idx l = i.
Proof.
  intros Hi. destruct i as [|[|[|?]]]; [by exists MlKem512|by exists MlKem768|by exists MlKem1024|lia].
Qed.

Lemma PolicyAction_roundtrip a : PolicyAction_from_index (PolicyAction_index a) = Some a.
Proof. by destruct a as [[]|]. Qed.

(** ** One tick, against a specification in terms of levels

    [challenger p l c margin]: this tick the policy prefers the KEM [c] to the
    one in force, [l], by at least [margin]. *)

Definition top_action (p : f32x4) : nat := argmax p 0 ACTION_COUNT.
Definition challenger (p : f32x4) (l c : MlKemLevel) (margin : f32) : bool :=
  (top_action p =? idx c)%nat && negb (bool_decide (c = l))
  && f_ge (f32_sub (at_ p (idx c)) (at_ p (idx l))) margin.
Definition best_kem (p : f32x4) : nat := argmax p 0 REKEY_ACTION_INDEX.

Inductive verdict :=
  | Rekeys | Challenges (c : MlKemLevel) | Agrees | LowMargin.

Definition classify (p : f32x4) (l : MlKemLevel) (margin : f32) : verdict :=
  if (top_action p =? REKEY_ACTION_INDEX)%nat then Rekeys
  else if (top_action p =? idx l)%nat then Agrees
  else match level_at (top_action p) with
       | Some c => if challenger p l c margin then Challenges c else LowMargin
       | None => LowMargin
       end.

Lemma classify_challenges p l margin c :
  classify p l margin = Challenges c -> challenger p l c margin = true.
Proof. unfold classify. intros H. repeat case_match; by simplify_eq. Qed.

Definition gate_wf (g : DecisionGate) : Prop :=
  0 <= confirm_ticks g < 2 ^ 32 /\ 0 <= rekey_cooldown_ticks g < 2 ^ 32 /\
  0 <= rekey_blocked_for g < 2 ^ 32 /\
  match candidate g with
  | None => streak g = 0
  | Some c => (c < 3)%nat /\ c <> idx (in_force g) /\ 1 <= streak g < confirm_ticks g
  end.

(** What a tick does to the gate, verdict by verdict; [update_spec] shows that
    [DecisionGate_update] is exactly this. *)
Definition tick (g : DecisionGate) : DecisionGate :=
  set_blocked (Z.max 0 (rekey_blocked_for g - 1)) g.

Definition next_streak (g : DecisionGate) (c : MlKemLevel) : Z :=
  if decide (candidate g = Some (idx c)) then streak g + 1 else 1.

Definition stronger_of (p : f32x4) (l : MlKemLevel) : MlKemLevel :=
  match level_at (best_kem p) with
  | Some b => if level_ltb l b then b else l
  | None => l
  end.

Definition step_spec (p : f32x4) (g : DecisionGate) : DecisionGate * Decision :=
  let g := tick g in
  match classify p (in_force g) (min_margin g) with
  | Rekeys =>
      let g := set_streak None 0 g in
      if 0 <? rekey_blocked_for g then (g, decision g false false REASON_REKEY_SUPPRESSED)
      else
        let l := if rekey_escalates g then stronger_of p (in_force g) else in_force g in
        let why := if bool_decide (l = in_force g) then REASON_REKEY else REASON_REKEY_ESCALATED in
        let g := set_in_force l (set_blocked (rekey_cooldown_ticks g) g) in
        (g, decision g false true why)
  | Agrees => let g := set_streak None 0 g in (g, decision g false false REASON_AGREES)
  | LowMargin => let g := set_streak None 0 g in (g, decision g false false REASON_LOW_MARGIN)
  | Challenges c =>
      if confirm_ticks g <=? next_streak g c then
        let g := set_streak None 0 (set_in_force c g) in (g, decision g true false REASON_CONFIRMED)
      else
        let g := set_streak (Some (idx c)) (next_streak g c) g in
        (g, decision g false false REASON_ON_STREAK)
  end.

Lemma level_ltb_neq a b : level_ltb a b = true -> b <> a.
Proof. unfold level_ltb. intros H ->. lia. Qed.

Lemma next_streak_wrap g c : gate_wf g -> u32_wrap (streak g + 1) = streak g + 1 \/
  candidate g <> Some (idx c).
Proof.
  intros (Hc & _ & _ & Hs). destruct (candidate g) as [i|] eqn:E; [left|by right].
  unfold u32_wrap. apply Z.mod_small. lia.
Qed.

Lemma update_spec p g : gate_wf g -> DecisionGate_update p g = Some (step_spec p g).
Proof.
  intros Hwf. pose proof (argmax_range p 0 4 ltac:(lia)) as Htop.
  pose proof (argmax_range p 0 3 ltac:(lia)) as Hbest.
  unfold DecisionGate_update, step_spec, classify, top_action, ACTION_COUNT, REKEY_ACTION_INDEX in *.
  fold (tick g). change (Z.to_nat (b2z (wire_code (in_force (tick g))))) with (idx (in_force (tick g))).
  set (top := argmax p 0 4) in *.
  destruct (Nat.eqb_spec top 3) as [H3|H3]; cbn [negb andb].
  - simpl. destruct (0 <? _); [done|]. destruct (rekey_escalates g); simpl.
    + unfold stronger_of, best_kem, REKEY_ACTION_INDEX.
      destruct (level_at_kem (argmax p 0 3) ltac:(lia)) as (b & -> & _). simpl.
      destruct (level_ltb (in_force g) b) eqn:Hl.
      * by rewrite bool_decide_false by by apply level_ltb_neq.
      * by rewrite bool_decide_true.
    + by rewrite bool_decide_true.
  - destruct (level_at_kem top ltac:(lia)) as (c & Hc & Hi). rewrite Hc.
    unfold challenger, top_action, ACTION_COUNT. fold top. rewrite <- Hi.
    destruct (Nat.eqb_spec (idx c) (idx (in_force (tick g)))) as [He|He]; cbn [negb andb]; [done|].
    rewrite Nat.eqb_refl, (bool_decide_false (c = _)) by (intros ->; done). cbn [negb andb].
    destruct (f_ge _ _); cbn [negb]; [|done].
    unfold next_streak. simpl. pose proof (next_streak_wrap g c Hwf) as Hw.
    destruct (decide (candidate g = Some (idx c))) as [E|E]; simpl.
    + destruct Hw as [->|?]; [|done]. rewrite E. by destruct (_ <=? _).
    + by destruct (_ <=? _).
Qed.

Definition same_params (g g' : DecisionGate) : Prop :=
  confirm_ticks g' = confirm_ticks g /\ min_margin g' = min_margin g /\
  rekey_cooldown_ticks g' = rekey_cooldown_ticks g /\ rekey_escalates g' = rekey_escalates g.

Lemma tick_wf g : gate_wf g -> gate_wf (tick g).
Proof. intros (? & ? & ? & ?). repeat split; simpl; [lia..|done]. Qed.

Lemma classify_neq p l m c : classify p l m = Challenges c -> c <> l.
Proof.
  intros H%classify_challenges ->. unfold challenger in H.
  rewrite bool_decide_true in H by done. by destruct (_ =? _)%nat.
Qed.

Lemma step_wf p g : gate_wf g -> gate_wf (fst (step_spec p g)).
Proof.
  intros Hwf%tick_wf. unfold step_spec. set (g1 := tick g) in *. clearbody g1.
  destruct Hwf as (? & ? & ? & Hs). destruct (classify _ _ _) as [|c| |] eqn:Hc.
  - destruct (0 <? _); repeat split; simpl; lia.
  - destruct (confirm_ticks g1 <=? next_streak g1 c) eqn:Hk; repeat split; simpl; try lia.
    + destruct c; vm_compute; lia.
    + intros E%idx_inj. by eapply classify_neq.
    + unfold next_streak. case_decide as E; [rewrite E in Hs|]; lia.
  - repeat split; simpl; lia.
  - repeat split; simpl; lia.
Qed.

Lemma step_params p g : same_params g (fst (step_spec p g)).
Proof.
  unfold step_spec. destruct (classify _ _ _); simpl; [|destruct (_ <=? _)|..]; simpl; try done.
  by destruct (0 <? _).
Qed.

(** ** Runs *)

Lemma run_snoc g ps p :
  run g (ps ++ [p]) =
    '(g1, ds) ← run g ps; '(g2, d) ← DecisionGate_update p g1; Some (g2, ds ++ [d]).
Proof.
  revert g. induction ps as [|q ps IH]; intros g; simpl.
  - destruct (DecisionGate_update p g) as [[g2 d]|]; done.
  - destruct (DecisionGate_update q g) as [[g1 d]|]; simpl; [|done]. rewrite IH.
    destruct (run g1 ps) as [[g2 ds]|]; simpl; [|done].
    by destruct (DecisionGate_update p g2) as [[g3 d3]|].
Qed.

Lemma run_total g ps : gate_wf g -> exists g' ds, run g ps = Some (g', ds) /\ gate_wf g' /\
  same_params g g' /\ length ds = length ps.
Proof.
  intros Hwf. induction ps as [|p ps IH] using rev_ind.
  - exists g, []. done.
  - destruct IH as (g1 & ds & E & Hw1 & Hp1 & Hlen). rewrite run_snoc, E. simpl.
    rewrite update_spec by done. pose proof (step_wf p g1 Hw1) as Hw2.
    pose proof (step_params p g1) as Hp2. destruct (step_spec p g1) as [g2 d]. simpl in *.
    exists g2, (ds ++ [d]). split; [done|]. split; [done|]. split.
    + unfold same_params in *. intuition congruence.
    + rewrite !length_app. simpl. lia.
Qed.

Lemma run_snoc_inv g ps p g' ds :
  gate_wf g -> run g (ps ++ [p]) = Some (g', ds) ->
  exists g1 ds1 d, run g ps = Some (g1, ds1) /\ gate_wf g1 /\ same_params g g1 /\
    length ds1 = length ps /\ step_spec p g1 = (g', d) /\ ds = ds1 ++ [d].
Proof.
  intros Hwf Hrun. destruct (run_total g ps Hwf) as (g1 & ds1 & E & Hw1 & Hp1 & Hlen).
  rewrite run_snoc, E in Hrun. simpl in Hrun. rewrite update_spec in Hrun by done. simpl in Hrun.
  destruct (step_spec p g1) as [g2 d2] eqn:Hs. injection Hrun as <- <-.
  by exists g1, ds1, d2.
Qed.

(** The state before tick [n] of a run, and what that tick decided. *)
Lemma run_at g ps g' ds n d :
  gate_wf g -> run g ps = Some (g', ds) -> ds !! n = Some d ->
  exists p gn, ps !! n = Some p /\ run g (take n ps) = Some (gn, take n ds) /\
    gate_wf gn /\ same_params g gn /\ d = snd (step_spec p gn).
Proof.
  intros Hwf. revert g' ds. induction ps as [|p ps IH] using rev_ind; intros g' ds Hrun Hd.
  { by injection Hrun as <- <-. }
  apply run_snoc_inv in Hrun as (g1 & ds1 & d2 & E & Hw1 & Hp1 & Hlen & Hs & ->); [|done].
  destruct (decide (n < length ds1)%nat) as [Hn|Hn].
  - rewrite lookup_app_l in Hd by done. rewrite take_app_le by lia.
    rewrite lookup_app_l by lia. rewrite take_app_le by lia. by apply (IH g1).
  - pose proof (lookup_lt_Some _ _ _ Hd) as Hl. rewrite length_app in Hl. simpl in Hl.
    assert (n = length ds1) as -> by lia.
    rewrite lookup_app_r, Nat.sub_diag in Hd by lia. injection Hd as <-.
    exists p, g1. rewrite Hlen at 1 2.
    rewrite lookup_app_r, Nat.sub_diag, !take_app_length by lia.
    split; [done|]. split; [done|]. split; [done|]. split; [done|]. by rewrite Hs.
Qed.

(** ** Invariants of a run *)

(** The candidate on the gate has won the last [streak] ticks, at an algorithm
    that did not move meanwhile. *)
Definition streak_history (g : DecisionGate) (ps : list f32x4) (ds : list Decision) : Prop :=
  forall c, candidate g = Some (idx c) ->
    streak g <= len ps /\
    forall j, len ps - streak g <= Z.of_nat j < len ps ->
      (exists p, ps !! j = Some p /\ challenger p (in_force g) c (min_margin g) = true) /\
      (exists d, ds !! j = Some d /\ d_in_force d = in_force g).

(** Extending a history by one tick that the same challenger wins. *)
Lemma history_extend (l c : MlKemLevel) (m : f32) (k : Z) ps ds p d :
  length ds = length ps ->
  (forall j, len ps - k <= Z.of_nat j < len ps ->
    (exists p, ps !! j = Some p /\ challenger p l c m = true) /\
    (exists d, ds !! j = Some d /\ d_in_force d = l)) ->
  challenger p l c m = true -> d_in_force d = l ->
  forall j, len (ps ++ [p]) - (k + 1) <= Z.of_nat j < len (ps ++ [p]) ->
    (exists p', (ps ++ [p]) !! j = Some p' /\ challenger p' l c m = true) /\
    (exists d', (ds ++ [d]) !! j = Some d' /\ d_in_force d' = l).
Proof.
  intros Hlen H Hp Hd j Hj. rewrite len_app in Hj. unfold len in *. simpl in Hj.
  destruct (decide (j < length ps)%nat) as [Hlt|Hge].
  - rewrite !lookup_app_l by lia. apply H. lia.
  - assert (j = length ps) as -> by lia.
    rewrite (lookup_app_r ps), (lookup_app_r ds), Hlen, Nat.sub_diag by lia.
    split; [by exists p | by exists d].
Qed.

Lemma idx_lt l : (idx l < 3)%nat.
Proof. destruct l; vm_compute; lia. Qed.

Lemma next_streak_history g ps ds c p d :
  gate_wf g -> streak_history g ps ds -> length ds = length ps ->
  challenger p (in_force g) c (min_margin g) = true -> d_in_force d = in_force g ->
  next_streak g c <= len (ps ++ [p]) /\
  forall j, len (ps ++ [p]) - next_streak g c <= Z.of_nat j < len (ps ++ [p]) ->
    (exists p', (ps ++ [p]) !! j = Some p' /\ challenger p' (in_force g) c (min_margin g) = true) /\
    (exists d', (ds ++ [d]) !! j = Some d' /\ d_in_force d' = in_force g).
Proof.
  intros Hwf Hh Hlen Hp Hd. unfold next_streak. case_decide as E.
  - destruct (Hh c E) as [Hs Hj]. split; [rewrite len_app, len_cons, len_nil; lia|].
    by apply history_extend.
  - split; [rewrite len_app, len_cons, len_nil; pose proof (len_nonneg ps); lia|].
    change 1 with (0 + 1). apply history_extend; [done| |done..]. intros j Hj. lia.
Qed.

Lemma run_streak_history g ps g' ds :
  gate_wf g -> candidate g = None -> run g ps = Some (g', ds) -> streak_history g' ps ds.
Proof.
  intros Hwf Hnone. revert g' ds. induction ps as [|p ps IH] using rev_ind; intros g' ds Hrun.
  { injection Hrun as <- <-. intros c E. congruence. }
  apply run_snoc_inv in Hrun as (g1 & ds1 & d & E & Hw1 & Hp1 & Hlen & Hs & ->); [|done].
  specialize (IH _ _ E). unfold step_spec in Hs.
  destruct (classify p (in_force (tick g1)) (min_margin (tick g1))) as [|c| |] eqn:Hc.
  - destruct (0 <? _); injection Hs as <- <-; intros c; simpl; discriminate.
  - destruct (_ <=? _); injection Hs as <- <-; intros c' Hc'; simpl in Hc'; [discriminate|].
    injection Hc' as Hc'%idx_inj. subst c'.
    apply (next_streak_history g1); simpl; try done. by apply (classify_challenges _ _ _ _ Hc).
  - injection Hs as <- <-. intros c'. discriminate.
  - injection Hs as <- <-. intros c'. discriminate.
Qed.

(** The cooldown counter is a function of the decisions alone. *)
Definition cooldown_after (C b : Z) (ds : list Decision) : Z :=
  fold_left (fun b d => if rekey d then C else Z.max 0 (b - 1)) ds b.

Lemma run_cooldown g ps g' ds :
  gate_wf g -> run g ps = Some (g', ds) ->
  rekey_blocked_for g' = cooldown_after (rekey_cooldown_ticks g) (rekey_blocked_for g) ds.
Proof.
  intros Hwf. revert g' ds. induction ps as [|p ps IH] using rev_ind; intros g' ds Hrun.
  { by injection Hrun as <- <-. }
  apply run_snoc_inv in Hrun as (g1 & ds1 & d & E & Hw1 & Hp1 & Hlen & Hs & ->); [|done].
  specialize (IH _ _ E).
  destruct Hp1 as (_ & _ & HC & _). rewrite <- HC in *.
  unfold cooldown_after in *. rewrite fold_left_app. simpl. rewrite <- IH.
  unfold step_spec in *. destruct (classify _ _ _) as [|c| |].
  - destruct (0 <? _); by injection Hs as <- <-.
  - destruct (_ <=? _); by injection Hs as <- <-.
  - by injection Hs as <- <-.
  - by injection Hs as <- <-.
Qed.

(** Which earlier rekeys still block after [ds]. *)
Lemma cooldown_after_blocks C ds m :
  0 <= m -> m < cooldown_after C 0 ds <->
  exists i d, ds !! i = Some d /\ rekey d = true /\ len ds - 1 - Z.of_nat i + m < C.
Proof.
  unfold cooldown_after. revert m. induction ds as [|d ds IH] using rev_ind; intros m Hm.
  { simpl. split; [lia|]. intros (i & d & H & _). done. }
  rewrite fold_left_app. simpl. set (b := fold_left _ ds 0) in *.
  assert (len (ds ++ [d]) = len ds + 1) as -> by (unfold len; rewrite length_app; simpl; lia).
  destruct (rekey d) eqn:Hd.
  - split.
    + intros H. exists (length ds), d. unfold len. rewrite lookup_app_r, Nat.sub_diag by lia.
      split; [done|]. split; [done|]. lia.
    + intros (i & d' & Hl%lookup_lt_Some & _ & H). rewrite length_app in Hl. unfold len in *.
      simpl in Hl. lia.
  - transitivity (m + 1 < b); [lia|]. rewrite (IH (m + 1)) by lia. split.
    + intros (i & d' & Hl & Hr & H). exists i, d'.
      rewrite lookup_app_l by by eapply lookup_lt_Some. split; [done|]. split; [done|]. lia.
    + intros (i & d' & Hl & Hr & H). destruct (decide (i < length ds)%nat) as [Hi|Hi].
      * rewrite lookup_app_l in Hl by done. exists i, d'. split; [done|]. split; [done|]. lia.
      * rewrite lookup_app_r in Hl by lia. apply list_lookup_singleton_Some in Hl as [_ <-]. congruence.
Qed.

Lemma stronger_of_le p l : level_le l (stronger_of p l).
Proof.
  unfold stronger_of. destruct (level_at _) as [b|]; [|unfold level_le; lia].
  destruct (level_ltb l b) eqn:E; unfold level_le, level_ltb in *; lia.
Qed.

Lemma step_rekey p g :
  rekey (snd (step_spec p g)) = true <->
  top_action p = REKEY_ACTION_INDEX /\ rekey_blocked_for g <= 1.
Proof.
  unfold step_spec, classify. destruct (Nat.eqb_spec (top_action p) REKEY_ACTION_INDEX) as [E|E].
  - simpl. destruct (Z.ltb_spec 0 (Z.max 0 (rekey_blocked_for g - 1))) as [H|H].
    + split; [discriminate|lia].
    + split; [intros _; split; [done|lia] | done].
  - split; [|by intros [? _]]. destruct (_ =? _)%nat; [done|].
    destruct (level_at _) as [c|]; [|done]. destruct (challenger _ _ _ _); [|done].
    by destruct (_ <=? _).
Qed.

Lemma step_change p g :
  change_algorithm (snd (step_spec p g)) = true ->
  exists c, classify p (in_force g) (min_margin g) = Challenges c /\
    confirm_ticks g <= next_streak g c /\ in_force (fst (step_spec p g)) = c.
Proof.
  unfold step_spec. simpl. destruct (classify _ _ _) as [|c| |] eqn:E; simpl; try done.
  - by destruct (0 <? _).
  - change (next_streak (tick g) c) with (next_streak g c).
    destruct (Z.leb_spec (confirm_ticks g) (next_streak g c)); [|done]. intros _. by exists c.
Qed.

Lemma challenger_classify p l c m :
  challenger p l c m = true -> classify p l m = Challenges c.
Proof.
  unfold challenger, classify. intros H.
  apply andb_true_iff in H as [[Ht Hn]%andb_true_iff Hm].
  apply Nat.eqb_eq in Ht. apply negb_true_iff, bool_decide_eq_false in Hn. rewrite Ht.
  rewrite (proj2 (Nat.eqb_neq (idx c) REKEY_ACTION_INDEX)) by (pose proof (idx_lt c); compute in *; lia).
  rewrite (proj2 (Nat.eqb_neq (idx c) (idx l))) by (intros ?%idx_inj; done).
  rewrite level_at_idx. unfold challenger. by rewrite Ht, Nat.eqb_refl, bool_decide_false, Hm.
Qed.

Definition on_streak (l : MlKemLevel) : Decision :=
  {| d_in_force := l; change_algorithm := false; rekey := false; reason := REASON_ON_STREAK |}.

(** [k] challenger ticks short of the confirmation leave a streak of [k]. *)
Lemma run_on_streak g ps c :
  gate_wf g -> candidate g = None -> len ps < Z.max 1 (confirm_ticks g) ->
  Forall (fun p => challenger p (in_force g) c (min_margin g) = true) ps ->
  exists g', run g ps = Some (g', replicate (length ps) (on_streak (in_force g))) /\
    gate_wf g' /\ same_params g g' /\ in_force g' = in_force g /\
    next_streak g' c = len ps + 1.
Proof.
  intros Hwf Hnone. induction ps as [|p ps IH] using rev_ind; intros Hlen Hall.
  - exists g. repeat split; try done; try apply Hwf. unfold next_streak. by rewrite Hnone.
  - assert (len (ps ++ [p]) = len ps + 1) as Hl by (unfold len; rewrite length_app; simpl; lia).
    rewrite Hl in *. apply Forall_app in Hall as [Hps [Hp _]%Forall_cons_1].
    destruct IH as (g1 & Hrun & Hw1 & (Hk & Hm & HC & He) & Hin & Hs); [lia|done|].
    rewrite run_snoc, Hrun. simpl. rewrite update_spec by done.
    pose proof (step_wf p g1 Hw1) as Hw2. unfold step_spec in *.
    change (in_force (tick g1)) with (in_force g1) in *.
    change (min_margin (tick g1)) with (min_margin g1) in *.
    change (next_streak (tick g1) c) with (next_streak g1 c) in *.
    assert (classify p (in_force g1) (min_margin g1) = Challenges c) as Hcl.
    { apply challenger_classify. by rewrite Hin, Hm. }
    rewrite Hcl in Hw2 |- *.
    change (next_streak (tick g1) c) with (next_streak g1 c) in *.
    change (confirm_ticks (tick g1)) with (confirm_ticks g1) in *.
    rewrite (proj2 (Z.leb_gt (confirm_ticks g1) (next_streak g1 c))) in Hw2 |- * by (pose proof (len_nonneg ps); lia).
    simpl in *. eexists. split; [|split; [exact Hw2|]].
    + f_equal. f_equal. rewrite length_app, Nat.add_1_r, replicate_S_end. do 2 f_equal.
      unfold decision, on_streak. simpl. by rewrite Hin.
    + repeat split; try done. unfold next_streak at 1. simpl. rewrite decide_True by done. lia.
Qed.

(** ** Properties *)

(** C19. No tick panics: from any well-formed gate the update is exactly the
    level-by-level specification [step_spec], the result is well-formed again
    (in particular the [u32] streak and cooldown counters never wrap) and the
    parameters are untouched. *)
Theorem gate_tick_refines p g :
  gate_wf g ->
  DecisionGate_update p g = Some (step_spec p g) /\
  gate_wf (fst (step_spec p g)) /\ same_params g (fst (step_spec p g)).
Proof. auto using update_spec, step_wf, step_params. Qed.

(** What one decision promises to the client: the announced algorithm is
    the gate's, a change and a rekey never come together, a rekey never
    downgrades, a change always moves to another level, and without either the
    algorithm in force stays. *)
Theorem gate_decision_contract p g g' d :
  gate_wf g -> DecisionGate_update p g = Some (g', d) ->
  d_in_force d = in_force g' /\
  ~ (change_algorithm d = true /\ rekey d = true) /\
  (rekey d = true -> level_le (in_force g) (in_force g')) /\
  (change_algorithm d = true -> in_force g' <> in_force g) /\
  (change_algorithm d = false -> rekey d = false -> in_force g' = in_force g).
Proof.
  intros Hwf. rewrite update_spec by done. intros [= Hs]. unfold step_spec in Hs.
  destruct (classify _ _ _) as [|c| |] eqn:Hc.
  - destruct (0 <? _); injection Hs as <- <-; simpl; repeat split; try done; try by intros [].
    intros _. destruct (rekey_escalates g); [apply stronger_of_le | unfold level_le; lia].
  - apply classify_neq in Hc.
    destruct (_ <=? _); injection Hs as <- <-; simpl; repeat split; try done; by intros [].
  - injection Hs as <- <-. simpl. repeat split; try done; by intros [].
  - injection Hs as <- <-. simpl. repeat split; try done; by intros [].
Qed.

(** C27. The debounce: when a run from a gate without a candidate changes the
    algorithm at tick [n], the last [max 1 confirm_ticks] ticks, [n] included,
    were all won by the new algorithm, by at least the margin, against one
    algorithm that was in force throughout. *)
Theorem gate_change_confirmed g ps g' ds n d :
  gate_wf g -> candidate g = None -> run g ps = Some (g', ds) ->
  ds !! n = Some d -> change_algorithm d = true ->
  exists l, Z.max 1 (confirm_ticks g) <= Z.of_nat n + 1 /\
    (forall j, Z.of_nat n + 1 - Z.max 1 (confirm_ticks g) <= Z.of_nat j <= Z.of_nat n ->
      exists p, ps !! j = Some p /\ challenger p l (d_in_force d) (min_margin g) = true) /\
    (forall j dj, Z.of_nat n + 1 - Z.max 1 (confirm_ticks g) <= Z.of_nat j < Z.of_nat n ->
      ds !! j = Some dj -> d_in_force dj = l).
Proof.
  intros Hwf Hnone Hrun Hd Hch.
  destruct (run_at _ _ _ _ _ _ Hwf Hrun Hd) as (p & gn & Hp & Hn & Hwn & (Hk & Hm & _) & ->).
  pose proof (lookup_lt_Some _ _ _ Hp) as Hlt. pose proof (lookup_lt_Some _ _ _ Hd) as Hlt'.
  destruct (step_change _ _ Hch) as (c & Hc & Hs & Hin).
  pose proof (run_streak_history _ _ _ _ Hwf Hnone Hn) as Hh.
  pose proof (classify_challenges _ _ _ _ Hc) as Hcp.
  assert (Hlen : length (take n ds) = length (take n ps)) by (rewrite !length_take; lia).
  destruct (next_streak_history gn _ _ c p (decision gn false false REASON_AGREES) Hwn Hh Hlen Hcp eq_refl)
    as [Hle Hj].
  assert (Hnl : len (take n ps ++ [p]) = Z.of_nat n + 1).
  { unfold len. rewrite length_app, length_take. simpl. lia. }
  rewrite Hnl in Hle, Hj. rewrite <- (take_S_r _ _ _ Hp) in Hj.
  assert (Hd_in : d_in_force (snd (step_spec p gn)) = c).
  { unfold step_spec in *. simpl in *. rewrite Hc in *. change (next_streak (tick gn) c) with (next_streak gn c) in *.
    by rewrite (proj2 (Z.leb_le _ _) Hs). }
  rewrite Hd_in. rewrite Hk in Hs. rewrite Hm in Hj. 
  assert (H1 : 1 <= next_streak gn c).
  { unfold next_streak. case_decide as E; [|lia]. destruct Hwn as (_ & _ & _ & Hx).
    rewrite E in Hx. lia. }
  exists (in_force gn). split; [lia|]. split.
  - intros j Hjr. destruct (Hj j ltac:(lia)) as [(q & Hq & Hcq) _].
    rewrite lookup_take_lt in Hq by lia. eauto.
  - intros j dj Hjr Hdj. destruct (Hj j ltac:(lia)) as [_ (q & Hq & <-)].
    rewrite lookup_app_l, lookup_take_lt in Hq by (try rewrite length_take; lia). congruence.
Qed.

(** C29. The debounce lets a steady challenger through: from a gate without a
    candidate, [max 1 confirm_ticks] consecutive ticks won by one challenger
    change the algorithm, exactly at the last of them. *)
Theorem gate_change_fires g ps p c :
  gate_wf g -> candidate g = None -> len ps + 1 = Z.max 1 (confirm_ticks g) ->
  Forall (fun p => challenger p (in_force g) c (min_margin g) = true) (ps ++ [p]) ->
  exists g' d, run g (ps ++ [p]) =
      Some (g', replicate (length ps) (on_streak (in_force g)) ++ [d]) /\
    change_algorithm d = true /\ d_in_force d = c /\ in_force g' = c /\ candidate g' = None.
Proof.
  intros Hwf Hnone Hlen [Hps [Hp _]%Forall_cons_1]%Forall_app.
  destruct (run_on_streak g ps c Hwf Hnone ltac:(lia) Hps)
    as (g1 & Hrun & Hw1 & (Hk & Hm & _) & Hin & Hs).
  rewrite run_snoc, Hrun. simpl. rewrite update_spec by done. unfold step_spec.
  change (in_force (tick g1)) with (in_force g1).
  change (min_margin (tick g1)) with (min_margin g1).
  rewrite (challenger_classify p (in_force g1) c) by (by rewrite Hin, Hm).
  change (next_streak (tick g1) c) with (next_streak g1 c).
  change (confirm_ticks (tick g1)) with (confirm_ticks g1).
  rewrite (proj2 (Z.leb_le (confirm_ticks g1) (next_streak g1 c))) by lia.
  simpl. by do 2 eexists.
Qed.

(** C28. The cooldown, both ways: in a run from a gate that is not cooling
    down, a tick rekeys if and only if the policy's top action is rekey-now
    and every earlier rekey of the run is at least [rekey_cooldown_ticks]
    ticks back. *)
Theorem gate_rekey_iff g ps g' ds n p d :
  gate_wf g -> rekey_blocked_for g = 0 -> run g ps = Some (g', ds) ->
  ps !! n = Some p -> ds !! n = Some d ->
  rekey d = true <->
  top_action p = REKEY_ACTION_INDEX /\
  (forall i di, (i < n)%nat -> ds !! i = Some di -> rekey di = true ->
    rekey_cooldown_ticks g <= Z.of_nat n - Z.of_nat i).
Proof.
  intros Hwf Hb Hrun Hp Hd.
  destruct (run_at _ _ _ _ _ _ Hwf Hrun Hd) as (p' & gn & Hp' & Hn & Hwn & (_ & _ & HC & _) & ->).
  assert (p' = p) as -> by congruence. rewrite step_rekey.
  pose proof (run_cooldown _ _ _ _ Hwf Hn) as Hbn. rewrite Hb in Hbn.
  pose proof (cooldown_after_blocks (rekey_cooldown_ticks g) (take n ds) 1 ltac:(lia)) as Hc.
  rewrite <- Hbn in Hc. pose proof (lookup_lt_Some _ _ _ Hd) as Hlt.
  assert (len (take n ds) = Z.of_nat n) as Hl by (unfold len; rewrite length_take; lia).
  rewrite Hl in Hc. split; intros [Ht Hall]; (split; [done|]).
  - intros i di Hi Hdi Hr. destruct (Z.le_gt_cases (rekey_cooldown_ticks g) (Z.of_nat n - Z.of_nat i)); [done|].
    enough (1 < rekey_blocked_for gn) by lia. apply Hc. exists i, di.
    rewrite lookup_take_lt by done. split; [done|]. split; [done|]. lia.
  - destruct (Z.le_gt_cases (rekey_blocked_for gn) 1) as [|H]; [done|].
    apply Hc in H as (i & di & Hdi & Hr & H). exfalso.
    apply lookup_take_Some in Hdi as [Hdi Hi]. specialize (Hall i di Hi Hdi Hr). lia.
Qed.

(** ** Witnesses *)

(** The policy outputs of the examples: all mass on one action. *)
Definition sure (i : nat) : f32x4 :=
  let v j := if (i =? j)%nat then f32_lit 1 1 else f32_lit 0 1 in F4 (v 0%nat) (v 1%nat) (v 2%nat) (v 3%nat).

Lemma gate_new_wf l : gate_wf (DecisionGate_new l).
Proof. by destruct l; vm_compute. Qed.

Example run_confirms :
  option_map snd (run (DecisionGate_new MlKem512) [sure 2; sure 2; sure 2; sure 3; sure 3; sure 0]) =
  Some [on_streak MlKem512; on_streak MlKem512;
        {| d_in_force := MlKem1024; change_algorithm := true; rekey := false; reason := REASON_CONFIRMED |};
        {| d_in_force := MlKem1024; change_algorithm := false; rekey := true; reason := REASON_REKEY |};
        {| d_in_force := MlKem1024; change_algorithm := false; rekey := false; reason := REASON_REKEY_SUPPRESSED |};
        on_streak MlKem1024].
Proof. by vm_compute. Qed.

Lemma gate_tick_refines_witness :
  gate_wf (fst (step_spec (sure 3) (DecisionGate_new MlKem512))).
Proof. apply (gate_tick_refines (sure 3)), gate_new_wf. Defined.

Lemma gate_decision_contract_witness :
  exists g' d, DecisionGate_update (sure 3) (DecisionGate_new MlKem512) = Some (g', d) /\
    d_in_force d = in_force g'.
Proof.
  do 2 eexists. split; [vm_compute; reflexivity|].
  eapply (gate_decision_contract (sure 3)); [apply (gate_new_wf MlKem512)|]. vm_compute. reflexivity.
Defined.

Lemma gate_change_confirmed_witness :
  exists g' ds d, run (DecisionGate_new MlKem512) [sure 2; sure 2; sure 2] = Some (g', ds) /\
    ds !! 2%nat = Some d /\ exists l, Z.max 1 3 <= 3 /\
    (forall j, 0 <= Z.of_nat j <= 2 -> exists p, [sure 2; sure 2; sure 2] !! j = Some p /\
      challenger p l (d_in_force d) MIN_MARGIN = true).
Proof.
  do 3 eexists. split; [vm_compute; reflexivity|]. split; [reflexivity|].
  edestruct (fun g' ds d => gate_change_confirmed (DecisionGate_new MlKem512) [sure 2; sure 2; sure 2] g' ds 2 d)
    as (l & H1 & H2 & _).
  - apply gate_new_wf.
  - reflexivity.
  - vm_compute. reflexivity.
  - reflexivity.
  - reflexivity.
  - exists l. split; [lia|]. exact H2.
Defined.

Lemma gate_change_fires_witness :
  exists g' d, run (DecisionGate_new MlKem512) ([sure 2; sure 2] ++ [sure 2]) =
    Some (g', replicate 2 (on_streak MlKem512) ++ [d]) /\ d_in_force d = MlKem1024.
Proof.
  edestruct (gate_change_fires (DecisionGate_new MlKem512) [sure 2; sure 2] (sure 2) MlKem1024)
    as (g' & d & H1 & _ & H2 & _).
  - apply gate_new_wf.
  - reflexivity.
  - reflexivity.
  - repeat constructor; vm_compute; reflexivity.
  - exists g', d. split; [exact H1 | exact H2].
Defined.

Lemma gate_rekey_iff_witness :
  exists g' ds d, run (DecisionGate_new MlKem512) (replicate 13 (sure 3)) = Some (g', ds) /\
    ds !! 12%nat = Some d /\ rekey d = true.
Proof.
  do 3 eexists. split; [vm_compute; reflexivity|]. split; [reflexivity|].
  eapply (fun g' ds d => gate_rekey_iff (DecisionGate_new MlKem512) (replicate 13 (sure 3)) g' ds 12 (sure 3) d).
  - apply gate_new_wf.
  - reflexivity.
  - vm_compute. reflexivity.
  - reflexivity.
  - reflexivity.
  - split; [vm_compute; reflexivity|]. intros i di Hi Hdi Hr.
    change (rekey_cooldown_ticks _) with 12.
    do 12 (destruct i as [|i]; [first [lia | (injection Hdi as <-; discriminate Hr)]|]). lia.
Defined.
