(* ===== verification/GateTests.v ===== *)
(** * The gate's contract vectors and unit tests

    The test module of [core/src/rl/gate.rs].  [cases] is the content of
    [contracts/decision_gate_vectors.json], which the Python reference
    implementation produced: the probabilities in thousandths, the expected
    decision of every tick spelled out. *)

From S2P Require Import Prelude Ieee Algorithm Gate.

(** ** The contract file *)

Record Tick := {
  t_probs : f64 * f64 * f64 * f64;
  want_in_force : Z;
  want_in_force_name : string;
  want_change_algorithm : bool;
  want_rekey : bool;
  want_reason : string
}.
Record Case := { case_name : string; initial_in_force : Z; ticks : list Tick }.

(** A decimal of the file with three places, as [serde_json] reads it. *)
Definition thousandths (n : Z) : f64 := f64_lit n 1000.

Definition row (p : Z * Z * Z * Z) (l : Z) (name : string) (change rk : bool) (why : string) : Tick :=
  let '(a, b, c, d) := p in
  {| t_probs := (thousandths a, thousandths b, thousandths c, thousandths d);
     want_in_force := l; want_in_force_name := name; want_change_algorithm := change;
     want_rekey := rk; want_reason := why |}.

(** The reasons that occur in the file. *)
Definition agrees : string := "policy agrees with in-force".
Definition low_margin : string := "challenger margin below the minimum".
Definition on_streak : string := "challenger on streak, not yet confirmed".
Definition confirmed : string := "challenger confirmed for the full streak".
Definition rekeyed : string := "rekey requested and cooldown clear".
Definition escalated : string := "rekey requested; escalating to the policy's top-ranked KEM".
Definition suppressed : string := "rekey suppressed, cooldown still running".

Definition cases : list Case :=
  [{| case_name := "steady state: policy agrees with the algorithm in force";
      initial_in_force := 0;
      ticks :=
        [row (970, 20, 5, 5) 0 "ML-KEM-512" false false agrees;
         row (970, 20, 5, 5) 0 "ML-KEM-512" false false agrees;
         row (970, 20, 5, 5) 0 "ML-KEM-512" false false agrees;
         row (970, 20, 5, 5) 0 "ML-KEM-512" false false agrees] |};
   {| case_name := "single-tick noise spike is absorbed, no handshake";
      initial_in_force := 0;
      ticks :=
        [row (970, 20, 5, 5) 0 "ML-KEM-512" false false agrees;
         row (20, 950, 20, 10) 0 "ML-KEM-512" false false on_streak;
         row (970, 20, 5, 5) 0 "ML-KEM-512" false false agrees;
         row (970, 20, 5, 5) 0 "ML-KEM-512" false false agrees] |};
   {| case_name := "sustained escalation is confirmed on the third tick";
      initial_in_force := 0;
      ticks :=
        [row (970, 20, 5, 5) 0 "ML-KEM-512" false false agrees;
         row (20, 950, 20, 10) 0 "ML-KEM-512" false false on_streak;
         row (20, 950, 20, 10) 0 "ML-KEM-512" false false on_streak;
         row (20, 950, 20, 10) 1 "ML-KEM-768" true false confirmed;
         row (20, 950, 20, 10) 1 "ML-KEM-768" false false agrees] |};
   {| case_name := "alternating challengers never accumulate a streak";
      initial_in_force := 0;
      ticks :=
        [row (20, 950, 20, 10) 0 "ML-KEM-512" false false on_streak;
         row (20, 20, 950, 10) 0 "ML-KEM-512" false false on_streak;
         row (20, 950, 20, 10) 0 "ML-KEM-512" false false on_streak;
         row (20, 20, 950, 10) 0 "ML-KEM-512" false false on_streak] |};
   {| case_name := "ambiguous state: margin below threshold blocks the change";
      initial_in_force := 0;
      ticks :=
        [row (450, 520, 20, 10) 0 "ML-KEM-512" false false low_margin;
         row (450, 520, 20, 10) 0 "ML-KEM-512" false false low_margin;
         row (450, 520, 20, 10) 0 "ML-KEM-512" false false low_margin;
         row (450, 520, 20, 10) 0 "ML-KEM-512" false false low_margin;
         row (450, 520, 20, 10) 0 "ML-KEM-512" false false low_margin] |};
   {| case_name := "rekey fires immediately, then the cooldown holds";
      initial_in_force := 0;
      ticks :=
        [row (50, 50, 100, 800) 2 "ML-KEM-1024" false true escalated;
         row (50, 50, 100, 800) 2 "ML-KEM-1024" false false suppressed;
         row (50, 50, 100, 800) 2 "ML-KEM-1024" false false suppressed] |};
   {| case_name := "rekey escalates to the policy's top-ranked KEM";
      initial_in_force := 0;
      ticks :=
        [row (20, 100, 280, 600) 2 "ML-KEM-1024" false true escalated] |};
   {| case_name := "rekey never downgrades the algorithm in force";
      initial_in_force := 2;
      ticks :=
        [row (300, 50, 50, 600) 2 "ML-KEM-1024" false true rekeyed] |};
   {| case_name := "a rekey resets a challenger streak, even when it does not escalate";
      initial_in_force := 2;
      ticks :=
        [row (850, 20, 30, 100) 2 "ML-KEM-1024" false false on_streak;
         row (850, 20, 30, 100) 2 "ML-KEM-1024" false false on_streak;
         row (20, 30, 50, 900) 2 "ML-KEM-1024" false true rekeyed;
         row (850, 20, 30, 100) 2 "ML-KEM-1024" false false on_streak] |};
   {| case_name := "an escalating rekey resets a challenger streak";
      initial_in_force := 0;
      ticks :=
        [row (20, 950, 20, 10) 0 "ML-KEM-512" false false on_streak;
         row (20, 950, 20, 10) 0 "ML-KEM-512" false false on_streak;
         row (20, 100, 280, 600) 2 "ML-KEM-1024" false true escalated;
         row (20, 950, 20, 10) 2 "ML-KEM-1024" false false on_streak] |}].

(** The object [constants] of the file. *)
Record Constants := {
  c_tick_seconds : Z;
  c_confirm_ticks : Z;
  c_min_margin : f64;
  c_rekey_cooldown_ticks : Z;
  c_rekey_escalates : bool
}.
Definition constants : Constants :=
  {| c_tick_seconds := 5; c_confirm_ticks := 3; c_min_margin := f64_lit 15 100; c_rekey_cooldown_ticks := 12;
     c_rekey_escalates := true |}.

(** ** The tests

    A test is [true] when none of its assertions fails and nothing it unwraps
    is absent. *)

Definition probs (t : Tick) : f32x4 :=
  let '(a, b, c, d) := t_probs t in F4 (f32_of_f64 a) (f32_of_f64 b) (f32_of_f64 c) (f32_of_f64 d).

Definition as_wanted (d : Decision) (t : Tick) : bool :=
  (b2z (wire_code (d_in_force d)) =? want_in_force t)
  && String.eqb (name (d_in_force d)) (want_in_force_name t)
  && Bool.eqb (change_algorithm d) (want_change_algorithm t)
  && Bool.eqb (rekey d) (want_rekey t)
  && String.eqb (reason d) (want_reason t).

Fixpoint replay (g : DecisionGate) (ts : list Tick) : bool :=
  match ts with
  | [] => true
  | t :: ts =>
      match DecisionGate_update (probs t) g with
      | Some (g, d) => as_wanted d t && replay g ts
      | None => false
      end
  end.

Definition replay_case (c : Case) : bool :=
  match from_wire_code (z2b (initial_in_force c)) with
  | Some l => replay (DecisionGate_new l) (ticks c)
  | None => false
  end.

Definition replays_every_contract_vector_tick_for_tick : bool :=
  negb (length cases =? 0)%nat && forallb replay_case cases.

Definition constants_match_the_contract : bool :=
  (c_tick_seconds constants =? TICK_SECONDS) && (c_confirm_ticks constants =? CONFIRM_TICKS)
  && SFeqb (f32_of_f64 (c_min_margin constants)) MIN_MARGIN
  && (c_rekey_cooldown_ticks constants =? REKEY_COOLDOWN_TICKS)
  && Bool.eqb (c_rekey_escalates constants) REKEY_ESCALATES.

Definition rekey_cooldown_expires_after_the_full_cooldown : bool :=
  let rk := F4 (f32_lit 5 100) (f32_lit 10 100) (f32_lit 5 100) (f32_lit 80 100) in
  match DecisionGate_update rk (DecisionGate_new MlKem768) with
  | Some (g, d) =>
      rekey d &&
      match run g (replicate (Z.to_nat REKEY_COOLDOWN_TICKS) rk) with
      | Some (_, ds) =>
          let fired := map rekey ds in
          negb (existsb id (take (length fired - 1) fired)) && nth (length fired - 1) fired false
      | None => false
      end
  | None => false
  end.

Definition escalation_can_be_disabled_for_week2_semantics : bool :=
  let g := DecisionGate_with_params MlKem512 CONFIRM_TICKS MIN_MARGIN REKEY_COOLDOWN_TICKS false in
  match DecisionGate_update (F4 (f32_lit 2 100) (f32_lit 10 100) (f32_lit 28 100) (f32_lit 60 100)) g with
  | Some (_, d) => rekey d && bool_decide (d_in_force d = MlKem512)
  | None => false
  end.

Definition action_index_round_trips : bool :=
  forallb (fun i => match PolicyAction_from_index i with
                    | Some a => (PolicyAction_index a =? i)%nat
                    | None => false
                    end) (seq 0 ACTION_COUNT)
  && match PolicyAction_from_index ACTION_COUNT with None => true | Some _ => false end
  && match PolicyAction_from_index REKEY_ACTION_INDEX with Some RekeyNow => true | _ => false end.

(** With the platform's exponential as an argument. *)
Definition softmax_is_a_distribution_preserving_argmax (exp : f32 -> f32) : bool :=
  let p := softmax exp (F4 (f32_of_Z 2) (f32_of_Z (-1)) (f32_lit 1 2) (f32_of_Z 1)) in
  let l := [at0 p; at1 p; at2 p; at3 p] in
  f_lt (SFabs (f32_sub (fold_left f32_add l (S754_zero true)) f32_one)) (f32_lit 1 1000000)
  && (argmax p 0 ACTION_COUNT =? 0)%nat
  && let p := softmax exp (F4 (f32_of_Z 1000) (f32_of_Z 999) f_zero f_zero) in
     forallb (fun x => match x with S754_zero _ | S754_finite _ _ _ => true | _ => false end)
       [at0 p; at1 p; at2 p; at3 p].

(** ** They pass *)

(** The gate is the reference implementation's: on every case of the
    contract file, every tick gives the decision that the file records, its
    algorithm, name, flags and reason, and the constants are the file's. *)
Lemma gate_contract_replayed :
  Forall (fun c => exists l, from_wire_code (z2b (initial_in_force c)) = Some l /\
    exists g ds, run (DecisionGate_new l) (map probs (ticks c)) = Some (g, ds) /\
      Forall2 (fun d t => as_wanted d t = true) ds (ticks c)) cases /\
  constants_match_the_contract = true.
Proof.
  split; [|vm_compute; reflexivity].
  assert (Hreplay : forall ts g, replay g ts = true ->
    exists g' ds, run g (map probs ts) = Some (g', ds) /\ Forall2 (fun d t => as_wanted d t = true) ds ts).
  { induction ts as [|t ts IH]; intros g H; [by exists g, []|]. cbn [replay map run] in *.
    destruct (DecisionGate_update (probs t) g) as [[g1 d]|]; [|done].
    apply andb_true_iff in H as [Hd H]. destruct (IH g1 H) as (g2 & ds & Hr & Hds).
    exists g2, (d :: ds). cbn [mbind option_bind]. rewrite Hr. split; [done|by constructor]. }
  assert (H : replays_every_contract_vector_tick_for_tick = true) by (vm_compute; reflexivity).
  apply andb_true_iff in H as [_ H]. apply List.Forall_forall. intros c Hc.
  apply (proj1 (forallb_forall _ _) H) in Hc. unfold replay_case in Hc.
  destruct (from_wire_code _) as [l|]; [|done]. exists l. split; [done|]. by apply Hreplay.
Qed.

Lemma gate_unit_tests :
  replays_every_contract_vector_tick_for_tick
  && constants_match_the_contract
  && rekey_cooldown_expires_after_the_full_cooldown
  && escalation_can_be_disabled_for_week2_semantics
  && action_index_round_trips = true.
Proof. vm_compute. reflexivity. Qed.

(** An exponential to try the softmax test on: a Taylor polynomial of the
    argument over 1024, squared ten times, in binary64. *)
Definition sample_exp (x : f32) : f32 :=
  let y := f64_div x (f64_of_Z 1024) in
  let poly := fold_left (fun acc n => f64_add f64_one (f64_mul (f64_div y (f64_of_Z n)) acc))
                [8; 7; 6; 5; 4; 3; 2; 1] f64_one in
  f32_of_f64 (Nat.iter 10 (fun z => f64_mul z z) poly).

Example softmax_test : softmax_is_a_distribution_preserving_argmax sample_exp = true.
Proof. vm_compute. reflexivity. Qed.
