(* ===== verification/Strings.v ===== *)
(** * Text handling of the standard library

    [str::trim], [str::lines], [str::split_whitespace] and [str::split_once],
    on the UTF-8 bytes of the text.  White space is Unicode's [White_Space]. *)

From S2P Require Import Prelude.

(** The white-space characters of one, two and three bytes. *)
Definition ws1 (a : u8) : bool := ((9 <=? b2z a) && (b2z a <=? 13)) || (b2z a =? 32).
Definition ws2 (a b : u8) : bool := (b2z a =? 194) && ((b2z b =? 133) || (b2z b =? 160)).
Definition ws3 (a b c : u8) : bool :=
  ((b2z a =? 225) && (b2z b =? 154) && (b2z c =? 128)) ||
  ((b2z a =? 226) && (b2z b =? 128) &&
     (((128 <=? b2z c) && (b2z c <=? 138)) || (b2z c =? 168) || (b2z c =? 169) || (b2z c =? 175))) ||
  ((b2z a =? 226) && (b2z b =? 129) && (b2z c =? 159)) ||
  ((b2z a =? 227) && (b2z b =? 128) && (b2z c =? 128)).

(** The white-space character at the head of the text, as what follows it. *)
Definition ws_head (l : bytes) : option bytes :=
  match l with
  | [] => None
  | a :: l =>
      if ws1 a then Some l else
      match l with
      | [] => None
      | b :: l =>
          if ws2 a b then Some l else
          match l with
          | [] => None
          | c :: l => if ws3 a b c then Some l else None
          end
      end
  end.

(** The same character at the head of the reversed text. *)
Definition ws_head_rev (l : bytes) : option bytes :=
  match l with
  | [] => None
  | c :: l =>
      if ws1 c then Some l else
      match l with
      | [] => None
      | b :: l =>
          if ws2 b c then Some l else
          match l with
          | [] => None
          | a :: l => if ws3 a b c then Some l else None
          end
      end
  end.

(** Drop while [f] finds a character; every step shortens the text, so its
    length is fuel enough. *)
Fixpoint drop_ws (f : bytes -> option bytes) (fuel : nat) (l : bytes) : bytes :=
  match fuel with
  | O => l
  | S n => match f l with Some r => drop_ws f n r | None => l end
  end.

Definition trim_start (l : bytes) : bytes := drop_ws ws_head (length l) l.
Definition trim_end (l : bytes) : bytes := rev (drop_ws ws_head_rev (length l) (rev l)).
Definition trim (l : bytes) : bytes := trim_end (trim_start l).

(** [str::lines]: pieces ended by a newline, a carriage return before it
    dropped; a last piece without newline counts unless empty. *)
Definition strip_cr (l : bytes) : bytes :=
  match rev l with x0d :: r => rev r | _ => l end.
Fixpoint lines_from (cur : bytes) (l : bytes) : list bytes :=
  match l with
  | [] => match cur with [] => [] | _ => [rev cur] end
  | x0a :: r => strip_cr (rev cur) :: lines_from [] r
  | b :: r => lines_from (b :: cur) r
  end.
Definition lines (l : bytes) : list bytes := lines_from [] l.

(** [str::split_whitespace]: the maximal runs without white space. *)
Definition flush (cur : bytes) (k : list bytes) : list bytes :=
  match cur with [] => k | _ => rev cur :: k end.
Fixpoint words_from (fuel : nat) (cur : bytes) (l : bytes) : list bytes :=
  match fuel, l with
  | S n, b :: r =>
      match ws_head l with
      | Some r' => flush cur (words_from n [] r')
      | None => words_from n (b :: cur) r
      end
  | _, _ => flush cur []
  end.
Definition split_whitespace (l : bytes) : list bytes := words_from (length l) [] l.

(** [str::split_once]: around the first occurrence of [c]. *)
Fixpoint split_once (c : u8) (l : bytes) : option (bytes * bytes) :=
  match l with
  | [] => None
  | b :: r => if decide (b = c) then Some ([], r)
              else '(p, q) ← split_once c r; Some (b :: p, q)
  end.

(** ** Facts *)

Lemma split_once_app c p q : c ∉ p -> split_once c (p ++ [c] ++ q) = Some (p, q).
Proof.
  induction p as [|b p IH]; intros H; simpl.
  - by rewrite decide_True.
  - apply not_elem_of_cons in H as [Hb H]. rewrite decide_False by done.
    simpl in IH. by rewrite IH.
Qed.

Lemma split_once_Some c l p q : split_once c l = Some (p, q) -> l = p ++ [c] ++ q /\ c ∉ p.
Proof.
  revert p. induction l as [|b l IH]; intros p; [done|]. simpl. case_decide as E.
  - intros [= <- <-]. subst. split; [done|]. apply not_elem_of_nil.
  - destruct (split_once c l) as [[p' q']|]; [|done]. simpl. intros [= <- <-].
    destruct (IH _ eq_refl) as [-> ?]. split; [done|]. apply not_elem_of_cons. split; [congruence|done].
Qed.

Lemma drop_ws_none f n l : f l = None -> drop_ws f n l = l.
Proof. destruct n; simpl; [done|]. by intros ->. Qed.

(** A text that neither starts nor ends with white space is its own [trim]. *)
Lemma trim_id l : ws_head l = None -> ws_head_rev (rev l) = None -> trim l = l.
Proof.
  intros H1 H2. unfold trim, trim_start, trim_end. rewrite (drop_ws_none ws_head) by done.
  rewrite drop_ws_none by done. apply rev_involutive.
Qed.

(** ** The fuel is enough: more of it changes nothing *)

Definition shrinks (f : bytes -> option bytes) : Prop :=
  forall l r, f l = Some r -> (length r < length l)%nat.

Lemma ws_head_shrinks : shrinks ws_head.
Proof. intros l r. unfold ws_head. repeat case_match; intros [=]; subst; simpl; lia. Qed.

Lemma ws_head_rev_shrinks : shrinks ws_head_rev.
Proof. intros l r. unfold ws_head_rev. repeat case_match; intros [=]; subst; simpl; lia. Qed.

Lemma drop_ws_enough f n m l : shrinks f ->
  (length l <= n)%nat -> (length l <= m)%nat -> drop_ws f n l = drop_ws f m l.
Proof.
  intros Hf. revert m l. induction n as [|n IH]; intros [|m] l Hn Hm; simpl; try done;
    destruct (f l) as [r|] eqn:E; try done; apply Hf in E; try lia. apply IH; lia.
Qed.

Lemma words_from_enough n m cur l :
  (length l <= n)%nat -> (length l <= m)%nat -> words_from n cur l = words_from m cur l.
Proof.
  revert m cur l. induction n as [|n IH]; intros [|m] cur [|b l] Hn Hm; simpl in Hn, Hm; try done; try lia.
  cbn [words_from]. destruct (ws_head (b :: l)) as [r|] eqn:E.
  - apply ws_head_shrinks in E. simpl in E. f_equal. apply IH; lia.
  - apply IH; lia.
Qed.
