(* ===== verification/Net.v ===== *)
(** * Addresses and decimal numbers, as the standard library prints and parses them

    [Ipv4Addr] with its [Display] and [FromStr], and [u8::from_str]. *)

From S2P Require Import Prelude Utf8.

Abbreviation Ipv4Addr := (arr 4).

Definition octet (i : nat) (a : Ipv4Addr) : u8 := nth i (arr_list a) x00.
Definition Ipv4Addr_new (a b c d : u8) : Ipv4Addr := arr_copy 4 [a; b; c; d].

Lemma octet_new a b c d i : octet i (Ipv4Addr_new a b c d) = nth i [a; b; c; d] x00.
Proof. done. Qed.

Lemma Ipv4Addr_eta a : a = Ipv4Addr_new (octet 0 a) (octet 1 a) (octet 2 a) (octet 3 a).
Proof.
  apply arr_eq. pose proof (arr_length a) as Hl. unfold octet, Ipv4Addr_new.
  destruct (arr_list a) as [|? [|? [|? [|? [|? ?]]]]]; try discriminate Hl. done.
Qed.

(** ** Decimal octets *)

Definition digit (z : Z) : u8 := z2b (48 + z).

Definition fmt_u8 (b : u8) : bytes :=
  let v := b2z b in
  if v <? 10 then [digit v]
  else if v <? 100 then [digit (v / 10); digit (v mod 10)]
  else [digit (v / 100); digit (v / 10 mod 10); digit (v mod 10)].

Definition digit_val (b : u8) : option Z :=
  if (48 <=? b2z b) && (b2z b <=? 57) then Some (b2z b - 48) else None.

(** Digits accumulated onto [acc]; [None] on a non-digit or past [max]. *)
Fixpoint read_digits (max acc : Z) (l : bytes) : option Z :=
  match l with
  | [] => Some acc
  | b :: r =>
      d ← digit_val b;
      if max <? 10 * acc + d then None else read_digits max (10 * acc + d) r
  end.

(** [from_str] of an unsigned type whose largest value is [max]: an optional
    [+], at least one digit, leading zeros allowed. *)
Definition uint_from_str (max : Z) (l : bytes) : option Z :=
  match (match l with x2b :: r => r | _ => l end) with
  | [] => None
  | digits => read_digits max 0 digits
  end.
Definition u8_from_str (l : bytes) : option u8 := z2b <$> uint_from_str 255 l.
Definition u64_from_str (l : bytes) : option Z := uint_from_str (2 ^ 64 - 1) l.

(** [to_string] of an unsigned integer: one digit per division by ten, so the
    number of its binary digits is fuel enough ([fmt_digits_enough]). *)
Fixpoint fmt_digits (fuel : nat) (z : Z) (acc : bytes) : bytes :=
  match fuel with
  | O => acc
  | S n =>
      let acc := digit (z mod 10) :: acc in
      if z <? 10 then acc else fmt_digits n (z / 10) acc
  end.
Definition fmt_uint (z : Z) : bytes := fmt_digits (S (Z.to_nat (Z.log2 z))) z [].

(** An octet inside an address: one to three digits, no leading zero. *)
Definition read_octet (l : bytes) : option u8 :=
  match l with
  | [] => None
  | x30 :: _ :: _ => None
  | _ => if 3 <? len l then None else z2b <$> read_digits 255 0 l
  end.

(** [str::split]: the pieces between occurrences of [c]. *)
Fixpoint split (c : u8) (l : bytes) : list bytes :=
  match l with
  | [] => [[]]
  | x :: r =>
      if decide (x = c) then [] :: split c r
      else match split c r with
           | p :: ps => (x :: p) :: ps
           | [] => [[x]]
           end
  end.

(** [Ipv4Addr::to_string] and [Ipv4Addr::from_str]. *)
Definition fmt_ip (a : Ipv4Addr) : bytes :=
  fmt_u8 (octet 0 a) ++ [x2e] ++ fmt_u8 (octet 1 a) ++ [x2e] ++
  fmt_u8 (octet 2 a) ++ [x2e] ++ fmt_u8 (octet 3 a).

Definition parse_ip (l : bytes) : option Ipv4Addr :=
  match split x2e l with
  | [a; b; c; d] =>
      a ← read_octet a; b ← read_octet b; c ← read_octet c; d ← read_octet d;
      Some (Ipv4Addr_new a b c d)
  | _ => None
  end.

(** ** Round trips *)

Definition all_bytes : list u8 := map (fun n => z2b (Z.of_nat n)) (seq 0 256).

Lemma all_bytes_in b : b ∈ all_bytes.
Proof.
  apply list_elem_of_In, in_map_iff. exists (Z.to_nat (b2z b)). pose proof (b2z_range b).
  rewrite Z2Nat.id by lia. split; [apply z2b_b2z|]. apply in_seq. lia.
Qed.

(** A decidable claim about every byte, checked byte by byte. *)
Lemma byte_forall (P : u8 -> bool) : forallb P all_bytes = true -> forall b, P b = true.
Proof.
  intros H b. rewrite forallb_forall in H. apply H, list_elem_of_In, all_bytes_in.
Qed.

Lemma read_octet_fmt b : read_octet (fmt_u8 b) = Some b.
Proof.
  apply (bool_decide_eq_true (read_octet (fmt_u8 b) = Some b)). revert b. apply byte_forall. vm_compute. reflexivity.
Qed.
Lemma u8_from_str_fmt b : u8_from_str (fmt_u8 b) = Some b.
Proof.
  apply (bool_decide_eq_true (u8_from_str (fmt_u8 b) = Some b)). revert b. apply byte_forall. vm_compute. reflexivity.
Qed.

Definition decimal_byte (b : u8) : bool := (48 <=? b2z b) && (b2z b <=? 57).
Lemma fmt_u8_digits b : forallb decimal_byte (fmt_u8 b) = true.
Proof. revert b. apply byte_forall. vm_compute. reflexivity. Qed.

Lemma split_app c p l : c ∉ p -> split c (p ++ [c] ++ l) = p :: split c l.
Proof.
  induction p as [|x p IH]; intros H.
  - simpl. by rewrite decide_True.
  - apply not_elem_of_cons in H as [Hx H]. simpl in *. rewrite decide_False by done.
    by rewrite IH.
Qed.

Lemma split_one c p : c ∉ p -> split c p = [p].
Proof.
  induction p as [|x p IH]; intros H; [done|].
  apply not_elem_of_cons in H as [Hx H]. cbn [split]. rewrite decide_False by done.
  by rewrite IH.
Qed.

Lemma digits_not_in c b : decimal_byte c = false -> c ∉ fmt_u8 b.
Proof.
  intros Hc H. pose proof (fmt_u8_digits b) as Hd. rewrite forallb_forall in Hd.
  apply list_elem_of_In, Hd in H. congruence.
Qed.

Lemma split_ip a :
  split x2e (fmt_ip a) = [fmt_u8 (octet 0 a); fmt_u8 (octet 1 a); fmt_u8 (octet 2 a); fmt_u8 (octet 3 a)].
Proof.
  unfold fmt_ip. rewrite !split_app, split_one by by apply digits_not_in. done.
Qed.

Lemma parse_fmt_ip a : parse_ip (fmt_ip a) = Some a.
Proof.
  unfold parse_ip. rewrite split_ip, !read_octet_fmt. simpl. by rewrite <- Ipv4Addr_eta.
Qed.

(** ** Decimal numbers of any width *)

Lemma fmt_digits_app n z acc : fmt_digits n z acc = fmt_digits n z [] ++ acc.
Proof.
  revert z acc. induction n as [|n IH]; intros z acc; [done|]. simpl.
  destruct (z <? 10); [done|]. rewrite IH, (IH _ [_]), <- app_assoc. done.
Qed.

Lemma digit_val_digit d : 0 <= d < 10 -> digit_val (digit d) = Some d.
Proof.
  intros H. unfold digit_val, digit. rewrite b2z_z2b, Z.mod_small by lia.
  replace ((48 <=? 48 + d) && (48 + d <=? 57)) with true by lia. f_equal. lia.
Qed.

Lemma read_digits_snoc max acc l d :
  0 <= d < 10 ->
  read_digits max acc (l ++ [digit d]) =
    (z ← read_digits max acc l; if max <? 10 * z + d then None else Some (10 * z + d)).
Proof.
  intros Hd. revert acc. induction l as [|b l IH]; intros acc; cbn [app read_digits].
  - rewrite digit_val_digit by done. reflexivity.
  - destruct (digit_val b); [|done]. simpl. destruct (_ <? _); [done|]. apply IH.
Qed.

Lemma read_fmt_digits max n z :
  0 <= z < 2 ^ Z.of_nat n -> z <= max -> n <> O ->
  read_digits max 0 (fmt_digits n z []) = Some z.
Proof.
  revert z. induction n as [|n IH]; intros z Hz Hm Hn; [done|]. cbn [fmt_digits].
  pose proof (Z.mod_pos_bound z 10 ltac:(lia)) as Hd.
  pose proof (Z.div_mod z 10 ltac:(lia)) as Hdm.
  destruct (Z.ltb_spec z 10) as [H|H].
  - rewrite Z.mod_small by lia. pose proof (read_digits_snoc max 0 [] z ltac:(lia)) as Hs.
    cbn [app] in Hs. rewrite Hs. simpl. destruct (Z.ltb_spec max (10 * 0 + z)); [lia|]. f_equal; lia.
  - rewrite fmt_digits_app, read_digits_snoc by done.
    rewrite Nat2Z.inj_succ, Z.pow_succ_r in Hz by lia.
    rewrite IH; [simpl; destruct (Z.ltb_spec max (10 * (z / 10) + z mod 10)); [lia|]; f_equal; lia | lia | lia |].
    intros ->. simpl in Hz. lia.
Qed.

Lemma fmt_digits_head n z acc : n <> O -> exists d r, fmt_digits n z acc = digit d :: r /\ 0 <= d < 10.
Proof.
  revert z acc. induction n as [|n IH]; intros z acc Hn; [done|]. cbn [fmt_digits].
  pose proof (Z.mod_pos_bound z 10 ltac:(lia)) as Hd.
  destruct (z <? 10); [by eexists _, _|]. destruct n as [|n]; [by eexists _, _|]. by apply IH.
Qed.

Lemma log2_fuel z : 0 <= z -> z < 2 ^ Z.of_nat (S (Z.to_nat (Z.log2 z))).
Proof.
  intros H. pose proof (Z.log2_nonneg z). rewrite Nat2Z.inj_succ, Z2Nat.id by lia.
  destruct (Z.eq_dec z 0) as [->|]; [done|]. apply Z.log2_spec. lia.
Qed.

(** Reading a number back, whatever the type's largest value. *)
Lemma uint_from_str_fmt max z : 0 <= z <= max -> uint_from_str max (fmt_uint z) = Some z.
Proof.
  intros [H0 Hm]. unfold uint_from_str, fmt_uint.
  pose proof (read_fmt_digits max _ z (conj H0 (log2_fuel z H0)) Hm ltac:(done)) as Hr.
  destruct (fmt_digits_head (S (Z.to_nat (Z.log2 z))) z [] ltac:(done)) as (d & r & E & Hd).
  rewrite E in *. assert (Hb : 48 <= b2z (digit d) <= 57).
  { unfold digit. rewrite b2z_z2b, Z.mod_small; lia. }
  destruct (digit d); try exact Hr. by vm_compute in Hb.
Qed.

(** More fuel changes nothing. *)
Lemma fmt_digits_enough n z acc :
  0 <= z < 2 ^ Z.of_nat n -> n <> O -> fmt_digits n z acc = fmt_uint z ++ acc.
Proof.
  intros Hz Hn. rewrite fmt_digits_app. f_equal. unfold fmt_uint.
  assert (Hgen : forall n m z, 0 <= z < 2 ^ Z.of_nat n -> z < 2 ^ Z.of_nat m -> n <> O -> m <> O ->
    fmt_digits n z [] = fmt_digits m z []).
  { clear. induction n as [|n IH]; intros [|m] z H1 H2 Hn Hm; try done. cbn [fmt_digits].
    destruct (Z.ltb_spec z 10) as [H|H]; [done|]. rewrite fmt_digits_app, (fmt_digits_app m). f_equal.
    rewrite Nat2Z.inj_succ, Z.pow_succ_r in H1, H2 by lia.
    pose proof (Z.div_mod z 10 ltac:(lia)). pose proof (Z.mod_pos_bound z 10 ltac:(lia)).
    apply IH; [lia | lia | |]; intros ->; simpl in *; lia. }
  apply Hgen; [done | apply log2_fuel; lia | done | done].
Qed.

(** ** ASCII text is a valid string *)

Definition ascii (b : u8) : bool := b2z b <? 128.

Lemma ascii_head b r : ascii b = true -> utf8_head b r = (true, 0%nat).
Proof. intros H. destruct b; try discriminate H; reflexivity. Qed.

Lemma ascii_valid l : forallb ascii l = true -> utf8_valid l = true.
Proof.
  induction l as [|b l IH]; [done|]. simpl. intros [Hb Hl]%andb_true_iff.
  unfold utf8_valid in *. rewrite chunks_cons, ascii_head by done. simpl. by apply IH.
Qed.

Lemma decimal_ascii b : decimal_byte b = true -> ascii b = true.
Proof. unfold decimal_byte, ascii. intros H. lia. Qed.

Lemma fmt_u8_ascii b : forallb ascii (fmt_u8 b) = true.
Proof.
  apply forallb_forall. intros x Hx. apply decimal_ascii.
  pose proof (fmt_u8_digits b) as H. rewrite forallb_forall in H. auto.
Qed.

Lemma fmt_ip_ascii a : forallb ascii (fmt_ip a) = true.
Proof. unfold fmt_ip. by rewrite !forallb_app, !fmt_u8_ascii. Qed.

Lemma fmt_digits_ascii n z acc : forallb ascii acc = true -> forallb ascii (fmt_digits n z acc) = true.
Proof.
  revert z acc. induction n as [|n IH]; intros z acc H; [done|]. cbn [fmt_digits].
  assert (Hd : forallb ascii (digit (z mod 10) :: acc) = true).
  { simpl. rewrite H, andb_true_r. unfold ascii, digit. rewrite b2z_z2b.
    pose proof (Z.mod_pos_bound z 10 ltac:(lia)). rewrite (Z.mod_small (48 + _)); lia. }
  destruct (z <? 10); [done|]. by apply IH.
Qed.
Lemma fmt_uint_ascii z : forallb ascii (fmt_uint z) = true.
Proof. by apply fmt_digits_ascii. Qed.

(** The text of a string: [lit] of ASCII keeps its bytes. *)
Lemma from_utf8_lossy_ascii l : forallb ascii l = true -> str_bytes (from_utf8_lossy l) = l.
Proof. intros H. apply lossy_id, ascii_valid, H. Qed.
