(* ===== verification/Primitives.v ===== *)
(** * The cryptographic primitives the program calls

    The crates [x25519-dalek], [ml-kem], [ml-dsa], [sha2], [hmac] and [hkdf] are
    not part of the repository: they are the operations of the class
    [Primitives], and what the program relies on are the documented laws of
    [PrimitiveLaws].  Operations that draw randomness take what they drew as an
    argument.  [Toy] is a concrete instance that satisfies the laws; the
    examples evaluate on it. *)

From S2P Require Import Prelude.

(** The marker types [MlKem512], [MlKem768] and [MlKem1024] of [ml-kem], the
    values of the type parameter [K]. *)
Inductive KemParams : Set := P512 | P768 | P1024.

(** FIPS 203: sizes of [Encoded<EncapsulationKey>] and [Ciphertext]. *)
Definition ek_len (K : KemParams) : N :=
  match K with P512 => 800 | P768 => 1184 | P1024 => 1568 end.
Definition ct_len (K : KemParams) : N :=
  match K with P512 => 768 | P768 => 1088 | P1024 => 1568 end.
Abbreviation Ciphertext K := (arr (ct_len K)).

Class Primitives : Type := {
  (** [sha2], [hmac], [hkdf]; feeding a hash or a MAC piecewise is feeding the
      concatenation.  [hkdf_sha256 salt ikm info] is a 32-byte expansion, which
      is below HKDF's limit and so never fails. *)
  sha256 : bytes -> arr 32;
  hmac_sha256 : bytes -> bytes -> arr 32;
  hkdf_sha256 : bytes -> bytes -> bytes -> arr 32;
  (** [x25519-dalek]: [PublicKey::from(&secret)] and [diffie_hellman]. *)
  x25519_base : arr 32 -> arr 32;
  x25519 : arr 32 -> arr 32 -> arr 32;
  (** [ml-kem] *)
  kem_entropy : Type;
  dk : KemParams -> Type;
  ek : KemParams -> Type;
  ek_as_bytes : forall {K}, ek K -> arr (ek_len K);
  ek_from_bytes : forall {K}, arr (ek_len K) -> ek K;
  kem_generate : forall K, kem_entropy -> dk K * ek K;
  kem_encapsulate : forall {K}, ek K -> kem_entropy -> result unit (Ciphertext K * arr 32);
  kem_decapsulate : forall {K}, dk K -> Ciphertext K -> result unit (arr 32);
  (** [ml-dsa], parameter set ML-DSA-65 *)
  dsa_signing_key : Type;
  dsa_verifying_key : Type;
  dsa_signature : Type;
  dsa_from_seed : arr 32 -> dsa_signing_key;
  dsa_to_seed : dsa_signing_key -> arr 32;
  dsa_vk : dsa_signing_key -> dsa_verifying_key;
  dsa_sign : dsa_signing_key -> bytes -> dsa_signature;
  dsa_verify : dsa_verifying_key -> bytes -> dsa_signature -> bool;
  vk_encode : dsa_verifying_key -> arr 1952;
  vk_decode : arr 1952 -> dsa_verifying_key;
  sig_encode : dsa_signature -> arr 3309;
  sig_decode : arr 3309 -> option dsa_signature
}.

(** What the standards promise: Diffie-Hellman agreement, KEM correctness,
    signature correctness, and that encodings decode to what was encoded. *)
Class PrimitiveLaws (P : Primitives) : Prop := {
  x25519_comm : forall a b, x25519 a (x25519_base b) = x25519 b (x25519_base a);
  ek_from_as_bytes : forall K (e : ek K), ek_from_bytes (ek_as_bytes e) = e;
  kem_correct : forall K g r, let '(d, e) := kem_generate K g in
    exists ct k, kem_encapsulate e r = Ok (ct, k) /\ kem_decapsulate d ct = Ok k;
  dsa_correct : forall sk m, dsa_verify (dsa_vk sk) m (dsa_sign sk m) = true;
  dsa_seed : forall s, dsa_to_seed (dsa_from_seed s) = s;
  dsa_from_to_seed : forall sk, dsa_from_seed (dsa_to_seed sk) = sk;
  vk_decode_encode : forall v, vk_decode (vk_encode v) = v;
  sig_decode_encode : forall s, sig_decode (sig_encode s) = Some s
}.

(** ** A concrete instance

    Not secure, only lawful: hashes keep a prefix, Diffie-Hellman adds bytes,
    the ciphertext is the secret, and a signature lists key and message. *)

Module Toy.
Definition fold (l : bytes) : arr 32 :=
  arr_copy 32 [z2b (foldr (fun b a => (31 * a + b2z b) mod 251) 7 l)].
Definition mix (a b : arr 32) : arr 32 :=
  arr_copy 32 (zip_with (fun x y => z2b (b2z x + b2z y)) a b).
Definition sig_of (key m : bytes) : arr 3309 := arr_copy 3309 (key ++ fold m).

Lemma mix_comm a b : mix a b = mix b a.
Proof.
  unfold mix. f_equal. rewrite <- zip_with_flip. apply zip_with_ext; [|done..].
  intros x y. unfold flip. by rewrite Z.add_comm.
Qed.

Lemma take_copy n m (a : arr n) :
  (n <= m)%N -> arr_copy n (take (N.to_nat n) (arr_copy m a)) = a.
Proof.
  intros H. apply arr_eq. simpl. pose proof (arr_length a) as Hl.
  rewrite (resize_ge a) by lia.
  rewrite take_app_le by lia. rewrite take_ge by lia. apply resize_all_alt. lia.
Qed.

#[export] Instance prims : Primitives := {
  sha256 := fold;
  hmac_sha256 k m := fold (k ++ m);
  hkdf_sha256 salt ikm info := fold (salt ++ ikm ++ info);
  x25519_base := id;
  x25519 := mix;
  kem_entropy := arr 32;
  dk _ := arr 32;
  ek K := arr (ek_len K);
  ek_as_bytes K e := e;
  ek_from_bytes K e := e;
  kem_generate K g := (g, arr_copy (ek_len K) (arr_list g));
  kem_encapsulate K e r := Ok (arr_copy (ct_len K) (arr_list r), r);
  kem_decapsulate K d ct := Ok (arr_copy 32 (take 32 (arr_list ct)));
  dsa_signing_key := arr 32;
  dsa_verifying_key := arr 1952;
  dsa_signature := arr 3309;
  dsa_from_seed s := s;
  dsa_to_seed s := s;
  dsa_vk sk := arr_copy 1952 (arr_list sk);
  dsa_sign sk m := sig_of sk m;
  dsa_verify vk m s := bool_decide (s = sig_of (take 32 (arr_list vk)) m);
  vk_encode v := v;
  vk_decode v := v;
  sig_encode s := s;
  sig_decode s := Some s
}.

#[export] Instance laws : PrimitiveLaws prims.
Proof.
  split; try done.
  - apply mix_comm.
  - intros K g r. simpl. do 2 eexists. split; [done|]. f_equal.
    apply (take_copy 32 (ct_len K) r). by destruct K.
  - intros sk m. apply bool_decide_eq_true. simpl dsa_vk. unfold dsa_sign, prims. f_equal.
    rewrite <- (take_copy 32 1952 sk) at 1 by done.
    change (arr_copy 32 (take 32 (arr_copy 1952 sk))) with (arr_copy 32 (take 32 (arr_list (arr_copy 1952 sk)))).
    apply arr_copy_exact. unfold len. rewrite length_take, arr_length. done.
Qed.
End Toy.
