(* ===== verification/Sha256.v ===== *)
(** * SHA-256, HMAC and HKDF

    The crates [sha2], [hmac] and [hkdf] are arguments of the model.  What they
    compute is standard, and the repository publishes values that depend on it
    ([server/handshake-vectors.json], constants in the tests).  This file defines
    the three functions (FIPS 180-4, RFC 2104, RFC 5869) so that such values can
    be evaluated: [with_sha P] is [P] with these in place of its own. *)

From S2P Require Import Prelude Primitives.

Module Sha256.
Local Open Scope N_scope.

(** ** Words *)

Definition word : N := N.ones 32.
Definition wadd (x y : N) : N := N.land (x + y) word.
Definition rotr (n x : N) : N := N.lor (N.shiftr x n) (N.shiftl (N.land x (N.ones n)) (32 - n)).
Definition xor3 (x y z : N) : N := N.lxor x (N.lxor y z).
Definition choose (e f g : N) : N := N.lxor g (N.land e (N.lxor f g)).
Definition majority (a b c : N) : N := N.lor (N.land a b) (N.land c (N.lor a b)).

(** ** Constants: the fractional parts of roots of the first primes *)

Definition is_prime (n : N) : bool :=
  forallb (fun d => negb (n mod N.of_nat d =? 0)) (seq 2 (N.to_nat (N.sqrt n) - 1)).
Definition primes (k : nat) : list N := take k (List.filter is_prime (map N.of_nat (seq 2 400))).

(** The integer cube root, found bit by bit from the highest. *)
Fixpoint cube_root (bits : nat) (n root : N) : N :=
  match bits with
  | O => root
  | S b =>
      let c := root + N.shiftl 1 (N.of_nat b) in
      cube_root b n (if c * c * c <=? n then c else root)
  end.

Definition round_constants : list N := Eval vm_compute in
  map (fun p => N.land (cube_root 36 (N.shiftl p 96) 0) word) (primes 64).
Definition initial_hash : list N := Eval vm_compute in
  map (fun p => N.land (N.sqrt (N.shiftl p 64)) word) (primes 8).

(** ** Compression *)

Record state := St { ha : N; hb : N; hc : N; hd : N; he : N; hf : N; hg : N; hh : N }.

Definition words_of (s : state) : list N := [ha s; hb s; hc s; hd s; he s; hf s; hg s; hh s].
Definition initial : state :=
  let w i := nth i initial_hash 0 in
  St (w 0%nat) (w 1%nat) (w 2%nat) (w 3%nat) (w 4%nat) (w 5%nat) (w 6%nat) (w 7%nat).

Definition round (k w : N) (s : state) : state :=
  let t1 := wadd (wadd (hh s) (xor3 (rotr 6 (he s)) (rotr 11 (he s)) (rotr 25 (he s))))
                 (wadd (choose (he s) (hf s) (hg s)) (wadd k w)) in
  let t2 := wadd (xor3 (rotr 2 (ha s)) (rotr 13 (ha s)) (rotr 22 (ha s))) (majority (ha s) (hb s) (hc s)) in
  St (wadd t1 t2) (ha s) (hb s) (hc s) (wadd (hd s) t1) (he s) (hf s) (hg s).

(** The message schedule, sixteen words at a time: the window's head is the word
    of the current round. *)
Definition next_word (window : list N) : N :=
  let w i := nth i window 0 in
  wadd (wadd (xor3 (rotr 17 (w 14%nat)) (rotr 19 (w 14%nat)) (N.shiftr (w 14%nat) 10)) (w 9%nat))
       (wadd (xor3 (rotr 7 (w 1%nat)) (rotr 18 (w 1%nat)) (N.shiftr (w 1%nat) 3)) (w 0%nat)).

Fixpoint rounds (ks : list N) (window : list N) (s : state) : state :=
  match ks with
  | [] => s
  | k :: ks => rounds ks (tail window ++ [next_word window]) (round k (nth 0 window 0) s)
  end.

Definition state_add (x y : state) : state :=
  St (wadd (ha x) (ha y)) (wadd (hb x) (hb y)) (wadd (hc x) (hc y)) (wadd (hd x) (hd y))
     (wadd (he x) (he y)) (wadd (hf x) (hf y)) (wadd (hg x) (hg y)) (wadd (hh x) (hh y)).

(** ** Padding and blocks *)

Definition byte_of (n : N) : byte := default x00 (Byte.of_N (N.land n 255)).
Definition be_word (l : bytes) : N := fold_left (fun a b => N.shiftl a 8 + Byte.to_N b) l 0.
Fixpoint be_bytes (k : nat) (n : N) : bytes :=
  match k with O => [] | S k => be_bytes k (N.shiftr n 8) ++ [byte_of n] end.

(** The last piece may be shorter; one turn per piece, so the length is enough fuel. *)
Fixpoint pieces (fuel n : nat) (l : bytes) : list bytes :=
  match fuel, l with
  | S fuel, _ :: _ => take n l :: pieces fuel n (drop n l)
  | _, _ => []
  end.
Definition split_every (n : nat) (l : bytes) : list bytes := pieces (length l) n l.

Definition zeros (n : N) : N := (119 - n mod 64) mod 64.
Definition pad (m : bytes) : bytes :=
  let n := N.of_nat (length m) in
  m ++ x80 :: replicate (N.to_nat (zeros n)) x00 ++ be_bytes 8 (8 * n).

Definition absorb (s : state) (block : bytes) : state :=
  state_add s (rounds round_constants (map be_word (split_every 4 block)) s).

Definition digest (m : bytes) : bytes :=
  concat (map (be_bytes 4) (words_of (fold_left absorb (split_every 64 (pad m)) initial))).

(** ** HMAC and HKDF *)

Definition block_key (key : bytes) : bytes :=
  let key := if (64 <? length key)%nat then digest key else key in
  key ++ replicate (64 - length key) x00.
Definition xor_byte (p b : byte) : byte := byte_of (N.lxor (Byte.to_N p) (Byte.to_N b)).
Definition hmac (key m : bytes) : bytes :=
  let k := block_key key in
  digest (map (xor_byte x5c) k ++ digest (map (xor_byte x36) k ++ m)).

Definition hkdf_extract (salt ikm : bytes) : bytes := hmac salt ikm.
(** The first 32 bytes of the expansion are its first block. *)
Definition hkdf_expand32 (prk info : bytes) : bytes := hmac prk (info ++ [x01]).

(** ** Facts *)

Lemma be_bytes_length k n : length (be_bytes k n) = k.
Proof. revert n. induction k as [|k IH]; intros n; [done|]. cbn [be_bytes]. rewrite length_app, IH. simpl. lia. Qed.

Lemma digest_length m : length (digest m) = 32%nat.
Proof. unfold digest. destruct (fold_left _ _ _). cbn [words_of map concat]. by rewrite !length_app, !be_bytes_length. Qed.

Lemma hmac_length k m : length (hmac k m) = 32%nat.
Proof. apply digest_length. Qed.

Lemma zeros_fill r : r < 64 -> exists k, r + (119 - r) mod 64 + 9 = k * 64.
Proof.
  intros Hr. destruct (N.le_gt_cases r 55).
  - replace (119 - r) with (55 - r + 1 * 64) by lia.
    rewrite N.Div0.mod_add. rewrite N.mod_small by lia. exists 1. lia.
  - rewrite N.mod_small by lia. exists 2. lia.
Qed.

(** The padding fills whole blocks. *)
Lemma pad_length m : N.of_nat (length (pad m)) mod 64 = 0.
Proof.
  unfold pad, zeros. rewrite length_app. cbn [length]. rewrite length_app, length_replicate, be_bytes_length.
  remember (N.of_nat (length m)) as n eqn:En.
  destruct (zeros_fill (n mod 64) ltac:(apply N.mod_upper_bound; lia)) as [k Hk].
  pose proof (N.div_mod n 64 ltac:(lia)) as H. remember ((119 - n mod 64) mod 64) as z.
  replace (N.of_nat (length m + S (N.to_nat z + 8))) with ((n / 64 + k) * 64) by lia. apply N.Div0.mod_mul.
Qed.

Lemma pieces_concat fuel n l : (0 < n)%nat -> (length l <= fuel)%nat -> concat (pieces fuel n l) = l.
Proof.
  intros Hn. revert l. induction fuel as [|fuel IH]; intros [|b l] H; simpl in H; try done; [lia|].
  cbn [pieces concat]. rewrite IH; [apply take_drop|]. rewrite length_drop. simpl. lia.
Qed.

Lemma split_every_concat n l : (0 < n)%nat -> concat (split_every n l) = l.
Proof. intros Hn. by apply pieces_concat. Qed.

End Sha256.

(** ** The primitives with these functions *)

Definition with_sha (P : Primitives) : Primitives := {|
  sha256 m := arr_copy 32 (Sha256.digest m);
  hmac_sha256 k m := arr_copy 32 (Sha256.hmac k m);
  hkdf_sha256 salt ikm info :=
    arr_copy 32 (Sha256.hkdf_expand32 (Sha256.hkdf_extract salt ikm) info);
  x25519_base := @x25519_base P;
  x25519 := @x25519 P;
  kem_entropy := @kem_entropy P;
  dk := @dk P;
  ek := @ek P;
  ek_as_bytes := @ek_as_bytes P;
  ek_from_bytes := @ek_from_bytes P;
  kem_generate := @kem_generate P;
  kem_encapsulate := @kem_encapsulate P;
  kem_decapsulate := @kem_decapsulate P;
  dsa_signing_key := @dsa_signing_key P;
  dsa_verifying_key := @dsa_verifying_key P;
  dsa_signature := @dsa_signature P;
  dsa_from_seed := @dsa_from_seed P;
  dsa_to_seed := @dsa_to_seed P;
  dsa_vk := @dsa_vk P;
  dsa_sign := @dsa_sign P;
  dsa_verify := @dsa_verify P;
  vk_encode := @vk_encode P;
  vk_decode := @vk_decode P;
  sig_encode := @sig_encode P;
  sig_decode := @sig_decode P
|}.

(** The laws do not speak of hashes. *)
#[export] Instance with_sha_laws P `{L : !PrimitiveLaws P} : PrimitiveLaws (with_sha P).
Proof. destruct L. by split. Qed.

(** ** Published test values *)

Definition nibble (b : byte) : Z :=
  let z := b2z b in if z <? 58 then z - 48 else z - 87.
Fixpoint of_hex_bytes (l : bytes) : bytes :=
  match l with a :: b :: l => z2b (16 * nibble a + nibble b) :: of_hex_bytes l | _ => [] end.
(** The bytes that a text of hexadecimal digits names. *)
Definition of_hex (s : string) : bytes := of_hex_bytes (String.list_byte_of_string s).
Definition ascii (s : string) : bytes := String.list_byte_of_string s.

(** FIPS 180-4: one block, the empty message, two blocks. *)
Example sha256_abc :
  Sha256.digest (ascii "abc") = of_hex "ba7816bf8f01cfea414140de5dae2223b00361a396177a9cb410ff61f20015ad".
Proof. vm_compute. reflexivity. Qed.
Example sha256_empty :
  Sha256.digest [] = of_hex "e3b0c44298fc1c149afbf4c8996fb92427ae41e4649b934ca495991b7852b855".
Proof. vm_compute. reflexivity. Qed.
Example sha256_two_blocks :
  Sha256.digest (ascii "abcdbcdecdefdefgefghfghighijhijkijkljklmklmnlmnomnopnopq") =
    of_hex "248d6a61d20638b8e5c026930c3e6039a33ce45964ff2167f6ecedd419db06c1".
Proof. vm_compute. reflexivity. Qed.

(** RFC 4231, cases 1, 2 and 6 (a key longer than a block). *)
Example hmac_case_1 :
  Sha256.hmac (replicate 20 x0b) (ascii "Hi There") =
    of_hex "b0344c61d8db38535ca8afceaf0bf12b881dc200c9833da726e9376c2e32cff7".
Proof. vm_compute. reflexivity. Qed.
Example hmac_case_2 :
  Sha256.hmac (ascii "Jefe") (ascii "what do ya want for nothing?") =
    of_hex "5bdcc146bf60754e6a042426089575c75a003f089d2739839dec58b964ec3843".
Proof. vm_compute. reflexivity. Qed.
Example hmac_case_6 :
  Sha256.hmac (replicate 131 xaa) (ascii "Test Using Larger Than Block-Size Key - Hash Key First") =
    of_hex "60e431591ee0b67f0d8a26aacbf5b77f8e0bc6213728c5140546040f0ee37f54".
Proof. vm_compute. reflexivity. Qed.

(** RFC 5869, case 1. *)
Example hkdf_case_1 :
  Sha256.hkdf_expand32 (Sha256.hkdf_extract (of_hex "000102030405060708090a0b0c") (replicate 22 x0b))
    (of_hex "f0f1f2f3f4f5f6f7f8f9") =
    of_hex "3cb25f25faacd57a90434f64d0362f2a2d2d0a90cf1a5a4c5db02d56ecc4c5bf".
Proof. vm_compute. reflexivity. Qed.
