(* ===== verification/WireTests.v ===== *)
(** * The codecs' unit tests

    The test modules of [core/src/protocol/wire.rs] and of the server's
    [wire.rs].  A test is [true] when no assertion fails and nothing it unwraps
    is absent. *)

From S2P Require Import Prelude Utf8 Io Algorithm Primitives Sha256.
From S2P Require CoreWire ServerWire.

Module CoreTests.
Import CoreWire.

#[export] Instance ClientHello_eq_dec : EqDecision ClientHello.
Proof. solve_decision. Defined.
#[export] Instance ServerHello_eq_dec : EqDecision ServerHello.
Proof. solve_decision. Defined.
#[export] Instance ClientFinish_eq_dec : EqDecision ClientFinish.
Proof. solve_decision. Defined.
#[export] Instance ServerFinish_eq_dec : EqDecision ServerFinish.
Proof. solve_decision. Defined.
#[export] Instance RekeyRequest_eq_dec : EqDecision RekeyRequest.
Proof. solve_decision. Defined.
#[export] Instance ErrorMsg_eq_dec : EqDecision ErrorMsg.
Proof. solve_decision. Defined.
#[export] Instance Message_eq_dec : EqDecision Message.
Proof. solve_decision. Defined.

(** Writing into an empty [Vec] and reading from a slice. *)
Definition write_vec (m : Message) : option bytes :=
  match Message_write m (mem_stream []) with (Ok _, s) => Some (tx s) | (Err _, _) => None end.
Definition read_slice (l : bytes) : result FrameError Message := (Message_read (mem_stream l)).1.

Definition sample_client_hello : ClientHello :=
  {| ch_algo := MlKem768; client_nonce := arr_fill 32 x01; client_wg_pubkey := arr_fill 32 x02;
     client_x25519_pub := arr_fill 32 x03; client_mlkem_pub := replicate 1184 x04 |}.

Definition reads_back (l : bytes) (m : Message) : bool :=
  match read_slice l with Ok back => bool_decide (back = m) | Err _ => false end.
Definition round_trips (m : Message) : bool :=
  match write_vec m with Some l => reads_back l m | None => false end.

Definition client_hello_round_trips : bool :=
  let m := MClientHello sample_client_hello in
  match write_vec m with
  | Some l =>
      (len l =? 4 + 1 + 32 + 32 + 34 + 1186)
      && bool_decide (l !! 0%nat = Some PROTOCOL_VERSION) && bool_decide (l !! 1%nat = Some x01)
      && reads_back l m
  | None => false
  end.

Definition server_hello_round_trips : bool :=
  round_trips (MServerHello
    {| sh_algo := MlKem1024; sh_session_id := arr_fill 16 x09; server_nonce := arr_fill 32 x08;
       server_x25519_pub := arr_fill 32 x07; mlkem_ciphertext := replicate 1568 x06;
       signature := replicate (Z.to_nat SIGNATURE_LEN) x05 |}).

(** The port is 51820. *)
Definition finish_and_rekey_round_trip : bool :=
  forallb round_trips
    [MClientFinish {| cf_session_id := arr_fill 16 x01; client_tag := arr_fill 32 x02 |};
     MServerFinish {| sf_session_id := arr_fill 16 x03; server_tag := arr_fill 32 x04;
       server_wg_pubkey := arr_fill 32 x05; assigned_ip := arr_copy 4 [x0a; x08; x00; x02];
       wg_port := u16_of_be xca x6c |};
     MRekeyRequest {| rk_session_id := arr_fill 16 x05; hello := sample_client_hello |};
     MError {| code := x05; message := lit "rekey algorithm mismatch" |}].

Definition rejects_bad_version : bool :=
  match read_slice [x02; x01; x00; x00] with
  | Err (FrameWire (UnsupportedVersion x02)) => true
  | _ => false
  end.

Definition rejects_unknown_type : bool :=
  match read_slice [PROTOCOL_VERSION; x77; x00; x00] with
  | Err (FrameWire (UnknownMsgType x77)) => true
  | _ => false
  end.

Definition rejects_wrong_mlkem_pub_length : bool :=
  let ch := {| ch_algo := ch_algo sample_client_hello; client_nonce := client_nonce sample_client_hello;
               client_wg_pubkey := client_wg_pubkey sample_client_hello;
               client_x25519_pub := client_x25519_pub sample_client_hello;
               client_mlkem_pub := replicate 800 x00 |} in
  match write_vec (MClientHello ch) with
  | Some l => match read_slice l with Err (FrameWire (Invalid _)) => true | _ => false end
  | None => false
  end.

Definition decode_client_hello_vector : bytes :=
  let v := of_hex "01010505" in
  let v := v ++ [x01] in
  let v := v ++ replicate 32 x11 in
  let v := v ++ replicate 32 x01 in
  let v := v ++ of_hex "0020" in
  let v := v ++ replicate 32 x33 in
  let v := v ++ of_hex "04a0" in
  v ++ replicate 1184 x44.

Definition client_hello_matches_the_frozen_vector : bool :=
  let l := decode_client_hello_vector in
  match read_slice l with
  | Ok (MClientHello hello) =>
      bool_decide (ch_algo hello = MlKem768) && bool_decide (client_nonce hello = arr_fill 32 x11)
      && bool_decide (client_wg_pubkey hello = arr_fill 32 x01)
      && bool_decide (client_x25519_pub hello = arr_fill 32 x33)
      && bool_decide (client_mlkem_pub hello = replicate 1184 x44)
      && bool_decide (write_vec (MClientHello hello) = Some l)
  | _ => false
  end.

Definition server_finish_matches_the_frozen_vector : bool :=
  let server_tag := of_hex "89bb0c7af045ac12f8b241c0655fa1eef9bb7b63f7ca67e60bf074b60f81794a" in
  match arr_try_from 32 server_tag with
  | None => false
  | Some server_tag =>
      let sf := {| sf_session_id := arr_fill 16 xab; server_tag := server_tag;
                   server_wg_pubkey := arr_fill 32 x5a; assigned_ip := arr_copy 4 [x0a; x08; x00; x02];
                   wg_port := u16_of_be xca x6c |} in
      let expected := of_hex "01040056" in
      let expected := expected ++ arr_list (sf_session_id sf) in
      let expected := expected ++ arr_list server_tag in
      let expected := expected ++ arr_list (server_wg_pubkey sf) in
      let expected := expected ++ arr_list (assigned_ip sf) in
      let expected := expected ++ u16_to_be_bytes 51820 in
      bool_decide (write_vec (MServerFinish sf) = Some expected) && reads_back expected (MServerFinish sf)
  end.

Lemma core_wire_tests :
  forallb id
    [client_hello_round_trips; server_hello_round_trips; finish_and_rekey_round_trip; rejects_bad_version;
     rejects_unknown_type; rejects_wrong_mlkem_pub_length;
     client_hello_matches_the_frozen_vector; server_finish_matches_the_frozen_vector] = true.
Proof. vm_compute. reflexivity. Qed.

End CoreTests.

Module ServerTests.
Import ServerWire.

#[export] Instance ClientHello_eq_dec : EqDecision ClientHello.
Proof. solve_decision. Defined.
#[export] Instance ServerHello_eq_dec : EqDecision ServerHello.
Proof. solve_decision. Defined.
#[export] Instance ClientFinish_eq_dec : EqDecision ClientFinish.
Proof. solve_decision. Defined.
#[export] Instance ServerFinish_eq_dec : EqDecision ServerFinish.
Proof. solve_decision. Defined.
#[export] Instance RekeyRequest_eq_dec : EqDecision RekeyRequest.
Proof. solve_decision. Defined.
#[export] Instance ErrorMsg_eq_dec : EqDecision ErrorMsg.
Proof. solve_decision. Defined.
#[export] Instance Message_eq_dec : EqDecision Message.
Proof. solve_decision. Defined.

(** Writing into an empty [Vec] and reading from a slice. *)
Definition write_vec (m : Message) : option bytes :=
  match Message_write m (mem_stream []) with (Ok _, s) => Some (tx s) | (Err _, _) => None end.
Definition read_slice (l : bytes) : result FrameError Message := (Message_read (mem_stream l)).1.

Definition sample_client_hello : ClientHello :=
  {| ch_algo := MlKem768; client_nonce := arr_fill 32 x01; client_wg_pubkey := arr_fill 32 x02;
     client_x25519_pub := arr_fill 32 x03; client_mlkem_pub := replicate 1184 x04 |}.

Definition reads_back (l : bytes) (m : Message) : bool :=
  match read_slice l with Ok back => bool_decide (back = m) | Err _ => false end.
Definition round_trips (m : Message) : bool :=
  match write_vec m with Some l => reads_back l m | None => false end.

Definition client_hello_round_trips : bool :=
  let m := MClientHello sample_client_hello in
  match write_vec m with
  | Some l =>
      (len l =? 4 + 1 + 32 + 32 + 34 + 1186)
      && bool_decide (l !! 0%nat = Some PROTOCOL_VERSION) && bool_decide (l !! 1%nat = Some x01)
      && reads_back l m
  | None => false
  end.

Definition server_hello_round_trips : bool :=
  round_trips (MServerHello
    {| sh_algo := MlKem1024; sh_session_id := arr_fill 16 x09; server_nonce := arr_fill 32 x08;
       server_x25519_pub := arr_fill 32 x07; mlkem_ciphertext := replicate 1568 x06;
       signature := replicate (Z.to_nat SIGNATURE_LEN) x05 |}).

(** The port is 51820. *)
Definition finish_and_rekey_round_trip : bool :=
  forallb round_trips
    [MClientFinish {| cf_session_id := arr_fill 16 x01; client_tag := arr_fill 32 x02 |};
     MServerFinish {| sf_session_id := arr_fill 16 x03; server_tag := arr_fill 32 x04;
       server_wg_pubkey := arr_fill 32 x05; assigned_ip := arr_copy 4 [x0a; x08; x00; x02];
       wg_port := u16_of_be xca x6c |};
     MRekeyRequest {| rk_session_id := arr_fill 16 x05; hello := sample_client_hello |};
     MError {| code := x05; message := lit "rekey algorithm mismatch" |}].

Definition rejects_bad_version : bool :=
  match read_slice [x02; x01; x00; x00] with
  | Err (FrameWire (UnsupportedVersion x02)) => true
  | _ => false
  end.

Definition rejects_unknown_type : bool :=
  match read_slice [PROTOCOL_VERSION; x77; x00; x00] with
  | Err (FrameWire (UnknownMsgType x77)) => true
  | _ => false
  end.

Definition rejects_wrong_mlkem_pub_length : bool :=
  let ch := {| ch_algo := ch_algo sample_client_hello; client_nonce := client_nonce sample_client_hello;
               client_wg_pubkey := client_wg_pubkey sample_client_hello;
               client_x25519_pub := client_x25519_pub sample_client_hello;
               client_mlkem_pub := replicate 800 x00 |} in
  match write_vec (MClientHello ch) with
  | Some l => match read_slice l with Err (FrameWire (Invalid _)) => true | _ => false end
  | None => false
  end.

Definition algo_code_ordering_supports_no_downgrade_check : bool :=
  algo_ltb MlKem512 MlKem768 && algo_ltb MlKem768 MlKem1024.

Lemma server_wire_tests :
  forallb id
    [client_hello_round_trips; server_hello_round_trips; finish_and_rekey_round_trip; rejects_bad_version;
     rejects_unknown_type; rejects_wrong_mlkem_pub_length;
     algo_code_ordering_supports_no_downgrade_check] = true.
Proof. vm_compute. reflexivity. Qed.

End ServerTests.
