(* ===== verification/HybridKem.v ===== *)
(** * The client core's cryptography

    [core/src/crypto/]: the hybrid X25519 + ML-KEM exchange and the signed
    transcript ([hybrid_kem.rs]), the server's signing identity ([auth.rs]) and
    the session-key derivation ([kdf.rs]).  Functions that draw randomness take
    the draws as arguments, in the order the source makes them. *)

From S2P Require Import Prelude Utf8 Algorithm Primitives.

Section crypto.
Context `{P : Primitives}.

(** ** [auth.rs] *)

Record ServerAuthenticator := { signing_key : dsa_signing_key }.

(** [SigningKey::generate] draws the seed. *)
Definition ServerAuthenticator_generate (seed : arr 32) : ServerAuthenticator :=
  {| signing_key := dsa_from_seed seed |}.
Definition from_seed_bytes (seed : arr 32) : ServerAuthenticator :=
  {| signing_key := dsa_from_seed seed |}.
Definition to_seed_bytes (a : ServerAuthenticator) : arr 32 :=
  arr_copy 32 (arr_list (dsa_to_seed (signing_key a))).
Definition verifying_key (a : ServerAuthenticator) : dsa_verifying_key := dsa_vk (signing_key a).
Definition sign (a : ServerAuthenticator) (message : bytes) : dsa_signature :=
  dsa_sign (signing_key a) message.
Definition verify (vk : dsa_verifying_key) (message : bytes) (s : dsa_signature) : bool :=
  dsa_verify vk message s.

(** ** [hybrid_kem.rs]: keys *)

Record HybridClientKeys (K : KemParams) := {
  x25519_private : arr 32;
  x25519_public : arr 32;
  mlkem_private : dk K;
  mlkem_public : ek K
}.
Arguments x25519_private {K} _.
Arguments x25519_public {K} _.
Arguments mlkem_private {K} _.
Arguments mlkem_public {K} _.

Definition generate_client_keypairs (K : KemParams) (x_rand : arr 32) (kem_rand : kem_entropy) :
    HybridClientKeys K :=
  let x25519_private := x_rand in
  let x25519_public := x25519_base x25519_private in
  let '(mlkem_private, mlkem_public) := kem_generate K kem_rand in
  {| x25519_private := x25519_private; x25519_public := x25519_public;
     mlkem_private := mlkem_private; mlkem_public := mlkem_public |}.

Definition generate_client_keypairs_512 := generate_client_keypairs P512.
Definition generate_client_keypairs_768 := generate_client_keypairs P768.
Definition generate_client_keypairs_1024 := generate_client_keypairs P1024.

(** ** [hybrid_kem.rs]: the exchange *)

Definition combine_shared_secrets (x25519_secret mlkem_secret : bytes) : arr 32 :=
  let hasher := [] in
  let hasher := hasher ++ x25519_secret in
  let hasher := hasher ++ mlkem_secret in
  sha256 hasher.

Definition client_decapsulate {K} (client_keys : HybridClientKeys K)
    (server_x25519_public : arr 32) (ciphertext : Ciphertext K) : result rstring (arr 32) :=
  let client_x25519_secret := x25519 (x25519_private client_keys) server_x25519_public in
  client_mlkem_secret ← map_err (fun _ => lit "ML-KEM decapsulation failed")
    (kem_decapsulate (mlkem_private client_keys) ciphertext);
  mret (combine_shared_secrets (arr_list client_x25519_secret) (arr_list client_mlkem_secret)).

Definition client_decapsulate_512 := @client_decapsulate P512.
Definition client_decapsulate_768 := @client_decapsulate P768.
Definition client_decapsulate_1024 := @client_decapsulate P1024.

Record ServerEncapsulation (K : KemParams) := {
  server_x25519_public : arr 32;
  ciphertext : Ciphertext K;
  hybrid_secret : arr 32
}.
Arguments server_x25519_public {K} _.
Arguments ciphertext {K} _.
Arguments hybrid_secret {K} _.

Definition server_encapsulate {K} (client_x25519_public : arr 32) (client_mlkem_public : ek K)
    (x_rand : arr 32) (kem_rand : kem_entropy) : result rstring (ServerEncapsulation K) :=
  let server_x25519_private := x_rand in
  let server_x25519_public := x25519_base server_x25519_private in
  let server_x25519_secret := x25519 server_x25519_private client_x25519_public in
  '(ciphertext, server_mlkem_secret) ← map_err (fun _ => lit "ML-KEM encapsulation failed")
    (kem_encapsulate client_mlkem_public kem_rand);
  mret {| server_x25519_public := server_x25519_public; ciphertext := ciphertext;
          hybrid_secret := combine_shared_secrets (arr_list server_x25519_secret) (arr_list server_mlkem_secret) |}.

Definition server_encapsulate_512 := @server_encapsulate P512.
Definition server_encapsulate_768 := @server_encapsulate P768.
Definition server_encapsulate_1024 := @server_encapsulate P1024.

(** ** [hybrid_kem.rs]: the transcript *)

Definition PROTOCOL_LABEL : bytes := String.list_byte_of_string "PQC-VPN-HANDSHAKE-v1".

Definition build_handshake_transcript_from_bytes (algorithm_name : bytes)
    (client_nonce server_nonce client_x25519_public : arr 32) (client_mlkem_public : bytes)
    (server_x25519_public : arr 32) (ciphertext : bytes) : bytes :=
  let transcript := [] in
  let transcript := transcript ++ PROTOCOL_LABEL in
  let transcript := transcript ++ algorithm_name in
  let transcript := transcript ++ arr_list client_nonce in
  let transcript := transcript ++ arr_list server_nonce in
  let transcript := transcript ++ arr_list client_x25519_public in
  let transcript := transcript ++ client_mlkem_public in
  let transcript := transcript ++ arr_list server_x25519_public in
  let transcript := transcript ++ ciphertext in
  transcript.

Definition build_handshake_transcript {K} (algorithm_name : bytes)
    (client_nonce server_nonce : arr 32) (client_keys : HybridClientKeys K)
    (server_x25519_public : arr 32) (ciphertext : Ciphertext K) : bytes :=
  let client_mlkem_public := ek_as_bytes (mlkem_public client_keys) in
  build_handshake_transcript_from_bytes algorithm_name client_nonce server_nonce
    (x25519_public client_keys) client_mlkem_public server_x25519_public ciphertext.

Definition build_handshake_transcript_512 :=
  @build_handshake_transcript P512 (String.list_byte_of_string "ML-KEM-512").
Definition build_handshake_transcript_768 :=
  @build_handshake_transcript P768 (String.list_byte_of_string "ML-KEM-768").
Definition build_handshake_transcript_1024 :=
  @build_handshake_transcript P1024 (String.list_byte_of_string "ML-KEM-1024").

(** [generate_nonce] fills the array with what the generator drew. *)
Definition generate_nonce (drawn : arr 32) : arr 32 := drawn.

(** ** [hybrid_kem.rs]: a whole handshake in one process *)

(** What one local handshake draws, in order. *)
Record local_draws := {
  ld_seed : arr 32;
  ld_client_x : arr 32;
  ld_client_kem : kem_entropy;
  ld_server_x : arr 32;
  ld_server_kem : kem_entropy;
  ld_client_nonce : arr 32;
  ld_server_nonce : arr 32
}.

Definition run_local_handshake_for (K : KemParams) (algorithm_name : bytes) (d : local_draws) :
    result rstring (arr 32) :=
  let authenticator := ServerAuthenticator_generate (ld_seed d) in
  let client_keys := generate_client_keypairs K (ld_client_x d) (ld_client_kem d) in
  server_result ← server_encapsulate (x25519_public client_keys) (mlkem_public client_keys)
    (ld_server_x d) (ld_server_kem d);
  let client_nonce := generate_nonce (ld_client_nonce d) in
  let server_nonce := generate_nonce (ld_server_nonce d) in
  let transcript := build_handshake_transcript algorithm_name client_nonce server_nonce
    client_keys (server_x25519_public server_result) (ciphertext server_result) in
  let signature := sign authenticator transcript in
  let authenticated := verify (verifying_key authenticator) transcript signature in
  if negb authenticated then Err (lit "Server handshake authentication failed")
  else
    client_secret ← client_decapsulate client_keys (server_x25519_public server_result)
      (ciphertext server_result);
    if negb (bool_decide (client_secret = hybrid_secret server_result)) then
      Err (lit "Client and server hybrid secrets do not match")
    else mret client_secret.

Definition run_local_authenticated_handshake (level : MlKemLevel) (d : local_draws) :
    result rstring (arr 32) :=
  match level with
  | MlKem512 => run_local_handshake_for P512 (String.list_byte_of_string "ML-KEM-512") d
  | MlKem768 => run_local_handshake_for P768 (String.list_byte_of_string "ML-KEM-768") d
  | MlKem1024 => run_local_handshake_for P1024 (String.list_byte_of_string "ML-KEM-1024") d
  end.

(** ** [kdf.rs] *)

Definition INFO_PSK : bytes := String.list_byte_of_string "pqc-vpn wg psk".
Definition INFO_CONFIRM : bytes := String.list_byte_of_string "pqc-vpn confirm".

Record SessionKeys := { psk : arr 32; confirm_key : arr 32 }.

(** [salt[..32]] and [salt[32..]] are the nonces. *)
Definition derive_session_keys (hybrid_secret client_nonce server_nonce : arr 32) : SessionKeys :=
  let salt := arr_list client_nonce ++ arr_list server_nonce in
  let kdf := hkdf_sha256 salt (arr_list hybrid_secret) in
  {| psk := kdf INFO_PSK; confirm_key := kdf INFO_CONFIRM |}.

(** ** The exchange agrees *)

Lemma server_encapsulate_inv {K} x (e : ek K) xr kr s :
  server_encapsulate x e xr kr = Ok s ->
  server_x25519_public s = x25519_base xr /\
  exists k, kem_encapsulate e kr = Ok (ciphertext s, k) /\
    hybrid_secret s = combine_shared_secrets (x25519 xr x) k.
Proof.
  unfold server_encapsulate. destruct (kem_encapsulate e kr) as [[ct k]|]; [|done].
  intros [= <-]. split; [done|]. by exists k.
Qed.

Context `{L : !PrimitiveLaws P}.

(** Honest client keys, whatever the server draws: encapsulation succeeds and
    decapsulation recovers the server's secret. *)
Lemma exchange_agrees K cx ck sx sk :
  let keys := generate_client_keypairs K cx ck in
  exists s, server_encapsulate (x25519_public keys) (mlkem_public keys) sx sk = Ok s /\
    client_decapsulate keys (server_x25519_public s) (ciphertext s) = Ok (hybrid_secret s).
Proof.
  unfold generate_client_keypairs, server_encapsulate, client_decapsulate. simpl.
  pose proof (kem_correct K ck sk) as H. destruct (kem_generate K ck) as [d e]. simpl.
  destruct H as (ct & k & -> & Hd). simpl. eexists. split; [done|]. simpl.
  rewrite Hd. simpl. by rewrite x25519_comm.
Qed.

End crypto.

Arguments x25519_private {P K} _.
Arguments x25519_public {P K} _.
Arguments mlkem_private {P K} _.
Arguments mlkem_public {P K} _.
Arguments server_x25519_public {K} _.
Arguments ciphertext {K} _.
Arguments hybrid_secret {K} _.

(** ** Transcripts name their inputs *)

(** The three names are prefix-free: two names followed by anything. *)
Lemma name_prefix_free a b k1 k2 :
  String.list_byte_of_string (name a) ++ k1 = String.list_byte_of_string (name b) ++ k2 ->
  a = b /\ k1 = k2.
Proof. destruct a, b; intros H; try discriminate H; split; (done || by injection H). Qed.

Lemma arr_app_inj {n} (a b : arr n) k1 k2 :
  arr_list a ++ k1 = arr_list b ++ k2 -> a = b /\ k1 = k2.
Proof.
  intros H. apply app_inj_len in H as [H ->]; [by split; [apply arr_eq|]|].
  by rewrite !arr_len.
Qed.

Lemma transcript_app n cn sn cx pk sx ct :
  build_handshake_transcript_from_bytes n cn sn cx pk sx ct =
  PROTOCOL_LABEL ++ n ++ arr_list cn ++ arr_list sn ++ arr_list cx ++ pk ++ arr_list sx ++ ct.
Proof. unfold build_handshake_transcript_from_bytes. by rewrite app_nil_l, <- !app_assoc. Qed.

Lemma transcript_inj l1 l2 cn1 cn2 sn1 sn2 cx1 cx2 pk1 pk2 sx1 sx2 ct1 ct2 :
  len pk1 = mlkem_pub_len l1 -> len pk2 = mlkem_pub_len l2 ->
  build_handshake_transcript_from_bytes (String.list_byte_of_string (name l1)) cn1 sn1 cx1 pk1 sx1 ct1 =
  build_handshake_transcript_from_bytes (String.list_byte_of_string (name l2)) cn2 sn2 cx2 pk2 sx2 ct2 ->
  l1 = l2 /\ cn1 = cn2 /\ sn1 = sn2 /\ cx1 = cx2 /\ pk1 = pk2 /\ sx1 = sx2 /\ ct1 = ct2.
Proof.
  intros H1 H2. rewrite !transcript_app. intros H%app_inv_head.
  apply name_prefix_free in H as [-> H].
  apply arr_app_inj in H as [-> H]. apply arr_app_inj in H as [-> H].
  apply arr_app_inj in H as [-> H]. apply app_inj_len in H as [-> H]; [|congruence].
  apply arr_app_inj in H as [-> ->]. done.
Qed.

(** ** Properties *)

(** The local handshake never takes an error branch: for every level and
    every draw it returns the hash of the Diffie-Hellman secret followed by the
    KEM secret that the server encapsulated. *)
Theorem local_handshake_succeeds {P : Primitives} {L : PrimitiveLaws P} level d :
  exists K dh k ct, run_local_authenticated_handshake level d = Ok (sha256 (arr_list dh ++ arr_list k)) /\
    dh = x25519 (ld_server_x d) (x25519_base (ld_client_x d)) /\
    kem_encapsulate (kem_generate K (ld_client_kem d)).2 (ld_server_kem d) = Ok (ct, k).
Proof.
  assert (H : forall K n, exists dh k ct,
    run_local_handshake_for K n d = Ok (sha256 (arr_list dh ++ arr_list k)) /\
    dh = x25519 (ld_server_x d) (x25519_base (ld_client_x d)) /\
    kem_encapsulate (kem_generate K (ld_client_kem d)).2 (ld_server_kem d) = Ok (ct, k)).
  { intros K n. unfold run_local_handshake_for.
    destruct (exchange_agrees K (ld_client_x d) (ld_client_kem d) (ld_server_x d) (ld_server_kem d))
      as (s & Hs & Hc).
    pose proof (server_encapsulate_inv _ _ _ _ _ Hs) as (_ & k & Hk & Hh). rewrite Hs. simpl.
    unfold verify, verifying_key, sign. rewrite dsa_correct. simpl.
    rewrite Hc. simpl. rewrite bool_decide_true by done. simpl. rewrite Hh.
    unfold generate_client_keypairs in *. destruct (kem_generate K (ld_client_kem d)) as [dk0 ek0].
    simpl in *. do 3 eexists. split; [done|]. split; [done|]. exact Hk. }
  destruct level; [exists P512 | exists P768 | exists P1024]; apply H.
Qed.

Definition sample_draws : local_draws (P := Toy.prims) :=
  @Build_local_draws Toy.prims (arr_fill 32 x01) (arr_fill 32 x02) (arr_fill 32 x03 : arr 32)
    (arr_fill 32 x04) (arr_fill 32 x05 : arr 32) (arr_fill 32 x06) (arr_fill 32 x07).

Lemma local_handshake_succeeds_witness :
  exists s, run_local_authenticated_handshake MlKem768 sample_draws = Ok s.
Proof.
  edestruct (local_handshake_succeeds (L := Toy.laws) MlKem768 sample_draws)
    as (K & dh & k & ct & H & _).
  eexists. exact H.
Defined.
