(* ===== verification/CoreClient.v ===== *)
(** * The client's handshake logic

    [core/src/protocol/tags.rs] (the confirmation MACs) and
    [core/src/protocol/client.rs] (from [ServerHello] to the session keys). *)

From S2P Require Import Prelude Utf8 Io Algorithm CoreWire Primitives HybridKem.

Section client.
Context `{P : Primitives}.

(** ** [tags.rs] *)

Definition LABEL_CLIENT_FINISHED : bytes := String.list_byte_of_string "client finished".
Definition LABEL_SERVER_FINISHED : bytes := String.list_byte_of_string "server finished".

Definition tag (confirm_key : arr 32) (label transcript : bytes) : arr 32 :=
  let mac := [] in
  let mac := mac ++ label in
  let mac := mac ++ transcript in
  hmac_sha256 (arr_list confirm_key) mac.

Definition client_tag_of (confirm_key : arr 32) (transcript : bytes) : arr 32 :=
  tag confirm_key LABEL_CLIENT_FINISHED transcript.

(** [Mac::verify_slice]: recompute and compare in constant time. *)
Definition verify_server_tag (confirm_key : arr 32) (transcript : bytes) (claimed : arr 32) : bool :=
  let mac := [] in
  let mac := mac ++ LABEL_SERVER_FINISHED in
  let mac := mac ++ transcript in
  bool_decide (hmac_sha256 (arr_list confirm_key) mac = claimed).

(** ** [client.rs] *)

Definition VERIFYING_KEY_LEN : N := 1952.

Inductive HandshakeError : Set :=
  | AlgoMismatch
  | AuthFailed
  | Crypto (m : rstring).

(** [Display for HandshakeError]. *)
Definition HandshakeError_to_string (e : HandshakeError) : rstring :=
  match e with
  | AlgoMismatch => lit "server accepted a different algorithm than requested"
  | AuthFailed => lit "server signature did not verify against the pinned key"
  | Crypto m => (lit "crypto error: " +:+ m)%rs
  end.

Inductive ClientHandshake :=
  | K512 (keys : HybridClientKeys P512) (h : ClientHello)
  | K768 (keys : HybridClientKeys P768) (h : ClientHello)
  | K1024 (keys : HybridClientKeys P1024) (h : ClientHello).

(** The [build!] macro of [start]. *)
Definition start_hello (algo : MlKemLevel) (client_nonce client_wg_pubkey : arr 32)
    {K} (keys : HybridClientKeys K) : ClientHello :=
  {| ch_algo := algo; client_nonce := client_nonce; client_wg_pubkey := client_wg_pubkey;
     client_x25519_pub := x25519_public keys;
     client_mlkem_pub := arr_list (ek_as_bytes (mlkem_public keys)) |}.

(** What [start] draws: the nonce, then the X25519 secret, then the KEM keys. *)
Record client_draws := {
  cd_nonce : arr 32;
  cd_x : arr 32;
  cd_kem : kem_entropy
}.

Definition start (algo : MlKemLevel) (client_wg_pubkey : arr 32) (d : client_draws) : ClientHandshake :=
  let client_nonce := generate_nonce (cd_nonce d) in
  match algo with
  | MlKem512 =>
      let keys := generate_client_keypairs_512 (cd_x d) (cd_kem d) in
      K512 keys (start_hello algo client_nonce client_wg_pubkey keys)
  | MlKem768 =>
      let keys := generate_client_keypairs_768 (cd_x d) (cd_kem d) in
      K768 keys (start_hello algo client_nonce client_wg_pubkey keys)
  | MlKem1024 =>
      let keys := generate_client_keypairs_1024 (cd_x d) (cd_kem d) in
      K1024 keys (start_hello algo client_nonce client_wg_pubkey keys)
  end.

Definition hello_of (c : ClientHandshake) : ClientHello :=
  match c with K512 _ h | K768 _ h | K1024 _ h => h end.

Definition verify_server_signature (verifying_key_bytes message signature_bytes : bytes) : bool :=
  match arr_try_from VERIFYING_KEY_LEN verifying_key_bytes with
  | None => false
  | Some vk_arr =>
      let vk := vk_decode vk_arr in
      match arr_try_from 3309 signature_bytes with
      | None => false
      | Some sig_arr =>
          match sig_decode sig_arr with
          | None => false
          | Some sig => verify vk message sig
          end
      end
  end.

Definition bad_ct : HandshakeError := Crypto (lit "server ciphertext has the wrong length").

Definition finish (c : ClientHandshake) (server_hello : ServerHello) (pinned_verifying_key : bytes) :
    result HandshakeError (SessionKeys * ClientFinish * bytes) :=
  let hello := hello_of c in
  if negb (bool_decide (sh_algo server_hello = ch_algo hello)) then Err AlgoMismatch
  else
  let transcript := build_handshake_transcript_from_bytes
    (String.list_byte_of_string (name (ch_algo hello)))
    (client_nonce hello) (server_nonce server_hello)
    (client_x25519_pub hello) (client_mlkem_pub hello)
    (server_x25519_pub server_hello) (mlkem_ciphertext server_hello) in
  if negb (verify_server_signature pinned_verifying_key transcript (signature server_hello))
  then Err AuthFailed
  else
  let server_x := server_x25519_pub server_hello in
  let ct_bytes := mlkem_ciphertext server_hello in
  hybrid_secret ←
    match c with
    | K512 keys _ =>
        ct ← ok_or bad_ct (arr_try_from (ct_len P512) ct_bytes);
        map_err Crypto (client_decapsulate_512 keys server_x ct)
    | K768 keys _ =>
        ct ← ok_or bad_ct (arr_try_from (ct_len P768) ct_bytes);
        map_err Crypto (client_decapsulate_768 keys server_x ct)
    | K1024 keys _ =>
        ct ← ok_or bad_ct (arr_try_from (ct_len P1024) ct_bytes);
        map_err Crypto (client_decapsulate_1024 keys server_x ct)
    end;
  let keys := derive_session_keys hybrid_secret (client_nonce hello) (server_nonce server_hello) in
  let client_tag := client_tag_of (confirm_key keys) transcript in
  mret (keys, {| cf_session_id := sh_session_id server_hello; client_tag := client_tag |}, transcript).

End client.

(** ** The client's checks, independent of the parameter set *)

Section client_facts.
Context `{P : Primitives}.

Definition core_params (l : MlKemLevel) : KemParams :=
  match l with MlKem512 => P512 | MlKem768 => P768 | MlKem1024 => P1024 end.

(** The bytes whose signature the client checks. *)
Definition client_transcript (h : ClientHello) (sh : ServerHello) : bytes :=
  build_handshake_transcript_from_bytes (String.list_byte_of_string (name (ch_algo h)))
    (client_nonce h) (server_nonce sh) (client_x25519_pub h) (client_mlkem_pub h)
    (server_x25519_pub sh) (mlkem_ciphertext sh).

Definition start_keys (algo : MlKemLevel) (d : client_draws) : HybridClientKeys (core_params algo) :=
  generate_client_keypairs (core_params algo) (cd_x d) (cd_kem d).

Lemma start_hello_eq algo wg d :
  hello_of (start algo wg d) = start_hello algo (cd_nonce d) wg (start_keys algo d).
Proof. by destruct algo. Qed.

Lemma core_ek_len l : Z.of_N (ek_len (core_params l)) = mlkem_pub_len l.
Proof. by destruct l. Qed.
Lemma core_ct_len l : Z.of_N (ct_len (core_params l)) = ciphertext_len l.
Proof. by destruct l. Qed.

Lemma start_pub_len algo wg d :
  len (client_mlkem_pub (hello_of (start algo wg d))) = mlkem_pub_len algo.
Proof. rewrite start_hello_eq. simpl. by rewrite arr_len, core_ek_len. Qed.

(** [finish], one branch after the other. *)
Lemma finish_start algo wg d sh pin :
  let h := hello_of (start algo wg d) in
  let t := client_transcript h sh in
  finish (start algo wg d) sh pin =
    if negb (bool_decide (sh_algo sh = algo)) then Err AlgoMismatch
    else if negb (verify_server_signature pin t (signature sh)) then Err AuthFailed
    else
      ct ← ok_or bad_ct (arr_try_from (ct_len (core_params algo)) (mlkem_ciphertext sh));
      hs ← map_err Crypto (client_decapsulate (start_keys algo d) (server_x25519_pub sh) ct);
      let ks := derive_session_keys hs (cd_nonce d) (server_nonce sh) in
      mret (ks, {| cf_session_id := sh_session_id sh; client_tag := client_tag_of (confirm_key ks) t |}, t).
Proof.
  intros h t. unfold finish, t, h.
  destruct algo; cbn [start]; rewrite result_bind_assoc; reflexivity.
Qed.

Lemma verify_server_tag_iff k t c :
  verify_server_tag k t c = true <-> c = tag k LABEL_SERVER_FINISHED t.
Proof. unfold verify_server_tag. rewrite bool_decide_eq_true. by split. Qed.

End client_facts.

(** ** Properties *)

(** C24. What the signature covers: for well-formed hellos the two messages
    build the same transcript exactly when they agree on the algorithm, both
    nonces, both X25519 keys, the ML-KEM key and the ciphertext.  The
    WireGuard key and the session id are not covered: any value of them gives
    the same transcript. *)
Theorem transcript_binds h1 sh1 h2 sh2 :
  len (client_mlkem_pub h1) = mlkem_pub_len (ch_algo h1) ->
  len (client_mlkem_pub h2) = mlkem_pub_len (ch_algo h2) ->
  client_transcript h1 sh1 = client_transcript h2 sh2 <->
  exists wg sid alg sig, 
    h2 = {| ch_algo := ch_algo h1; client_nonce := client_nonce h1; client_wg_pubkey := wg;
            client_x25519_pub := client_x25519_pub h1; client_mlkem_pub := client_mlkem_pub h1 |} /\
    sh2 = {| sh_algo := alg; sh_session_id := sid; server_nonce := server_nonce sh1;
             server_x25519_pub := server_x25519_pub sh1;
             mlkem_ciphertext := mlkem_ciphertext sh1; signature := sig |}.
Proof.
  intros Hl1 Hl2. split.
  - intros H. unfold client_transcript in H.
    apply transcript_inj in H as (Ha & Hn & Hs & Hx & Hm & Hsx & Hct); [|done..].
    exists (client_wg_pubkey h2), (sh_session_id sh2), (sh_algo sh2), (signature sh2).
    destruct h2, sh2. simpl in *. by subst.
  - by intros (wg & sid & alg & sig & -> & ->).
Qed.

Definition sample_server_hello : ServerHello :=
  {| sh_algo := MlKem512; sh_session_id := arr_fill 16 x09; server_nonce := arr_fill 32 x08;
     server_x25519_pub := arr_fill 32 x07; mlkem_ciphertext := replicate 768 x06;
     signature := replicate 3309 x05 |}.

Lemma transcript_binds_witness :
  exists wg sid alg sig,
    sample_hello = {| ch_algo := ch_algo sample_hello; client_nonce := client_nonce sample_hello;
      client_wg_pubkey := wg; client_x25519_pub := client_x25519_pub sample_hello;
      client_mlkem_pub := client_mlkem_pub sample_hello |} /\
    sample_server_hello = {| sh_algo := alg; sh_session_id := sid;
      server_nonce := server_nonce sample_server_hello;
      server_x25519_pub := server_x25519_pub sample_server_hello;
      mlkem_ciphertext := mlkem_ciphertext sample_server_hello; signature := sig |}.
Proof. by apply (transcript_binds sample_hello sample_server_hello). Defined.

(** C15. The client never derives anything from a [ServerHello] whose
    signature does not verify: for such a message [finish] reports
    [AuthFailed] whatever keys it holds, and [AlgoMismatch] comes before it
    when the server answers with another algorithm. *)
Theorem finish_authenticates_first {P : Primitives} c sh pin :
  (sh_algo sh <> ch_algo (hello_of c) -> finish c sh pin = Err AlgoMismatch) /\
  (sh_algo sh = ch_algo (hello_of c) ->
   verify_server_signature pin (client_transcript (hello_of c) sh) (signature sh) = false ->
   finish c sh pin = Err AuthFailed) /\
  (forall ks fin t, finish c sh pin = Ok (ks, fin, t) ->
   verify_server_signature pin (client_transcript (hello_of c) sh) (signature sh) = true /\
   t = client_transcript (hello_of c) sh /\ sh_algo sh = ch_algo (hello_of c) /\
   cf_session_id fin = sh_session_id sh /\
   client_tag fin = client_tag_of (confirm_key ks) t).
Proof.
  unfold finish. fold (client_transcript (hello_of c) sh). split_and!.
  - intros H. by rewrite bool_decide_false.
  - intros H Hv. rewrite bool_decide_true by done. simpl. by rewrite Hv.
  - intros ks fin t. case_bool_decide; [|done]. simpl.
    destruct (verify_server_signature _ _ _); [|done]. simpl. intros Hf.
    apply bind_Ok_inv in Hf as (hs & _ & Hf). by injection Hf as <- <- <-.
Qed.

(** The two confirmation tags cannot be confused: if a client tag is
    accepted where a server tag is expected, for any two transcripts, then
    HMAC-SHA256 collides on two different messages under that key. *)
Theorem tag_reflection_is_collision {P : Primitives} k t t' :
  verify_server_tag k t (client_tag_of k t') = true ->
  exists m m', m <> m' /\ hmac_sha256 (arr_list k) m = hmac_sha256 (arr_list k) m'.
Proof.
  intros H%verify_server_tag_iff. exists (LABEL_CLIENT_FINISHED ++ t'), (LABEL_SERVER_FINISHED ++ t).
  split; [|exact H]. by intros [=].
Qed.


(** The toy HMAC does collide. *)
Lemma tag_reflection_is_collision_witness :
  exists m m' : bytes, m <> m' /\
    @hmac_sha256 Toy.prims (arr_list (arr_fill 32 x00)) m =
    @hmac_sha256 Toy.prims (arr_list (arr_fill 32 x00)) m'.
Proof.
  apply (tag_reflection_is_collision (P := Toy.prims) (arr_fill 32 x00) [z2b 47] []).
  vm_compute. reflexivity.
Defined.
