(* ===== verification/Fs.v ===== *)
(** * Files, as [std::fs] offers them

    Paths are byte strings.  A [fs] is the contents and modes of the files and
    the faults of the operations to come: a failed write may leave any prefix
    behind, a failed rename leaves everything as it was.  Directories are not
    tracked: a missing one shows as a fault of the operation that needs it. *)

From S2P Require Import Prelude Utf8 Io.

Abbreviation path := bytes.

(** A fault to come: the error reported, and for a write how many bytes reach
    the (truncated) file first, if it was opened at all. *)
Record fault := Fault { f_err : io_error; f_partial : option nat }.

Record fs := Fs {
  files : gmap path bytes;
  modes : gmap path Z;
  faults : list (option fault)
}.

Definition mkfs (m : gmap path bytes) : fs := Fs m ∅ [].

Definition not_found : io_error := IoError NotFound (lit "No such file or directory (os error 2)").

(** What the next operation meets. *)
Definition next_fault (s : fs) : option fault := default None (head (faults s)).
Definition drop_fault (s : fs) : fs := Fs (files s) (modes s) (tail (faults s)).

Definition fs_read (p : path) : M fs io_error bytes := fun s =>
  match next_fault s with
  | Some f => (Err (f_err f), drop_fault s)
  | None => (ok_or not_found (files s !! p), drop_fault s)
  end.

(** [std::fs::read_to_string]. *)
Definition not_utf8 : io_error := IoError InvalidData (lit "stream did not contain valid UTF-8").
Definition fs_read_to_string (p : path) : M fs io_error rstring :=
  b ← fs_read p;
  if utf8_valid b then mret (from_utf8_lossy b) else throw not_utf8.

Definition fs_write (p : path) (b : bytes) : M fs io_error unit := fun s =>
  match next_fault s with
  | Some f =>
      (Err (f_err f),
       match f_partial f with
       | Some k => Fs (<[p := take k b]> (files s)) (modes s) (tail (faults s))
       | None => drop_fault s
       end)
  | None => (Ok tt, Fs (<[p := b]> (files s)) (modes s) (tail (faults s)))
  end.

Definition fs_rename (from to : path) : M fs io_error unit := fun s =>
  match next_fault s, files s !! from with
  | Some f, _ => (Err (f_err f), drop_fault s)
  | None, None => (Err not_found, drop_fault s)
  | None, Some b =>
      (Ok tt, Fs (<[to := b]> (delete from (files s))) (modes s) (tail (faults s)))
  end.

Definition fs_create_dir_all (p : path) : M fs io_error unit := fun s =>
  match next_fault s with
  | Some f => (Err (f_err f), drop_fault s)
  | None => (Ok tt, drop_fault s)
  end.

Definition fs_set_mode (p : path) (mode : Z) : M fs io_error unit := fun s =>
  match next_fault s with
  | Some f => (Err (f_err f), drop_fault s)
  | None => (Ok tt, Fs (files s) (<[p := mode]> (modes s)) (tail (faults s)))
  end.

(** ** Paths *)

Definition slash : u8 := x2f.
Definition dot : u8 := x2e.

(** Split at the last occurrence of [c]: what precedes it and what follows. *)
Fixpoint rsplit (c : u8) (l : bytes) : option (bytes * bytes) :=
  match l with
  | [] => None
  | x :: r =>
      match rsplit c r with
      | Some (a, b) => Some (x :: a, b)
      | None => if decide (x = c) then Some ([], r) else None
      end
  end.

(** [Path::parent] of a path that ends in a file name. *)
Definition parent (p : path) : option path :=
  match rsplit slash p with
  | Some ([], []) => None
  | Some ([], _) => Some [slash]
  | Some (d, _) => Some d
  | None => match p with [] => None | _ => Some [] end
  end.

(** [Path::with_extension] of a path that ends in a file name: the last dot of
    the name, unless it starts the name, begins the extension. *)
Definition file_stem (n : bytes) : bytes :=
  match rsplit dot n with Some ([], _) | None => n | Some (s, _) => s end.
Definition with_extension (p : path) (ext : bytes) : path :=
  match rsplit slash p with
  | Some (d, n) => d ++ [slash] ++ file_stem n ++ [dot] ++ ext
  | None => file_stem p ++ [dot] ++ ext
  end.

(** [Path::join] of a relative name. *)
Definition join (p name : path) : path :=
  match rev p with
  | [] => name
  | x2f :: _ => p ++ name
  | _ => p ++ [slash] ++ name
  end.

Lemma rsplit_Some c l a b : rsplit c l = Some (a, b) -> l = a ++ [c] ++ b /\ c ∉ b.
Proof.
  revert a b. induction l as [|x l IH]; intros a b; [done|]. simpl.
  destruct (rsplit c l) as [[a' b']|] eqn:E.
  - intros [= <- <-]. destruct (IH _ _ eq_refl) as [-> ?]. done.
  - case_decide as Hx; [|done]. intros [= <- <-]. subst. split; [done|]. clear IH.
    induction l as [|y l IH]; [by apply not_elem_of_nil|].
    simpl in E. destruct (rsplit c l) as [[]|]; [done|]. case_decide; [done|].
    apply not_elem_of_cons. split; [congruence|]. by apply IH.
Qed.

Lemma rsplit_None c l : rsplit c l = None -> c ∉ l.
Proof.
  induction l as [|y l IH]; intros E; [by apply not_elem_of_nil|].
  simpl in E. destruct (rsplit c l) as [[]|]; [done|]. case_decide; [done|].
  apply not_elem_of_cons. split; [congruence|]. by apply IH.
Qed.

Lemma file_stem_ext n ext : dot ∈ ext -> file_stem n ++ [dot] ++ ext <> n.
Proof.
  intros Hd H. unfold file_stem in H.
  assert (Hl : forall k : bytes, k ++ [dot] ++ ext <> k).
  { intros k Hk. apply (f_equal length) in Hk. rewrite !length_app in Hk. simpl in Hk. lia. }
  destruct (rsplit dot n) as [[[|x a] b]|] eqn:E; [by apply Hl in H| |by apply Hl in H].
  apply rsplit_Some in E as [-> Hb]. apply app_inv_head in H. injection H as ->. done.
Qed.

(** A temporary name with a dotted extension is never the name itself. *)
Lemma with_extension_ne p ext : dot ∈ ext -> with_extension p ext <> p.
Proof.
  intros Hd H. unfold with_extension in H. destruct (rsplit slash p) as [[d n]|] eqn:E.
  - apply rsplit_Some in E as [-> _]. apply app_inv_head in H. injection H as H.
    by apply file_stem_ext in H.
  - by apply file_stem_ext in H.
Qed.
