(* ===== verification/ServerHandshake.v ===== *)
(** * The server's half of the handshake

    [server/handshake-server/src/]: the persisted identity ([identity.rs]), the
    key schedule and finish MACs ([kdf.rs]), the transcript adapter
    ([transcript.rs]), the response to a [ClientHello] ([handshake.rs]), and the
    client the server's own tools use ([client_handshake.rs]). *)

From S2P Require Import Prelude Utf8 Io Fs ServerWire Primitives.
From S2P Require HybridKem.

Section server.
Context `{P : Primitives}.

(** ** [kdf.rs] *)

Definition LABEL_CLIENT_FINISHED : bytes := String.list_byte_of_string "client finished".
Definition LABEL_SERVER_FINISHED : bytes := String.list_byte_of_string "server finished".

Record SessionKeys := { psk : arr 32; confirm_key : arr 32 }.

Definition derive (hybrid_secret client_nonce server_nonce : arr 32) : SessionKeys :=
  let keys := HybridKem.derive_session_keys hybrid_secret client_nonce server_nonce in
  {| psk := HybridKem.psk keys; confirm_key := HybridKem.confirm_key keys |}.

Definition tag (confirm_key : arr 32) (label transcript : bytes) : arr 32 :=
  let mac := [] in
  let mac := mac ++ label in
  let mac := mac ++ transcript in
  hmac_sha256 (arr_list confirm_key) mac.

Definition client_tag_of (confirm_key : arr 32) (transcript : bytes) : arr 32 :=
  tag confirm_key LABEL_CLIENT_FINISHED transcript.
Definition server_tag_of (confirm_key : arr 32) (transcript : bytes) : arr 32 :=
  tag confirm_key LABEL_SERVER_FINISHED transcript.

Definition verify_client_tag (confirm_key : arr 32) (transcript : bytes) (claimed : arr 32) : bool :=
  let mac := [] in
  let mac := mac ++ LABEL_CLIENT_FINISHED in
  let mac := mac ++ transcript in
  bool_decide (hmac_sha256 (arr_list confirm_key) mac = claimed).
Definition verify_server_tag (confirm_key : arr 32) (transcript : bytes) (claimed : arr 32) : bool :=
  let mac := [] in
  let mac := mac ++ LABEL_SERVER_FINISHED in
  let mac := mac ++ transcript in
  bool_decide (hmac_sha256 (arr_list confirm_key) mac = claimed).

(** ** [identity.rs] *)

Definition VERIFYING_KEY_LEN : N := 1952.
Definition SEED_LEN : N := 32.

Record ServerIdentity := { auth : HybridKem.ServerAuthenticator }.

Definition ServerIdentity_generate (seed : arr 32) : ServerIdentity :=
  {| auth := HybridKem.ServerAuthenticator_generate seed |}.

Definition ServerIdentity_save (id : ServerIdentity) (p : path) : M fs io_error unit :=
  _ ← match parent p with
      | Some dir => if negb (bool_decide (dir = [])) then fs_create_dir_all dir else mret tt
      | None => mret tt
      end;
  _ ← fs_write p (arr_list (HybridKem.to_seed_bytes (auth id)));
  fs_set_mode p 384. (* 0o600 *)

Definition bad_seed : io_error := IoError InvalidData (lit "identity seed must be 32 bytes").

(** [load_or_create]; [seed] is what [generate] draws if the file is missing. *)
Definition load_or_create (p : path) (seed : arr 32) : M fs io_error ServerIdentity :=
  r ← attempt (fs_read p);
  match r with
  | Ok bytes =>
      seed ← lift (ok_or bad_seed (arr_try_from SEED_LEN bytes));
      mret {| auth := HybridKem.from_seed_bytes seed |}
  | Err e =>
      if bool_decide (io_kind e = NotFound) then
        let id := ServerIdentity_generate seed in
        _ ← ServerIdentity_save id p;
        mret id
      else throw e
  end.

Definition verifying_key_bytes (id : ServerIdentity) : bytes :=
  arr_list (vk_encode (HybridKem.verifying_key (auth id))).
Definition identity_sign (id : ServerIdentity) (message : bytes) : bytes :=
  arr_list (sig_encode (HybridKem.sign (auth id) message)).

Definition identity_verify (verifying_key_bytes message signature_bytes : bytes) : bool :=
  match arr_try_from VERIFYING_KEY_LEN verifying_key_bytes with
  | None => false
  | Some vk_arr =>
      let vk := vk_decode vk_arr in
      match arr_try_from 3309 signature_bytes with
      | None => false
      | Some sig_arr =>
          match sig_decode sig_arr with
          | None => false
          | Some sig => HybridKem.verify vk message sig
          end
      end
  end.

(** ** [transcript.rs] *)

Record TranscriptInputs : Set := {
  ti_algo : AlgoCode;
  ti_client_nonce : arr 32;
  ti_server_nonce : arr 32;
  ti_client_x25519_pub : arr 32;
  ti_client_mlkem_pub : bytes;
  ti_server_x25519_pub : arr 32;
  ti_mlkem_ciphertext : bytes
}.

Definition transcript_build (i : TranscriptInputs) : bytes :=
  HybridKem.build_handshake_transcript_from_bytes (AlgoCode_transcript_name (ti_algo i))
    (ti_client_nonce i) (ti_server_nonce i) (ti_client_x25519_pub i) (ti_client_mlkem_pub i)
    (ti_server_x25519_pub i) (ti_mlkem_ciphertext i).

(** ** [handshake.rs] *)

Record HandshakeOutcome := {
  server_hello : ServerHello;
  keys : SessionKeys;
  transcript : bytes
}.

(** What one response draws: the X25519 secret, then the encapsulation. *)
Record server_draws := { sd_x : arr 32; sd_kem : kem_entropy }.

Definition encapsulate_for (K : KemParams) (client_x : arr 32) (client_mlkem_pub : bytes)
    (d : server_draws) : result HandshakeError (arr 32 * bytes * arr 32) :=
  enc ← ok_or (Crypto (lit "client ML-KEM public key wrong length"))
    (arr_try_from (ek_len K) client_mlkem_pub);
  let e := ek_from_bytes (K := K) enc in
  r ← map_err Crypto (HybridKem.server_encapsulate client_x e (sd_x d) (sd_kem d));
  mret (HybridKem.server_x25519_public r, arr_list (HybridKem.ciphertext r),
        HybridKem.hybrid_secret r).

Definition respond (identity : ServerIdentity) (hello : ClientHello) (session_id : arr 16)
    (server_nonce : arr 32) (d : server_draws) : result HandshakeError HandshakeOutcome :=
  let client_x := client_x25519_pub hello in
  '(server_x25519_pub, ciphertext, hybrid_secret) ←
    match ch_algo hello with
    | MlKem512 => encapsulate_for P512 client_x (client_mlkem_pub hello) d
    | MlKem768 => encapsulate_for P768 client_x (client_mlkem_pub hello) d
    | MlKem1024 => encapsulate_for P1024 client_x (client_mlkem_pub hello) d
    end;
  let transcript := transcript_build
    {| ti_algo := ch_algo hello; ti_client_nonce := client_nonce hello;
       ti_server_nonce := server_nonce; ti_client_x25519_pub := client_x25519_pub hello;
       ti_client_mlkem_pub := client_mlkem_pub hello;
       ti_server_x25519_pub := server_x25519_pub; ti_mlkem_ciphertext := ciphertext |} in
  let signature := identity_sign identity transcript in
  let keys := derive hybrid_secret (client_nonce hello) server_nonce in
  mret {| server_hello :=
            {| sh_algo := ch_algo hello; sh_session_id := session_id; server_nonce := server_nonce;
               server_x25519_pub := server_x25519_pub; mlkem_ciphertext := ciphertext;
               signature := signature |};
          keys := keys; transcript := transcript |}.

(** ** [client_handshake.rs] *)

Inductive ClientState :=
  | K512 (k : HybridKem.HybridClientKeys P512) (h : ClientHello)
  | K768 (k : HybridKem.HybridClientKeys P768) (h : ClientHello)
  | K1024 (k : HybridKem.HybridClientKeys P1024) (h : ClientHello).

Definition start_hello (algo : AlgoCode) (client_nonce client_wg_pubkey : arr 32)
    {K} (k : HybridKem.HybridClientKeys K) : ClientHello :=
  {| ch_algo := algo; client_nonce := client_nonce; client_wg_pubkey := client_wg_pubkey;
     client_x25519_pub := HybridKem.x25519_public k;
     client_mlkem_pub := arr_list (ek_as_bytes (HybridKem.mlkem_public k)) |}.

Definition client_start (algo : AlgoCode) (client_nonce client_wg_pubkey x_rand : arr 32)
    (kem_rand : kem_entropy) : ClientState :=
  match algo with
  | MlKem512 =>
      let k := HybridKem.generate_client_keypairs_512 x_rand kem_rand in
      K512 k (start_hello algo client_nonce client_wg_pubkey k)
  | MlKem768 =>
      let k := HybridKem.generate_client_keypairs_768 x_rand kem_rand in
      K768 k (start_hello algo client_nonce client_wg_pubkey k)
  | MlKem1024 =>
      let k := HybridKem.generate_client_keypairs_1024 x_rand kem_rand in
      K1024 k (start_hello algo client_nonce client_wg_pubkey k)
  end.

Definition client_hello (c : ClientState) : ClientHello :=
  match c with K512 _ h | K768 _ h | K1024 _ h => h end.

Definition bad_ct : HandshakeError := Crypto (lit "server ciphertext wrong length").

Definition client_finish (c : ClientState) (sh : ServerHello) (pinned_verifying_key : bytes) :
    result HandshakeError (SessionKeys * ClientFinish * bytes) :=
  let hello := client_hello c in
  if negb (bool_decide (sh_algo sh = ch_algo hello)) then Err AlgoMismatch
  else
  let transcript := transcript_build
    {| ti_algo := ch_algo hello; ti_client_nonce := client_nonce hello;
       ti_server_nonce := server_nonce sh; ti_client_x25519_pub := client_x25519_pub hello;
       ti_client_mlkem_pub := client_mlkem_pub hello;
       ti_server_x25519_pub := server_x25519_pub sh; ti_mlkem_ciphertext := mlkem_ciphertext sh |} in
  if negb (identity_verify pinned_verifying_key transcript (signature sh)) then Err AuthFailed
  else
  let server_x := server_x25519_pub sh in
  let ct_bytes := mlkem_ciphertext sh in
  hybrid_secret ←
    match c with
    | K512 k _ =>
        ct ← ok_or bad_ct (arr_try_from (ct_len P512) ct_bytes);
        map_err Crypto (HybridKem.client_decapsulate_512 k server_x ct)
    | K768 k _ =>
        ct ← ok_or bad_ct (arr_try_from (ct_len P768) ct_bytes);
        map_err Crypto (HybridKem.client_decapsulate_768 k server_x ct)
    | K1024 k _ =>
        ct ← ok_or bad_ct (arr_try_from (ct_len P1024) ct_bytes);
        map_err Crypto (HybridKem.client_decapsulate_1024 k server_x ct)
    end;
  let keys := derive hybrid_secret (client_nonce hello) (server_nonce sh) in
  let client_tag := client_tag_of (confirm_key keys) transcript in
  mret (keys, {| cf_session_id := sh_session_id sh; client_tag := client_tag |}, transcript).

(** ** Facts *)

(** The finish messages of the two ends are the same MACs. *)
Lemma verify_client_tag_iff k t c : verify_client_tag k t c = true <-> c = client_tag_of k t.
Proof. unfold verify_client_tag. rewrite bool_decide_eq_true. by split. Qed.
Lemma server_tag_verified_iff k t c : verify_server_tag k t c = true <-> c = server_tag_of k t.
Proof. unfold verify_server_tag. rewrite bool_decide_eq_true. by split. Qed.

Definition params (a : AlgoCode) : KemParams :=
  match a with MlKem512 => P512 | MlKem768 => P768 | MlKem1024 => P1024 end.

Lemma ek_len_params a : Z.of_N (ek_len (params a)) = AlgoCode_mlkem_pub_len a.
Proof. by destruct a. Qed.
Lemma ct_len_params a : Z.of_N (ct_len (params a)) = AlgoCode_ciphertext_len a.
Proof. by destruct a. Qed.

(** [respond] in one piece: which parameters it uses, and its result. *)
Lemma respond_eq id h sid sn d :
  respond id h sid sn d =
    '(sx, ct, hs) ← encapsulate_for (params (ch_algo h)) (client_x25519_pub h) (client_mlkem_pub h) d;
    let t := transcript_build
      {| ti_algo := ch_algo h; ti_client_nonce := client_nonce h; ti_server_nonce := sn;
         ti_client_x25519_pub := client_x25519_pub h; ti_client_mlkem_pub := client_mlkem_pub h;
         ti_server_x25519_pub := sx; ti_mlkem_ciphertext := ct |} in
    mret {| server_hello :=
              {| sh_algo := ch_algo h; sh_session_id := sid; server_nonce := sn;
                 server_x25519_pub := sx; mlkem_ciphertext := ct;
                 signature := identity_sign id t |};
            keys := derive hs (client_nonce h) sn; transcript := t |}.
Proof. unfold respond. by destruct (ch_algo h). Qed.

Lemma encapsulate_for_inv K x pk d sx ct hs :
  encapsulate_for K x pk d = Ok (sx, ct, hs) ->
  exists (enc : arr (ek_len K)) (c : Ciphertext K) k, arr_list enc = pk /\ arr_list c = ct /\
    sx = x25519_base (sd_x d) /\ kem_encapsulate (ek_from_bytes enc) (sd_kem d) = Ok (c, k) /\
    hs = HybridKem.combine_shared_secrets (arr_list (x25519 (sd_x d) x)) (arr_list k).
Proof.
  unfold encapsulate_for. destruct (arr_try_from (ek_len K) pk) as [enc|] eqn:E; [|done].
  apply arr_try_from_Some in E. simpl.
  destruct (HybridKem.server_encapsulate _ _ _ _) as [r|] eqn:Er; [|done]. intros [= <- <- <-].
  apply HybridKem.server_encapsulate_inv in Er as (Hx & k & Hk & Hs).
  by exists enc, (HybridKem.ciphertext r), k.
Qed.

(** What [respond] puts on the wire decodes: every length is the algorithm's. *)
Lemma respond_hello_lens id h sid sn d o :
  respond id h sid sn d = Ok o ->
  let sh := server_hello o in
  sh_algo sh = ch_algo h /\ sh_session_id sh = sid /\ server_nonce sh = sn /\
  len (client_mlkem_pub h) = AlgoCode_mlkem_pub_len (ch_algo h) /\
  len (mlkem_ciphertext sh) = AlgoCode_ciphertext_len (ch_algo h) /\
  len (signature sh) = SIGNATURE_LEN.
Proof.
  rewrite respond_eq. destruct (encapsulate_for _ _ _ _) as [[[sx ct] hs]|] eqn:E; [|done].
  intros [= <-]. simpl. apply encapsulate_for_inv in E as (enc & c & k & <- & <- & _).
  split_and!; try done.
  - by rewrite arr_len, ek_len_params.
  - by rewrite arr_len, ct_len_params.
  - unfold identity_sign. by rewrite arr_len.
Qed.

Context `{L : !PrimitiveLaws P}.

Lemma identity_verify_sign id m :
  identity_verify (verifying_key_bytes id) m (identity_sign id m) = true.
Proof.
  unfold identity_verify, verifying_key_bytes, identity_sign, VERIFYING_KEY_LEN.
  rewrite !arr_try_from_arr. rewrite vk_decode_encode, sig_decode_encode. apply dsa_correct.
Qed.

Lemma respond_total id h sid sn d :
  (exists e : ek (params (ch_algo h)), arr_list (ek_as_bytes e) = client_mlkem_pub h /\
    exists g, (kem_generate (params (ch_algo h)) g).2 = e) ->
  exists o, respond id h sid sn d = Ok o.
Proof.
  intros (e & He & g & Hg). rewrite respond_eq. unfold encapsulate_for.
  rewrite <- He, arr_try_from_arr. simpl. rewrite ek_from_as_bytes.
  pose proof (kem_correct (params (ch_algo h)) g (sd_kem d)) as H.
  destruct (kem_generate _ g) as [dk0 e0]. simpl in Hg. subst e0.
  destruct H as (ct & k & Hk & _). unfold HybridKem.server_encapsulate. rewrite Hk. simpl. by eexists.
Qed.

End server.

(** ** Properties *)

Lemma save_ok {P : Primitives} {L : PrimitiveLaws P} id p f m :
  exists m', ServerIdentity_save id p (Fs f m []) =
    (Ok tt, Fs (<[p := arr_list (dsa_to_seed (HybridKem.signing_key (auth id)))]> f) (<[p := 384]> m') [])
    /\ m' = m.
Proof.
  exists m. split; [|done]. unfold ServerIdentity_save, HybridKem.to_seed_bytes.
  rewrite arr_copy_arr. destruct (parent p) as [d|]; [|done].
  by destruct (bool_decide (d = [])).
Qed.

(** The pinned identity survives restarts: on a working file system the
    first start creates the seed file with mode 0600 and every later start,
    whatever it would draw, reloads the same identity and so the same verifying
    key and signatures. *)
Theorem identity_persists {P : Primitives} {L : PrimitiveLaws P} p f m seed seed' :
  f !! p = None ->
  exists id s1, load_or_create p seed (Fs f m []) = (Ok id, s1) /\
    modes s1 !! p = Some 384 /\ files s1 !! p = Some (arr_list seed) /\
    load_or_create p seed' s1 = (Ok id, s1).
Proof.
  intros Hp. unfold load_or_create at 1, attempt, fs_read, mbind, M_bind. simpl. rewrite Hp. simpl.
  destruct (save_ok (ServerIdentity_generate seed) p f m) as (? & Hs & ->).
  unfold drop_fault. simpl. rewrite Hs. simpl. rewrite dsa_seed. do 2 eexists. split; [done|]. simpl.
  rewrite !lookup_insert_eq. split; [done|]. split; [done|].
  unfold load_or_create, attempt, fs_read, mbind, M_bind. simpl. rewrite lookup_insert_eq. simpl.
  unfold SEED_LEN. by rewrite arr_try_from_arr.
Qed.

Lemma identity_persists_witness :
  exists id s1, load_or_create (P := Toy.prims) [x61] (arr_fill 32 x07) (mkfs ∅) = (Ok id, s1).
Proof.
  destruct (identity_persists (L := Toy.laws) [x61] ∅ ∅ (arr_fill 32 x07) (arr_fill 32 x08))
    as (id & s1 & H & _); [reflexivity|]. exists id, s1. exact H.
Defined.

(** C31. An existing seed file is never touched: unless the read itself claims
    the file is missing, [load_or_create] either loads exactly the stored
    32 bytes or fails, and leaves files and modes as they were. *)
Theorem identity_never_replaced {P : Primitives} p seed s b r s' :
  files s !! p = Some b ->
  (forall f, next_fault s = Some f -> io_kind (f_err f) <> NotFound) ->
  load_or_create p seed s = (r, s') ->
  files s' = files s /\ modes s' = modes s /\
  match r with
  | Ok id => exists stored : arr 32, arr_list stored = b /\ id = {| auth := HybridKem.from_seed_bytes stored |}
  | Err e => io_kind e <> NotFound
  end.
Proof.
  intros Hb Hf H. unfold load_or_create, attempt, fs_read, mbind, M_bind in H.
  destruct (next_fault s) as [f|] eqn:E; simpl in H.
  - specialize (Hf f eq_refl). rewrite bool_decide_false in H by done. by injection H as <- <-.
  - rewrite Hb in H. simpl in H. destruct (arr_try_from SEED_LEN b) as [st|] eqn:Es; simpl in H.
    + injection H as <- <-. split; [done|]. split; [done|]. exists st. split; [|done].
      by apply arr_try_from_Some in Es.
    + by injection H as <- <-.
Qed.

Lemma identity_never_replaced_witness :
  let s := mkfs {[ [x61] := [x00; x01] ]} in
  exists e s', load_or_create (P := Toy.prims) [x61] (arr_fill 32 x07) s = (Err e, s') /\
    files s' = files s /\ io_kind e <> NotFound.
Proof.
  intros s. do 2 eexists. split; [reflexivity|].
  edestruct (identity_never_replaced (P := Toy.prims) [x61] (arr_fill 32 x07) s [x00; x01]) as (H & _ & H2).
  - reflexivity.
  - intros f Hf. discriminate Hf.
  - reflexivity.
  - split; [exact H | exact H2].
Defined.
