(* ===== verification/Agreement.v ===== *)
(** * The two ends of one handshake

    The client core ([CoreClient]) against the server ([ServerHandshake]):
    messages cross through the shared wire format, so a server message appears
    to the client under the renaming [WireParity.to_core]. *)

From S2P Require Import Prelude Utf8 Io Algorithm Primitives.
From S2P Require HybridKem CoreWire ServerWire CoreClient ServerHandshake.
From S2P Require Import WireParity.

#[local] Existing Instance ServerWire.AlgoCode_eq_dec.

Section agreement.
Context `{P : Primitives}.

Lemma params_level a : CoreClient.core_params (level_of a) = ServerHandshake.params a.
Proof. by destruct a. Qed.

Lemma transcript_name_level a :
  ServerWire.AlgoCode_transcript_name a = String.list_byte_of_string (name (level_of a)).
Proof. by destruct a. Qed.

(** Both ends lay the transcript out identically. *)
Lemma transcripts_agree h sid sn d o id :
  ServerHandshake.respond id h sid sn d = Ok o ->
  ServerHandshake.transcript o = CoreClient.client_transcript (hello_to_core h) (server_hello_to_core (ServerHandshake.server_hello o)).
Proof.
  rewrite ServerHandshake.respond_eq. destruct (ServerHandshake.encapsulate_for _ _ _ _) as [[[sx ct] hs]|]; [|done].
  intros [= <-]. simpl. unfold ServerHandshake.transcript_build. simpl. by rewrite transcript_name_level.
Qed.

(** What the server signed: [t] is the transcript of one of its responses. *)
Definition server_signed (id : ServerHandshake.ServerIdentity) (t : bytes) (h : ServerWire.ClientHello)
    (o : ServerHandshake.HandshakeOutcome) : Prop :=
  exists sid sn d, ServerHandshake.respond id h sid sn d = Ok o /\ ServerHandshake.transcript o = t.

Lemma respond_signature id h sid sn d o :
  ServerHandshake.respond id h sid sn d = Ok o ->
  ServerWire.signature (ServerHandshake.server_hello o) =
    ServerHandshake.identity_sign id (ServerHandshake.transcript o).
Proof.
  rewrite ServerHandshake.respond_eq. destruct (ServerHandshake.encapsulate_for _ _ _ _) as [[[sx ct] hs]|]; [|done].
  by intros [= <-].
Qed.

Lemma verify_parity vk m s : CoreClient.verify_server_signature vk m s = ServerHandshake.identity_verify vk m s.
Proof. done. Qed.

Context `{L : !PrimitiveLaws P}.

(** Whatever the server answers to the keys of an honest client, the client
    decapsulates to the server's hybrid secret. *)
Lemma decapsulates algo cd (enc : arr (ek_len (CoreClient.core_params algo))) ct k sx_rand kem_rand :
  let keys := CoreClient.start_keys algo cd in
  enc = ek_as_bytes (HybridKem.mlkem_public keys) ->
  kem_encapsulate (ek_from_bytes enc) kem_rand = Ok (ct, k) ->
  HybridKem.client_decapsulate keys (x25519_base sx_rand) ct =
    Ok (HybridKem.combine_shared_secrets
          (arr_list (x25519 sx_rand (HybridKem.x25519_public keys))) (arr_list k)).
Proof.
  intros keys -> Hk. rewrite ek_from_as_bytes in Hk.
  pose proof (kem_correct (CoreClient.core_params algo) (CoreClient.cd_kem cd) kem_rand) as H.
  unfold keys, CoreClient.start_keys, HybridKem.client_decapsulate, HybridKem.generate_client_keypairs in *.
  destruct (kem_generate _ _) as [dk0 ek0]. simpl in *. destruct H as (ct' & k' & He & Hd).
  rewrite Hk in He. injection He as <- <-. rewrite Hd. simpl. by rewrite x25519_comm.
Qed.
(** The keys a client derives from a server's response to its own public
    values, whatever WireGuard key, session id and signature came with them. *)
Lemma client_keys_agree id h sid sn d o algo wg cd sh :
  ServerHandshake.respond id h sid sn d = Ok o ->
  let hc := CoreClient.hello_of (CoreClient.start algo wg cd) in
  let so := server_hello_to_core (ServerHandshake.server_hello o) in
  level_of (ServerWire.ch_algo h) = algo ->
  ServerWire.client_nonce h = CoreWire.client_nonce hc ->
  ServerWire.client_x25519_pub h = CoreWire.client_x25519_pub hc ->
  ServerWire.client_mlkem_pub h = CoreWire.client_mlkem_pub hc ->
  CoreWire.server_nonce sh = CoreWire.server_nonce so ->
  CoreWire.server_x25519_pub sh = CoreWire.server_x25519_pub so ->
  CoreWire.mlkem_ciphertext sh = CoreWire.mlkem_ciphertext so ->
  exists ct hs,
    arr_try_from (ct_len (CoreClient.core_params algo)) (CoreWire.mlkem_ciphertext sh) = Some ct /\
    HybridKem.client_decapsulate (CoreClient.start_keys algo cd) (CoreWire.server_x25519_pub sh) ct
      = Ok hs /\
    let ks := HybridKem.derive_session_keys hs (CoreClient.cd_nonce cd) (CoreWire.server_nonce sh) in
    HybridKem.psk ks = ServerHandshake.psk (ServerHandshake.keys o) /\
    HybridKem.confirm_key ks = ServerHandshake.confirm_key (ServerHandshake.keys o).
Proof.
  intros Ho hc so <- Hn Hx Hm Hsn Hsx Hct. subst hc. rewrite CoreClient.start_hello_eq in *.
  rewrite ServerHandshake.respond_eq in Ho.
  destruct (ServerHandshake.encapsulate_for _ _ _ _) as [[[sx ct] hs]|] eqn:E; [|done].
  injection Ho as <-. simpl in *. rewrite Hsx, Hct, Hsn. clear Hsx Hct Hsn so.
  apply ServerHandshake.encapsulate_for_inv in E as (enc & c & k & He & <- & -> & Hk & ->).
  rewrite Hx, Hn, Hm in *.
  destruct (ServerWire.ch_algo h); simpl in *; (exists c;
    eexists; split; [by apply arr_try_from_Some|]; split; [|done]);
    [eapply (decapsulates MlKem512) | eapply (decapsulates MlKem768) | eapply (decapsulates MlKem1024)];
    try exact Hk; by apply arr_eq.
Qed.


(** An honest run completes and agrees: for every algorithm and every draw, the
    server answers the client's hello, the client accepts the answer under the
    server's own verifying key, both hold the same PSK, the server accepts the
    client's tag and the client the server's. *)
Lemma honest_run id a wg cd h sid sn d :
  let c := CoreClient.start (level_of a) wg cd in
  hello_to_core h = CoreClient.hello_of c ->
  exists o ks fin,
    ServerHandshake.respond id h sid sn d = Ok o /\
    CoreClient.finish c (server_hello_to_core (ServerHandshake.server_hello o))
      (ServerHandshake.verifying_key_bytes id) = Ok (ks, fin, ServerHandshake.transcript o) /\
    HybridKem.psk ks = ServerHandshake.psk (ServerHandshake.keys o) /\
    HybridKem.confirm_key ks = ServerHandshake.confirm_key (ServerHandshake.keys o) /\
    CoreWire.cf_session_id fin = sid /\
    ServerHandshake.verify_client_tag (ServerHandshake.confirm_key (ServerHandshake.keys o))
      (ServerHandshake.transcript o) (CoreWire.client_tag fin) = true /\
    CoreClient.verify_server_tag (HybridKem.confirm_key ks) (ServerHandshake.transcript o)
      (ServerHandshake.server_tag_of (ServerHandshake.confirm_key (ServerHandshake.keys o))
         (ServerHandshake.transcript o)) = true.
Proof.
  intros c Hh. subst c. pose proof (CoreClient.start_hello_eq (level_of a) wg cd) as Hs.
  assert (Ha : ServerWire.ch_algo h = a).
  { apply level_of_inj. apply (f_equal CoreWire.ch_algo) in Hh. by rewrite Hs in Hh. }
  destruct (ServerHandshake.respond_total id h sid sn d) as [o Ho].
  { rewrite Ha, <- params_level.
    exists (HybridKem.mlkem_public (CoreClient.start_keys (level_of a) cd)). split.
    - apply (f_equal CoreWire.client_mlkem_pub) in Hh. by rewrite Hs in Hh.
    - exists (CoreClient.cd_kem cd). unfold CoreClient.start_keys, HybridKem.generate_client_keypairs.
      by destruct (kem_generate _ _). }
  destruct (client_keys_agree id h sid sn d o (level_of a) wg cd
    (server_hello_to_core (ServerHandshake.server_hello o)) Ho) as (ct & hs & Hct & Hdec & Hpsk & Hck);
    [by rewrite Ha | by rewrite <- Hh.. | done | done | done |].
  pose proof (transcripts_agree _ _ _ _ _ _ Ho) as Ht. rewrite Hh in Ht.
  pose proof (ServerHandshake.respond_hello_lens _ _ _ _ _ _ Ho) as (Halg & Hsid & Hsn & _).
  assert (Hsig : ServerWire.signature (ServerHandshake.server_hello o) =
    ServerHandshake.identity_sign id (ServerHandshake.transcript o)) by by eapply respond_signature.
  exists o. do 2 eexists. split; [done|]. split.
  { rewrite CoreClient.finish_start, <- Ht.
    simpl. rewrite Halg, Ha, bool_decide_true by done. simpl.
    rewrite verify_parity, Hsig, ServerHandshake.identity_verify_sign. simpl. simpl in Hct, Hdec.
    rewrite Hct. simpl. rewrite Hdec. simpl. reflexivity. }
  simpl in *. split; [done|]. split; [done|]. split; [done|]. split.
  - apply ServerHandshake.verify_client_tag_iff. unfold CoreClient.client_tag_of. by rewrite Hck.
  - apply CoreClient.verify_server_tag_iff. by rewrite Hck.
Qed.

(** ** The server's own client *)

(** The two clients' errors: the same failure, if not the same text. *)
Inductive same_failure : CoreClient.HandshakeError -> ServerWire.HandshakeError -> Prop :=
  | same_mismatch : same_failure CoreClient.AlgoMismatch ServerWire.AlgoMismatch
  | same_auth : same_failure CoreClient.AuthFailed ServerWire.AuthFailed
  | same_crypto m : same_failure (CoreClient.Crypto m) (ServerWire.Crypto m)
  | same_length : same_failure CoreClient.bad_ct ServerHandshake.bad_ct.

Definition client_keys a (d : CoreClient.client_draws) : HybridKem.HybridClientKeys (ServerHandshake.params a) :=
  HybridKem.generate_client_keypairs (ServerHandshake.params a) (CoreClient.cd_x d) (CoreClient.cd_kem d).

(** [client_finish], one branch after the other. *)
Lemma client_finish_start a wg (d : CoreClient.client_draws) sh pin :
  let c := ServerHandshake.client_start a (CoreClient.cd_nonce d) wg (CoreClient.cd_x d) (CoreClient.cd_kem d) in
  let t := ServerHandshake.transcript_build (ServerHandshake.Build_TranscriptInputs a (CoreClient.cd_nonce d)
    (ServerWire.server_nonce sh) (HybridKem.x25519_public (client_keys a d))
    (arr_list (ek_as_bytes (HybridKem.mlkem_public (client_keys a d))))
    (ServerWire.server_x25519_pub sh) (ServerWire.mlkem_ciphertext sh)) in
  ServerHandshake.client_finish c sh pin =
    if negb (bool_decide (ServerWire.sh_algo sh = a)) then Err ServerWire.AlgoMismatch
    else if negb (ServerHandshake.identity_verify pin t (ServerWire.signature sh)) then Err ServerWire.AuthFailed
    else
      ct ← ok_or ServerHandshake.bad_ct (arr_try_from (ct_len (ServerHandshake.params a)) (ServerWire.mlkem_ciphertext sh));
      hs ← map_err ServerWire.Crypto (HybridKem.client_decapsulate (client_keys a d) (ServerWire.server_x25519_pub sh) ct);
      let ks := ServerHandshake.derive hs (CoreClient.cd_nonce d) (ServerWire.server_nonce sh) in
      mret (ks, ServerWire.Build_ClientFinish (ServerWire.sh_session_id sh)
                  (ServerHandshake.client_tag_of (ServerHandshake.confirm_key ks) t), t).
Proof.
  intros c t. unfold ServerHandshake.client_finish, t, c.
  destruct a; cbn [ServerHandshake.client_start]; rewrite result_bind_assoc; reflexivity.
Qed.

Lemma client_transcript_parity a wg (d : CoreClient.client_draws) sh :
  ServerHandshake.transcript_build (ServerHandshake.Build_TranscriptInputs a (CoreClient.cd_nonce d)
    (ServerWire.server_nonce sh) (HybridKem.x25519_public (client_keys a d))
    (arr_list (ek_as_bytes (HybridKem.mlkem_public (client_keys a d))))
    (ServerWire.server_x25519_pub sh) (ServerWire.mlkem_ciphertext sh)) =
  CoreClient.client_transcript (CoreClient.hello_of (CoreClient.start (level_of a) wg d)) (server_hello_to_core sh).
Proof. by destruct a. Qed.

Lemma client_start_parity a wg (d : CoreClient.client_draws) :
  hello_to_core (ServerHandshake.client_hello
    (ServerHandshake.client_start a (CoreClient.cd_nonce d) wg (CoreClient.cd_x d) (CoreClient.cd_kem d))) =
  CoreClient.hello_of (CoreClient.start (level_of a) wg d).
Proof. by destruct a. Qed.

Lemma client_finish_parity a wg (d : CoreClient.client_draws) sh pin :
  match CoreClient.finish (CoreClient.start (level_of a) wg d) (server_hello_to_core sh) pin,
        ServerHandshake.client_finish
          (ServerHandshake.client_start a (CoreClient.cd_nonce d) wg (CoreClient.cd_x d) (CoreClient.cd_kem d))
          sh pin with
  | Ok (ks, fin, t), Ok (ks', fin', t') =>
      HybridKem.psk ks = ServerHandshake.psk ks' /\
      HybridKem.confirm_key ks = ServerHandshake.confirm_key ks' /\
      CoreWire.MClientFinish fin = to_core (ServerWire.MClientFinish fin') /\ t = t'
  | Err e, Err e' => same_failure e e'
  | _, _ => False
  end.
Proof.
  rewrite CoreClient.finish_start, client_finish_start, <- client_transcript_parity.
  cbn [server_hello_to_core CoreWire.sh_algo CoreWire.signature]. rewrite verify_parity.
  destruct (decide (ServerWire.sh_algo sh = a)) as [->|Ha].
  2:{ rewrite !bool_decide_false; [by constructor | done | by intros ?%level_of_inj]. }
  rewrite !bool_decide_true by done. cbn [negb].
  destruct (ServerHandshake.identity_verify _ _ _); [|by constructor]. cbn [negb].
  generalize (ServerHandshake.transcript_build (ServerHandshake.Build_TranscriptInputs a (CoreClient.cd_nonce d)
    (ServerWire.server_nonce sh) (HybridKem.x25519_public (client_keys a d))
    (arr_list (ek_as_bytes (HybridKem.mlkem_public (client_keys a d))))
    (ServerWire.server_x25519_pub sh) (ServerWire.mlkem_ciphertext sh))).
  intros t. unfold CoreClient.start_keys, client_keys.
  destruct a; cbn [level_of CoreClient.core_params ServerHandshake.params CoreWire.mlkem_ciphertext
    CoreWire.server_x25519_pub server_hello_to_core];
    (destruct (arr_try_from _ _) as [ct|]; [|exact same_length]);
    cbn [ok_or mbind result_bind];
    (destruct (HybridKem.client_decapsulate _ _ _); [|apply same_crypto]); split_and!; reflexivity.
Qed.

(** ** Properties *)

(** C26. The client the server's tools use ([client_handshake.rs]) is the
    client the product ships ([client.rs]): from the same draws it sends the
    same hello, and on every server hello it ends with the same keys, finish
    message and transcript, or with the same failure. *)
Theorem clients_agree a wg (d : CoreClient.client_draws) :
  let c := CoreClient.start (level_of a) wg d in
  let c' := ServerHandshake.client_start a (CoreClient.cd_nonce d) wg (CoreClient.cd_x d) (CoreClient.cd_kem d) in
  hello_to_core (ServerHandshake.client_hello c') = CoreClient.hello_of c /\
  forall sh pin,
    match CoreClient.finish c (server_hello_to_core sh) pin, ServerHandshake.client_finish c' sh pin with
    | Ok (ks, fin, t), Ok (ks', fin', t') =>
        HybridKem.psk ks = ServerHandshake.psk ks' /\
        HybridKem.confirm_key ks = ServerHandshake.confirm_key ks' /\
        CoreWire.MClientFinish fin = to_core (ServerWire.MClientFinish fin') /\ t = t'
    | Err e, Err e' => same_failure e e'
    | _, _ => False
    end.
Proof. split; [apply client_start_parity | intros; apply client_finish_parity]. Qed.


(** C2. Authentication: if an honest client accepts a [ServerHello], from
    whomever it came, and its signature is not a forgery (the transcript it
    verifies for is one the server signed), then the server answered a hello
    with this client's algorithm, nonce and keys (all but the WireGuard key,
    which is not signed), the client saw the server's nonce, key and
    ciphertext, and both derived the same PSK and confirmation key. *)
Theorem accepted_hello_agrees id algo wg cd sh pin ks fin t :
  CoreClient.finish (CoreClient.start algo wg cd) sh pin = Ok (ks, fin, t) ->
  (CoreClient.verify_server_signature pin t (CoreWire.signature sh) = true ->
   exists h o, server_signed id t h o) ->
  exists h o sid sn d, ServerHandshake.respond id h sid sn d = Ok o /\
    ServerHandshake.transcript o = t /\
    (exists wg', hello_to_core h = CoreClient.hello_of (CoreClient.start algo wg' cd)) /\
    CoreWire.server_nonce sh = sn /\
    CoreWire.server_x25519_pub sh = ServerWire.server_x25519_pub (ServerHandshake.server_hello o) /\
    CoreWire.mlkem_ciphertext sh = ServerWire.mlkem_ciphertext (ServerHandshake.server_hello o) /\
    HybridKem.psk ks = ServerHandshake.psk (ServerHandshake.keys o) /\
    HybridKem.confirm_key ks = ServerHandshake.confirm_key (ServerHandshake.keys o).
Proof.
  intros Hf Hunforged. rewrite CoreClient.finish_start in Hf.
  set (hc := CoreClient.hello_of (CoreClient.start algo wg cd)) in *.
  case_bool_decide as Halgo; [|done]. simpl in Hf.
  destruct (CoreClient.verify_server_signature _ _ _) eqn:Hv; [|done]. simpl in Hf.
  assert (Ht : t = CoreClient.client_transcript hc sh).
  { pose proof Hf as Hf'. apply bind_Ok_inv in Hf' as (? & _ & Hf').
    apply bind_Ok_inv in Hf' as (? & _ & Hf'). by injection Hf'. }
  rewrite <- Ht in Hv. destruct (Hunforged Hv) as (h & o & sid & sn & d & Ho & Hto).
  pose proof (transcripts_agree _ _ _ _ _ _ Ho) as Hts. rewrite Hto, Ht in Hts.
  unfold CoreClient.client_transcript in Hts.
  pose proof (ServerHandshake.respond_hello_lens _ _ _ _ _ _ Ho) as (_ & _ & Hsn & Hpk & _).
  apply HybridKem.transcript_inj in Hts as (H1 & H2 & H3 & H4 & H5 & H6 & H7).
  2:{ unfold hc. rewrite CoreClient.start_pub_len. by rewrite CoreClient.start_hello_eq. }
  2:{ simpl. rewrite Hpk. symmetry. apply pub_len_parity. }
  assert (Ha : algo = level_of (ServerWire.ch_algo h)).
  { transitivity (CoreWire.ch_algo hc); [|exact H1]. unfold hc. by rewrite CoreClient.start_hello_eq. }
  destruct (client_keys_agree id h sid sn d o algo wg cd sh Ho) as (ct & hs & Hct & Hdec & Hpsk & Hck);
    [by rewrite <- Ha | by symmetry.. | done | done | done |].
  rewrite Hct in Hf. simpl in Hf. rewrite Hdec in Hf. simpl in Hf. injection Hf as <- _ _.
  exists h, o, sid, sn, d. split_and!; try done.
  - exists (ServerWire.client_wg_pubkey h). rewrite CoreClient.start_hello_eq.
    unfold hc in *. rewrite CoreClient.start_hello_eq in *. simpl in *.
    unfold hello_to_core, CoreClient.start_hello. by rewrite <- H1, <- H2, <- H4, <- H5.
  - rewrite H3. simpl. done.
Qed.
End agreement.

(** ** Witnesses *)

Definition toy_client : CoreClient.client_draws (P := Toy.prims) :=
  @CoreClient.Build_client_draws Toy.prims (arr_fill 32 x11) (arr_fill 32 x12) (arr_fill 32 x13 : arr 32).
Definition toy_server : ServerHandshake.server_draws (P := Toy.prims) :=
  @ServerHandshake.Build_server_draws Toy.prims (arr_fill 32 x21) (arr_fill 32 x22 : arr 32).
Definition toy_identity : ServerHandshake.ServerIdentity (P := Toy.prims) :=
  ServerHandshake.ServerIdentity_generate (P := Toy.prims) (arr_fill 32 x31).
Definition toy_hello : ServerWire.ClientHello :=
  let c := CoreClient.hello_of (CoreClient.start MlKem512 (arr_fill 32 x41) toy_client) in
  {| ServerWire.ch_algo := ServerWire.MlKem512; ServerWire.client_nonce := CoreWire.client_nonce c;
     ServerWire.client_wg_pubkey := CoreWire.client_wg_pubkey c;
     ServerWire.client_x25519_pub := CoreWire.client_x25519_pub c;
     ServerWire.client_mlkem_pub := CoreWire.client_mlkem_pub c |}.
Definition toy_response : result ServerWire.HandshakeError ServerHandshake.HandshakeOutcome :=
  ServerHandshake.respond toy_identity toy_hello (arr_fill 16 x51) (arr_fill 32 x52) toy_server.

Definition toy_server_hello : CoreWire.ServerHello :=
  match toy_response with
  | Ok o => server_hello_to_core (ServerHandshake.server_hello o)
  | Err _ => CoreClient.sample_server_hello
  end.

Lemma toy_run : exists o ks fin, toy_response = Ok o /\
  CoreClient.finish (CoreClient.start MlKem512 (arr_fill 32 x41) toy_client) toy_server_hello
    (ServerHandshake.verifying_key_bytes toy_identity) = Ok (ks, fin, ServerHandshake.transcript o).
Proof.
  destruct (honest_run (L := Toy.laws) toy_identity ServerWire.MlKem512 (arr_fill 32 x41) toy_client toy_hello
    (arr_fill 16 x51) (arr_fill 32 x52) toy_server) as (o & ks & fin & Ho & Hf & _).
  { by rewrite CoreClient.start_hello_eq. }
  exists o, ks, fin. split; [exact Ho|]. unfold toy_server_hello, toy_response. rewrite Ho. exact Hf.
Qed.

Lemma accepted_hello_agrees_witness :
  exists ks fin t h o sid sn d,
    CoreClient.finish (CoreClient.start MlKem512 (arr_fill 32 x41) toy_client) toy_server_hello
      (ServerHandshake.verifying_key_bytes toy_identity) = Ok (ks, fin, t) /\
    ServerHandshake.respond toy_identity h sid sn d = Ok o /\
    HybridKem.psk ks = ServerHandshake.psk (ServerHandshake.keys o).
Proof.
  destruct toy_run as (o0 & ks & fin & Ho0 & Hf).
  edestruct (accepted_hello_agrees (L := Toy.laws) toy_identity MlKem512 (arr_fill 32 x41) toy_client
    toy_server_hello (ServerHandshake.verifying_key_bytes toy_identity) _ _ _ Hf)
    as (h & o & sid & sn & d & Ho & _ & _ & _ & _ & _ & Hk & _).
  - intros _. exists toy_hello, o0, (arr_fill 16 x51), (arr_fill 32 x52), toy_server.
    split; [exact Ho0 | reflexivity].
  - exists ks, fin, (ServerHandshake.transcript o0), h, o, sid, sn, d. auto.
Defined.
