(* ===== verification/Registry.v ===== *)
(** * The peer registry

    [server/handshake-server/src/registry.rs].  The map behind the mutex is a
    [gmap] from WireGuard keys to peers; every public method locks for its whole
    body, so each is one atomic step.  [SystemTime] is nanoseconds since the
    epoch; the clock value a method reads is its argument [now]. *)

From S2P Require Import Prelude Utf8 Io Fs Net ServerWire.

Abbreviation SystemTime := Z.
Abbreviation Duration := Z.

Definition DEFAULT_MAX_PEERS : Z := 64.
Definition HOST_MIN : Z := 2.
Definition HOST_MAX : Z := 254.
Definition POOL_SIZE : Z := HOST_MAX - HOST_MIN + 1.

Record Peer : Set := {
  wg_pubkey : arr 32;
  assigned_ip : Ipv4Addr;
  session_id : arr 16;
  algo : AlgoCode;
  created : SystemTime;
  last_activity : SystemTime;
  rekeys : Z
}.

Record PeerSlot : Set := { slot_session_id : arr 16; slot_assigned_ip : Ipv4Addr }.

Inductive RegistryError : Set :=
  | AtCapacity | UnknownPeer | SessionMismatch | Downgrade | AddressPoolExhausted.

Record Registry : Type := {
  reg_path : option path;
  subnet_base : arr 4;
  max_peers : Z;
  inner : gmap (arr 32) Peer
}.

Definition set_inner (m : gmap (arr 32) Peer) (r : Registry) : Registry :=
  {| reg_path := reg_path r; subnet_base := subnet_base r; max_peers := max_peers r; inner := m |}.

Definition Registry_new (subnet_base : arr 4) (max_peers : Z) : Registry :=
  {| reg_path := None; subnet_base := subnet_base; max_peers := Z.min max_peers POOL_SIZE; inner := ∅ |}.

(** ** Addresses *)

(** [HOST_MIN..=HOST_MAX] *)
Definition hosts : list u8 := map (fun i => z2b (Z.of_nat i)) (seq 2 253).

Definition taken (m : gmap (arr 32) Peer) : list u8 :=
  map (fun kp => octet 3 (assigned_ip kp.2)) (map_to_list m).

Definition alloc_ip (base : arr 4) (m : gmap (arr 32) Peer) : result RegistryError Ipv4Addr :=
  match find (fun host => negb (bool_decide (host ∈ taken m))) hosts with
  | Some host => Ok (Ipv4Addr_new (octet 0 base) (octet 1 base) (octet 2 base) host)
  | None => Err AddressPoolExhausted
  end.

(** ** Operations *)

Definition upsert_handshake (now : SystemTime) (pk : arr 32) (a : AlgoCode) (sid : arr 16) :
    M Registry RegistryError PeerSlot := fun r =>
  match inner r !! pk with
  | Some p =>
      let p := {| wg_pubkey := wg_pubkey p; assigned_ip := assigned_ip p; session_id := sid;
                  algo := a; created := created p; last_activity := now; rekeys := 0 |} in
      (Ok {| slot_session_id := sid; slot_assigned_ip := assigned_ip p |},
       set_inner (<[pk := p]> (inner r)) r)
  | None =>
      if max_peers r <=? Z.of_nat (size (inner r)) then (Err AtCapacity, r)
      else
      match alloc_ip (subnet_base r) (inner r) with
      | Err e => (Err e, r)
      | Ok ip =>
          let p := {| wg_pubkey := pk; assigned_ip := ip; session_id := sid; algo := a;
                      created := now; last_activity := now; rekeys := 0 |} in
          (Ok {| slot_session_id := sid; slot_assigned_ip := ip |},
           set_inner (<[pk := p]> (inner r)) r)
      end
  end.

Definition registry_rekey (now : SystemTime) (pk : arr 32) (claimed : arr 16) (a : AlgoCode) :
    M Registry RegistryError PeerSlot := fun r =>
  match inner r !! pk with
  | None => (Err UnknownPeer, r)
  | Some p =>
      if negb (bool_decide (session_id p = claimed)) then (Err SessionMismatch, r)
      else if algo_ltb a (algo p) then (Err Downgrade, r)
      else
        let p := {| wg_pubkey := wg_pubkey p; assigned_ip := assigned_ip p;
                    session_id := session_id p; algo := a; created := created p;
                    last_activity := now; rekeys := u32_wrap (rekeys p + 1) |} in
        (Ok {| slot_session_id := session_id p; slot_assigned_ip := assigned_ip p |},
         set_inner (<[pk := p]> (inner r)) r)
  end.

Definition pubkeys (r : Registry) : list (arr 32) := map fst (map_to_list (inner r)).
Definition contains (pk : arr 32) (r : Registry) : bool := bool_decide (is_Some (inner r !! pk)).
Definition registry_remove (pk : arr 32) (r : Registry) : option Peer * Registry :=
  (inner r !! pk, set_inner (delete pk (inner r)) r).
Definition registry_len (r : Registry) : Z := Z.of_nat (size (inner r)).
Definition is_empty (r : Registry) : bool := registry_len r =? 0.

Definition touch (now : SystemTime) (pk : arr 32) (r : Registry) : Registry :=
  match inner r !! pk with
  | Some p =>
      let p := {| wg_pubkey := wg_pubkey p; assigned_ip := assigned_ip p;
                  session_id := session_id p; algo := algo p; created := created p;
                  last_activity := now; rekeys := rekeys p |} in
      set_inner (<[pk := p]> (inner r)) r
  | None => r
  end.

(** [SystemTime::duration_since]. *)
Definition duration_since (now earlier : SystemTime) : option Duration :=
  if earlier <=? now then Some (now - earlier) else None.

Definition idle (timeout : Duration) (now : SystemTime) (p : Peer) : bool :=
  default false ((fun d => timeout <? d) <$> duration_since now (last_activity p)).

Definition idle_peers (timeout : Duration) (now : SystemTime) (r : Registry) : list (arr 32) :=
  map wg_pubkey (filter (fun p => idle timeout now p = true) (map snd (map_to_list (inner r)))).

(** ** Persistence records *)

Record PeerRecord : Set := {
  wg_pubkey_b64 : rstring;
  rec_assigned_ip : rstring;
  session_id_hex : rstring;
  rec_algo : rstring;
  created_epoch : Z;
  last_activity_epoch : Z;
  rec_rekeys : Z
}.

Record RegistryFile : Set := { schema_version : Z; peers : list PeerRecord }.

(** The crates [base64] (standard alphabet), [hex] and [serde_json]; decoding
    errors carry their [Display] text. *)
Class Codecs : Type := {
  b64_encode : bytes -> rstring;
  b64_decode : rstring -> result rstring bytes;
  hex_encode : bytes -> rstring;
  hex_decode : rstring -> result rstring bytes;
  json_to_vec_pretty : RegistryFile -> result io_error bytes;
  json_from_slice : bytes -> result rstring RegistryFile
}.

(** The integer fields are in the ranges of their Rust types. *)
Definition record_wf (x : PeerRecord) : Prop :=
  0 <= created_epoch x < 2 ^ 64 /\ 0 <= last_activity_epoch x < 2 ^ 64 /\ 0 <= rec_rekeys x < 2 ^ 32.
Definition file_wf (f : RegistryFile) : Prop :=
  0 <= schema_version f < 2 ^ 32 /\ Forall record_wf (peers f).

(** The base64 alphabet, of which the hexadecimal digits are a part. *)
Definition b64_char (b : u8) : bool :=
  ((48 <=? b2z b) && (b2z b <=? 57)) || ((65 <=? b2z b) && (b2z b <=? 90)) ||
  ((97 <=? b2z b) && (b2z b <=? 122)) || (b2z b =? 43) || (b2z b =? 47) || (b2z b =? 61).

Class CodecLaws (C : Codecs) : Prop := {
  b64_round : forall b, b64_decode (b64_encode b) = Ok b;
  b64_alphabet : forall b, forallb b64_char (str_bytes (b64_encode b)) = true;
  b64_nonempty : forall b, b <> [] -> str_bytes (b64_encode b) <> [];
  hex_round : forall b, hex_decode (hex_encode b) = Ok b;
  hex_alphabet : forall b, forallb b64_char (str_bytes (hex_encode b)) = true;
  hex_length : forall b, len (str_bytes (hex_encode b)) = 2 * len b;
  json_round : forall f, file_wf f ->
    exists b, json_to_vec_pretty f = Ok b /\ json_from_slice b = Ok f
}.

Section persistence.
Context `{C : Codecs}.

Definition NANOS : Z := 10 ^ 9.

(** Whole seconds since the epoch, 0 for times before it. *)
Definition epoch (t : SystemTime) : Z :=
  default 0 ((fun d => d / NANOS) <$> duration_since t 0).

(** [UNIX_EPOCH + Duration::from_secs(s)]: [None] is the overflow panic. *)
Definition from_epoch (s : Z) : option SystemTime :=
  if s <? 2 ^ 63 then Some (s * NANOS) else None.

Definition from_peer (p : Peer) : PeerRecord :=
  {| wg_pubkey_b64 := b64_encode (arr_list (wg_pubkey p));
     rec_assigned_ip := from_utf8_lossy (fmt_ip (assigned_ip p));
     session_id_hex := hex_encode (arr_list (session_id p));
     rec_algo := lit (AlgoCode_name (algo p));
     created_epoch := epoch (created p);
     last_activity_epoch := epoch (last_activity p);
     rec_rekeys := rekeys p |}.

(** The outer [option] is the panic of an out-of-range time. *)
Definition into_peer (x : PeerRecord) : option (result rstring Peer) :=
  let fields :=
    pk ← b64_decode (wg_pubkey_b64 x);
    pk ← ok_or (lit "wg_pubkey not 32 bytes") (arr_try_from 32 pk);
    sid ← hex_decode (session_id_hex x);
    sid ← ok_or (lit "session_id not 16 bytes") (arr_try_from 16 sid);
    ip ← ok_or (lit "bad ip") (parse_ip (str_bytes (rec_assigned_ip x)));
    a ← ok_or ((lit "bad algo " +:+ rec_algo x)%rs)
          (AlgoCode_from_name (String.string_of_list_byte (str_bytes (rec_algo x))));
    mret (pk, sid, ip, a) in
  match fields with
  | Err e => Some (Err e)
  | Ok (pk, sid, ip, a) =>
      created ← from_epoch (created_epoch x);
      last_activity ← from_epoch (last_activity_epoch x);
      Some (Ok {| wg_pubkey := pk; assigned_ip := ip; session_id := sid; algo := a;
                  created := created; last_activity := last_activity; rekeys := rec_rekeys x |})
  end.

(** The loop of [load]: bad records are skipped, later records win. *)
Fixpoint insert_records (xs : list PeerRecord) (m : gmap (arr 32) Peer) : option (gmap (arr 32) Peer) :=
  match xs with
  | [] => Some m
  | x :: xs =>
      r ← into_peer x;
      insert_records xs (match r with Ok p => <[wg_pubkey p := p]> m | Err _ => m end)
  end.

(** [Registry::load]; the result is [None] when it panics. *)
Definition registry_load (p : path) (base : arr 4) (max : Z) : M fs io_error (option Registry) :=
  r ← attempt (fs_read p);
  m ← match r with
      | Ok bytes =>
          file ← lift (map_err (fun e => IoError InvalidData e) (json_from_slice bytes));
          mret (insert_records (peers file) ∅)
      | Err e => if bool_decide (io_kind e = NotFound) then mret (Some ∅) else throw e
      end;
  mret ((fun m => {| reg_path := Some p; subnet_base := base;
                     max_peers := Z.min max POOL_SIZE; inner := m |}) <$> m).

Definition registry_file (r : Registry) : RegistryFile :=
  {| schema_version := 1; peers := map (fun kp => from_peer kp.2) (map_to_list (inner r)) |}.

Definition JSON_TMP : bytes := String.list_byte_of_string "json.tmp".

Definition persist (r : Registry) : M fs io_error unit :=
  match reg_path r with
  | None => mret tt
  | Some p =>
      json ← lift (json_to_vec_pretty (registry_file r));
      let tmp := with_extension p JSON_TMP in
      _ ← fs_write tmp json;
      fs_rename tmp p
  end.

End persistence.

(** ** A concrete instance of the codecs

    Both text codecs write two hexadecimal digits per byte; the file format
    writes a number that encodes the whole file, one byte per bit. *)

Module ToyCodecs.
Definition hex (l : bytes) : bytes :=
  concat (map (fun b => [hex_digit (b2z b / 16); hex_digit (b2z b mod 16)]) l).

Definition unhex_digit (b : u8) : option Z :=
  if (48 <=? b2z b) && (b2z b <=? 57) then Some (b2z b - 48)
  else if (97 <=? b2z b) && (b2z b <=? 102) then Some (b2z b - 87) else None.

Fixpoint unhex (l : bytes) : option bytes :=
  match l with
  | [] => Some []
  | a :: b :: r => x ← unhex_digit a; y ← unhex_digit b; l ← unhex r; Some (z2b (16 * x + y) :: l)
  | _ => None
  end.

Lemma unhex_hex l : unhex (hex l) = Some l.
Proof.
  induction l as [|b l IH]; [done|]. unfold hex in *. cbn [map concat app unhex].
  assert (H : forall b, bool_decide (unhex_digit (hex_digit (b2z b / 16)) = Some (b2z b / 16) /\
    unhex_digit (hex_digit (b2z b mod 16)) = Some (b2z b mod 16)) = true).
  { apply byte_forall. vm_compute. reflexivity. }
  destruct (bool_decide_eq_true_1 _ (H b)) as [-> ->]. simpl. rewrite IH. simpl. do 2 f_equal.
  apply b2z_inj. rewrite b2z_z2b. pose proof (b2z_range b).
  pose proof (Z.div_mod (b2z b) 16 ltac:(lia)). rewrite Z.mod_small; lia.
Qed.

Lemma hex_ascii l : forallb ascii (hex l) = true.
Proof.
  induction l as [|b l IH]; [done|]. unfold hex in *. cbn [map concat]. rewrite forallb_app, IH.
  assert (H : forall b, forallb ascii [hex_digit (b2z b / 16); hex_digit (b2z b mod 16)] = true).
  { apply byte_forall. vm_compute. reflexivity. }
  by rewrite H.
Qed.

Lemma hex_b64 l : forallb b64_char (hex l) = true.
Proof.
  induction l as [|b l IH]; [done|]. unfold hex in *. cbn [map concat]. rewrite forallb_app, IH.
  assert (H : forall b, forallb b64_char [hex_digit (b2z b / 16); hex_digit (b2z b mod 16)] = true).
  { apply byte_forall. vm_compute. reflexivity. }
  by rewrite H.
Qed.

Lemma hex_len l : len (hex l) = 2 * len l.
Proof.
  induction l as [|b l IH]; [done|]. unfold hex in *. cbn [map concat app]. rewrite !len_cons, IH. lia.
Qed.

Fixpoint pos_bytes (p : positive) : bytes :=
  match p with xH => [] | xO p => x30 :: pos_bytes p | xI p => x31 :: pos_bytes p end.
Fixpoint bytes_pos (l : bytes) : positive :=
  match l with [] => xH | x30 :: r => xO (bytes_pos r) | _ :: r => xI (bytes_pos r) end.
Lemma bytes_pos_bytes p : bytes_pos (pos_bytes p) = p.
Proof. induction p; simpl; congruence. Qed.

Definition tuple_of (x : PeerRecord) : bytes * bytes * bytes * bytes * Z * Z * Z :=
  (str_bytes (wg_pubkey_b64 x), str_bytes (rec_assigned_ip x), str_bytes (session_id_hex x),
   str_bytes (rec_algo x), created_epoch x, last_activity_epoch x, rec_rekeys x).
Definition of_tuple (t : bytes * bytes * bytes * bytes * Z * Z * Z) : PeerRecord :=
  let '(a, b, c, d, e, f, g) := t in
  Build_PeerRecord (from_utf8_lossy a) (from_utf8_lossy b) (from_utf8_lossy c) (from_utf8_lossy d) e f g.
Lemma of_tuple_of x : of_tuple (tuple_of x) = x.
Proof. destruct x. unfold of_tuple, tuple_of. simpl. by rewrite !from_utf8_lossy_str. Qed.

#[export] Instance codecs : Codecs := {
  b64_encode l := from_utf8_lossy (hex l);
  b64_decode s := ok_or (lit "bad encoding") (unhex (str_bytes s));
  hex_encode l := from_utf8_lossy (hex l);
  hex_decode s := ok_or (lit "bad encoding") (unhex (str_bytes s));
  json_to_vec_pretty f := Ok (pos_bytes (encode (schema_version f, map tuple_of (peers f))));
  json_from_slice b :=
    match decode (A := Z * list (bytes * bytes * bytes * bytes * Z * Z * Z)) (bytes_pos b) with
    | Some (v, l) => Ok {| schema_version := v; peers := map of_tuple l |}
    | None => Err (lit "bad file")
    end
}.

#[export] Instance laws : CodecLaws codecs.
Proof.
  assert (Hround : forall b, ok_or (lit "bad encoding") (unhex (str_bytes (from_utf8_lossy (hex b)))) = Ok b).
  { intros b. by rewrite from_utf8_lossy_ascii, unhex_hex by apply hex_ascii. }
  assert (Htext : forall b, str_bytes (from_utf8_lossy (hex b)) = hex b).
  { intros b. apply from_utf8_lossy_ascii, hex_ascii. }
  split; [exact Hround| | |exact Hround| | |].
  { intros b. unfold b64_encode, codecs. rewrite Htext. apply hex_b64. }
  { intros [|b l] Hb; [done|]. unfold b64_encode, codecs. rewrite Htext. done. }
  { intros b. unfold hex_encode, codecs. rewrite Htext. apply hex_b64. }
  { intros b. unfold hex_encode, codecs. rewrite Htext. apply hex_len. }
  intros [v l] _. eexists. split; [done|].
  unfold json_from_slice, codecs. rewrite bytes_pos_bytes, decode_encode. simpl.
  rewrite map_map. do 2 f_equal. rewrite <- (map_id l) at 2. apply map_ext, of_tuple_of.
Qed.
End ToyCodecs.
