(* ===== verification/RegistryFacts.v ===== *)
(** * What the registry promises

    The invariant of [Registry], its preservation by every operation and by any
    interleaving of them, the functional behaviour of each operation, and the
    round trip and crash behaviour of the backing file. *)

From S2P Require Import Prelude Utf8 Io Fs Net ServerWire Registry.

(** ** Address allocation *)

Definition in_subnet (base ip : arr 4) : Prop :=
  octet 0 ip = octet 0 base /\ octet 1 ip = octet 1 base /\ octet 2 ip = octet 2 base /\
  octet 3 ip ∈ hosts.

#[export] Instance in_subnet_dec base ip : Decision (in_subnet base ip).
Proof. unfold in_subnet. apply _. Defined.

Lemma hosts_range h : h ∈ hosts <-> HOST_MIN <= b2z h <= HOST_MAX.
Proof.
  unfold hosts, HOST_MIN, HOST_MAX. rewrite list_elem_of_In, in_map_iff. split.
  - intros (i & <- & Hi%in_seq). rewrite b2z_z2b, Z.mod_small; lia.
  - intros H. exists (Z.to_nat (b2z h)). rewrite Z2Nat.id by lia. split; [apply z2b_b2z|].
    apply in_seq. lia.
Qed.

Lemma hosts_NoDup : List.NoDup hosts.
Proof. apply NoDup_ListNoDup. apply (bool_decide_unpack (NoDup hosts)). vm_compute. done. Qed.

Lemma taken_spec m h : h ∈ taken m <-> exists k p, m !! k = Some p /\ octet 3 (assigned_ip p) = h.
Proof.
  unfold taken. rewrite list_elem_of_In, in_map_iff. split.
  - intros ([k p] & <- & H). exists k, p. split; [|done]. by apply elem_of_map_to_list, list_elem_of_In.
  - intros (k & p & H & <-). exists (k, p). split; [done|].
    by apply list_elem_of_In, elem_of_map_to_list.
Qed.

Lemma find_lowest {A} (f : A -> bool) l x :
  find f l = Some x -> exists l1 l2, l = l1 ++ x :: l2 /\ f x = true /\ Forall (fun y => f y = false) l1.
Proof.
  induction l as [|y l IH]; [done|]. simpl. destruct (f y) eqn:E.
  - intros [= <-]. by exists [], l.
  - intros (l1 & l2 & -> & Hx & Hl)%IH. exists (y :: l1), l2. split_and!; try done. by constructor.
Qed.

Lemma hosts_lookup i h : hosts !! i = Some h <-> (i < 253)%nat /\ b2z h = 2 + Z.of_nat i.
Proof.
  unfold hosts. rewrite list_lookup_fmap. split.
  - intros (j & Hj & ->)%fmap_Some. apply lookup_seq in Hj as [-> Hi].
    rewrite b2z_z2b, Z.mod_small; lia.
  - intros [Hi Hh]. rewrite (proj2 (lookup_seq 2 253 i (2 + i)%nat)) by lia. simpl. f_equal.
    apply b2z_inj. rewrite b2z_z2b, Z.mod_small; lia.
Qed.

(** [hosts] is ascending. *)
Lemma hosts_split_lt l1 h l2 h' :
  hosts = l1 ++ h :: l2 -> HOST_MIN <= b2z h' < b2z h -> h' ∈ l1.
Proof.
  intros E Hr. unfold HOST_MIN in Hr.
  assert (Hh : hosts !! length l1 = Some h) by (rewrite E; by apply list_lookup_middle).
  apply hosts_lookup in Hh as [Hl Hh].
  assert (Hh' : hosts !! Z.to_nat (b2z h' - 2) = Some h') by (apply hosts_lookup; lia).
  rewrite E, lookup_app_l in Hh' by lia. by apply list_elem_of_lookup_2 in Hh'.
Qed.

Lemma alloc_ip_Ok base m ip :
  alloc_ip base m = Ok ip ->
  in_subnet base ip /\
  (forall k p, m !! k = Some p -> octet 3 (assigned_ip p) <> octet 3 ip) /\
  (forall h, HOST_MIN <= b2z h < b2z (octet 3 ip) -> exists k p, m !! k = Some p /\ octet 3 (assigned_ip p) = h).
Proof.
  unfold alloc_ip. destruct (find _ hosts) as [h|] eqn:E; [|done]. intros [= <-].
  apply find_lowest in E as (l1 & l2 & Hl & Hh & Hlow).
  apply negb_true_iff, bool_decide_eq_false in Hh. rewrite taken_spec in Hh.
  assert (Hin : h ∈ hosts) by (rewrite Hl; apply elem_of_app; right; left).
  change (octet 3 (Ipv4Addr_new _ _ _ h)) with h. split_and!.
  - by split_and!.
  - intros k p Hp Heq. apply Hh. eauto.
  - intros h' Hr. apply taken_spec.
    assert (Hin' : h' ∈ l1) by (by eapply hosts_split_lt).
    rewrite List.Forall_forall in Hlow. apply list_elem_of_In, Hlow in Hin'.
    by apply negb_false_iff, bool_decide_eq_true in Hin'.
Qed.

(** Pigeonhole: below the pool size there is a free address. *)
Lemma alloc_ip_total base m : Z.of_nat (size m) < POOL_SIZE -> exists ip, alloc_ip base m = Ok ip.
Proof.
  intros Hs. unfold alloc_ip. destruct (find _ hosts) as [h|] eqn:E; [by eexists|]. exfalso.
  assert (Hincl : incl hosts (taken m)).
  { intros h Hh. pose proof (List.find_none _ _ E h Hh) as H. simpl in H.
    by apply list_elem_of_In; apply negb_false_iff, bool_decide_eq_true in H. }
  apply (List.NoDup_incl_length hosts_NoDup) in Hincl. unfold taken in Hincl.
  rewrite length_map in Hincl. change (length hosts) with 253%nat in Hincl.
  rewrite length_map_to_list in Hincl. unfold POOL_SIZE, HOST_MAX, HOST_MIN in Hs. lia.
Qed.

(** ** The invariant *)

(** Keys are the peers' own, addresses are distinct hosts of the subnet, the
    size respects the limit, and the limit fits the address pool. *)
Record reg_wf (r : Registry) : Prop := {
  wf_max : 0 <= max_peers r <= POOL_SIZE;
  wf_size : Z.of_nat (size (inner r)) <= max_peers r;
  wf_key : forall k p, inner r !! k = Some p -> wg_pubkey p = k;
  wf_ip : forall k p, inner r !! k = Some p -> in_subnet (subnet_base r) (assigned_ip p);
  wf_unique : forall k1 k2 p1 p2, inner r !! k1 = Some p1 -> inner r !! k2 = Some p2 ->
    assigned_ip p1 = assigned_ip p2 -> k1 = k2;
  wf_rekeys : forall k p, inner r !! k = Some p -> 0 <= rekeys p < 2 ^ 32
}.

Lemma new_wf base max : 0 <= max -> reg_wf (Registry_new base max).
Proof.
  intros H. unfold Registry_new. split; simpl; try done.
  - unfold POOL_SIZE, HOST_MAX, HOST_MIN in *. lia.
  - rewrite map_size_empty. unfold POOL_SIZE, HOST_MAX, HOST_MIN. lia.
Qed.

(** Replacing a peer by one with the same key and address. *)
Lemma update_wf r pk p p' :
  reg_wf r -> inner r !! pk = Some p -> wg_pubkey p' = wg_pubkey p ->
  assigned_ip p' = assigned_ip p -> 0 <= rekeys p' < 2 ^ 32 ->
  reg_wf (set_inner (<[pk := p']> (inner r)) r).
Proof.
  intros [Hm Hs Hk Hip Hu Hr] Hp Hpk Ha Hr'. split; simpl; [done| | | | |].
  - rewrite map_size_insert_Some by (by eexists). done.
  - intros k q [[<- <-]|[_ Hq]]%lookup_insert_Some; [rewrite Hpk|]; eauto.
  - intros k q [[<- <-]|[_ Hq]]%lookup_insert_Some; [rewrite Ha|]; eauto.
  - intros k1 k2 p1 p2 [[<- <-]|[_ H1]]%lookup_insert_Some [[<- <-]|[_ H2]]%lookup_insert_Some;
      rewrite ?Ha; eauto.
  - intros k q [[<- <-]|[_ Hq]]%lookup_insert_Some; eauto.
Qed.

Lemma remove_wf r pk : reg_wf r -> reg_wf (set_inner (delete pk (inner r)) r).
Proof.
  intros [Hm Hs Hk Hip Hu Hr]. split; simpl; [done| | | | |].
  - rewrite map_size_delete. destruct (inner r !! pk); unfold id; lia.
  - intros k q [_ Hq]%lookup_delete_Some; eauto.
  - intros k q [_ Hq]%lookup_delete_Some; eauto.
  - intros k1 k2 p1 p2 [_ H1]%lookup_delete_Some [_ H2]%lookup_delete_Some. eauto.
  - intros k q [_ Hq]%lookup_delete_Some; eauto.
Qed.

Lemma insert_wf r pk p :
  reg_wf r -> inner r !! pk = None -> Z.of_nat (size (inner r)) < max_peers r ->
  wg_pubkey p = pk -> in_subnet (subnet_base r) (assigned_ip p) -> 0 <= rekeys p < 2 ^ 32 ->
  (forall k q, inner r !! k = Some q -> octet 3 (assigned_ip q) <> octet 3 (assigned_ip p)) ->
  reg_wf (set_inner (<[pk := p]> (inner r)) r).
Proof.
  intros [Hm Hs Hk Hip Hu Hr] Hnone Hlt Hpk Hsub Hrk Hfree. split; simpl; [done| | | | |].
  - rewrite map_size_insert_None by done. lia.
  - intros k q [[<- <-]|[_ Hq]]%lookup_insert_Some; eauto.
  - intros k q [[<- <-]|[_ Hq]]%lookup_insert_Some; eauto.
  - intros k1 k2 p1 p2 [[<- <-]|[_ H1]]%lookup_insert_Some [[<- <-]|[_ H2]]%lookup_insert_Some Heq;
      try done.
    + by destruct (Hfree _ _ H2); rewrite Heq.
    + by destruct (Hfree _ _ H1); rewrite Heq.
    + eauto.
  - intros k q [[<- <-]|[_ Hq]]%lookup_insert_Some; eauto.
Qed.

#[export] Hint Resolve update_wf remove_wf insert_wf : pqc.

(** ** Operations *)

Lemma upsert_known now pk a sid r p :
  inner r !! pk = Some p ->
  upsert_handshake now pk a sid r =
    (Ok {| slot_session_id := sid; slot_assigned_ip := assigned_ip p |},
     set_inner (<[pk := {| wg_pubkey := wg_pubkey p; assigned_ip := assigned_ip p; session_id := sid;
                  algo := a; created := created p; last_activity := now; rekeys := 0 |}]> (inner r)) r).
Proof. unfold upsert_handshake. by intros ->. Qed.

Lemma upsert_full now pk a sid r :
  inner r !! pk = None -> max_peers r <= Z.of_nat (size (inner r)) ->
  upsert_handshake now pk a sid r = (Err AtCapacity, r).
Proof. unfold upsert_handshake. intros ->. by intros ->%Z.leb_le. Qed.

Lemma upsert_new now pk a sid r :
  reg_wf r -> inner r !! pk = None -> Z.of_nat (size (inner r)) < max_peers r ->
  exists ip, alloc_ip (subnet_base r) (inner r) = Ok ip /\
  upsert_handshake now pk a sid r =
    (Ok {| slot_session_id := sid; slot_assigned_ip := ip |},
     set_inner (<[pk := {| wg_pubkey := pk; assigned_ip := ip; session_id := sid; algo := a;
                  created := now; last_activity := now; rekeys := 0 |}]> (inner r)) r).
Proof.
  intros Hwf Hn Hs. pose proof (wf_max r Hwf) as Hm.
  destruct (alloc_ip_total (subnet_base r) (inner r) ltac:(lia)) as [ip Hip]. exists ip. split; [done|].
  unfold upsert_handshake. rewrite Hn, (proj2 (Z.leb_gt _ _)) by lia. by rewrite Hip.
Qed.

Lemma upsert_wf now pk a sid r : reg_wf r -> reg_wf (upsert_handshake now pk a sid r).2.
Proof.
  intros Hwf. destruct (inner r !! pk) as [p|] eqn:Hp.
  - rewrite (upsert_known _ _ _ _ _ _ Hp). by eapply update_wf.
  - destruct (Z.le_gt_cases (max_peers r) (Z.of_nat (size (inner r)))) as [Hs|Hs].
    + by rewrite upsert_full.
    + destruct (upsert_new now pk a sid r Hwf Hp Hs) as (ip & Hip & ->).
      apply alloc_ip_Ok in Hip as (? & ? & _). by apply insert_wf.
Qed.

Lemma rekey_wf now pk c a r : reg_wf r -> reg_wf (registry_rekey now pk c a r).2.
Proof.
  intros Hwf. unfold registry_rekey. destruct (inner r !! pk) as [p|] eqn:Hp; [|done].
  case_bool_decide; [|done]. simpl. destruct (algo_ltb a (algo p)); [done|].
  eapply update_wf; try done. simpl. unfold u32_wrap. apply Z.mod_pos_bound. lia.
Qed.

Lemma touch_wf now pk r : reg_wf r -> reg_wf (touch now pk r).
Proof.
  intros Hwf. unfold touch. destruct (inner r !! pk) as [p|] eqn:Hp; [|done].
  eapply update_wf; try done. by apply (wf_rekeys r Hwf _ _ Hp).
Qed.

#[export] Hint Resolve upsert_wf rekey_wf touch_wf : pqc.

(** ** Interleavings

    Each connection thread and the idle sweep call these operations; the mutex
    makes every call atomic, so whatever the threads do, the registry takes a
    sequence of them. *)

Inductive op : Type :=
  | OpUpsert (now : SystemTime) (pk : arr 32) (a : AlgoCode) (sid : arr 16)
  | OpRekey (now : SystemTime) (pk : arr 32) (claimed : arr 16) (a : AlgoCode)
  | OpRemove (pk : arr 32)
  | OpTouch (now : SystemTime) (pk : arr 32).

Definition apply_op (o : op) (r : Registry) : Registry :=
  match o with
  | OpUpsert now pk a sid => (upsert_handshake now pk a sid r).2
  | OpRekey now pk c a => (registry_rekey now pk c a r).2
  | OpRemove pk => (registry_remove pk r).2
  | OpTouch now pk => touch now pk r
  end.

Inductive steps : Registry -> list op -> Registry -> Prop :=
  | steps_nil r : steps r [] r
  | steps_snoc r r' os o : steps r os r' -> steps r (os ++ [o]) (apply_op o r').

Lemma apply_op_wf o r : reg_wf r -> reg_wf (apply_op o r).
Proof. destruct o; simpl; auto with pqc. Qed.

Lemma apply_op_config o r :
  subnet_base (apply_op o r) = subnet_base r /\ max_peers (apply_op o r) = max_peers r /\
  reg_path (apply_op o r) = reg_path r.
Proof.
  destruct o; simpl; try done.
  - unfold upsert_handshake. by repeat case_match.
  - unfold registry_rekey. by repeat case_match.
  - unfold touch. by case_match.
Qed.

Lemma lookup_fmap_Some_eq {A B} (f : A -> B) (m : gmap (arr 32) A) k y :
  (f <$> m) !! k = Some y -> exists x, m !! k = Some x /\ y = f x.
Proof. rewrite lookup_fmap. destruct (m !! k) as [x|]; [|done]. intros [= <-]. by exists x. Qed.

(** ** The backing file *)

Section persistence_facts.
Context `{C : Codecs} `{CL : !CodecLaws C}.

(** What a stored time becomes: whole seconds, nothing before the epoch. *)
Definition trunc (t : SystemTime) : SystemTime := epoch t * NANOS.
Definition stored (p : Peer) : Peer :=
  {| wg_pubkey := wg_pubkey p; assigned_ip := assigned_ip p; session_id := session_id p;
     algo := algo p; created := trunc (created p); last_activity := trunc (last_activity p);
     rekeys := rekeys p |}.

(** The times a Unix [SystemTime] can hold, and the counter's range. *)
Definition peer_storable (p : Peer) : Prop :=
  created p < 2 ^ 63 * NANOS /\ last_activity p < 2 ^ 63 * NANOS /\ 0 <= rekeys p < 2 ^ 32.

Lemma epoch_range t : t < 2 ^ 63 * NANOS -> 0 <= epoch t < 2 ^ 63.
Proof.
  unfold epoch, duration_since, NANOS. intros H. destruct (Z.leb_spec 0 t); simpl; [|lia].
  rewrite Z.sub_0_r. split; [apply Z.div_pos; lia|]. apply Z.div_lt_upper_bound; lia.
Qed.

Lemma from_epoch_epoch t : t < 2 ^ 63 * NANOS -> from_epoch (epoch t) = Some (trunc t).
Proof.
  intros H%epoch_range. unfold from_epoch. by rewrite (proj2 (Z.ltb_lt _ _)) by lia.
Qed.

Lemma trunc_ge0 t : 0 <= t -> trunc t <= t < trunc t + NANOS.
Proof.
  intros H. unfold trunc, epoch, duration_since, NANOS. rewrite (proj2 (Z.leb_le 0 t)) by lia. simpl.
  rewrite Z.sub_0_r. pose proof (Z.div_mod t (10 ^ 9) ltac:(lia)).
  pose proof (Z.mod_pos_bound t (10 ^ 9) ltac:(lia)). lia.
Qed.

Lemma algo_name_round a :
  AlgoCode_from_name (String.string_of_list_byte (str_bytes (lit (AlgoCode_name a)))) = Some a.
Proof. by destruct a. Qed.

Lemma into_from_peer p : peer_storable p -> into_peer (from_peer p) = Some (Ok (stored p)).
Proof.
  intros (H1 & H2 & _). unfold into_peer, from_peer. cbn [wg_pubkey_b64 session_id_hex rec_assigned_ip
    rec_algo created_epoch last_activity_epoch rec_rekeys].
  rewrite b64_round, hex_round. cbn [mbind result_bind].
  rewrite !arr_try_from_arr. cbn [mbind result_bind ok_or].
  rewrite from_utf8_lossy_ascii, parse_fmt_ip by apply fmt_ip_ascii. cbn [mbind result_bind ok_or].
  rewrite algo_name_round. simpl. by rewrite !from_epoch_epoch.
Qed.

Lemma from_peer_wf p : peer_storable p -> record_wf (from_peer p).
Proof.
  intros (H1%epoch_range & H2%epoch_range & H3). unfold record_wf, from_peer. simpl. lia.
Qed.

Lemma insert_from_peers l m0 :
  Forall (fun kp => peer_storable kp.2 /\ wg_pubkey kp.2 = kp.1) l -> NoDup (l.*1) ->
  exists m, insert_records (map (fun kp => from_peer kp.2) l) m0 = Some m /\
    forall k, m !! k = match (list_to_map l : gmap (arr 32) Peer) !! k with
                       | Some p => Some (stored p) | None => m0 !! k end.
Proof.
  revert m0. induction l as [|[k0 p0] l IH]; intros m0 Hl Hnd.
  - exists m0. split; [done|]. intros k. simpl. by rewrite lookup_empty.
  - apply Forall_cons_1 in Hl as [[Hp Hk] Hl]. simpl in Hp, Hk. subst k0.
    pose proof (NoDup_cons_1_1 _ _ Hnd) as Hni. apply NoDup_cons_1_2 in Hnd. cbn [map insert_records snd fst list_to_map foldr] in *.
    rewrite into_from_peer by done. simpl.
    destruct (IH (<[wg_pubkey p0 := stored p0]> m0) Hl Hnd) as (m & Hm & Hlk).
    exists m. split; [exact Hm|]. intros k. rewrite Hlk. clear Hm Hlk IH.
    destruct (decide (k = wg_pubkey p0)) as [->|Hne].
    + rewrite lookup_insert_eq. rewrite not_elem_of_list_to_map_1 by done. by rewrite lookup_insert_eq.
    + rewrite !lookup_insert_ne by done. done.
Qed.

(** The registry a load of [persist]'s file rebuilds. *)
Lemma load_registry_file r :
  (forall k p, inner r !! k = Some p -> peer_storable p /\ wg_pubkey p = k) ->
  insert_records (peers (registry_file r)) ∅ = Some (stored <$> inner r).
Proof.
  intros H. unfold registry_file. simpl.
  destruct (insert_from_peers (map_to_list (inner r)) ∅) as (m & -> & Hm).
  - apply Forall_forall. intros [k p] Hin. apply H. by apply elem_of_map_to_list, list_elem_of_In.
  - apply NoDup_fst_map_to_list.
  - f_equal. apply map_eq. intros k. rewrite Hm, list_to_map_to_list, lookup_fmap, lookup_empty.
    by destruct (inner r !! k).
Qed.

Lemma registry_file_wf r :
  (forall k p, inner r !! k = Some p -> peer_storable p) -> file_wf (registry_file r).
Proof.
  intros H. split; simpl; [lia|]. apply Forall_forall. intros x Hx.
  apply in_map_iff in Hx as ([k p] & <- & Hin). apply from_peer_wf, (H k).
  by apply elem_of_map_to_list, list_elem_of_In.
Qed.

Lemma json_tmp_dot : dot ∈ JSON_TMP.
Proof. apply (bool_decide_unpack (dot ∈ JSON_TMP)). by vm_compute. Qed.

End persistence_facts.

(** Reloading keeps the invariant. *)
Lemma stored_wf r : reg_wf r -> reg_wf (set_inner (stored <$> inner r) r).
Proof.
  intros [Hm Hs Hk Hip Hu Hr]. split; simpl; [done| | | | |].
  - by rewrite map_size_fmap.
  - intros k q (q' & Hq & ->)%lookup_fmap_Some_eq. exact (Hk k q' Hq).
  - intros k q (q' & Hq & ->)%lookup_fmap_Some_eq. exact (Hip k q' Hq).
  - intros k1 k2 q1 q2 (q1' & H1 & ->)%lookup_fmap_Some_eq (q2' & H2 & ->)%lookup_fmap_Some_eq. exact (Hu k1 k2 q1' q2' H1 H2).
  - intros k q (q' & Hq & ->)%lookup_fmap_Some_eq. exact (Hr k q' Hq).
Qed.

(** The bytes that a complete save of [r] consists of. *)
Definition saved_as {C : Codecs} (r : Registry) (json : bytes) : Prop :=
  json_to_vec_pretty (registry_file r) = Ok json.

Definition storable (r : Registry) : Prop := forall k q, inner r !! k = Some q -> peer_storable q.

(** A saved file loads as the registry it was saved from. *)
Lemma load_saved {C : Codecs} {CL : CodecLaws C} r p json max g m :
  reg_wf r -> reg_path r = Some p -> storable r -> saved_as r json ->
  Z.min max POOL_SIZE = max_peers r -> g !! p = Some json ->
  registry_load p (subnet_base r) max (Fs g m []) =
    (Ok (Some (set_inner (stored <$> inner r) r)), Fs g m []).
Proof.
  intros Hwf Hpath Hst Hsaved Hmax Hg.
  destruct (json_round (registry_file r) (registry_file_wf r Hst)) as (b & Hb & Hb').
  unfold saved_as in Hsaved. rewrite Hsaved in Hb. injection Hb as <-.
  unfold registry_load, attempt, fs_read, mbind, M_bind. simpl. rewrite Hg. simpl.
  assert (Hload : insert_records (peers (registry_file r)) ∅ = Some (stored <$> inner r)).
  { apply load_registry_file. intros k q Hq. split; [by eapply Hst | by apply (wf_key r Hwf)]. }
  rewrite Hb'. simpl in *. rewrite Hload. simpl. rewrite Hmax. by destruct r; simpl in *; subst.
Qed.

(** A save on a working disk writes one file and no other but the temporary one. *)
Lemma persist_run {C : Codecs} {CL : CodecLaws C} r p f m :
  reg_path r = Some p -> storable r ->
  exists json f', persist r (Fs f m []) = (Ok tt, Fs f' m []) /\ saved_as r json /\ f' !! p = Some json /\
    forall q, q <> p -> q <> with_extension p JSON_TMP -> f' !! q = f !! q.
Proof.
  intros Hpath Hst. destruct (json_round (registry_file r) (registry_file_wf r Hst)) as (b & Hb & _).
  pose proof (with_extension_ne p JSON_TMP json_tmp_dot) as Hne.
  exists b, (<[p := b]> (delete (with_extension p JSON_TMP) (<[with_extension p JSON_TMP := b]> f))).
  split_and!.
  - unfold persist. rewrite Hpath, Hb. unfold mbind, M_bind, lift, fs_write, fs_rename. simpl.
    by rewrite lookup_insert_eq.
  - exact Hb.
  - apply lookup_insert_eq.
  - intros q H1 H2. by rewrite lookup_insert_ne, lookup_delete_ne, lookup_insert_ne.
Qed.

(** ** Properties *)

(** C14. However the threads interleave, starting from an empty registry: the
    limit, the key/peer correspondence, the subnet and the uniqueness of the
    assigned addresses hold after any sequence of operations, and the
    configuration never changes. *)
Theorem registry_invariant base max os r :
  0 <= max -> steps (Registry_new base max) os r ->
  reg_wf r /\ subnet_base r = base /\ max_peers r = Z.min max POOL_SIZE.
Proof.
  intros Hmax Hs. remember (Registry_new base max) as r0 eqn:E.
  induction Hs as [r|r r' os o Hs IH]; subst.
  - split; [by apply new_wf | done].
  - destruct (IH eq_refl) as (Hwf & Hb & Hm). pose proof (apply_op_config o r') as (Hb' & Hm' & _).
    split; [by apply apply_op_wf|]. by rewrite Hb', Hm'.
Qed.

(** C4. [upsert_handshake], every branch.  A known peer always succeeds, keeps its
    address and creation time and gets the new session, with the rekey count
    reset.  A new peer is refused when the registry is full, which changes
    nothing, and otherwise always succeeds: it is registered under the new
    session at the lowest free host of the subnet.  No other entry changes, and
    no other answer exists; in particular the pool is never exhausted. *)
Theorem upsert_contract now pk a sid r :
  reg_wf r ->
  let '(res, r') := upsert_handshake now pk a sid r in
  reg_wf r' /\ res <> Err AddressPoolExhausted /\
  match inner r !! pk with
  | Some p =>
      res = Ok {| slot_session_id := sid; slot_assigned_ip := assigned_ip p |} /\
      r' = set_inner (<[pk := {| wg_pubkey := pk; assigned_ip := assigned_ip p; session_id := sid; algo := a;
                                 created := created p; last_activity := now; rekeys := 0 |}]> (inner r)) r
  | None =>
      (max_peers r <= registry_len r -> res = Err AtCapacity /\ r' = r) /\
      (registry_len r < max_peers r ->
        exists ip, res = Ok {| slot_session_id := sid; slot_assigned_ip := ip |} /\
          r' = set_inner (<[pk := {| wg_pubkey := pk; assigned_ip := ip; session_id := sid;
                                     algo := a; created := now; last_activity := now; rekeys := 0 |}]> (inner r)) r /\
          in_subnet (subnet_base r) ip /\
          (forall k q, inner r !! k = Some q -> assigned_ip q <> ip) /\
          (forall h, HOST_MIN <= b2z h < b2z (octet 3 ip) ->
            exists k q, inner r !! k = Some q /\ octet 3 (assigned_ip q) = h))
  end.
Proof.
  intros Hwf. pose proof (upsert_wf now pk a sid r Hwf) as Hwf'.
  destruct (inner r !! pk) as [p|] eqn:Hp.
  - rewrite (upsert_known _ _ _ _ _ _ Hp) in *. split; [done|]. split; [done|].
    by rewrite (wf_key r Hwf _ _ Hp).
  - unfold registry_len.
    destruct (Z.le_gt_cases (max_peers r) (Z.of_nat (size (inner r)))) as [Hs|Hs].
    + rewrite upsert_full in * by done. split_and!; [done|done|done|lia].
    + destruct (upsert_new now pk a sid r Hwf Hp Hs) as (ip & Hip & E). rewrite E in *. clear E.
      apply alloc_ip_Ok in Hip as (Hsub & Hfree & Hlow). split; [done|]. split; [done|].
      split; [lia|]. intros _. exists ip. split_and!; try done; try apply Hsub.
      intros k q Hq Heq. by apply (Hfree k q Hq); rewrite Heq.
Qed.

(** C16. [rekey]: it succeeds exactly when the peer is known, the claimed
    session is its current one and the algorithm is not weaker; then only that
    peer changes, and only its algorithm, activity time and rekey count.  Every
    refusal names its reason and changes nothing. *)
Theorem rekey_contract now pk claimed a r :
  reg_wf r ->
  let '(res, r') := registry_rekey now pk claimed a r in
  reg_wf r' /\
  match inner r !! pk with
  | None => res = Err UnknownPeer /\ r' = r
  | Some p =>
      if negb (bool_decide (claimed = session_id p)) then res = Err SessionMismatch /\ r' = r
      else if bool_decide (algo_rank a < algo_rank (algo p)) then res = Err Downgrade /\ r' = r
      else res = Ok {| slot_session_id := claimed; slot_assigned_ip := assigned_ip p |} /\
        inner r' !! pk = Some {| wg_pubkey := pk; assigned_ip := assigned_ip p; session_id := claimed;
          algo := a; created := created p; last_activity := now; rekeys := u32_wrap (rekeys p + 1) |} /\
        (forall k, k <> pk -> inner r' !! k = inner r !! k)
  end.
Proof.
  intros Hwf. pose proof (rekey_wf now pk claimed a r Hwf) as Hwf'. unfold registry_rekey in *.
  destruct (inner r !! pk) as [p|] eqn:Hp; [|done].
  destruct (decide (session_id p = claimed)) as [<-|Hne].
  - rewrite !(bool_decide_true (session_id p = session_id p)) in * by done. cbn [negb] in *.
    unfold algo_ltb in *. destruct (Z.ltb_spec (algo_rank a) (algo_rank (algo p))).
    + by rewrite bool_decide_true by lia.
    + rewrite bool_decide_false by lia. split; [done|]. split; [done|]. simpl. split.
      * by rewrite lookup_insert_eq, (wf_key r Hwf _ _ Hp).
      * intros k Hk. by rewrite lookup_insert_ne.
  - rewrite (bool_decide_false (session_id p = claimed)) in * by done.
    by rewrite (bool_decide_false (claimed = session_id p)) by congruence.
Qed.

(** What a session keeps while it lives: nobody re-handshakes or evicts [pk]. *)
Definition keeps_session (pk : arr 32) (o : op) : Prop :=
  match o with OpUpsert _ k _ _ | OpRemove k => k <> pk | _ => True end.

(** C23. A session's algorithm only grows: as long as its own peer does not
    handshake afresh and is not evicted, whatever other operations run, the
    session keeps its id and address, and its algorithm never gets weaker. *)
Theorem session_never_downgrades r os r' pk p :
  steps r os r' -> Forall (keeps_session pk) os -> inner r !! pk = Some p ->
  exists p', inner r' !! pk = Some p' /\ session_id p' = session_id p /\
    assigned_ip p' = assigned_ip p /\ algo_rank (algo p) <= algo_rank (algo p').
Proof.
  intros Hs. induction Hs as [r|r r' os o Hs IH]; intros Hos Hp; [by exists p|].
  apply Forall_app in Hos as [Hos [Ho _]%Forall_cons_1].
  destruct (IH Hos Hp) as (q & Hq & Hsid & Hip & Halg). clear IH Hs Hp Hos.
  destruct o as [now k a sid|now k c a|k|now k]; simpl in *.
  - exists q. split_and!; try done. unfold upsert_handshake. repeat case_match; try done;
      simpl; by rewrite lookup_insert_ne.
  - unfold registry_rekey. destruct (decide (k = pk)) as [->|Hne].
    + rewrite Hq. case_bool_decide; simpl; [|by exists q]. unfold algo_ltb.
      destruct (Z.ltb_spec (algo_rank a) (algo_rank (algo q))); [by exists q|]. simpl.
      rewrite lookup_insert_eq. eexists. split; [done|]. simpl. split_and!; try done. lia.
    + exists q. split_and!; try done. repeat case_match; try done; simpl; by rewrite lookup_insert_ne.
  - exists q. by rewrite lookup_delete_ne.
  - unfold touch. destruct (decide (k = pk)) as [->|Hne].
    + rewrite Hq. simpl. rewrite lookup_insert_eq. by eexists.
    + exists q. destruct (inner r' !! k); [|done]. simpl. by rewrite lookup_insert_ne.
Qed.

Lemma idle_peers_iff timeout now r k :
  reg_wf r -> 0 <= timeout ->
  k ∈ idle_peers timeout now r <->
  exists p, inner r !! k = Some p /\ last_activity p + timeout < now.
Proof.
  intros Hwf Ht. unfold idle_peers.
  assert (Hidle : forall p, idle timeout now p = true <-> last_activity p + timeout < now).
  { intros p. unfold idle, duration_since. destruct (Z.leb_spec (last_activity p) now); simpl; lia. }
  rewrite list_elem_of_In, in_map_iff. split.
  - intros (p & <- & Hin). apply list_elem_of_In, list_elem_of_filter in Hin as [Hi Hin].
    apply list_elem_of_In, in_map_iff in Hin as ([k p'] & <- & Hin). simpl in *.
    apply list_elem_of_In, elem_of_map_to_list in Hin. exists p'.
    by rewrite (wf_key r Hwf _ _ Hin), <- Hidle.
  - intros (p & Hp & Hi). exists p. split; [by apply (wf_key r Hwf)|].
    apply list_elem_of_In, list_elem_of_filter. split; [by apply Hidle|].
    apply list_elem_of_In, in_map_iff. exists (k, p). split; [done|].
    by apply list_elem_of_In, elem_of_map_to_list.
Qed.

Lemma idle_peers_NoDup timeout now r : reg_wf r -> NoDup (idle_peers timeout now r).
Proof.
  intros Hwf. unfold idle_peers. eapply sublist_NoDup; [apply (NoDup_fst_map_to_list (inner r))|].
  assert (Hk : Forall (fun kp : arr 32 * Peer => wg_pubkey kp.2 = kp.1) (map_to_list (inner r))).
  { apply Forall_forall. intros [k p] Hin. apply list_elem_of_In, elem_of_map_to_list in Hin. by apply (wf_key r Hwf). }
  induction Hk as [|[k p] l Hkp Hk IH]; [constructor|]. simpl in *. rewrite filter_cons.
  case_decide; [simpl; rewrite Hkp|]; by constructor.
Qed.

(** [idle_peers] lists exactly the keys of the registered peers whose last
    activity is more than [timeout] before [now]; a last activity in the future
    counts as active. *)
Theorem idle_peers_exact timeout now r k :
  reg_wf r -> 0 <= timeout ->
  k ∈ idle_peers timeout now r <->
  exists p, inner r !! k = Some p /\ last_activity p + timeout < now.
Proof. apply idle_peers_iff. Qed.

(** A restart loses nothing but sub-second times: on a working file system
    [persist] succeeds, and [load] with the same configuration rebuilds the
    registry, every peer with its key, address, session, algorithm and rekey
    count, and its times cut to whole seconds. *)
Theorem registry_survives_restart {C : Codecs} {CL : CodecLaws C} r p s :
  reg_wf r -> reg_path r = Some p -> faults s = [] ->
  (forall k q, inner r !! k = Some q -> peer_storable q) ->
  exists s', persist r s = (Ok tt, s') /\
    registry_load p (subnet_base r) (max_peers r) s' = (Ok (Some (set_inner (stored <$> inner r) r)), s') /\
    reg_wf (set_inner (stored <$> inner r) r).
Proof.
  intros Hwf Hpath Hf Hst. destruct s as [f m fl]. simpl in Hf. subst fl.
  destruct (persist_run r p f m Hpath Hst) as (b & f' & Hp & Hsaved & Hb & _).
  eexists. split; [exact Hp|]. split; [|by apply stored_wf].
  apply load_saved with b; try done. pose proof (wf_max r Hwf). lia.
Qed.

(** The backing file is replaced atomically: whatever faults strike, even a
    write cut short, afterwards the file is what it was or the complete new
    one, the new one if [persist] reports success, and no other file but the
    temporary one is touched. *)
Theorem persist_atomic {C : Codecs} r p s res s' json :
  reg_path r = Some p -> saved_as r json ->
  persist r s = (res, s') ->
  (files s' !! p = files s !! p \/ files s' !! p = Some json) /\
  (res = Ok tt -> files s' !! p = Some json) /\
  (forall q, q <> p -> q <> with_extension p JSON_TMP -> files s' !! q = files s !! q).
Proof.
  unfold saved_as. intros Hp Hj. unfold persist. rewrite Hp, Hj. unfold mbind, M_bind, lift.
  pose proof (with_extension_ne p JSON_TMP json_tmp_dot) as Hne. set (tmp := with_extension p JSON_TMP) in *.
  unfold fs_write. destruct (next_fault s) as [f|].
  { intros [= <- <-]. destruct (f_partial f); simpl.
    - rewrite !lookup_insert_ne by done. split; [by left|]. split; [done|].
      intros q Hqp Hqt. by rewrite lookup_insert_ne.
    - split; [by left|]. done. }
  unfold fs_rename. simpl. rewrite lookup_insert_eq. destruct (next_fault _) as [f|]; intros [= <- <-]; simpl.
  - rewrite !lookup_insert_ne by done. split; [by left|]. split; [done|].
    intros q Hqp Hqt. by rewrite lookup_insert_ne.
  - rewrite lookup_insert_eq. split; [by right|]. split; [done|].
    intros q Hqp Hqt. by rewrite lookup_insert_ne, lookup_delete_ne, lookup_insert_ne.
Qed.

(** The same for any registry: a failed encoding touches nothing. *)
Lemma persist_files {C : Codecs} r p s :
  reg_path r = Some p ->
  (files (persist r s).2 !! p = files s !! p \/
   exists json, saved_as r json /\ files (persist r s).2 !! p = Some json) /\
  (forall q, q <> p -> q <> with_extension p JSON_TMP -> files (persist r s).2 !! q = files s !! q).
Proof.
  intros Hp. destruct (json_to_vec_pretty (registry_file r)) as [json|e] eqn:E.
  - destruct (persist r s) as [res s'] eqn:H.
    destruct (persist_atomic r p s res s' json Hp E H) as ([H1|H1] & _ & H2); (split; [|exact H2]);
      [by left | right; by exists json].
  - assert (H : persist r s = (Err e, s)) by (unfold persist; rewrite Hp, E; done).
    rewrite H. split; [by left|done].
Qed.

(** [load] trusts the file: it takes over peers that share an address, so
    the invariant of the running registry is not restored by a load. *)
Theorem load_unvalidated {C : Codecs} {CL : CodecLaws C} p base max :
  exists b r, registry_load p base max (mkfs {[ p := b ]}) = (Ok (Some r), Fs {[ p := b ]} ∅ []) /\
    exists k1 k2 p1 p2, k1 <> k2 /\ inner r !! k1 = Some p1 /\ inner r !! k2 = Some p2 /\
      assigned_ip p1 = assigned_ip p2.
Proof.
  set (mk := fun b => {| wg_pubkey := arr_fill 32 b; assigned_ip := Ipv4Addr_new x0a x08 x00 x02;
    session_id := arr_fill 16 b; algo := MlKem768; created := 0; last_activity := 0; rekeys := 0 |}).
  set (m := {[ arr_fill 32 x01 := mk x01; arr_fill 32 x02 := mk x02 ]} : gmap (arr 32) Peer).
  set (r0 := {| reg_path := Some p; subnet_base := base; max_peers := Z.min max POOL_SIZE; inner := m |}).
  assert (H1 : m !! arr_fill 32 x01 = Some (mk x01)) by apply lookup_insert_eq.
  assert (H2 : m !! arr_fill 32 x02 = Some (mk x02)).
  { unfold m. rewrite lookup_insert_ne; [apply lookup_singleton_eq | by vm_compute]. }
  assert (Hall : forall k q, m !! k = Some q -> peer_storable q /\ wg_pubkey q = k).
  { intros k q [[<- <-]|[_ [<- <-]%lookup_singleton_Some]]%lookup_insert_Some; by vm_compute. }
  destruct (json_round (registry_file r0)) as (b & _ & Hb).
  { apply registry_file_wf. intros k q Hq. by apply (Hall k). }
  exists b, (set_inner (stored <$> m) r0). split.
  - unfold registry_load, attempt, fs_read, mbind, M_bind. simpl. rewrite lookup_singleton_eq. simpl.
    pose proof (load_registry_file r0 Hall) as Hload.
    rewrite Hb. simpl in *. by rewrite Hload.
  - exists (arr_fill 32 x01), (arr_fill 32 x02), (stored (mk x01)), (stored (mk x02)).
    cbn [inner set_inner]. rewrite !lookup_fmap, H1, H2. by vm_compute.
Qed.

(** ** Witnesses *)

Definition sample_base : arr 4 := Ipv4Addr_new x0a x08 x00 x00.
Definition key (b : u8) : arr 32 := arr_fill 32 b.
Definition sid (b : u8) : arr 16 := arr_fill 16 b.
Definition sample_ops : list op :=
  [OpUpsert 5 (key x01) MlKem512 (sid x01); OpUpsert 6 (key x02) MlKem512 (sid x02);
   OpRekey 7 (key x01) (sid x01) MlKem768; OpRemove (key x02); OpTouch 8 (key x01)].
Definition sample_registry : Registry :=
  fold_left (fun r o => apply_op o r) sample_ops (Registry_new sample_base 64).

Lemma steps_fold os r : steps r os (fold_left (fun r o => apply_op o r) os r).
Proof.
  induction os as [|o os IH] using rev_ind; [constructor|].
  rewrite fold_left_app. simpl. by constructor.
Qed.

Lemma sample_wf : reg_wf (Registry_new sample_base 64).
Proof. by apply new_wf. Qed.

Lemma registry_invariant_witness : reg_wf sample_registry.
Proof. apply (registry_invariant sample_base 64 sample_ops); [lia | apply steps_fold]. Defined.

(** A new peer with room, and the same peer again. *)
Lemma upsert_contract_witness :
  let r0 := Registry_new sample_base 64 in
  exists ip r1 r2,
    upsert_handshake 5 (key x01) MlKem512 (sid x01) r0 =
      (Ok {| slot_session_id := sid x01; slot_assigned_ip := ip |}, r1) /\
    inner r1 !! key x01 = Some {| wg_pubkey := key x01; assigned_ip := ip; session_id := sid x01; algo := MlKem512;
                                  created := 5; last_activity := 5; rekeys := 0 |} /\
    upsert_handshake 7 (key x01) MlKem768 (sid x02) r1 =
      (Ok {| slot_session_id := sid x02; slot_assigned_ip := ip |}, r2).
Proof.
  pose proof (upsert_contract 5 (key x01) MlKem512 (sid x01) _ sample_wf) as H.
  destruct (upsert_handshake 5 (key x01) MlKem512 (sid x01) _) as [res r1] eqn:E1. destruct H as (Hwf & _ & H).
  cbn [inner Registry_new] in H. rewrite lookup_empty in H. destruct H as [_ H].
  destruct (H ltac:(vm_compute; reflexivity)) as (ip & -> & Hr & _).
  pose proof (upsert_contract 7 (key x01) MlKem768 (sid x02) r1 Hwf) as H2.
  destruct (upsert_handshake 7 (key x01) MlKem768 (sid x02) r1) as [res2 r2] eqn:E2. destruct H2 as (_ & _ & H2).
  rewrite Hr in H2. cbn [inner set_inner] in H2. rewrite lookup_insert_eq in H2. destruct H2 as [-> _].
  exists ip, r1, r2. split; [exact E1|]. split; [|exact E2]. rewrite Hr. apply lookup_insert_eq.
Defined.

(** One registered peer. *)
Definition one_peer : Registry :=
  (upsert_handshake 5 (key x01) MlKem768 (sid x01) (Registry_new sample_base 64)).2.
Lemma one_peer_wf : reg_wf one_peer.
Proof. apply upsert_wf, sample_wf. Qed.

Lemma rekey_contract_witness :
  (registry_rekey 9 (key x01) (sid x01) MlKem512 one_peer).1 = Err Downgrade.
Proof. apply (rekey_contract 9 (key x01) (sid x01) MlKem512 one_peer one_peer_wf). Defined.

Lemma session_never_downgrades_witness :
  exists p', inner (fold_left (fun r o => apply_op o r)
      [OpRekey 7 (key x01) (sid x01) MlKem1024; OpUpsert 8 (key x03) MlKem512 (sid x03)] one_peer) !! key x01 = Some p' /\
    session_id p' = sid x01.
Proof.
  edestruct (fun p => session_never_downgrades one_peer
    [OpRekey 7 (key x01) (sid x01) MlKem1024; OpUpsert 8 (key x03) MlKem512 (sid x03)] _ (key x01) p
    (steps_fold _ _)) as (p' & H & Hs & _).
  - repeat constructor. simpl. intros H. discriminate (f_equal arr_list H).
  - vm_compute. reflexivity.
  - exists p'. split; [exact H | exact Hs].
Defined.

Lemma idle_peers_exact_witness : key x01 ∈ idle_peers 10 20 one_peer.
Proof.
  apply (idle_peers_exact 10 20 one_peer (key x01) one_peer_wf); [lia|].
  eexists. split; [vm_compute; reflexivity | simpl; lia].
Defined.

Definition at_path (p : path) (r : Registry) : Registry :=
  {| reg_path := Some p; subnet_base := subnet_base r; max_peers := max_peers r; inner := inner r |}.

Lemma at_path_wf p r : reg_wf r -> reg_wf (at_path p r).
Proof. by intros []. Qed.

Lemma one_peer_storable k q : inner one_peer !! k = Some q -> peer_storable q.
Proof.
  unfold one_peer. edestruct (upsert_new 5 (key x01) MlKem768 (sid x01)) as (ip & _ & ->);
    [apply sample_wf | done | vm_compute; done |].
  simpl. intros [<- <-]%lookup_singleton_Some. by vm_compute.
Qed.

Lemma registry_survives_restart_witness :
  exists s', persist (C := ToyCodecs.codecs) (at_path [x72] one_peer) (mkfs ∅) = (Ok tt, s').
Proof.
  edestruct (registry_survives_restart (CL := ToyCodecs.laws) (at_path [x72] one_peer) [x72] (mkfs ∅))
    as (s' & H & _).
  - apply at_path_wf, one_peer_wf.
  - reflexivity.
  - reflexivity.
  - apply one_peer_storable.
  - exists s'. exact H.
Defined.

Lemma persist_atomic_witness :
  let s := Fs {[ [x72] := [x01] ]} ∅ [Some (Fault not_found (Some 3%nat))] in
  exists res s', persist (C := ToyCodecs.codecs) (at_path [x72] one_peer) s = (res, s') /\
    (files s' !! [x72] = files s !! [x72] \/ is_Some (files s' !! [x72])).
Proof.
  intros s.
  destruct (persist (C := ToyCodecs.codecs) (at_path [x72] one_peer) s) as [res s'] eqn:E.
  exists res, s'. split; [reflexivity|].
  destruct (persist_atomic (C := ToyCodecs.codecs) (at_path [x72] one_peer) [x72] s res s' _ eq_refl eq_refl E)
    as [[H|H] _]; [left; exact H | right; rewrite H; eexists; reflexivity].
Defined.

Lemma load_unvalidated_witness :
  exists b r, registry_load (C := ToyCodecs.codecs) [x72] sample_base 64 (mkfs {[ [x72] := b ]}) =
    (Ok (Some r), Fs {[ [x72] := b ]} ∅ []).
Proof.
  destruct (load_unvalidated (CL := ToyCodecs.laws) [x72] sample_base 64) as (b & r & H & _).
  exists b, r. exact H.
Defined.
