(* ===== verification/Tunnel.v ===== *)
(** * The seam to WireGuard

    [server/handshake-server/src/tunnel.rs].  The trait [PskInstaller] is a
    class over the state [W] of the interface; [DryRun], which never touches it, and
    [WgCli] are its implementations.  The [wg] program itself is outside the repository:
    [WgCli] runs it through the class [WgProgram].  Log lines are not modelled.
    [last_handshakes] gives [None] where the source panics, on a time past the
    range of [SystemTime]. *)

From stdpp Require Import pretty.
From S2P Require Import Prelude Utf8 Io Strings Net ServerWire Registry.

Section tunnel.
Context `{C : Codecs}.

Definition b64 (l : bytes) : rstring := b64_encode l.

Definition wg_key_from_base64 (s : bytes) : option (arr 32) :=
  v ← ok (b64_decode (from_utf8_lossy (trim s)));
  arr_try_from 32 v.

(** ** Settings *)

Record TunnelSettings : Set := {
  ts_server_wg_pubkey : arr 32;
  ts_wg_port : u16;
  ts_subnet_base : arr 4
}.

(** Map until the first error: [collect::<Result<Vec<_>, _>>]. *)
Fixpoint collect_results {A E B} (f : A -> result E B) (l : list A) : result E (list B) :=
  match l with
  | [] => Ok []
  | a :: l => b ← f a; bs ← collect_results f l; mret (b :: bs)
  end.

Definition parse_cidr (cidr : bytes) : result rstring (arr 4) :=
  '(addr, prefix) ← ok_or (lit "expected addr/prefix") (split_once x2f cidr);
  if negb (bool_decide (trim prefix = String.list_byte_of_string "24")) then
    Err (lit "only /24 tunnel subnets are supported for now")
  else
    octets ← collect_results (fun o => ok_or (lit "bad octet") (u8_from_str o)) (split x2e addr);
    ok_or (lit "expected 4 octets") (arr_try_from 4 octets).

(** ** Errors *)

Inductive InstallError : Set :=
  | Spawn (e : rstring)
  | WgFailed (code : option Z) (stderr : rstring)
  | Parse (m : rstring).

(** [{code:?}] of an [Option<i32>]. *)
Definition fmt_code (c : option Z) : rstring :=
  match c with
  | Some z => lit ("Some(" +:+ pretty z +:+ ")")%string
  | None => lit "None"
  end.

Definition InstallError_to_string (e : InstallError) : rstring :=
  match e with
  | Spawn e => (lit "could not run `wg`: " +:+ e)%rs
  | WgFailed c err =>
      (lit "`wg` failed (exit " +:+ fmt_code c +:+ lit "): " +:+ from_utf8_lossy (trim (str_bytes err)))%rs
  | Parse m => (lit "parsing `wg` output: " +:+ m)%rs
  end.

(** ** The interface *)

Class PskInstaller (W : Type) : Type := {
  install : arr 32 -> arr 32 -> Ipv4Addr -> AlgoCode -> M W InstallError unit;
  list_installed_peers : M W InstallError (list (arr 32));
  remove_peer : arr 32 -> M W InstallError unit;
  last_handshakes : M W InstallError (option (gmap (arr 32) SystemTime))
}.

(** ** [DryRun] *)

Definition DryRun {W : Type} : PskInstaller W := {|
  install peer_wg_pubkey _psk assigned_ip algo := mret tt;
  list_installed_peers := mret [];
  remove_peer peer_wg_pubkey := mret tt;
  last_handshakes := mret (Some ∅)
|}.

(** ** [WgCli] *)

(** [std::process::Output]; [o_code] is [None] after a signal, and the exit was
    a success when it is [Some 0]. *)
Record Output : Set := { o_code : option Z; o_stdout : bytes; o_stderr : bytes }.
Definition success (o : Output) : bool := bool_decide (o_code o = Some 0).

(** Running [wg] with the given arguments and standard input; the error is that
    of spawning it, feeding it or waiting for it. *)
Class WgProgram (W : Type) : Type := {
  wg_exec : list rstring -> bytes -> W -> result io_error Output * W
}.

Context {W : Type} `{WgProgram W}.

Definition run (args : list rstring) : M W InstallError bytes :=
  out ← err_into (fun e => Spawn (io_text e)) (wg_exec args []);
  if negb (success out) then
    throw (WgFailed (o_code out) (from_utf8_lossy (o_stderr out)))
  else mret (o_stdout out).

Definition query_pubkey (interface : rstring) : M W InstallError (arr 32) :=
  out ← run [lit "show"; interface; lit "public-key"];
  lift (ok_or (Parse (lit "public key"))
    (wg_key_from_base64 (trim (str_bytes (from_utf8_lossy out))))).

Definition install_argv (interface : rstring) (peer : arr 32) (assigned_ip : Ipv4Addr) : list rstring :=
  [lit "set"; interface; lit "peer"; b64 (arr_list peer); lit "preshared-key"; lit "/dev/stdin";
   lit "allowed-ips"; (from_utf8_lossy (fmt_ip assigned_ip) +:+ lit "/32")%rs].

Definition WgCli_install (interface : rstring) (peer_wg_pubkey psk : arr 32) (assigned_ip : Ipv4Addr)
    (_algo : AlgoCode) : M W InstallError unit :=
  out ← err_into (fun e => Spawn (io_text e))
    (wg_exec (install_argv interface peer_wg_pubkey assigned_ip)
       (str_bytes (b64 (arr_list psk)) ++ [x0a]));
  if negb (success out) then
    throw (WgFailed (o_code out) (from_utf8_lossy (o_stderr out)))
  else mret tt.

(** [debug] is [{:?}] of a string. *)
Definition WgCli_list_installed_peers (debug : bytes -> rstring) (interface : rstring) :
    M W InstallError (list (arr 32)) :=
  out ← run [lit "show"; interface; lit "peers"];
  lift (collect_results
    (fun l => ok_or (Parse (lit "peer key " +:+ debug l)%rs) (wg_key_from_base64 (trim l)))
    (filter (fun l => trim l <> []) (lines (str_bytes (from_utf8_lossy out))))).

Definition WgCli_remove_peer (interface : rstring) (peer_wg_pubkey : arr 32) : M W InstallError unit :=
  _ ← run [lit "set"; interface; lit "peer"; b64 (arr_list peer_wg_pubkey); lit "remove"];
  mret tt.

(** One line of [wg show .. latest-handshakes]; a peer that never shook hands
    has time 0. *)
Definition handshake_line (m : gmap (arr 32) SystemTime) (line : bytes) :
    option (gmap (arr 32) SystemTime) :=
  match split_whitespace line with
  | pk :: ts :: _ =>
      match wg_key_from_base64 pk, u64_from_str ts with
      | Some pk, Some ts =>
          if 0 <? ts then t ← from_epoch ts; Some (<[pk := t]> m)
          else Some m
      | _, _ => Some m
      end
  | _ => Some m
  end.

Fixpoint handshake_lines (m : gmap (arr 32) SystemTime) (ls : list bytes) :
    option (gmap (arr 32) SystemTime) :=
  match ls with
  | [] => Some m
  | l :: ls => m ← handshake_line m l; handshake_lines m ls
  end.

Definition WgCli_last_handshakes (interface : rstring) :
    M W InstallError (option (gmap (arr 32) SystemTime)) :=
  out ← run [lit "show"; interface; lit "latest-handshakes"];
  mret (handshake_lines ∅ (lines (str_bytes (from_utf8_lossy out)))).

Definition WgCli (debug : bytes -> rstring) (interface : rstring) : PskInstaller W := {|
  install := WgCli_install interface;
  list_installed_peers := WgCli_list_installed_peers debug interface;
  remove_peer := WgCli_remove_peer interface;
  last_handshakes := WgCli_last_handshakes interface
|}.

End tunnel.

(** ** Facts *)

Lemma collect_results_map {A B E} (f : A -> result E B) (g : B -> A) l :
  (forall b, f (g b) = Ok b) -> collect_results f (map g l) = Ok l.
Proof. intros H. induction l as [|b l IH]; [done|]. simpl. rewrite H, IH. done. Qed.

(** Text over the base64 alphabet has no white space to trim. *)
Lemma b64_char_range b : b64_char b = true -> 43 <= b2z b <= 122.
Proof. unfold b64_char. lia. Qed.

Lemma ws_high a b c : 43 <= b2z c <= 122 ->
  ws1 c = false /\ ws2 c b = false /\ ws2 b c = false /\ ws3 c b a = false /\ ws3 a b c = false.
Proof. unfold ws1, ws2, ws3. lia. Qed.

Lemma b64_char_ws b l : b64_char b = true -> ws_head (b :: l) = None.
Proof.
  intros H%b64_char_range. unfold ws_head.
  destruct l as [|x [|y l]].
  - by destruct (ws_high b b b H) as (-> & _).
  - by destruct (ws_high b x b H) as (-> & -> & _).
  - by destruct (ws_high y x b H) as (-> & -> & _ & -> & _).
Qed.
Lemma b64_char_ws_rev b l : b64_char b = true -> ws_head_rev (b :: l) = None.
Proof.
  intros H%b64_char_range. unfold ws_head_rev.
  destruct l as [|x [|y l]].
  - by destruct (ws_high b b b H) as (-> & _).
  - by destruct (ws_high b x b H) as (-> & _ & -> & _).
  - by destruct (ws_high y x b H) as (-> & _ & -> & _ & ->).
Qed.

Lemma trim_b64 l : forallb b64_char l = true -> trim l = l.
Proof.
  intros H. apply trim_id.
  - destruct l as [|b l]; [done|]. simpl in H. apply andb_true_iff in H as [H _]. by apply b64_char_ws.
  - assert (Hr : forallb b64_char (rev l) = true).
    { rewrite forallb_forall in *. intros x Hx. apply H. by apply in_rev. }
    destruct (rev l) as [|b r]; [done|]. simpl in Hr. apply andb_true_iff in Hr as [Hr _].
    by apply b64_char_ws_rev.
Qed.

Lemma lines_from_app l cur k :
  forallb b64_char l = true -> lines_from cur (l ++ [x0a] ++ k) = strip_cr (rev cur ++ l) :: lines_from [] k.
Proof.
  revert cur. induction l as [|b l IH]; intros cur H; simpl in *.
  - by rewrite app_nil_r.
  - apply andb_true_iff in H as [Hb H]. specialize (IH (b :: cur) H). simpl in IH.
    rewrite <- app_assoc in IH. destruct b; try discriminate Hb; exact IH.
Qed.

Lemma strip_cr_b64 l : forallb b64_char l = true -> strip_cr l = l.
Proof.
  intros H. unfold strip_cr. destruct (rev l) as [|b r] eqn:E; [done|].
  assert (Hb : b64_char b = true).
  { rewrite forallb_forall in H. apply H. apply in_rev. rewrite E. by left. }
  destruct b; try discriminate Hb; done.
Qed.

Lemma lines_b64 ls :
  Forall (fun l => forallb b64_char l = true) ls -> lines (concat (map (fun l => l ++ [x0a]) ls)) = ls.
Proof.
  unfold lines. induction ls as [|l ls IH]; intros H; [done|].
  apply Forall_cons_1 in H as [Hl H]. cbn [map concat]. rewrite <- app_assoc.
  rewrite lines_from_app by done. simpl. by rewrite strip_cr_b64, IH.
Qed.

Lemma b64_char_ascii b : b64_char b = true -> ascii b = true.
Proof. destruct b; intros H; try discriminate H; reflexivity. Qed.

Section tunnel_facts.
Context `{C : Codecs} `{CL : !CodecLaws C}.

Lemma wg_key_b64 (k : arr 32) : wg_key_from_base64 (str_bytes (b64 (arr_list k))) = Some k.
Proof.
  unfold wg_key_from_base64, b64. rewrite trim_b64, from_utf8_lossy_str, b64_round by apply b64_alphabet.
  simpl. apply arr_try_from_arr.
Qed.

Lemma key_text_nonempty (k : arr 32) : str_bytes (b64 (arr_list k)) <> [].
Proof. apply b64_nonempty. intros H. pose proof (arr_len k) as Hl. by rewrite H in Hl. Qed.

End tunnel_facts.

(** ** Properties *)

(** C37. [parse_cidr] inverts the printed form of every /24 subnet, and accepts
    nothing but four octets followed by a prefix that is 24 up to white
    space. *)
Theorem parse_cidr_roundtrip :
  (forall base, parse_cidr (fmt_ip base ++ [x2f] ++ String.list_byte_of_string "24") = Ok base) /\
  (forall text base, parse_cidr text = Ok base ->
     exists addr prefix, text = addr ++ [x2f] ++ prefix /\ trim prefix = String.list_byte_of_string "24" /\
       exists a b c d, split x2e addr = [a; b; c; d] /\
         u8_from_str a = Some (octet 0 base) /\ u8_from_str b = Some (octet 1 base) /\
         u8_from_str c = Some (octet 2 base) /\ u8_from_str d = Some (octet 3 base)).
Proof.
  split.
  - intros base. unfold parse_cidr. rewrite split_once_app.
    + cbn [ok_or mbind result_bind]. rewrite bool_decide_true by by vm_compute. cbn [negb].
      rewrite split_ip. simpl. rewrite !u8_from_str_fmt. simpl.
      rewrite (Ipv4Addr_eta base) at 5. reflexivity.
    + unfold fmt_ip. rewrite !not_elem_of_app. split_and!; try (by apply digits_not_in);
        (apply not_elem_of_cons; split; [done | apply not_elem_of_nil]).
  - intros text base H. unfold parse_cidr in H.
    destruct (split_once x2f text) as [[addr prefix]|] eqn:E; [|done]. simpl in H.
    apply split_once_Some in E as [-> _]. case_bool_decide as Ht; [|done]. simpl in H.
    apply bind_Ok_inv in H as (os & Hos & H). exists addr, prefix. split_and!; try done.
    destruct (arr_try_from 4 os) as [a|] eqn:Ea; [|done]. injection H as <-.
    apply arr_try_from_Some in Ea. subst os.
    pose proof (arr_length a) as Hl. unfold octet.
    destruct (arr_list a) as [|o0 [|o1 [|o2 [|o3 [|? ?]]]]]; try discriminate Hl.
    assert (Hcons : forall (o : u8) os ps,
      collect_results (fun o => ok_or (lit "bad octet") (u8_from_str o)) ps = Ok (o :: os) ->
      exists p ps', ps = p :: ps' /\ u8_from_str p = Some o /\
        collect_results (fun o => ok_or (lit "bad octet") (u8_from_str o)) ps' = Ok os).
    { intros o os [|p ps] Hc; [done|]. simpl in Hc. destruct (u8_from_str p) as [x|] eqn:Ep; [|done].
      simpl in Hc. apply bind_Ok_inv in Hc as (xs & Hxs & Hc). injection Hc as <- <-.
      by exists p, ps. }
    apply Hcons in Hos as (p0 & ps0 & Hs & H0 & Hos). apply Hcons in Hos as (p1 & ps1 & -> & H1 & Hos).
    apply Hcons in Hos as (p2 & ps2 & -> & H2 & Hos). apply Hcons in Hos as (p3 & ps3 & -> & H3 & Hos).
    destruct ps3 as [|p ps3].
    + exists p0, p1, p2, p3. done.
    + simpl in Hos. destruct (u8_from_str p); [|done]. simpl in Hos.
      by apply bind_Ok_inv in Hos as (? & _ & ?).
Qed.

(** C32. Listing reads back what [wg] prints: if [wg show <iface> peers]
    succeeds and prints the base64 of some keys, one per line, then
    [list_installed_peers] returns exactly those keys, in that order. *)
Theorem installed_peers_roundtrip {C : Codecs} {CL : CodecLaws C} {W} `{WgProgram W} debug iface ks w w' err :
  wg_exec [lit "show"; iface; lit "peers"] [] w =
    (Ok {| o_code := Some 0; o_stdout := concat (map (fun k => str_bytes (b64 (arr_list k)) ++ [x0a]) ks);
           o_stderr := err |}, w') ->
  WgCli_list_installed_peers debug iface w = (Ok ks, w').
Proof.
  intros He. unfold WgCli_list_installed_peers, run, mbind, M_bind, err_into. rewrite He. simpl.
  unfold lift. f_equal.
  set (ls := map (fun k => str_bytes (b64 (arr_list k))) ks).
  assert (Hls : Forall (fun l => forallb b64_char l = true) ls).
  { apply List.Forall_forall. intros l (k & <- & _)%in_map_iff. apply b64_alphabet. }
  assert (Ho : concat (map (fun k => str_bytes (b64 (arr_list k)) ++ [x0a]) ks) = concat (map (fun l => l ++ [x0a]) ls)).
  { unfold ls. by rewrite map_map. }
  assert (Hascii : forallb ascii (concat (map (fun l => l ++ [x0a]) ls)) = true).
  { clear -Hls. induction ls as [|l ls IH]; [done|]. apply Forall_cons_1 in Hls as [Hl Hls]. simpl.
    rewrite !forallb_app, IH by done. rewrite (proj2 (forallb_forall ascii l)); [done|].
    intros x Hx. apply b64_char_ascii. rewrite forallb_forall in Hl. auto. }
  rewrite Ho. pose proof (from_utf8_lossy_ascii _ Hascii) as Htext. simpl in Htext. rewrite Htext.
  rewrite lines_b64 by done. unfold ls. clear -CL.
  induction ks as [|k ks IH]; [done|]. simpl. rewrite filter_cons_True.
  - simpl. rewrite trim_b64 by apply b64_alphabet. rewrite wg_key_b64. simpl. by rewrite IH.
  - rewrite trim_b64 by apply b64_alphabet. apply key_text_nonempty.
Qed.

(** A [wg] that lists two peers. *)
Definition two_peers : list (arr 32) := [arr_fill 32 x01; arr_fill 32 x02].
Definition sample_wg : WgProgram unit := {|
  wg_exec args input w :=
    (Ok {| o_code := Some 0;
           o_stdout := concat (map (fun k => str_bytes (b64 (C := ToyCodecs.codecs) (arr_list k)) ++ [x0a]) two_peers);
           o_stderr := [] |}, w)
|}.

Lemma installed_peers_roundtrip_witness :
  @WgCli_list_installed_peers ToyCodecs.codecs unit sample_wg from_utf8_lossy (lit "wg0") tt =
    (Ok two_peers, tt).
Proof.
  apply (@installed_peers_roundtrip ToyCodecs.codecs ToyCodecs.laws unit sample_wg
    from_utf8_lossy (lit "wg0") two_peers tt tt []).
  reflexivity.
Defined.
