(* ===== verification/Server.v ===== *)
(** * The connection handler and the housekeeping

    [server/handshake-server/src/server.rs].  A handler sees a [World]: its own
    connection, and the shared registry, WireGuard interface and disk.  What it
    draws (random values, the clock, the outcome of setting the socket
    timeouts) is its argument.  Log lines are not modelled. *)

From S2P Require Import Prelude Utf8 Io Fs Net ServerWire Primitives.
From S2P Require Import Registry Tunnel ServerHandshake.

(** ** Effects on the parts of the world *)

Record World (W : Type) := {
  conn : stream;
  registry : Registry;
  wg : W;
  disk : fs
}.
Arguments Build_World {W} conn registry wg disk.
Arguments conn {W} _.
Arguments registry {W} _.
Arguments wg {W} _.
Arguments disk {W} _.

Definition on_conn {W E A} (m : M stream E A) : M (World W) E A := fun w =>
  let '(r, s) := m (conn w) in (r, Build_World s (registry w) (wg w) (disk w)).
Definition on_registry {W E A} (m : M Registry E A) : M (World W) E A := fun w =>
  let '(r, s) := m (registry w) in (r, Build_World (conn w) s (wg w) (disk w)).
Definition on_wg {W E A} (m : M W E A) : M (World W) E A := fun w =>
  let '(r, s) := m (wg w) in (r, Build_World (conn w) (registry w) s (disk w)).
Definition on_disk {W E A} (m : M fs E A) : M (World W) E A := fun w =>
  let '(r, s) := m (disk w) in (r, Build_World (conn w) (registry w) (wg w) s).

Inductive ConnResult : Set :=
  | Handshake (session_id : arr 16)
  | Rekey (session_id : arr 16)
  | Rejected (code : u8).

Inductive ConnError : Set :=
  | ConnIo (e : io_error)
  | ConnFrame (e : FrameError)
  | ConnProtocol (m : rstring)
  | ConnInstall (e : InstallError).

Definition ConnError_to_string (e : ConnError) : rstring :=
  match e with
  | ConnIo e => (lit "io: " +:+ io_text e)%rs
  | ConnFrame e => (lit "frame: " +:+ FrameError_to_string e)%rs
  | ConnProtocol m => (lit "protocol: " +:+ m)%rs
  | ConnInstall e => (lit "psk install: " +:+ InstallError_to_string e)%rs
  end.

Definition registry_reject_code (e : RegistryError) : u8 * rstring :=
  match e with
  | AtCapacity => (x09, lit "server at peer capacity")
  | UnknownPeer | SessionMismatch => (x04, lit "unknown session for this peer")
  | Downgrade => (x05, lit "rekey may not downgrade the algorithm")
  | AddressPoolExhausted => (x08, lit "tunnel address pool exhausted")
  end.

Definition reject (code : u8) (message : rstring) : M stream io_error unit :=
  Message_write (MError {| code := code; message := message |}).

Section server.
Context `{P : Primitives} `{C : Codecs} {W : Type} `{I : PskInstaller W}.

(** [{:?}] of a message, for a log text. *)
Variable debug_message : Message -> rstring.

Record ServerContext := { ctx_identity : ServerIdentity; ctx_tunnel : TunnelSettings }.

(** What one connection draws, in order. *)
Record conn_draws := {
  cn_timeouts : result io_error unit;
  cn_session_id : arr 16;
  cn_server_nonce : arr 32;
  cn_server : server_draws;
  cn_now : SystemTime
}.

(** Message 1: [ClientHello] or [RekeyRequest]. *)
Definition read_first : M (World W) ConnError (ClientHello * option (arr 16)) :=
  r ← attempt (on_conn Message_read);
  match r with
  | Ok (MClientHello h) => mret (h, None)
  | Ok (MRekeyRequest r) => mret (hello r, Some (rk_session_id r))
  | Ok other =>
      _ ← err_into ConnIo (on_conn (reject x02 (lit "expected ClientHello or RekeyRequest")));
      throw (ConnProtocol (lit "unexpected first message: " +:+ debug_message other)%rs)
  | Err e =>
      _ ← attempt (on_conn (reject x02 (FrameError_to_string e)));
      throw (ConnFrame e)
  end.

(** Message 3: [ClientFinish]. *)
Definition read_finish : M (World W) ConnError ClientFinish :=
  m ← err_into ConnFrame (on_conn Message_read);
  match m with
  | MClientFinish f => mret f
  | other =>
      _ ← err_into ConnIo (on_conn (reject x02 (lit "expected ClientFinish")));
      throw (ConnProtocol (lit "expected ClientFinish, got " +:+ debug_message other)%rs)
  end.

(** Reply with an error message and report the rejection. *)
Definition reject_with (code : u8) (message : rstring) : M (World W) ConnError ConnResult :=
  _ ← err_into ConnIo (on_conn (reject code message));
  mret (Rejected code).

(** The second half of [handle_connection], from a verified [ClientFinish] on:
    update the registry, install the PSK, persist, send [ServerFinish]. *)
Definition commit_session (ctx : ServerContext) (d : conn_draws) (hello : ClientHello)
    (rekey_session : option (arr 16)) (outcome : HandshakeOutcome) : M (World W) ConnError ConnResult :=
  let session_id := default (cn_session_id d) rekey_session in
  updated ← attempt
    match rekey_session with
    | Some sid => on_registry (registry_rekey (cn_now d) (client_wg_pubkey hello) sid (ch_algo hello))
    | None => on_registry (upsert_handshake (cn_now d) (client_wg_pubkey hello) (ch_algo hello) session_id)
    end;
  match updated with
  | Err e =>
      let '(code, msg) := registry_reject_code e in
      reject_with code msg
  | Ok slot =>
  installed ← attempt (on_wg (install (client_wg_pubkey hello) (psk (keys outcome))
                                (slot_assigned_ip slot) (ch_algo hello)));
  match installed with
  | Err e =>
      _ ← err_into ConnIo (on_conn (reject x08 (InstallError_to_string e)));
      throw (ConnInstall e)
  | Ok _ =>
  w ← get;
  _ ← attempt (E := io_error) (on_disk (persist (registry w)));
  let server_tag := server_tag_of (confirm_key (keys outcome)) (transcript outcome) in
  _ ← err_into ConnIo (on_conn (Message_write (MServerFinish
        {| sf_session_id := slot_session_id slot; server_tag := server_tag;
           server_wg_pubkey := ts_server_wg_pubkey (ctx_tunnel ctx);
           ServerWire.assigned_ip := slot_assigned_ip slot; wg_port := ts_wg_port (ctx_tunnel ctx) |})));
  mret (match rekey_session with
        | Some _ => Rekey (slot_session_id slot)
        | None => Handshake (slot_session_id slot)
        end)
  end end.

Definition handle_connection (ctx : ServerContext) (d : conn_draws) : M (World W) ConnError ConnResult :=
  _ ← lift (map_err ConnIo (cn_timeouts d));
  '(hello, rekey_session) ← read_first;
  let session_id := default (cn_session_id d) rekey_session in
  let server_nonce := cn_server_nonce d in
  match respond (ctx_identity ctx) hello session_id server_nonce (cn_server d) with
  | Err e => reject_with (HandshakeError_protocol_code e) (HandshakeError_to_string e)
  | Ok outcome =>
  _ ← err_into ConnIo (on_conn (Message_write (MServerHello (server_hello outcome))));
  fin ← read_finish;
  if negb (bool_decide (cf_session_id fin = session_id))
     || negb (verify_client_tag (confirm_key (keys outcome)) (transcript outcome) (client_tag fin))
  then
    _ ← err_into ConnIo (on_conn (reject (HandshakeError_protocol_code AuthFailed)
                                    (lit "client finish tag did not verify")));
    mret (Rejected x06)
  else commit_session ctx d hello rekey_session outcome
  end.

(** ** Housekeeping *)

(** Remove the listed peers that are not known; failures are logged. *)
Fixpoint remove_stale (known : list (arr 32)) (pks : list (arr 32)) (w : W) : W :=
  match pks with
  | [] => w
  | pk :: pks =>
      remove_stale known pks
        (if negb (bool_decide (pk ∈ known)) then (remove_peer pk w).2 else w)
  end.

Definition reconcile_wg_peers (w : World W) : World W :=
  match list_installed_peers (wg w) with
  | (Err _, s) => Build_World (conn w) (registry w) s (disk w)
  | (Ok installed, s) =>
      Build_World (conn w) (registry w) (remove_stale (pubkeys (registry w)) installed s) (disk w)
  end.

(** The body of the sweep's inner loop for one idle peer, with the times the
    clock shows: [now] when the sweep began, [later pk] when [touch] reads it for
    the peer [pk]. *)
Definition sweep_peer (wg_hs : gmap (arr 32) SystemTime) (timeout : Duration) (now : SystemTime)
    (later : arr 32 -> SystemTime) (pk : arr 32) (st : World W * Z) : World W * Z :=
  let '(w, evicted) := st in
  let live :=
    match wg_hs !! pk with
    | Some hs => default false ((fun d => d <=? timeout) <$> duration_since now hs)
    | None => false
    end in
  if live then (Build_World (conn w) (touch (later pk) pk (registry w)) (wg w) (disk w), evicted)
  else
    (Build_World (conn w) (registry_remove pk (registry w)).2 (remove_peer pk (wg w)).2 (disk w),
     evicted + 1).

(** One turn of the idle sweep; [None] if reading the handshake times panics. *)
Definition idle_sweep (timeout : Duration) (now : SystemTime) (later : arr 32 -> SystemTime) (w : World W) :
    option (World W) :=
  let '(r, s) := last_handshakes (wg w) in
  wg_hs ← match r with Ok m => m | Err _ => Some ∅ end;
  let w := Build_World (conn w) (registry w) s (disk w) in
  let '(w, evicted) :=
    fold_left (fun st pk => sweep_peer wg_hs timeout now later pk st)
      (idle_peers timeout now (registry w)) (w, 0) in
  Some (if 0 <? evicted then (on_disk (W := W) (persist (registry w)) w).2 else w).

End server.
