(* ===== verification/ServerFacts.v ===== *)
(** * What the connection handler promises

    Which effects a connection can have and what it takes to cause them, the
    registry invariant across connections and housekeeping, and what the two
    housekeeping passes remove. *)

From S2P Require Import Prelude Utf8 Io Fs Net ServerWire Primitives WireParity.
From S2P Require Import Registry RegistryFacts Tunnel ServerHandshake Server.

Create HintDb quiet.

Section facts.
Context `{P : Primitives} `{C : Codecs} {W : Type} `{I : PskInstaller W}.
Context (debug_message : Message -> rstring).

(** ** Effects confined to the connection *)

Definition same_state (w w' : World W) : Prop :=
  registry w' = registry w /\ wg w' = wg w /\ disk w' = disk w.

#[export] Instance same_state_po : PreOrder same_state.
Proof. split; [by intros ?|]. intros ??? (?&?&?) (?&?&?). split_and!; congruence. Qed.

Definition quiet {E A} (m : M (World W) E A) : Prop := forall w r w', m w = (r, w') -> same_state w w'.

Lemma quiet_ret {E A} (a : A) : quiet (mret a : M (World W) E A).
Proof. by intros w r w' [= <- <-]. Qed.
Lemma quiet_throw {E A} (e : E) : quiet (throw e : M (World W) E A).
Proof. by intros w r w' [= <- <-]. Qed.
Lemma quiet_lift {E A} (x : result E A) : quiet (lift x : M (World W) E A).
Proof. by intros w r w' [= <- <-]. Qed.
Lemma quiet_conn {E A} (m : M stream E A) : quiet (on_conn m).
Proof. intros w r w'. unfold on_conn. destruct (m (conn w)). by intros [= <- <-]. Qed.
Lemma quiet_err {E F A} (f : E -> F) (m : M (World W) E A) : quiet m -> quiet (err_into f m).
Proof.
  intros H w r w'. unfold err_into. destruct (m w) as [x s] eqn:E0. intros [= <- <-]. by eapply H.
Qed.
Lemma quiet_attempt {E F A} (m : M (World W) E A) : quiet m -> quiet (attempt (F := F) m).
Proof.
  intros H w r w'. unfold attempt. destruct (m w) as [x s] eqn:E0. intros [= <- <-]. by eapply H.
Qed.
Lemma quiet_bind {E A B} (m : M (World W) E A) (k : A -> M (World W) E B) :
  quiet m -> (forall a, quiet (k a)) -> quiet (m ≫= k).
Proof.
  intros Hm Hk w r w' H. apply M_bind_inv in H as [(a & s & H1 & H2)|(e & H1 & _)].
  - etrans; [by eapply Hm | by eapply Hk].
  - by eapply Hm.
Qed.

Hint Resolve quiet_ret quiet_throw quiet_lift quiet_conn quiet_err quiet_attempt quiet_bind : quiet.

Lemma quiet_reject code msg : quiet (reject_with (W := W) code msg).
Proof. unfold reject_with. auto with quiet. Qed.

Lemma quiet_read_first : quiet (read_first debug_message).
Proof.
  unfold read_first. apply quiet_bind; [auto with quiet|].
  intros [[]|]; auto with quiet.
Qed.
Lemma quiet_read_finish : quiet (read_finish debug_message).
Proof.
  unfold read_finish. apply quiet_bind; [auto with quiet|]. intros []; auto with quiet.
Qed.

(** ** What was read *)

(** Message 1 as the client sent it. *)
Definition first_message (h : ClientHello) (rs : option (arr 16)) : Message :=
  match rs with
  | None => MClientHello h
  | Some sid => MRekeyRequest {| rk_session_id := sid; hello := h |}
  end.

Lemma on_conn_Ok {E A} (m : M stream E A) (w : World W) a w' :
  on_conn m w = (Ok a, w') -> m (conn w) = (Ok a, conn w').
Proof. unfold on_conn. destruct (m (conn w)) as [r s]. by intros [= -> <-]. Qed.

Lemma read_first_inv (w : World W) h rs w' :
  read_first debug_message w = (Ok (h, rs), w') ->
  rx (conn w) = frame (first_message h rs) ++ rx (conn w').
Proof.
  unfold read_first. intros H. apply M_bind_inv in H as [(r & w1 & Hr & H)|(? & _ & [=])].
  unfold attempt in Hr. destruct (on_conn Message_read w) as [x w2] eqn:Hx. injection Hr as -> ->.
  destruct r as [m|e].
  - apply on_conn_Ok in Hx.
    assert (Hm : m = first_message h rs /\ w1 = w').
    { destruct m as [h'|?|?|?|[sid h']|?]; try (injection H as <- <- <-; done);
        apply M_bind_inv in H as [(? & ? & _ & [=])|(? & _ & [=])]. }
    destruct Hm as [-> ->]. apply server_read_frame_inv in Hx as [_ Hx]; [done|].
    intros e. by destruct rs.
  - apply M_bind_inv in H as [(? & ? & _ & [=])|(? & _ & [=])].
Qed.

Lemma read_finish_inv (w : World W) f w' :
  read_finish debug_message w = (Ok f, w') ->
  rx (conn w) = frame (MClientFinish f) ++ rx (conn w').
Proof.
  unfold read_finish. intros H. apply M_bind_inv in H as [(m & w1 & Hm & H)|(? & _ & [=])].
  unfold err_into in Hm. destruct (on_conn Message_read w) as [[x|] w2] eqn:Hx; [|done].
  injection Hm as -> ->. apply on_conn_Ok in Hx.
  assert (Hf : m = MClientFinish f /\ w1 = w').
  { destruct m; try (injection H as <- <-; done);
      apply M_bind_inv in H as [(? & ? & _ & [=])|(? & _ & [=])]. }
  destruct Hf as [-> ->]. by apply server_read_frame_inv in Hx as [_ Hx].
Qed.

(** Writing does not read. *)
Lemma Message_write_rx m s r s' : Message_write m s = (r, s') -> rx s' = rx s.
Proof.
  rewrite server_write. destruct (_ <? _); [by intros [= <- <-]|]. unfold write_all.
  destruct (tx_faults s) as [|[[]|]]; by intros [= <- <-].
Qed.

(** ** The two halves of a connection *)

(** A confirmed handshake: the hello, the session to rekey if any, the answer. *)
Record session := {
  se_hello : ClientHello;
  se_rekey : option (arr 16);
  se_outcome : HandshakeOutcome
}.

(** A connection that reached the point of no return in state [w1]: the client
    sent [h] (as a handshake or as a rekey of [rs]) and a finish message whose
    session id is the session's and whose tag is the MAC, under the key of the
    server's own answer [o], of the transcript it signed. *)
Record confirmed (ctx : ServerContext) (d : conn_draws) (w : World W) (h : ClientHello)
    (rs : option (arr 16)) (o : HandshakeOutcome) (fin : ClientFinish) (w1 : World W) : Prop := {
  cf_same : same_state w w1;
  cf_read : rx (conn w) = frame (first_message h rs) ++ frame (MClientFinish fin) ++ rx (conn w1);
  cf_respond : respond (ctx_identity ctx) h (default (cn_session_id d) rs) (cn_server_nonce d)
                 (cn_server d) = Ok o;
  cf_session : cf_session_id fin = default (cn_session_id d) rs;
  cf_tag : client_tag fin = client_tag_of (confirm_key (keys o)) (transcript o)
}.

(** How a connection can end before the point of no return. *)
Definition early (r : result ConnError ConnResult) : Prop :=
  match r with
  | Ok (Rejected _) | Err (ConnIo _) | Err (ConnFrame _) | Err (ConnProtocol _) => True
  | _ => False
  end.

Lemma io_early {A} (m : M stream io_error A) (w : World W) e w' :
  err_into ConnIo (on_conn m) w = (Err e, w') -> same_state w w' /\ early (Err e).
Proof.
  intros H. split; [by eapply quiet_err; [apply quiet_conn|]|].
  unfold err_into in H. destruct (on_conn m w) as [[|] ?]; simpl in H; [done|]. by injection H as <- _.
Qed.

Lemma io_quiet {A} (m : M stream io_error A) (w : World W) r w' :
  err_into ConnIo (on_conn m) w = (r, w') -> same_state w w'.
Proof. apply quiet_err, quiet_conn. Qed.

Lemma read_first_early (w : World W) e w' :
  read_first debug_message w = (Err e, w') -> same_state w w' /\ early (Err e).
Proof.
  intros H. split; [by eapply quiet_read_first|]. unfold read_first in H.
  apply M_bind_inv in H as [(r & w1 & _ & H)|(e' & H & _)].
  2:{ unfold attempt in H. by destruct (on_conn _ w). }
  destruct r as [[]|e']; try discriminate H;
    (apply M_bind_inv in H as [(x & w2 & _ & H)|(e2 & H & He)];
      [by injection H as <- _ | injection He as <-]); try by apply io_early in H as [_ ?].
  unfold attempt in H. by destruct (on_conn _ w1).
Qed.

Lemma read_finish_early (w : World W) e w' :
  read_finish debug_message w = (Err e, w') -> same_state w w' /\ early (Err e).
Proof.
  intros H. split; [by eapply quiet_read_finish|]. unfold read_finish in H.
  apply M_bind_inv in H as [(m & w1 & _ & H)|(e' & H & He)].
  - destruct m; try discriminate H;
      (apply M_bind_inv in H as [(x & w2 & _ & H)|(e2 & H & He)];
        [by injection H as <- _ | injection He as <-]); by apply io_early in H as [_ ?].
  - injection He as <-. unfold err_into in H. destruct (on_conn _ w) as [[|] ?]; simpl in H; [done|]. by injection H as <- _.
Qed.

Lemma reject_early code msg (w : World W) r w' :
  reject_with code msg w = (r, w') -> same_state w w' /\ early r.
Proof.
  intros H. unfold reject_with in H. apply M_bind_inv in H as [(x & w2 & H & Hr)|(e & H & ->)].
  - injection Hr as <- <-. split; [by eapply io_quiet | done].
  - by apply io_early in H.
Qed.

(** A quiet step before an early end. *)
Lemma early_after w w1 w' r : same_state w w1 -> same_state w1 w' /\ early r -> same_state w w' /\ early r.
Proof. intros H [? ?]. split; [by etrans|done]. Qed.

(** [handle_connection] up to the point of no return, the registry update. *)
Definition prologue (ctx : ServerContext) (d : conn_draws) : M (World W) ConnError (ConnResult + session) :=
  _ ← lift (map_err ConnIo (cn_timeouts d));
  '(hello, rekey_session) ← read_first debug_message;
  let session_id := default (cn_session_id d) rekey_session in
  let server_nonce := cn_server_nonce d in
  match respond (ctx_identity ctx) hello session_id server_nonce (cn_server d) with
  | Err e => r ← reject_with (HandshakeError_protocol_code e) (HandshakeError_to_string e); mret (inl r)
  | Ok outcome =>
  _ ← err_into ConnIo (on_conn (Message_write (MServerHello (server_hello outcome))));
  fin ← read_finish debug_message;
  if negb (bool_decide (cf_session_id fin = session_id))
     || negb (verify_client_tag (confirm_key (keys outcome)) (transcript outcome) (client_tag fin))
  then
    _ ← err_into ConnIo (on_conn (reject (HandshakeError_protocol_code AuthFailed)
                                    (lit "client finish tag did not verify")));
    mret (inl (Rejected x06))
  else mret (inr {| se_hello := hello; se_rekey := rekey_session; se_outcome := outcome |})
  end.

Lemma handle_connection_split ctx d w :
  handle_connection debug_message ctx d w =
  (x ← prologue ctx d;
   match x with
   | inl r => mret r
   | inr se => commit_session ctx d (se_hello se) (se_rekey se) (se_outcome se)
   end) w.
Proof.
  unfold handle_connection, prologue, mbind, M_bind.
  destruct (lift _ w) as [[[]|e] w0]; [|done].
  destruct (read_first debug_message w0) as [[[h rs]|e] w1]; [|done].
  destruct (respond _ _ _ _ _) as [o|e].
  2:{ by destruct (reject_with _ _ w1) as [[]]. }
  destruct (err_into _ _ w1) as [[[]|e] w2]; [|done].
  destruct (read_finish debug_message w2) as [[fin|e] w3]; [|done].
  destruct (negb _ || _); [|done]. by destruct (err_into _ _ w3) as [[[]|e] w4].
Qed.

Lemma prologue_inv ctx d w r w' :
  prologue ctx d w = (r, w') ->
  same_state w w' /\
  match r with
  | Ok (inr se) => exists fin, confirmed ctx d w (se_hello se) (se_rekey se) (se_outcome se) fin w'
  | Ok (inl r) => early (Ok r)
  | Err e => early (Err e)
  end.
Proof.
  unfold prologue. intros H.
  apply M_bind_inv in H as [([] & w0 & H0 & H)|(e & H0 & ->)].
  2:{ unfold lift in H0. destruct (cn_timeouts d); simpl in H0; [done|]. by injection H0 as <- <-. }
  injection H0 as _ <-.
  apply M_bind_inv in H as [([h rs] & w1 & H1 & H)|(e & H1 & ->)]; [|by apply read_first_early].
  pose proof (quiet_read_first _ _ _ H1) as Hs1.
  destruct (respond _ h _ _ _) as [o|e] eqn:Ho.
  2:{ apply M_bind_inv in H as [(r1 & w2 & H2 & H)|(e' & H2 & ->)];
        apply reject_early in H2 as [Hs2 He]; [injection H as <- <-|];
        (split; [by etrans|exact He]). }
  apply M_bind_inv in H as [([] & w2 & H2 & H)|(e & H2 & ->)];
    [|eapply early_after; [exact Hs1 | by eapply io_early]].
  assert (Hs2 : same_state w w2) by (etrans; [exact Hs1 | by eapply io_quiet]).
  apply M_bind_inv in H as [(fin & w3 & H3 & H)|(e & H3 & ->)];
    [|eapply early_after; [exact Hs2 | by apply read_finish_early]].
  assert (Hs3 : same_state w w3) by (etrans; [exact Hs2 | by eapply quiet_read_finish]).
  destruct (negb _ || _) eqn:Htag.
  - apply M_bind_inv in H as [([] & w4 & H4 & H)|(e & H4 & ->)].
    + injection H as <- <-. split; [|done]. etrans; [exact Hs3 | by eapply io_quiet].
    + eapply early_after; [exact Hs3 | by eapply io_early].
  - injection H as <- <-. split; [exact Hs3|].
    apply orb_false_iff in Htag as [Hsid%negb_false_iff Htag%negb_false_iff].
    apply bool_decide_eq_true in Hsid. apply verify_client_tag_iff in Htag.
    exists fin. split; try done. cbn [se_hello se_rekey].
    rewrite (read_first_inv _ _ _ _ H1). f_equal.
    unfold err_into in H2. destruct (on_conn _ w1) as [[[]|] w2'] eqn:Hw; [|done].
    injection H2 as <-. apply on_conn_Ok, Message_write_rx in Hw. rewrite <- Hw.
    by apply read_finish_inv.
Qed.

Lemma handle_connection_inv ctx d w r w' :
  handle_connection debug_message ctx d w = (r, w') ->
  (same_state w w' /\ early r) \/
  (exists h rs o fin w1, confirmed ctx d w h rs o fin w1 /\
    commit_session ctx d h rs o w1 = (r, w')).
Proof.
  rewrite handle_connection_split. intros H.
  apply M_bind_inv in H as [(x & w1 & H1 & H)|(e & H1 & ->)]; apply prologue_inv in H1; [|by left].
  destruct H1 as [Hs H1]. destruct x as [r'|se].
  - injection H as <- <-. by left.
  - destruct H1 as [fin H1]. right. eauto 10.
Qed.

(** The registry step of a connection. *)
Definition registry_step (d : conn_draws) (h : ClientHello) (rs : option (arr 16)) :
    M Registry RegistryError PeerSlot :=
  match rs with
  | Some sid => registry_rekey (cn_now d) (client_wg_pubkey h) sid (ch_algo h)
  | None => upsert_handshake (cn_now d) (client_wg_pubkey h) (ch_algo h) (cn_session_id d)
  end.

Lemma registry_step_Err d h rs reg e reg' : registry_step d h rs reg = (Err e, reg') -> reg' = reg.
Proof.
  unfold registry_step, registry_rekey, upsert_handshake.
  destruct rs; repeat case_match; by intros [= <- <-].
Qed.

Lemma registry_step_Ok d h rs reg slot reg' :
  registry_step d h rs reg = (Ok slot, reg') ->
  exists p, inner reg' = <[client_wg_pubkey h := p]> (inner reg) /\
    session_id p = slot_session_id slot /\ assigned_ip p = slot_assigned_ip slot /\ algo p = ch_algo h.
Proof.
  unfold registry_step, registry_rekey, upsert_handshake.
  destruct rs; repeat case_match; intros [= <- <-]; eexists; (split; [reflexivity|done]).
Qed.

(** The slot names the session that the server's hello named. *)
Lemma registry_step_session d h rs reg slot reg' :
  registry_step d h rs reg = (Ok slot, reg') -> slot_session_id slot = default (cn_session_id d) rs.
Proof.
  destruct rs as [sid|]; cbn [registry_step default].
  - unfold registry_rekey. destruct (inner reg !! _) as [p|]; [|done].
    case_bool_decide; [|done]. cbn [negb]. destruct (algo_ltb _ _); [done|]. by intros [= <- _].
  - unfold upsert_handshake. repeat case_match; by intros [= <- _].
Qed.

Lemma registry_step_wf d h rs reg : reg_wf reg -> reg_wf (registry_step d h rs reg).2.
Proof. destruct rs; simpl; auto with pqc. Qed.

(** The second half, effect by effect. *)
Lemma commit_effects ctx d h rs o w r w' :
  commit_session ctx d h rs o w = (r, w') ->
  let '(u, reg) := registry_step d h rs (registry w) in
  registry w' = reg /\
  match u with
  | Err e => wg w' = wg w /\ disk w' = disk w /\ early r
  | Ok slot =>
      let '(i, s) := install (client_wg_pubkey h) (psk (keys o)) (slot_assigned_ip slot) (ch_algo h) (wg w) in
      wg w' = s /\
      match i with
      | Err e => disk w' = disk w /\ (r = Err (ConnInstall e) \/ exists io, r = Err (ConnIo io))
      | Ok _ => disk w' = (persist reg (disk w)).2 /\
          (r = Ok (match rs with Some _ => Rekey (slot_session_id slot) | None => Handshake (slot_session_id slot) end)
           \/ exists io, r = Err (ConnIo io))
      end
  end.
Proof.
  unfold commit_session. intros H.
  apply M_bind_inv in H as [(u & w1 & H1 & H)|(e & H1 & ->)].
  2:{ unfold attempt in H1. by destruct rs; destruct (on_registry _ w). }
  assert (Hu : registry_step d h rs (registry w) = (u, registry w1) /\ wg w1 = wg w /\ disk w1 = disk w /\ conn w1 = conn w).
  { unfold attempt, on_registry in H1. destruct rs; simpl in *;
      [destruct (registry_rekey _ _ _ _ _)|destruct (upsert_handshake _ _ _ _ _)]; by injection H1 as <- <-. }
  destruct Hu as (-> & Hwg & Hdisk & _). destruct u as [slot|e].
  - apply M_bind_inv in H as [(i & w2 & H2 & H)|(e & H2 & ->)].
    2:{ unfold attempt in H2. by destruct (on_wg _ w1). }
    unfold attempt, on_wg in H2. rewrite Hwg in H2.
    destruct (install _ _ _ _ (wg w)) as [i' s]. injection H2 as -> <-. destruct i as [[]|e].
    + apply M_bind_inv in H as [(wx & w3 & H3 & H)|(e & H3 & ->)]; [|done]. injection H3 as <- <-.
      apply M_bind_inv in H as [(pr & w4 & H4 & H)|(e & H4 & ->)].
      2:{ unfold attempt in H4. by destruct (on_disk _ _). }
      unfold attempt, on_disk in H4. simpl in H4. rewrite Hdisk in H4.
      destruct (persist (registry w1) (disk w)) as [pres ds]. injection H4 as <- <-.
      apply M_bind_inv in H as [([] & w5 & H5 & H)|(e & H5 & ->)].
      * apply (quiet_err _ _ (quiet_conn _)) in H5 as (Hr & Hg & Hd). injection H as <- <-.
        rewrite Hr, Hg, Hd. simpl. auto.
      * unfold err_into in H5. destruct (on_conn _ _) as [[[]|io] wc] eqn:Hc; [done|].
        injection H5 as <- <-. apply quiet_conn in Hc as (Hr & Hg & Hd). rewrite Hr, Hg, Hd. simpl. eauto 10.
    + apply M_bind_inv in H as [([] & w5 & H5 & H)|(e' & H5 & ->)].
      * apply (quiet_err _ _ (quiet_conn _)) in H5 as (Hr & Hg & Hd). injection H as <- <-.
        rewrite Hr, Hg, Hd. simpl. auto.
      * unfold err_into in H5. destruct (on_conn _ _) as [[[]|io] wc] eqn:Hc; [done|].
        injection H5 as <- <-. apply quiet_conn in Hc as (Hr & Hg & Hd). rewrite Hr, Hg, Hd. simpl. eauto 10.
  - destruct (registry_reject_code e) as [c msg].
    apply reject_early in H as [(Hr & Hg & Hd) He]. by rewrite Hr, Hg, Hd.
Qed.

(** ** Housekeeping *)

Definition touched (later : SystemTime) (p : Peer) : Peer :=
  {| wg_pubkey := wg_pubkey p; assigned_ip := assigned_ip p; session_id := session_id p;
     algo := algo p; created := created p; last_activity := later; rekeys := rekeys p |}.

(** WireGuard shook hands with [k] no longer than [timeout] ago. *)
Definition live (wg_hs : gmap (arr 32) SystemTime) (timeout now : Z) (k : arr 32) : bool :=
  match wg_hs !! k with
  | Some hs => default false ((fun d => d <=? timeout) <$> duration_since now hs)
  | None => false
  end.

Lemma sweep_fold wg_hs timeout now later l st k :
  inner (registry (fold_left (fun st pk => sweep_peer wg_hs timeout now later pk st) l st).1) !! k =
    if decide (k ∈ l) then
      if live wg_hs timeout now k then touched (later k) <$> inner (registry st.1) !! k else None
    else inner (registry st.1) !! k.
Proof.
  revert st. induction l as [|pk l IH]; intros [w n]; [done|]. cbn [fold_left]. rewrite IH. clear IH.
  assert (Hstep : inner (registry (sweep_peer wg_hs timeout now later pk (w, n)).1) !! k =
    if decide (k = pk) then
      if live wg_hs timeout now k then touched (later k) <$> inner (registry w) !! k else None
    else inner (registry w) !! k).
  { unfold sweep_peer. fold (live wg_hs timeout now pk). case_decide as E; [subst k|].
    - destruct (live _ _ _ pk); simpl.
      + unfold touch. destruct (inner (registry w) !! pk) eqn:Hp; simpl; [by rewrite lookup_insert_eq | done].
      + by rewrite lookup_delete_eq.
    - destruct (live _ _ _ pk); simpl.
      + unfold touch. destruct (inner (registry w) !! pk); simpl; [by rewrite lookup_insert_ne | done].
      + by rewrite lookup_delete_ne. }
  rewrite Hstep. simpl. destruct (decide (k = pk)) as [->|Hne].
  - rewrite (decide_True (P := pk ∈ pk :: l)) by left. destruct (live _ _ _ pk); simpl.
    + case_decide; [|done]. by destruct (inner (registry w) !! pk).
    + by case_decide.
  - destruct (decide (k ∈ l)).
    + by rewrite decide_True by by right.
    + rewrite decide_False; [done|]. rewrite elem_of_cons. tauto.
Qed.

Lemma sweep_fold_wf wg_hs timeout now later l st :
  reg_wf (registry st.1) ->
  reg_wf (registry (fold_left (fun st pk => sweep_peer wg_hs timeout now later pk st) l st).1).
Proof.
  revert st. induction l as [|pk l IH]; intros [w n] Hwf; [done|]. apply IH. unfold sweep_peer.
  destruct (match _ with Some _ => _ | None => _ end); simpl; auto with pqc.
Qed.

(** The peers of a list that the sweep takes off. *)
Definition dead (wg_hs : gmap (arr 32) SystemTime) (timeout now : Z) (l : list (arr 32)) : list (arr 32) :=
  filter (fun pk => live wg_hs timeout now pk = false) l.

Lemma sweep_fold_rest wg_hs timeout now later l w n :
  let '(w', n') := fold_left (fun st pk => sweep_peer wg_hs timeout now later pk st) l (w, n) in
  wg w' = foldl (fun g pk => (remove_peer pk g).2) (wg w) (dead wg_hs timeout now l) /\
  disk w' = disk w /\ n' = n + len (dead wg_hs timeout now l).
Proof.
  revert w n. induction l as [|pk l IH]; intros w n; [cbn; split_and!; [done|done|unfold len; simpl; lia]|].
  cbn [fold_left]. unfold sweep_peer at 2. fold (live wg_hs timeout now pk). unfold dead. rewrite filter_cons.
  destruct (live wg_hs timeout now pk) eqn:E.
  - rewrite decide_False by done.
    exact (IH (Build_World (conn w) (touch (later pk) pk (registry w)) (wg w) (disk w)) n).
  - rewrite decide_True by done. cbn [foldl]. rewrite len_cons.
    specialize (IH (Build_World (conn w) (registry_remove pk (registry w)).2 (remove_peer pk (wg w)).2 (disk w)) (n + 1)).
    destruct (fold_left _ _ _) as [w' n']. destruct IH as (-> & -> & ->). split_and!; [done|done|unfold dead; lia].
Qed.

(** A sweep is its fold, with a save if it took a peer off. *)
Lemma idle_sweep_inv timeout now later w w' :
  idle_sweep timeout now later w = Some w' ->
  exists wg_hs, match (last_handshakes (wg w)).1 with Ok m => m | Err _ => Some ∅ end = Some wg_hs /\
    let idle := idle_peers timeout now (registry w) in
    let gone := dead wg_hs timeout now idle in
    (exists st, registry st.1 = registry w /\
      registry w' = registry (fold_left (fun st pk => sweep_peer wg_hs timeout now later pk st) idle st).1) /\
    wg w' = foldl (fun g pk => (remove_peer pk g).2) (last_handshakes (wg w)).2 gone /\
    disk w' = match gone with [] => disk w | _ :: _ => (persist (registry w') (disk w)).2 end.
Proof.
  unfold idle_sweep. destruct (last_handshakes (wg w)) as [r s]. intros H. simpl.
  destruct (match r with Ok m => m | Err _ => Some ∅ end) as [hs|]; [|done]. simpl in H.
  exists hs. split; [done|]. set (idle := idle_peers timeout now (registry w)) in *.
  set (w0 := Build_World (conn w) (registry w) s (disk w)) in *.
  pose proof (sweep_fold_rest hs timeout now later idle w0 0) as Hrest.
  destruct (fold_left _ idle (w0, 0)) as [w1 ev] eqn:E. destruct Hrest as (Hg & Hd & ->). injection H as <-.
  change (wg w0) with s in Hg. change (disk w0) with (disk w) in Hd.
  assert (Hev : (0 <? 0 + len (dead hs timeout now idle)) = match dead hs timeout now idle with [] => false | _ => true end).
  { destruct (dead hs timeout now idle) as [|pk l]; [done|]. rewrite len_cons. pose proof (len_nonneg l). apply Z.ltb_lt. lia. }
  rewrite Hev. split; [|split].
  - exists (w0, 0). split; [done|]. rewrite E. destruct (dead hs timeout now idle); [done|].
    unfold on_disk. by destruct (persist _ _).
  - rewrite <- Hg. destruct (dead hs timeout now idle); [done|]. unfold on_disk. by destruct (persist _ _).
  - rewrite <- Hd. destruct (dead hs timeout now idle); [done|]. unfold on_disk.
    destruct (persist (registry w1) (disk w1)) as [pr ds] eqn:Ep. simpl. by rewrite Ep.
Qed.

Lemma remove_stale_preserves (Q : W -> Prop) known pks w :
  (forall pk w, pk ∉ known -> Q w -> Q (remove_peer pk w).2) -> Q w -> Q (remove_stale known pks w).
Proof.
  intros Hstep. revert w. induction pks as [|pk pks IH]; intros w Hw; [done|]. simpl. apply IH.
  case_bool_decide; simpl; auto.
Qed.

End facts.

(** ** What the housekeeping relies on

    An interface whose configured peers can be observed: listing reports them,
    a successful removal removes one, a failed one nothing. *)
Class ObservableWg (W : Type) `{I : PskInstaller W} : Type := {
  view : W -> gset (arr 32);
  view_list : forall w ks w', list_installed_peers w = (Ok ks, w') ->
    view w' = view w /\ (forall k, k ∈ ks <-> k ∈ view w);
  view_remove : forall pk w r w', remove_peer pk w = (r, w') ->
    view w' = match r with Ok _ => view w ∖ {[ pk ]} | Err _ => view w end
}.

(** A table of peers that never fails. *)
Module WgTable.
Definition table : Type := gmap (arr 32) (arr 32 * Ipv4Addr).
#[export] Instance installer : PskInstaller table := {
  install pk psk ip algo t := (Ok tt, <[pk := (psk, ip)]> t);
  list_installed_peers t := (Ok (map fst (map_to_list t)), t);
  remove_peer pk t := (Ok tt, delete pk t);
  last_handshakes t := (Ok (Some ∅), t)
}.
#[export] Program Instance observable : ObservableWg table := {
  view t := dom t
}.
Next Obligation.
  intros w ks w' [= <- <-]. split; [done|]. intros k.
  rewrite (elem_of_dom (D := gset (arr 32)) (w : gmap (arr 32) _) k), list_elem_of_In, in_map_iff. split.
  - intros ([k' v] & <- & H). exists v. by apply elem_of_map_to_list, list_elem_of_In.
  - intros [v H]. exists (k, v). split; [done|]. by apply list_elem_of_In, elem_of_map_to_list.
Qed.
Next Obligation. intros pk w r w' [= <- <-]. apply dom_delete_L. Qed.
End WgTable.
Export (hints) WgTable.

(** ** Properties *)

(** A refusal changes nothing: when the handler reports [Rejected], for
    whatever reason, registry, WireGuard and disk are as before. *)
Lemma rejection_changes_nothing {P : Primitives} {C : Codecs} {W} {I : PskInstaller W}
    debug ctx d w code w' :
  handle_connection debug ctx d w = (Ok (Rejected code), w') -> same_state w w'.
Proof.
  intros H. apply handle_connection_inv in H as [[Hs _]|(h & rs & o & fin & w1 & Hc & H)]; [done|].
  apply commit_effects in H. destruct (cf_same _ _ _ _ _ _ _ _ Hc) as (-> & Hw & Hd) in H.
  rewrite Hw, Hd in H.
  destruct (registry_step d h rs (registry w)) as [[slot|e] reg] eqn:E.
  - destruct H as [_ H]. destruct (install _ _ _ _ _) as [[[]|e] s]; destruct H as (_ & _ & [H|[io H]]);
      try discriminate H; by destruct rs.
  - apply registry_step_Err in E as ->. by destruct H as (? & ? & ? & _).
Qed.

(** C3. Nothing is installed without proof of the key.  Whatever bytes the
    client sends, a connection either leaves registry, WireGuard and disk
    untouched, or the client sent a hello and a [ClientFinish] with the
    session's id and the right MAC under the key the server derived, and then
    the effects are exactly: one registry step; if it succeeds, one [install]
    of the derived PSK at the assigned address; and if that succeeds, one
    [persist].  A connection reported as rejected, for whatever reason, left
    all three untouched. *)
Theorem effects_need_confirmation {P : Primitives} {C : Codecs} {W} {I : PskInstaller W}
    debug ctx d w r w' :
  handle_connection debug ctx d w = (r, w') ->
  (forall code, r = Ok (Rejected code) -> same_state w w') /\
  (same_state w w' \/
  exists h rs o fin w1, confirmed ctx d w h rs o fin w1 /\
    let '(u, reg) := registry_step d h rs (registry w) in
    registry w' = reg /\
    match u with
    | Err _ => wg w' = wg w /\ disk w' = disk w
    | Ok slot =>
        let '(i, s) := install (client_wg_pubkey h) (psk (keys o)) (slot_assigned_ip slot)
                         (ch_algo h) (wg w) in
        wg w' = s /\
        disk w' = match i with Ok _ => (persist reg (disk w)).2 | Err _ => disk w end
    end).
Proof.
  intros H. split; [by intros code ->; eapply rejection_changes_nothing|].
  apply handle_connection_inv in H as [[Hs _]|(h & rs & o & fin & w1 & Hc & H)]; [by left|].
  right. exists h, rs, o, fin, w1. split; [done|]. apply commit_effects in H.
  destruct (cf_same _ _ _ _ _ _ _ _ Hc) as (-> & Hw & Hd) in H. rewrite Hw, Hd in H.
  destruct (registry_step d h rs (registry w)) as [[slot|e] reg].
  - destruct H as [Hr H]. split; [done|]. destruct (install _ _ _ _ _) as [[[]|e] s]; tauto.
  - tauto.
Qed.

(** What the server does, one activity after the other: a connection [c] from
    whomever, a turn of the idle sweep, the start-up reconciliation. *)
Inductive server_step {P : Primitives} {C : Codecs} {W} {I : PskInstaller W}
    (debug : Message -> rstring) : World W -> World W -> Prop :=
  | step_connection ctx d c r w w' :
      handle_connection debug ctx d (Build_World c (registry w) (wg w) (disk w)) = (r, w') ->
      server_step debug w w'
  | step_sweep timeout now later w w' :
      idle_sweep timeout now later w = Some w' -> server_step debug w w'
  | step_reconcile w : server_step debug w (reconcile_wg_peers w).

Lemma handle_connection_wf {P : Primitives} {C : Codecs} {W} {I : PskInstaller W} debug ctx d w r w' :
  handle_connection debug ctx d w = (r, w') -> reg_wf (registry w) -> reg_wf (registry w').
Proof.
  intros H Hwf.
  apply handle_connection_inv in H as [[(-> & _) _]|(h & rs & o & fin & w1 & Hc & H)]; [done|].
  apply commit_effects in H. destruct (cf_same _ _ _ _ _ _ _ _ Hc) as (-> & _) in H.
  pose proof (registry_step_wf d h rs _ Hwf) as Hwf'.
  destruct (registry_step d h rs (registry w)) as [u reg]. by destruct H as [-> _].
Qed.

(** The registry invariant holds in every state the server reaches: through
    any sequence of connections, whatever the clients send and whichever steps
    fail, of turns of the idle sweep, and of reconciliations. *)
Theorem server_preserves_invariant {P : Primitives} {C : Codecs} {W} {I : PskInstaller W}
    debug (w w' : World W) :
  rtc (server_step debug) w w' -> reg_wf (registry w) -> reg_wf (registry w').
Proof.
  induction 1 as [w|w w1 w2 Hstep _ IH]; [done|]. intros Hwf. apply IH.
  destruct Hstep as [ctx d c r w w' H|timeout now later w w' H|w].
  - exact (handle_connection_wf _ _ _ _ _ _ H Hwf).
  - apply idle_sweep_inv in H as (hs & _ & (st & Hst & ->) & _). apply sweep_fold_wf. by rewrite Hst.
  - unfold reconcile_wg_peers. by destruct (list_installed_peers (wg w)) as [[]].
Qed.

(** C30. The sweep evicts exactly the peers that are idle and whose tunnel is
    not live: afterwards every other peer is still registered, unchanged but
    for the refreshed activity time of an idle peer with a live tunnel, for
    which the clock is read anew; the evicted keys, and no others, are removed
    from the interface, in the order of the list; and the registry is saved, as
    it is then, exactly if a peer was evicted. *)
Theorem idle_sweep_exact {C : Codecs} {W} {I : PskInstaller W} timeout now later w w' :
  reg_wf (registry w) -> 0 <= timeout -> idle_sweep timeout now later w = Some w' ->
  exists wg_hs, match (last_handshakes (wg w)).1 with Ok m => m | Err _ => Some ∅ end = Some wg_hs /\
  (forall k, inner (registry w') !! k =
    match inner (registry w) !! k with
    | None => None
    | Some p =>
        if negb (bool_decide (last_activity p + timeout < now)) then Some p
        else if live wg_hs timeout now k then Some (touched (later k) p) else None
    end) /\
  exists gone, NoDup gone /\
    (forall k, k ∈ gone <-> is_Some (inner (registry w) !! k) /\ inner (registry w') !! k = None) /\
    wg w' = foldl (fun g pk => (remove_peer pk g).2) (last_handshakes (wg w)).2 gone /\
    disk w' = match gone with [] => disk w | _ :: _ => (persist (registry w') (disk w)).2 end.
Proof.
  intros Hwf Ht H. apply idle_sweep_inv in H as (hs & Hhs & (st & Hst & Hreg) & Hwg & Hdk). exists hs. split; [done|].
  assert (Hidle : forall k, k ∈ idle_peers timeout now (registry w) <->
    exists p, inner (registry w) !! k = Some p /\ last_activity p + timeout < now)
    by (intros k; by apply idle_peers_iff).
  assert (Hfinal : forall k, inner (registry w') !! k =
    match inner (registry w) !! k with
    | None => None
    | Some p =>
        if negb (bool_decide (last_activity p + timeout < now)) then Some p
        else if live hs timeout now k then Some (touched (later k) p) else None
    end).
  { intros k. rewrite Hreg, sweep_fold, Hst. specialize (Hidle k).
    destruct (inner (registry w) !! k) as [p|].
    - case_bool_decide as Hb; cbn [negb].
      + rewrite decide_True by (apply Hidle; eauto). done.
      + rewrite decide_False; [done|]. rewrite Hidle. intros (p' & [= <-] & ?). done.
    - rewrite decide_False; [done|]. rewrite Hidle. by intros (p' & ? & _). }
  split; [exact Hfinal|]. exists (dead hs timeout now (idle_peers timeout now (registry w))).
  split; [by apply list.NoDup_filter, idle_peers_NoDup|]. split; [|by split].
  intros k. unfold dead. rewrite list_elem_of_filter, Hidle, Hfinal. split.
  - intros (Hl & p & -> & Hp). split; [done|]. by rewrite bool_decide_true, Hl by done.
  - intros ([p Hp] & Hk). rewrite Hp in Hk |- *. case_bool_decide; [|done]. simpl in Hk.
    destruct (live hs timeout now k); [done|]. split; [done|]. by exists p.
Qed.

(** C38. Start-up reconciliation: no registered peer is taken off the
    interface, nothing is added to it, and when no removal fails, every peer
    left on it is registered. *)
Theorem reconcile_leaves_known {C : Codecs} {W} {I : PskInstaller W} {O : ObservableWg W} w ks s :
  list_installed_peers (wg w) = (Ok ks, s) ->
  let w' := reconcile_wg_peers w in
  registry w' = registry w /\
  (forall k, k ∈ pubkeys (registry w) -> k ∈ view (wg w') <-> k ∈ view (wg w)) /\
  view (wg w') ⊆ view (wg w) /\
  ((forall pk t, (remove_peer (W := W) pk t).1 = Ok tt) ->
   forall k, k ∈ view (wg w') -> k ∈ pubkeys (registry w)).
Proof.
  intros Hl w'. unfold w', reconcile_wg_peers. rewrite Hl. simpl.
  destruct (view_list _ _ _ Hl) as [Hv Hks]. rewrite <- Hv. clear w'.
  set (known := pubkeys (registry w)). split; [done|]. split_and!.
  - intros k Hk. apply (remove_stale_preserves (fun t => k ∈ view t <-> k ∈ view s)); [|done].
    intros pk t Hpk Ht. destruct (remove_peer pk t) as [r t'] eqn:E. apply view_remove in E. simpl.
    rewrite E, <- Ht. destruct r; [|done]. rewrite elem_of_difference, elem_of_singleton.
    split; [by intros []|]. intros. split; [done|]. by intros ->.
  - apply (remove_stale_preserves (fun t => view t ⊆ view s)); [|done].
    intros pk t Hpk Ht. destruct (remove_peer pk t) as [r t'] eqn:E. apply view_remove in E. simpl.
    rewrite E. destruct r; [|done]. intros x [Hx _]%elem_of_difference. by apply Ht.
  - intros Hok k Hk.
    assert (Hsub : forall pks t, (forall x, x ∈ view t -> x ∈ known \/ x ∈ pks) ->
      forall x, x ∈ view (remove_stale known pks t) -> x ∈ known).
    { clearbody known. clear -Hok. induction pks as [|pk pks IH]; intros t Ht x Hx.
      - destruct (Ht x Hx) as [|Hn]; [done|]. by apply not_elem_of_nil in Hn.
      - simpl in Hx. apply (IH _) in Hx; [done|]. intros y Hy. case_bool_decide as Hin; simpl in Hy.
        + destruct (Ht y Hy) as [|[->|]%elem_of_cons]; auto.
        + destruct (remove_peer pk t) as [r t'] eqn:E. pose proof (Hok pk t) as Hr. rewrite E in Hr.
          simpl in Hr, Hy. subst r. apply view_remove in E. rewrite E in Hy.
          apply elem_of_difference in Hy as [Hy Hne]. rewrite elem_of_singleton in Hne.
          destruct (Ht y Hy) as [|[->|]%elem_of_cons]; auto. done. }
    eapply Hsub; [|exact Hk]. intros x Hx. right. apply Hks. by rewrite <- Hv.
Qed.

(** An install failure is not rolled back: the connection ends with an
    error, but the registry keeps the peer's new session and algorithm (and a
    new peer its address), while the file on disk still has the old state. *)
Theorem install_failure_not_rolled_back {P : Primitives} {C : Codecs} {W} {I : PskInstaller W}
    debug ctx d w e w' :
  handle_connection debug ctx d w = (Err (ConnInstall e), w') ->
  disk w' = disk w /\
  exists h rs slot p, registry_step d h rs (registry w) = (Ok slot, registry w') /\
    inner (registry w') !! client_wg_pubkey h = Some p /\
    session_id p = slot_session_id slot /\ algo p = ch_algo h /\ last_activity p = cn_now d.
Proof.
  intros H. apply handle_connection_inv in H as [[_ []]|(h & rs & o & fin & w1 & Hc & H)].
  apply commit_effects in H. destruct (cf_same _ _ _ _ _ _ _ _ Hc) as (Hr & Hw & Hd).
  rewrite Hr, Hw, Hd in H. clear Hr Hw Hd Hc w1.
  destruct (registry_step d h rs (registry w)) as [[slot|x] reg] eqn:Hstep.
  2:{ apply registry_step_Err in Hstep. exfalso. tauto. }
  destruct H as [Hreg H]. destruct (install _ _ _ _ _) as [[[]|x] s].
  { exfalso. destruct H as (_ & _ & [H|[io H]]); discriminate H. }
  destruct H as (_ & Hdisk & _). split; [done|]. rewrite Hreg.
  exists h, rs, slot. clear -Hstep. pose proof Hstep as Hs.
  unfold registry_step, registry_rekey, upsert_handshake in Hs.
  destruct rs; repeat case_match; try discriminate Hs; injection Hs as <- <-;
    (eexists; split; [exact Hstep|]; cbn [inner set_inner]; rewrite lookup_insert_eq; done).
Qed.

(** ** Witnesses *)

Definition sample_world : World WgTable.table :=
  Build_World (mem_stream []) one_peer {[ key x01 := (key x09, sample_base); key x02 := (key x09, sample_base) ]}
    (mkfs ∅).

Lemma server_preserves_invariant_witness :
  exists w, rtc (server_step (P := Toy.prims) (C := ToyCodecs.codecs) (fun _ => lit "message"))
    sample_world w /\ reg_wf (registry w).
Proof.
  assert (H : rtc (server_step (P := Toy.prims) (C := ToyCodecs.codecs) (fun _ => lit "message"))
    sample_world (reconcile_wg_peers sample_world)) by (apply rtc_once, step_reconcile).
  exists (reconcile_wg_peers sample_world). split; [exact H|].
  exact (server_preserves_invariant _ _ _ H one_peer_wf).
Defined.

Lemma table_sweeps {C : Codecs} timeout now later (w : World WgTable.table) :
  exists w', idle_sweep timeout now later w = Some w'.
Proof. unfold idle_sweep. simpl. destruct (fold_left _ _ _) as [w1 ev]. by eexists. Qed.

Lemma one_peer_registered : exists p, inner one_peer !! key x01 = Some p /\ last_activity p = 5.
Proof. eexists. split; [vm_compute; reflexivity | reflexivity]. Qed.

Lemma idle_sweep_exact_witness :
  exists w', idle_sweep (C := ToyCodecs.codecs) 10 100 (fun _ => 101) sample_world = Some w' /\
    inner (registry w') !! key x01 = None /\ disk w' = (persist (C := ToyCodecs.codecs) (registry w') (disk sample_world)).2.
Proof.
  destruct (table_sweeps (C := ToyCodecs.codecs) 10 100 (fun _ => 101) sample_world) as [w' E].
  exists w'. split; [exact E|].
  destruct (idle_sweep_exact (C := ToyCodecs.codecs) 10 100 (fun _ => 101) sample_world w' one_peer_wf ltac:(lia) E)
    as (hs & Hhs & H & gone & _ & Hgone & _ & Hdk).
  injection Hhs as <-. destruct one_peer_registered as (p & Hp & Hl).
  assert (Hout : inner (registry w') !! key x01 = None).
  { rewrite H. change (registry sample_world) with one_peer. rewrite Hp, Hl. reflexivity. }
  split; [exact Hout|]. rewrite Hdk. destruct gone as [|k gone]; [|reflexivity]. exfalso.
  apply (not_elem_of_nil (key x01)), Hgone. split; [|exact Hout].
  change (registry sample_world) with one_peer. by exists p.
Defined.

Lemma key_known : key x01 ∈ pubkeys one_peer.
Proof. apply list_elem_of_In. vm_compute. by left. Qed.

Lemma key_listed : key x01 ∈ view (wg sample_world).
Proof. apply (bool_decide_unpack _). vm_compute. exact I. Qed.

Lemma reconcile_leaves_known_witness : key x01 ∈ view (wg (reconcile_wg_peers sample_world)).
Proof.
  edestruct (reconcile_leaves_known (C := ToyCodecs.codecs) sample_world) as (_ & H & _); [reflexivity|].
  apply (H _ key_known). exact key_listed.
Defined.
