(* ===== verification/Transport.v ===== *)
(** * The client over the network

    [core/src/protocol/transport.rs]: [connect] drives the handshake over one
    TCP connection.  Opening the socket, setting its timeouts and asking for the
    peer's address may fail; their outcomes are arguments, the opened connection
    is the [stream] the computation runs on.  [TunnelConfig] is that of
    [core/src/state/mod.rs]. *)

From S2P Require Import Prelude Utf8 Io Net Algorithm CoreWire Primitives HybridKem CoreClient.

Inductive IpAddr : Set := V4 (a : arr 4) | V6 (a : arr 16).
Record SocketAddr : Set := { sock_ip : IpAddr; sock_port : u16 }.

Record TunnelConfig : Set := {
  tc_assigned_ip : Ipv4Addr;
  tc_server_wg_pubkey : arr 32;
  tc_server_endpoint : SocketAddr;
  tc_psk : arr 32
}.

Inductive ProtocolError : Set :=
  | Io (e : io_error)
  | Wire (e : WireError)
  | Handshake (e : HandshakeError)
  | Server (code : u8) (message : rstring)
  | UnexpectedMessage (what : string).

(** [Display for ProtocolError]. *)
Definition ProtocolError_to_string (e : ProtocolError) : rstring :=
  match e with
  | Io e => (lit "network error: " +:+ io_text e)%rs
  | Wire e => (lit "malformed message: " +:+ WireError_to_string e)%rs
  | Handshake e => HandshakeError_to_string e
  | Server code message =>
      (lit "server rejected the handshake (" +:+ fmt_hex8 code +:+ lit "): " +:+ message)%rs
  | UnexpectedMessage what => lit what
  end.

(** The [From] instances. *)
Definition from_FrameError (e : FrameError) : ProtocolError :=
  match e with FrameIo e => Io e | FrameWire e => Wire e end.

(** What the socket calls before the first message report. *)
Record socket := {
  sk_connect : result io_error unit;
  sk_timeouts : result io_error unit;
  sk_peer : result io_error IpAddr
}.

Section transport.
Context `{P : Primitives}.

Definition connect (sk : socket) (algo : MlKemLevel) (client_wg_pubkey : arr 32)
    (pinned_verifying_key : bytes) (d : client_draws) : M stream ProtocolError TunnelConfig :=
  _ ← lift (map_err Io (sk_connect sk));
  _ ← lift (map_err Io (sk_timeouts sk));
  peer_ip ← lift (map_err Io (sk_peer sk));
  let handshake := start algo client_wg_pubkey d in
  _ ← err_into Io (Message_write (MClientHello (hello_of handshake)));
  m ← err_into from_FrameError Message_read;
  server_hello ←
    match m with
    | MServerHello sh => mret sh
    | MError e => throw (Server (code e) (message e))
    | _ => throw (UnexpectedMessage "expected ServerHello")
    end;
  '(keys, fin, transcript) ← lift (map_err Handshake
    (finish handshake server_hello pinned_verifying_key));
  _ ← err_into Io (Message_write (MClientFinish fin));
  m ← err_into from_FrameError Message_read;
  server_finish ←
    match m with
    | MServerFinish sf => mret sf
    | MError e => throw (Server (code e) (message e))
    | _ => throw (UnexpectedMessage "expected ServerFinish")
    end;
  if negb (bool_decide (sf_session_id server_finish = cf_session_id fin)) then
    throw (UnexpectedMessage "ServerFinish session id did not match ClientFinish")
  else if negb (verify_server_tag (confirm_key keys) transcript (server_tag server_finish)) then
    throw (Handshake AuthFailed)
  else
    mret {| tc_assigned_ip := assigned_ip server_finish;
            tc_server_wg_pubkey := server_wg_pubkey server_finish;
            tc_server_endpoint := {| sock_ip := peer_ip; sock_port := wg_port server_finish |};
            tc_psk := psk keys |}.

End transport.
