(* ===== verification/EndToEnd.v ===== *)
(** * Client and server, end to end

    [connect] on one end of a connection and [handle_connection] on the other:
    each end's input is what the other end wrote. *)

From S2P Require Import Prelude Utf8 Io Fs Net Algorithm Primitives.
From S2P Require CoreWire HybridKem CoreClient Transport.
From S2P Require Import ServerWire WireParity Registry RegistryFacts Tunnel ServerHandshake Agreement.
From S2P Require Import Server ServerFacts.

Section runs.
Context `{P : Primitives} `{C : Codecs} {W : Type} `{I : PskInstaller W}.
Context (debug : Message -> rstring).

Lemma on_conn_eq {E A} (m : M stream E A) (w : World W) r s :
  m (conn w) = (r, s) -> on_conn m w = (r, Build_World s (registry w) (wg w) (disk w)).
Proof. unfold on_conn. by intros ->. Qed.

(** The two messages the server sends. *)
Definition reply (o : HandshakeOutcome) : Message := MServerHello (server_hello o).
Definition final (ctx : ServerContext) (o : HandshakeOutcome) (slot : PeerSlot) : Message :=
  MServerFinish
    {| sf_session_id := slot_session_id slot;
       server_tag := server_tag_of (confirm_key (keys o)) (transcript o);
       server_wg_pubkey := ts_server_wg_pubkey (ctx_tunnel ctx);
       ServerWire.assigned_ip := slot_assigned_ip slot; wg_port := ts_wg_port (ctx_tunnel ctx) |}.

Lemma reply_sendable id h sid sn d o : respond id h sid sn d = Ok o -> sendable (reply o).
Proof.
  intros H%respond_hello_lens. destruct H as (Ha & _ & _ & _ & Hct & Hsig). split; [|done]. 
  unfold reply. simpl. unfold CoreWire.ServerHello_wf. simpl.
  rewrite Ha, ct_len_parity. done.
Qed.

Lemma finish_sendable f : sendable (MClientFinish f).
Proof. by split. Qed.

Lemma first_sendable h rs :
  len (client_mlkem_pub h) = AlgoCode_mlkem_pub_len (ch_algo h) -> sendable (first_message h rs).
Proof.
  intros H. split; [|by destruct rs]. destruct rs; simpl; unfold CoreWire.ClientHello_wf; simpl;
    by rewrite H, pub_len_parity.
Qed.

(** Reading and writing whole frames, the rest of the world at rest. *)
Lemma conn_read m k re t fs (reg : Registry) (s : W) dk :
  sendable m ->
  on_conn (E := FrameError) Message_read (Build_World (Stream (frame m ++ k) re t fs) reg s dk) =
    (Ok m, Build_World (Stream k re t fs) reg s dk).
Proof. intros H. unfold on_conn. cbn [conn registry wg disk]. by rewrite server_read_frame. Qed.

Lemma conn_write m i re t (reg : Registry) (s : W) dk :
  sendable m ->
  err_into ConnIo (on_conn (Message_write m)) (Build_World (Stream i re t []) reg s dk) =
    (Ok tt, Build_World (Stream i re (t ++ frame m) []) reg s dk).
Proof. intros H. unfold err_into, on_conn. cbn [conn registry wg disk]. by rewrite server_write_ok. Qed.

Lemma read_first_run h rs k re t fs (reg : Registry) (s : W) dk :
  sendable (first_message h rs) ->
  read_first debug (Build_World (Stream (frame (first_message h rs) ++ k) re t fs) reg s dk) =
    (Ok (h, rs), Build_World (Stream k re t fs) reg s dk).
Proof.
  intros H. unfold read_first. erewrite M_bind_Ok by (unfold attempt; by rewrite conn_read).
  by destruct rs.
Qed.

Lemma read_finish_run f k re t fs (reg : Registry) (s : W) dk :
  read_finish debug (Build_World (Stream (frame (MClientFinish f) ++ k) re t fs) reg s dk) =
    (Ok f, Build_World (Stream k re t fs) reg s dk).
Proof.
  unfold read_finish.
  erewrite M_bind_Ok by (unfold err_into; by rewrite (conn_read (MClientFinish f)) by apply finish_sendable).
  done.
Qed.

(** The second half on a working connection. *)
Lemma commit_run ctx d h rs o slot reg s re t k rg wg0 dk :
  registry_step d h rs rg = (Ok slot, reg) ->
  install (client_wg_pubkey h) (psk (keys o)) (slot_assigned_ip slot) (ch_algo h) wg0 = (Ok tt, s) ->
  commit_session ctx d h rs o (Build_World (Stream k re t []) rg wg0 dk) =
    (Ok (match rs with Some _ => Server.Rekey (slot_session_id slot) | None => Server.Handshake (slot_session_id slot) end),
     Build_World (Stream k re (t ++ frame (final ctx o slot)) []) reg s (persist reg dk).2).
Proof.
  intros Hstep Hinst. unfold commit_session.
  erewrite M_bind_Ok by (unfold attempt, on_registry; unfold registry_step in Hstep;
    cbn [conn registry wg disk]; destruct rs; simpl in *; rewrite Hstep; reflexivity).
  cbv beta iota.
  erewrite M_bind_Ok by (unfold attempt, on_wg; cbn [conn registry wg disk]; rewrite Hinst; reflexivity).
  cbv beta iota.
  erewrite M_bind_Ok by reflexivity. cbv beta iota. cbn [registry].
  destruct (persist reg dk) as [pr ds] eqn:Hp.
  erewrite M_bind_Ok by (unfold attempt, on_disk; cbn [conn registry wg disk]; rewrite Hp; reflexivity).
  cbv beta iota zeta.
  erewrite M_bind_Ok by (by apply (conn_write (final ctx o slot))). done.
Qed.

(** The first half on a client that knows the key. *)
Lemma prologue_run ctx d h rs o fin re t k (reg : Registry) (s : W) dk :
  cn_timeouts d = Ok tt ->
  respond (ctx_identity ctx) h (default (cn_session_id d) rs) (cn_server_nonce d) (cn_server d) = Ok o ->
  cf_session_id fin = default (cn_session_id d) rs ->
  client_tag fin = client_tag_of (confirm_key (keys o)) (transcript o) ->
  prologue debug ctx d
    (Build_World (Stream (frame (first_message h rs) ++ frame (MClientFinish fin) ++ k) re t []) reg s dk) =
    (Ok (inr {| se_hello := h; se_rekey := rs; se_outcome := o |}),
     Build_World (Stream k re (t ++ frame (reply o)) []) reg s dk).
Proof.
  intros Ht Ho Hsid Htag. pose proof (respond_hello_lens _ _ _ _ _ _ Ho) as (_ & _ & _ & Hpk & _).
  unfold prologue. erewrite M_bind_Ok by (rewrite Ht; reflexivity).
  erewrite M_bind_Ok by (by apply read_first_run, first_sendable).
  cbv beta iota. rewrite Ho.
  erewrite M_bind_Ok by (apply (conn_write (reply o)); by eapply reply_sendable).
  erewrite M_bind_Ok by apply read_finish_run.
  rewrite bool_decide_true by done. by rewrite (proj2 (verify_client_tag_iff _ _ _) Htag).
Qed.

(** A connection on which everything works. *)
Lemma server_run ctx d h rs o fin slot reg s re t k rg wg0 dk :
  cn_timeouts d = Ok tt ->
  respond (ctx_identity ctx) h (default (cn_session_id d) rs) (cn_server_nonce d) (cn_server d) = Ok o ->
  cf_session_id fin = default (cn_session_id d) rs ->
  client_tag fin = client_tag_of (confirm_key (keys o)) (transcript o) ->
  registry_step d h rs rg = (Ok slot, reg) ->
  install (client_wg_pubkey h) (psk (keys o)) (slot_assigned_ip slot) (ch_algo h) wg0 = (Ok tt, s) ->
  handle_connection debug ctx d
    (Build_World (Stream (frame (first_message h rs) ++ frame (MClientFinish fin) ++ k) re t []) rg wg0 dk) =
    (Ok (match rs with Some _ => Server.Rekey (slot_session_id slot) | None => Server.Handshake (slot_session_id slot) end),
     Build_World (Stream k re (t ++ frame (reply o) ++ frame (final ctx o slot)) []) reg s (persist reg dk).2).
Proof.
  intros Ht Ho Hsid Htag Hstep Hinst. rewrite handle_connection_split.
  erewrite M_bind_Ok by by apply prologue_run. cbv beta iota. cbn [se_hello se_rekey se_outcome].
  rewrite (commit_run _ _ _ _ _ _ _ _ _ _ _ _ _ _ Hstep Hinst). by rewrite <- app_assoc.
Qed.

Lemma reject_sendable e : sendable (MError {| code := (registry_reject_code e).1; message := (registry_reject_code e).2 |}).
Proof. destruct e; apply (bool_decide_unpack _); vm_compute; exact Logic.I. Qed.

(** Telling the client of the registry's refusal. *)
Lemma reject_run e re t k (reg : Registry) (s : W) dk :
  reject_with (registry_reject_code e).1 (registry_reject_code e).2 (Build_World (Stream k re t []) reg s dk) =
    (Ok (Server.Rejected (registry_reject_code e).1),
     Build_World (Stream k re (t ++ frame (MError
       {| code := (registry_reject_code e).1; message := (registry_reject_code e).2 |})) []) reg s dk).
Proof.
  unfold reject_with. by erewrite M_bind_Ok by apply (conn_write (MError _)), reject_sendable.
Qed.

(** The server that the registry refuses. *)
Lemma server_refuses ctx d h rs o fin e reg re t rg wg0 dk :
  cn_timeouts d = Ok tt ->
  respond (ctx_identity ctx) h (default (cn_session_id d) rs) (cn_server_nonce d) (cn_server d) = Ok o ->
  cf_session_id fin = default (cn_session_id d) rs ->
  client_tag fin = client_tag_of (confirm_key (keys o)) (transcript o) ->
  registry_step d h rs rg = (Err e, reg) ->
  handle_connection debug ctx d
    (Build_World (Stream (frame (first_message h rs) ++ frame (MClientFinish fin)) re t []) rg wg0 dk) =
    (Ok (Server.Rejected (registry_reject_code e).1),
     Build_World (Stream [] re (t ++ frame (reply o) ++ frame (MError
       {| code := (registry_reject_code e).1; message := (registry_reject_code e).2 |})) []) rg wg0 dk).
Proof.
  intros Ht Ho Hsid Htag Hstep. pose proof (registry_step_Err _ _ _ _ _ _ Hstep) as ->.
  rewrite handle_connection_split, <- (app_nil_r (frame (MClientFinish fin))).
  erewrite M_bind_Ok by by apply prologue_run. cbv beta iota. cbn [se_hello se_rekey se_outcome].
  unfold commit_session.
  erewrite M_bind_Ok by (unfold attempt, on_registry; unfold registry_step in Hstep;
    cbn [conn registry wg disk]; destruct rs; simpl in *; rewrite Hstep; reflexivity).
  cbv beta iota. pose proof (reject_run e re (t ++ frame (reply o)) [] rg wg0 dk) as Hr.
  destruct (registry_reject_code e) as [c msg]. cbn [fst snd] in *. rewrite Hr. by rewrite <- app_assoc.
Qed.

End runs.

(** ** The client's run *)

Section client_run.
Context `{P : Primitives} `{L : !PrimitiveLaws P}.

Lemma core_read m k re t fs :
  sendable m ->
  CoreWire.Message_read (Stream (frame m ++ k) re t fs) = (Ok (to_core m), Stream k re t fs).
Proof. intros H. by rewrite read_parity, server_read_frame. Qed.

Lemma core_write m i re t :
  sendable m ->
  CoreWire.Message_write (to_core m) (Stream i re t []) = (Ok tt, Stream i re (t ++ frame m) []).
Proof. intros H. by rewrite write_parity, server_write_ok. Qed.

(** The client on an input that holds a [ServerHello] it accepts and another
    message. *)
Lemma connect_upto sk algo wgk pin cd h ip sh ks fin t m k re :
  Transport.sk_connect sk = Ok tt -> Transport.sk_timeouts sk = Ok tt -> Transport.sk_peer sk = Ok ip ->
  hello_to_core h = CoreClient.hello_of (CoreClient.start algo wgk cd) ->
  sendable (MClientHello h) -> sendable (MServerHello sh) -> sendable m ->
  CoreClient.finish (CoreClient.start algo wgk cd) (server_hello_to_core sh) pin =
    Ok (ks, CoreWire.Build_ClientFinish (cf_session_id fin) (client_tag fin), t) ->
  Transport.connect sk algo wgk pin cd
      (Stream (frame (MServerHello sh) ++ frame m ++ k) re [] []) =
    (match m with
     | MServerFinish sf =>
         if negb (bool_decide (sf_session_id sf = cf_session_id fin)) then
           Err (Transport.UnexpectedMessage "ServerFinish session id did not match ClientFinish")
         else if negb (CoreClient.verify_server_tag (HybridKem.confirm_key ks) t (server_tag sf)) then
           Err (Transport.Handshake CoreClient.AuthFailed)
         else Ok (Transport.Build_TunnelConfig (ServerWire.assigned_ip sf) (server_wg_pubkey sf)
                    (Transport.Build_SocketAddr ip (wg_port sf)) (HybridKem.psk ks))
     | MError e => Err (Transport.Server (code e) (message e))
     | _ => Err (Transport.UnexpectedMessage "expected ServerFinish")
     end, Stream k re (frame (MClientHello h) ++ frame (MClientFinish fin)) []).
Proof.
  intros H1 H2 H3 Hh Hsh Hssh Hm Hf. unfold Transport.connect. rewrite H1, H2, H3.
  erewrite M_bind_Ok by reflexivity. erewrite M_bind_Ok by reflexivity.
  erewrite M_bind_Ok by reflexivity. rewrite <- Hh.
  erewrite M_bind_Ok by (unfold err_into; by rewrite (core_write (MClientHello h))). cbv beta iota.
  erewrite M_bind_Ok by (unfold err_into; by rewrite (core_read (MServerHello sh))). cbv beta iota.
  erewrite M_bind_Ok by reflexivity. cbv beta iota. rewrite Hf.
  erewrite M_bind_Ok by reflexivity. cbv beta iota.
  erewrite M_bind_Ok by (unfold err_into; by rewrite (core_write (MClientFinish fin)) by apply finish_sendable).
  cbv beta iota.
  erewrite M_bind_Ok by (unfold err_into; by rewrite (core_read m)). cbv beta iota.
  destruct m as [| | |sf| |]; try done. cbn [to_core]. erewrite M_bind_Ok by reflexivity.
  cbn [CoreWire.sf_session_id CoreWire.cf_session_id CoreWire.server_tag].
  destruct (bool_decide _); [|done]. by destruct (CoreClient.verify_server_tag _ _ _).
Qed.

(** The client on an input that holds the server's two messages. *)
Lemma connect_run sk algo wgk pin cd h ip sh ks fin t sf k re :
  Transport.sk_connect sk = Ok tt -> Transport.sk_timeouts sk = Ok tt -> Transport.sk_peer sk = Ok ip ->
  hello_to_core h = CoreClient.hello_of (CoreClient.start algo wgk cd) ->
  sendable (MClientHello h) -> sendable (MServerHello sh) ->
  CoreClient.finish (CoreClient.start algo wgk cd) (server_hello_to_core sh) pin =
    Ok (ks, CoreWire.Build_ClientFinish (cf_session_id fin) (client_tag fin), t) ->
  sf_session_id sf = cf_session_id fin ->
  CoreClient.verify_server_tag (HybridKem.confirm_key ks) t (server_tag sf) = true ->
  Transport.connect sk algo wgk pin cd
      (Stream (frame (MServerHello sh) ++ frame (MServerFinish sf) ++ k) re [] []) =
    (Ok (Transport.Build_TunnelConfig (ServerWire.assigned_ip sf) (server_wg_pubkey sf)
           (Transport.Build_SocketAddr ip (wg_port sf)) (HybridKem.psk ks)),
     Stream k re (frame (MClientHello h) ++ frame (MClientFinish fin)) []).
Proof.
  intros H1 H2 H3 Hh Hsh Hssh Hf Hsid Htag.
  rewrite (connect_upto _ _ _ _ _ h ip sh ks fin t (MServerFinish sf)) by done.
  by rewrite bool_decide_true, Htag by done.
Qed.

End client_run.

(** The library client's hello, as the server reads it. *)
Definition wire_hello `{P : Primitives} a wgk cd : ClientHello :=
  let hc := CoreClient.hello_of (CoreClient.start (level_of a) wgk cd) in
  {| ch_algo := a; client_nonce := CoreWire.client_nonce hc; client_wg_pubkey := wgk;
     client_x25519_pub := CoreWire.client_x25519_pub hc; client_mlkem_pub := CoreWire.client_mlkem_pub hc |}.

Lemma wire_hello_eq `{P : Primitives} a wgk cd :
  hello_to_core (wire_hello a wgk cd) = CoreClient.hello_of (CoreClient.start (level_of a) wgk cd).
Proof. unfold wire_hello. by rewrite CoreClient.start_hello_eq. Qed.

Lemma wire_hello_sendable `{P : Primitives} a wgk cd : sendable (MClientHello (wire_hello a wgk cd)).
Proof. apply (first_sendable _ None). simpl. rewrite <- pub_len_parity. apply CoreClient.start_pub_len. Qed.

Lemma upsert_slot now pk a sid r slot r' :
  upsert_handshake now pk a sid r = (Ok slot, r') -> slot_session_id slot = sid.
Proof.
  unfold upsert_handshake. repeat case_match; intros H'; try discriminate H'; by injection H' as <- _.
Qed.

(** A connection just opened: the bytes the peer is going to send, and how
    reading ends after them. *)
Definition opened (input : bytes) (e : io_error) : stream := Stream input e [] [].

(** The client against a server that answers its hello: what it makes of a
    [ServerFinish] with this session, and of a refusal. *)
Lemma honest_client {P : Primitives} {L : PrimitiveLaws P} ctx d a wgk cd sk ip re :
  Transport.sk_connect sk = Ok tt -> Transport.sk_timeouts sk = Ok tt -> Transport.sk_peer sk = Ok ip ->
  let h := wire_hello a wgk cd in
  let connect i := Transport.connect sk (level_of a) wgk (verifying_key_bytes (ctx_identity ctx)) cd (opened i re) in
  exists o fin,
    respond (ctx_identity ctx) h (cn_session_id d) (cn_server_nonce d) (cn_server d) = Ok o /\
    cf_session_id fin = cn_session_id d /\
    client_tag fin = client_tag_of (confirm_key (keys o)) (transcript o) /\
    let told := Stream [] re (frame (MClientHello h) ++ frame (MClientFinish fin)) [] in
    (forall slot, slot_session_id slot = cn_session_id d ->
       connect (frame (reply o) ++ frame (final ctx o slot)) =
         (Ok (Transport.Build_TunnelConfig (slot_assigned_ip slot) (ts_server_wg_pubkey (ctx_tunnel ctx))
                (Transport.Build_SocketAddr ip (ts_wg_port (ctx_tunnel ctx))) (psk (keys o))), told)) /\
    (forall e, sendable (MError e) ->
       connect (frame (reply o) ++ frame (MError e)) = (Err (Transport.Server (code e) (message e)), told)).
Proof.
  intros H1 H2 H3 h connect. pose proof (wire_hello_eq a wgk cd) as Hh.
  destruct (honest_run (ctx_identity ctx) a wgk cd h (cn_session_id d) (cn_server_nonce d)
    (cn_server d) Hh) as (o & ks & fc & Ho & Hf & Hpsk & _ & Hsid & Hct & Hst).
  set (fin := {| cf_session_id := CoreWire.cf_session_id fc; client_tag := CoreWire.client_tag fc |}).
  apply verify_client_tag_iff in Hct. exists o, fin. do 3 (split; [done|]).
  assert (Hf' : CoreClient.finish (CoreClient.start (level_of a) wgk cd) (server_hello_to_core (server_hello o))
      (verifying_key_bytes (ctx_identity ctx)) =
    Ok (ks, CoreWire.Build_ClientFinish (cf_session_id fin) (client_tag fin), transcript o))
    by (rewrite Hf; by destruct fc).
  pose proof (fun m Hm => connect_upto sk (level_of a) wgk _ cd h ip _ ks fin _ m [] re H1 H2 H3 Hh
    (wire_hello_sendable a wgk cd) (reply_sendable _ _ _ _ _ _ Ho) Hm Hf') as Hc.
  split.
  - intros slot Hslot. unfold connect, opened. rewrite <- (app_nil_r (frame (final ctx o slot))), Hc by done.
    cbn [final sf_session_id server_tag cf_session_id ServerWire.assigned_ip server_wg_pubkey wg_port].
    by rewrite bool_decide_true, Hst, Hpsk by (cbn; congruence).
  - intros e He. unfold connect, opened. by rewrite <- (app_nil_r (frame (MError e))), Hc.
Qed.

(** ** Properties *)

(** C1. The whole protocol, both programs: on a working connection, with room
    in the registry, there are bytes such that the server, reading what the
    client wrote, completes the handshake, and the client, reading what the
    server wrote and pinning the server's key, returns a tunnel configuration;
    and the server installed exactly that configuration's PSK, for this
    client's key, at exactly that configuration's address. *)
Theorem end_to_end {P : Primitives} {L : PrimitiveLaws P} {C : Codecs} {W} {I : PskInstaller W}
    debug ctx d a wgk cd sk ip rg reg slot wg0 dk re re' :
  Transport.sk_connect sk = Ok tt -> Transport.sk_timeouts sk = Ok tt -> Transport.sk_peer sk = Ok ip ->
  cn_timeouts d = Ok tt ->
  upsert_handshake (cn_now d) wgk a (cn_session_id d) rg = (Ok slot, reg) ->
  (forall psk, (install wgk psk (slot_assigned_ip slot) a wg0).1 = Ok tt) ->
  exists to_server to_client cfg s,
    handle_connection debug ctx d (Build_World (opened to_server re) rg wg0 dk) =
      (Ok (Server.Handshake (cn_session_id d)),
       Build_World (Stream [] re to_client []) reg s (persist reg dk).2) /\
    Transport.connect sk (level_of a) wgk (verifying_key_bytes (ctx_identity ctx)) cd
      (opened to_client re') = (Ok cfg, Stream [] re' to_server []) /\
    install wgk (Transport.tc_psk cfg) (Transport.tc_assigned_ip cfg) a wg0 = (Ok tt, s) /\
    Transport.tc_assigned_ip cfg = slot_assigned_ip slot /\
    Transport.tc_server_wg_pubkey cfg = ts_server_wg_pubkey (ctx_tunnel ctx) /\
    Transport.tc_server_endpoint cfg = Transport.Build_SocketAddr ip (ts_wg_port (ctx_tunnel ctx)).
Proof.
  intros H1 H2 H3 Ht Hstep Hinst.
  destruct (honest_client ctx d a wgk cd sk ip re' H1 H2 H3) as (o & fin & Ho & Hsid & Hct & Hclient & _).
  set (h := wire_hello a wgk cd) in *. pose proof (upsert_slot _ _ _ _ _ _ _ Hstep) as Hslot.
  specialize (Hinst (psk (keys o))). destruct (install _ (psk (keys o)) _ _ _) as [[[]|] s] eqn:Hi; [|done].
  pose proof (server_run debug ctx d h None o fin slot reg s re [] [] rg wg0 dk Ht Ho Hsid Hct Hstep Hi)
    as Hserver. rewrite app_nil_r, Hslot, app_nil_l in Hserver.
  do 4 eexists. split; [exact Hserver|]. split; [by apply Hclient|]. done.
Qed.

Definition sample_ctx : ServerContext (P := Toy.prims) :=
  @Build_ServerContext Toy.prims toy_identity
    {| ts_server_wg_pubkey := key x77; ts_wg_port := u16_of_be xca x6c; ts_subnet_base := sample_base |}.
Definition sample_draws : conn_draws (P := Toy.prims) :=
  @Build_conn_draws Toy.prims (Ok tt) (sid x51) (key x52) toy_server 5.
Definition sample_socket : Transport.socket :=
  {| Transport.sk_connect := Ok tt; Transport.sk_timeouts := Ok tt;
     Transport.sk_peer := Ok (Transport.V4 sample_base) |}.

Lemma end_to_end_witness :
  exists to_client to_server cfg,
    Transport.connect (P := Toy.prims) sample_socket Algorithm.MlKem768 (key x01)
      (verifying_key_bytes (P := Toy.prims) toy_identity) toy_client (Stream to_client eof [] []) =
      (Ok cfg, Stream [] eof to_server []).
Proof.
  edestruct (upsert_new 5 (key x01) ServerWire.MlKem768 (sid x51) _ sample_wf) as (slot_ip & _ & Hstep);
    [reflexivity | vm_compute; reflexivity |].
  edestruct (fun rg reg slot => end_to_end (L := Toy.laws) (C := ToyCodecs.codecs) (I := WgTable.installer)
    (fun _ => lit "message") sample_ctx sample_draws ServerWire.MlKem768 (key x01) toy_client sample_socket
    (Transport.V4 sample_base) rg reg slot ∅ (mkfs ∅) eof eof) as (ts & tc & cfg & s & _ & Hc & _).
  - reflexivity.
  - reflexivity.
  - reflexivity.
  - reflexivity.
  - exact Hstep.
  - intros psk. reflexivity.
  - exists tc, ts, cfg. exact Hc.
Defined.

(** Writing does not depend on the input still to be read. *)
Lemma io_write_shape m i re t u s :
  err_into Transport.Io (CoreWire.Message_write m) (Stream i re t []) = (Ok u, s) ->
  exists t', s = Stream i re t' [] /\
    forall i', err_into Transport.Io (CoreWire.Message_write m) (Stream i' re t []) = (Ok u, Stream i' re t' []).
Proof.
  unfold err_into. rewrite CoreWire.Message_write_eq. destruct (_ <? _) eqn:E; [done|].
  intros [= <- <-]. eexists. split; [done|]. intros i'. by rewrite CoreWire.Message_write_eq, E.
Qed.

Lemma read_step {A} m (f : CoreWire.Message -> M stream Transport.ProtocolError A) k re t fs :
  sendable m ->
  (err_into Transport.from_FrameError CoreWire.Message_read ≫= f) (Stream (frame m ++ k) re t fs) =
    f (to_core m) (Stream k re t fs).
Proof. intros H. apply M_bind_Ok. unfold err_into. by rewrite core_read. Qed.

Lemma lift_step {S E F A B} (g : F -> E) (a : A) (f : A -> M S E B) s :
  (lift (map_err g (Ok a)) ≫= f) s = f a s.
Proof. done. Qed.

Lemma ret_step {S E A B} (a : A) (f : A -> M S E B) s : (mret a ≫= f) s = f a s.
Proof. done. Qed.

(** C40. What the server's tag leaves open: if the client accepts a
    [ServerFinish], it equally accepts any other WireGuard key, address and port
    in its place, and returns them with the same PSK. *)
Theorem finish_params_unauthenticated {P : Primitives} sk algo wgk pin cd sh sf re k cfg s' pk ip port :
  sendable (MServerHello sh) ->
  Transport.connect sk algo wgk pin cd
    (opened (frame (MServerHello sh) ++ frame (MServerFinish sf) ++ k) re) = (Ok cfg, s') ->
  Transport.connect sk algo wgk pin cd
    (opened (frame (MServerHello sh) ++ frame (MServerFinish
       {| sf_session_id := sf_session_id sf; server_tag := server_tag sf; server_wg_pubkey := pk;
          ServerWire.assigned_ip := ip; wg_port := port |}) ++ k) re) =
    (Ok (Transport.Build_TunnelConfig ip pk
           (Transport.Build_SocketAddr (Transport.sock_ip (Transport.tc_server_endpoint cfg)) port)
           (Transport.tc_psk cfg)), s').
Proof.
  intros Hsh H. unfold Transport.connect, opened in *.
  destruct (Transport.sk_connect sk) as [[]|]; [|done]. rewrite lift_step in H |- *.
  destruct (Transport.sk_timeouts sk) as [[]|]; [|done]. rewrite lift_step in H |- *.
  destruct (Transport.sk_peer sk) as [peer|]; [|done]. rewrite lift_step in H |- *.
  apply M_bind_inv in H as [([] & s0 & H3 & H)|(? & _ & [=])].
  apply io_write_shape in H3 as (t1 & -> & H3). erewrite M_bind_Ok by apply H3. cbv beta iota in *.
  rewrite read_step in H |- * by done. cbn [to_core] in *.
  rewrite ret_step in H |- *.
  destruct (CoreClient.finish _ _ _) as [[[ks fin] t]|]; [|done]. rewrite lift_step in H |- *.
  apply M_bind_inv in H as [([] & s0 & H5 & H)|(? & _ & [=])].
  apply io_write_shape in H5 as (t2 & -> & H5). erewrite M_bind_Ok by apply H5. cbv beta iota in *.
  rewrite read_step in H |- * by done. cbn [to_core] in *.
  rewrite ret_step in H |- *.
  cbn [CoreWire.sf_session_id CoreWire.server_tag sf_session_id server_tag] in *.
  case_bool_decide; [|done]. cbn [negb] in *. destruct (CoreClient.verify_server_tag _ _ _); [|done].
  by injection H as <- <-.
Qed.

Lemma version_text_short v : sendable (MError {| code := x02; message := WireError_to_string (UnsupportedVersion v) |}).
Proof.
  split; [exact I|]. apply Z.leb_le. revert v. apply byte_forall. vm_compute. reflexivity.
Qed.

(** The reply to an unsupported version: the error type maps it to code
    0x01, but the handler answers every unreadable first frame, this one
    included, with code 0x02. *)
Theorem bad_version_reply {P : Primitives} {C : Codecs} {W} {I : PskInstaller W}
    debug ctx d v b1 b2 b3 i re (reg : Registry) (s : W) dk :
  cn_timeouts d = Ok tt -> v <> PROTOCOL_VERSION ->
  handle_connection debug ctx d (Build_World (opened (v :: b1 :: b2 :: b3 :: i) re) reg s dk) =
    (Err (ConnFrame (FrameWire (UnsupportedVersion v))),
     Build_World (Stream i re (frame (MError
       {| code := x02; message := WireError_to_string (UnsupportedVersion v) |})) []) reg s dk) /\
  WireError_protocol_code (UnsupportedVersion v) = x01.
Proof.
  intros Ht Hv. split; [|done]. unfold handle_connection. rewrite Ht.
  erewrite M_bind_Ok by reflexivity. apply M_bind_Err. unfold read_first.
  assert (Hr : Message_read (opened (v :: b1 :: b2 :: b3 :: i) re) =
    (Err (FrameWire (UnsupportedVersion v)), Stream i re [] [])).
  { unfold Message_read, opened. change (v :: b1 :: b2 :: b3 :: i) with ([v; b1; b2; b3] ++ i).
    erewrite M_bind_Ok by (unfold err_into; change 4 with (len [v; b1; b2; b3]); by rewrite read_exact_app).
    cbn [nth]. by rewrite bool_decide_false. }
  erewrite M_bind_Ok by (unfold attempt, on_conn; cbn [conn registry wg disk]; by rewrite Hr). cbv beta iota.
  erewrite M_bind_Ok; [reflexivity|]. unfold attempt, on_conn. cbn [conn registry wg disk].
  unfold reject. change (FrameError_to_string (FrameWire (UnsupportedVersion v))) with
    (WireError_to_string (UnsupportedVersion v)).
  by rewrite (server_write_ok _ _ _ _ (version_text_short v)).
Qed.

Lemma bad_version_reply_witness :
  (handle_connection (C := ToyCodecs.codecs) (I := WgTable.installer) (fun _ => lit "message")
    sample_ctx sample_draws (Build_World (opened [x02; x01; x00; x00] eof)
      (Registry_new sample_base 64) ∅ (mkfs ∅))).1 = Err (ConnFrame (FrameWire (UnsupportedVersion x02))).
Proof.
  rewrite (proj1 (bad_version_reply (C := ToyCodecs.codecs) (I := WgTable.installer) (fun _ => lit "message")
    sample_ctx sample_draws x02 x01 x00 x00 [] eof (Registry_new sample_base 64) ∅ (mkfs ∅)
    eq_refl ltac:(discriminate))).
  reflexivity.
Defined.

(** ** Concrete connections *)

(** What a client with the right key sends to the sample server, and what one
    with a wrong tag sends. *)
Definition finish_with (tag : arr 32) : ClientFinish := {| cf_session_id := sid x51; client_tag := tag |}.
Definition right_tag : arr 32 :=
  match toy_response with
  | Ok o => client_tag_of (P := Toy.prims) (confirm_key (keys o)) (transcript o)
  | Err _ => key x00
  end.
Definition world_of {W} (f : ClientFinish) (r : Registry) (t : W) : World W :=
  Build_World (mem_stream (frame (MClientHello toy_hello) ++ frame (MClientFinish f))) r t (mkfs ∅).
Definition no_debug : Message -> rstring := fun _ => lit "message".
Abbreviation serve I :=
  (handle_connection (C := ToyCodecs.codecs) (I := I) no_debug sample_ctx sample_draws).

(** An interface on which [wg] cannot be run. *)
Definition broken_wg : PskInstaller unit := {|
  install _ _ _ _ := throw (Spawn (lit "no such file"));
  list_installed_peers := throw (Spawn (lit "no such file"));
  remove_peer _ := throw (Spawn (lit "no such file"));
  last_handshakes := throw (Spawn (lit "no such file"))
|}.

Definition right_world : World WgTable.table :=
  world_of (finish_with right_tag) (Registry_new sample_base 64) ∅.
Definition wrong_world : World WgTable.table :=
  world_of (finish_with (key x00)) (Registry_new sample_base 64) ∅.
Definition broken_world : World unit := world_of (finish_with right_tag) (Registry_new sample_base 64) tt.

Lemma fst_run {A B} (x : A * B) a : x.1 = a -> exists b, x = (a, b).
Proof. destruct x. simpl. intros ->. by eexists. Qed.

Lemma serve_right :
  exists w', serve WgTable.installer right_world = (Ok (Server.Handshake (sid x51)), w').
Proof. apply fst_run. vm_compute. reflexivity. Qed.
Lemma serve_wrong : exists w', serve WgTable.installer wrong_world = (Ok (Server.Rejected x06), w').
Proof. apply fst_run. vm_compute. reflexivity. Qed.
Lemma serve_broken :
  exists w', serve broken_wg broken_world = (Err (ConnInstall (Spawn (lit "no such file"))), w').
Proof. apply fst_run. vm_compute. reflexivity. Qed.

Lemma effects_need_confirmation_witness :
  (exists w', serve WgTable.installer right_world = (Ok (Server.Handshake (sid x51)), w') /\
    (same_state right_world w' \/ exists h rs o fin w1,
       confirmed sample_ctx sample_draws right_world h rs o fin w1)) /\
  exists w', serve WgTable.installer wrong_world = (Ok (Server.Rejected x06), w') /\
    same_state wrong_world w'.
Proof.
  split.
  - destruct serve_right as [w' E]. exists w'. split; [exact E|].
    destruct (effects_need_confirmation _ _ _ _ _ _ E) as [_ [H|(h & rs & o & fin & w1 & H & _)]];
      [left; exact H | right; exists h, rs, o, fin, w1; exact H].
  - destruct serve_wrong as [w' E]. exists w'. split; [exact E|].
    exact (proj1 (effects_need_confirmation _ _ _ _ _ _ E) _ eq_refl).
Defined.

Lemma install_failure_not_rolled_back_witness :
  exists w' e, serve broken_wg broken_world = (Err (ConnInstall e), w') /\
    disk w' = disk broken_world /\ exists k p, inner (registry w') !! k = Some p.
Proof.
  destruct serve_broken as [w' E]. exists w', (Spawn (lit "no such file")). split; [exact E|].
  destruct (install_failure_not_rolled_back _ _ _ _ _ _ E) as (Hd & h & rs & slot & p & _ & Hp & _).
  split; [exact Hd|]. exists (client_wg_pubkey h), p. exact Hp.
Defined.

(** The sample server's two messages, for the sample client. *)
Definition toy_final : ServerFinish :=
  {| sf_session_id := sid x51;
     server_tag := match toy_response with
                   | Ok o => server_tag_of (P := Toy.prims) (confirm_key (keys o)) (transcript o)
                   | Err _ => key x00
                   end;
     server_wg_pubkey := key x77; ServerWire.assigned_ip := sample_base; wg_port := u16_of_be xca x6c |}.
Definition toy_reply : ServerHello :=
  match toy_response with
  | Ok o => server_hello o
  | Err _ => {| sh_algo := ServerWire.MlKem512; sh_session_id := sid x00; server_nonce := key x00;
                server_x25519_pub := key x00; mlkem_ciphertext := []; signature := [] |}
  end.
Abbreviation toy_connect f :=
  (Transport.connect (P := Toy.prims) sample_socket Algorithm.MlKem512 (arr_fill 32 x41)
    (verifying_key_bytes (P := Toy.prims) toy_identity) toy_client
    (Stream (frame (MServerHello toy_reply) ++ frame (MServerFinish f) ++ []) eof [] [])).

Lemma toy_reply_sendable : sendable (MServerHello toy_reply).
Proof. apply (bool_decide_unpack _). vm_compute. exact I. Qed.

Lemma toy_connects : exists cfg s', toy_connect toy_final = (Ok cfg, s').
Proof.
  assert (H : match (toy_connect toy_final).1 with Ok _ => true | Err _ => false end = true)
    by (vm_compute; reflexivity).
  destruct (toy_connect toy_final) as [[cfg|e] s']; [by exists cfg, s' | discriminate H].
Qed.

Lemma finish_params_unauthenticated_witness :
  exists cfg cfg' s', toy_connect toy_final = (Ok cfg, s') /\
    toy_connect {| sf_session_id := sf_session_id toy_final; server_tag := server_tag toy_final;
      server_wg_pubkey := key x66; ServerWire.assigned_ip := sample_base; wg_port := u16_of_be x00 x01 |}
    = (Ok cfg', s') /\ Transport.tc_server_wg_pubkey cfg' = key x66 /\
    Transport.tc_psk cfg' = Transport.tc_psk cfg.
Proof.
  destruct toy_connects as (cfg & s' & E). exists cfg. eexists. exists s'. split; [exact E|].
  split; [exact (finish_params_unauthenticated _ _ _ _ _ _ _ _ _ _ _ (key x66) sample_base
    (u16_of_be x00 x01) toy_reply_sendable E)|]. split; reflexivity.
Defined.
