(* ===== verification/ServerTrace.v ===== *)
(** * What the server says

    The frames that a connection puts on the wire, against what the client sent
    and against what the server then holds.  [ServerFacts] tells what a
    connection does to the server's state; this file tells what its client
    hears. *)

From S2P Require Import Prelude Utf8 Io Fs Net ServerWire WireParity Primitives.
From S2P Require Import Registry RegistryFacts Tunnel ServerHandshake Server ServerFacts Agreement EndToEnd.

(** Reading writes nothing. *)
Lemma read_silent n s r s' :
  err_into FrameIo (read_exact n) s = (r, s') -> tx s' = tx s /\ tx_faults s' = tx_faults s.
Proof.
  unfold err_into. destruct (read_exact n s) as [x s3] eqn:E.
  apply read_exact_tx in E as (? & ? & _). by intros [= _ <-].
Qed.

Lemma Message_read_silent s r s' : Message_read s = (r, s') -> tx s' = tx s /\ tx_faults s' = tx_faults s.
Proof.
  intros H. unfold Message_read in H.
  apply M_bind_inv in H as [(hd & s1 & H1 & H)|(e & H1 & _)]; apply read_silent in H1 as [H1 H1']; [|done].
  rewrite <- H1, <- H1'. clear H1 H1'. destruct (negb _); [by injection H as _ <-|].
  apply M_bind_inv in H as [(ty & s2 & [= _ <-] & H)|(e & [= _ <-] & _)]; [|done].
  destruct (_ <? _); [by injection H as _ <-|].
  apply M_bind_inv in H as [(p & s3 & H1 & H)|(e & H1 & _)]; apply read_silent in H1; [|done].
  by injection H as _ <-.
Qed.

Section trace.
Context `{P : Primitives} `{C : Codecs} {W : Type} `{I : PskInstaller W}.
Context (debug : Message -> rstring).

(** From one state to the next, these messages went out. *)
Definition wrote (w w' : World W) (ms : list Message) : Prop :=
  tx_faults (conn w') = [] /\ tx (conn w') = tx (conn w) ++ concat (map frame ms).

Lemma wrote_nothing (w w' : World W) : tx_faults (conn w) = [] -> conn w' = conn w -> wrote w w' [].
Proof. intros H E. unfold wrote. rewrite E. split; [done|]. by rewrite app_nil_r. Qed.

Lemma wrote_trans w w1 w2 a b : wrote w w1 a -> wrote w1 w2 b -> wrote w w2 (a ++ b).
Proof.
  intros [_ H1] [H2 H3]. split; [done|]. by rewrite H3, H1, map_app, concat_app, <- app_assoc.
Qed.

Lemma read_says w r w' :
  tx_faults (conn w) = [] -> on_conn (E := FrameError) Message_read w = (r, w') -> wrote w w' [].
Proof.
  unfold on_conn. intros Hf H. destruct (Message_read (conn w)) as [x c] eqn:E. injection H as _ <-.
  apply Message_read_silent in E as [Ht Hf']. split; cbn [conn]; [by rewrite Hf'|by rewrite Ht, app_nil_r].
Qed.

(** A message goes out whole, or not at all when it is too long for a frame. *)
Lemma write_says m w r w' :
  tx_faults (conn w) = [] -> err_into ConnIo (on_conn (Message_write m)) w = (r, w') ->
  (r = Ok tt /\ wrote w w' [m]) \/ ((exists e, r = Err (ConnIo e)) /\ wrote w w' []).
Proof.
  unfold err_into, on_conn. rewrite server_write. intros Hf H. destruct (_ <? _).
  - injection H as <- <-. right. split; [by eexists|]. by apply wrote_nothing; destruct (conn w).
  - left. unfold write_all in H. rewrite Hf in H. injection H as <- <-. split; [done|].
    split; cbn [conn tx tx_faults concat map]; [done|]. by rewrite app_nil_r.
Qed.

Lemma attempt_says {E} m w (r : result E (result io_error unit)) w' :
  tx_faults (conn w) = [] -> attempt (on_conn (Message_write m)) w = (r, w') -> wrote w w' [m] \/ wrote w w' [].
Proof.
  intros Hf H. destruct (err_into ConnIo (on_conn (Message_write m)) w) as [x w1] eqn:E0.
  pose proof (write_says m w x w1 Hf E0) as Hw. unfold err_into in E0. unfold attempt in H.
  destruct (on_conn (Message_write m) w) as [y w2]. injection E0 as _ <-. injection H as _ <-. tauto.
Qed.

(** What the client is told of an end of the connection, other than success and
    a failed install. *)
Definition told (r : result ConnError ConnResult) (m : ErrorMsg) : Prop :=
  r = Ok (Rejected (code m)) \/
  code m = x02 /\ ((exists e, r = Err (ConnFrame e)) \/ exists t, r = Err (ConnProtocol t)).

Definition cut_off (r : result ConnError ConnResult) : Prop :=
  (exists e, r = Err (ConnIo e)) \/ exists e, r = Err (ConnFrame e).

Definition refused (r : result ConnError ConnResult) (ms : list Message) : Prop :=
  match ms with [] => cut_off r | [MError m] => told r m | _ => False end.

Lemma reject_says c msg w r w' :
  tx_faults (conn w) = [] -> reject_with c msg w = (r, w') -> exists ms, wrote w w' ms /\ refused r ms.
Proof.
  intros Hf H. unfold reject_with in H.
  apply M_bind_inv in H as [([] & w1 & H1 & H)|(e & H1 & ->)]; apply write_says in H1 as [[Hr Hw]|[[e' Hr] Hw]]; try done.
  - injection H as <- <-. eexists. split; [exact Hw|]. by left.
  - eexists. split; [exact Hw|]. left. exists e'. congruence.
Qed.

(** An error message before giving up on the connection. *)
Lemma give_up_says {A} (c : u8) msg (e : ConnError) w (r : result ConnError A) w' :
  tx_faults (conn w) = [] ->
  (_ ← err_into ConnIo (on_conn (reject c msg)); throw e) w = (r, w') ->
  (r = Err e /\ wrote w w' [MError {| code := c; message := msg |}]) \/
  ((exists e, r = Err (ConnIo e)) /\ wrote w w' []).
Proof.
  intros Hf H. apply M_bind_inv in H as [([] & w1 & H1 & H)|(e' & H1 & ->)]; apply write_says in H1 as [[Hr Hw]|[[e2 Hr] Hw]]; try done.
  - injection H as <- <-. by left.
  - right. split; [|exact Hw]. exists e2. congruence.
Qed.

Lemma read_first_says w r w' :
  tx_faults (conn w) = [] -> read_first debug w = (r, w') ->
  match r with
  | Ok _ => wrote w w' []
  | Err e => exists ms, wrote w w' ms /\ refused (Err e) ms
  end.
Proof.
  intros Hf H. unfold read_first in H.
  apply M_bind_inv in H as [(x & w1 & H1 & H)|(e & H1 & _)].
  2:{ unfold attempt in H1. by destruct (on_conn _ w). }
  unfold attempt in H1. destruct (on_conn Message_read w) as [y w2] eqn:Hr. injection H1 as -> ->.
  apply read_says in Hr as Hw; [|done]. assert (Hf1 : tx_faults (conn w1) = []) by apply Hw.
  assert (Hodd : forall t, (_ ← err_into ConnIo (on_conn (reject x02 (lit "expected ClientHello or RekeyRequest")));
      throw (ConnProtocol t)) w1 = (r, w') ->
    match r with
    | Ok _ => wrote w w' []
    | Err e => exists ms, wrote w w' ms /\ refused (Err e) ms
    end).
  { intros t [[-> Hw2]|[[e ->] Hw2]]%give_up_says; [| |done]; eexists;
      (split; [by eapply (wrote_trans _ _ _ [])|]); [right; by eauto|left; by eauto]. }
  destruct x as [[]|e]; try (by eapply Hodd); [by injection H as <- <-|by injection H as <- <-|].
  apply M_bind_inv in H as [(z & w3 & H3 & H)|(e' & H3 & ->)].
  2:{ unfold attempt in H3. by destruct (on_conn _ w1). }
  injection H as <- <-. apply attempt_says in H3 as [H3|H3]; [| |done];
    (eexists; split; [by eapply (wrote_trans _ _ _ [])|]); [right; by eauto|right; by eauto].
Qed.

Lemma read_finish_says w r w' :
  tx_faults (conn w) = [] -> read_finish debug w = (r, w') ->
  match r with
  | Ok _ => wrote w w' []
  | Err e => exists ms, wrote w w' ms /\ refused (Err e) ms
  end.
Proof.
  intros Hf H. unfold read_finish in H.
  apply M_bind_inv in H as [(x & w1 & H1 & H)|(e & H1 & ->)]; unfold err_into in H1;
    destruct (on_conn Message_read w) as [[y|y] w2] eqn:Hr; try done; injection H1 as <- <-;
    apply read_says in Hr as Hw; [|done| |done].
  - assert (Hf1 : tx_faults (conn w2) = []) by apply Hw.
    destruct y; try (by injection H as <- <-);
      (apply give_up_says in H as [[-> Hw2]|[[e ->] Hw2]]; [| |done]; eexists;
      (split; [by eapply (wrote_trans _ _ _ [])|]); [right; by eauto|left; by eauto]).
  - exists []. split; [done|]. right. by eauto.
Qed.

(** The answer to a hello: the algorithm that was asked for, the session and the
    nonce of this connection, and lengths that the client decodes. *)
Definition greeted (ctx : ServerContext) (d : conn_draws) (w : World W) (sh : ServerHello) : Prop :=
  exists h rs o k, rx (conn w) = frame (first_message h rs) ++ k /\
    respond (ctx_identity ctx) h (default (cn_session_id d) rs) (cn_server_nonce d) (cn_server d) = Ok o /\
    sh = server_hello o /\ sh_algo sh = ch_algo h /\ sh_session_id sh = default (cn_session_id d) rs /\
    server_nonce sh = cn_server_nonce d /\ sendable (MServerHello sh).

Lemma respond_greets ctx d w h rs o k :
  rx (conn w) = frame (first_message h rs) ++ k ->
  respond (ctx_identity ctx) h (default (cn_session_id d) rs) (cn_server_nonce d) (cn_server d) = Ok o ->
  greeted ctx d w (server_hello o).
Proof.
  intros Hk Ho. exists h, rs, o, k. pose proof (reply_sendable _ _ _ _ _ _ Ho) as Hsend.
  apply respond_hello_lens in Ho as Hl. destruct Hl as (Ha & Hs & Hn & _). by split_and!.
Qed.

(** What goes out before the point of no return. *)
Definition opening (ctx : ServerContext) (d : conn_draws) (w w' : World W)
    (r : result ConnError ConnResult) : Prop :=
  exists ms, wrote w w' ms /\
    (refused r ms \/ exists sh rest, ms = MServerHello sh :: rest /\ greeted ctx d w sh /\ refused r rest).

Lemma prologue_says ctx d w x w' :
  tx_faults (conn w) = [] -> prologue debug ctx d w = (x, w') ->
  match x with
  | Ok (inr se) => wrote w w' [reply (se_outcome se)]
  | Ok (inl r) => opening ctx d w w' (Ok r)
  | Err e => opening ctx d w w' (Err e)
  end.
Proof.
  intros Hf H. unfold prologue in H.
  apply M_bind_inv in H as [([] & w0 & H0 & H)|(e & H0 & ->)].
  2:{ unfold lift in H0. destruct (cn_timeouts d); simpl in H0; [done|]. injection H0 as <- <-.
      exists []. split; [by apply wrote_nothing|]. left. left. by eexists. }
  injection H0 as _ <-.
  apply M_bind_inv in H as [([h rs] & w1 & H1 & H)|(e & H1 & ->)]; apply read_first_says in H1 as Hw1; try done.
  2:{ destruct Hw1 as (ms & Hw1 & Hr). exists ms. auto. }
  assert (Hf1 : tx_faults (conn w1) = []) by apply Hw1.
  apply read_first_inv in H1 as Hrx. destruct (respond _ h _ _ _) as [o|e] eqn:Ho.
  2:{ apply M_bind_inv in H as [(r1 & w2 & H2 & H)|(e' & H2 & ->)];
        apply reject_says in H2 as (ms & Hw2 & Hr); try done; [injection H as <- <-|];
        (exists ms; split; [by eapply (wrote_trans _ _ _ [])|by left]). }
  pose proof (respond_greets _ _ _ _ _ _ _ Hrx Ho) as Hg.
  apply M_bind_inv in H as [([] & w2 & H2 & H)|(e & H2 & ->)];
    apply write_says in H2 as [[Hr Hw2]|[[e2 Hr] Hw2]]; try done.
  2:{ injection Hr as ->. exists []. split; [by eapply (wrote_trans _ _ _ [])|]. left. left. by eexists. }
  pose proof (wrote_trans _ _ _ _ _ Hw1 Hw2) as Hw. cbn [app] in Hw. clear Hw2 Hr.
  assert (Hf2 : tx_faults (conn w2) = []) by apply Hw.
  apply M_bind_inv in H as [(fin & w3 & H3 & H)|(e & H3 & ->)]; apply read_finish_says in H3; try done.
  2:{ destruct H3 as (ms & Hw3 & Hr). eexists. split; [by eapply wrote_trans|]. right. by eexists _, _. }
  pose proof (wrote_trans _ _ _ _ _ Hw H3) as Hw'. rewrite app_nil_r in Hw'.
  assert (Hf3 : tx_faults (conn w3) = []) by apply Hw'.
  destruct (negb _ || _); [|by injection H as <- <-].
  apply M_bind_inv in H as [([] & w4 & H4 & H)|(e & H4 & ->)];
    apply write_says in H4 as [[Hr Hw4]|[[e4 Hr] Hw4]]; try done.
  - injection H as <- <-. eexists. split; [by eapply wrote_trans|]. right. eexists _, _.
    split; [reflexivity|]. split; [exact Hg|]. by left.
  - injection Hr as ->. eexists. split; [by eapply wrote_trans|]. right. eexists _, _.
    split; [reflexivity|]. split; [exact Hg|]. left. by eexists.
Qed.

(** And after it. *)
Lemma commit_says ctx d h rs o w r w' :
  tx_faults (conn w) = [] -> commit_session ctx d h rs o w = (r, w') ->
  exists ms, wrote w w' ms /\
  match ms with
  | [] => cut_off r
  | [MError m] => told r m \/ (exists e, r = Err (ConnInstall e)) /\ code m = x08
  | [m] => exists slot reg, registry_step d h rs (registry w) = (Ok slot, reg) /\ m = final ctx o slot /\
      r = Ok (match rs with Some _ => Rekey (slot_session_id slot) | None => Handshake (slot_session_id slot) end)
  | _ => False
  end.
Proof.
  unfold commit_session. intros Hf H.
  apply M_bind_inv in H as [(u & w1 & H1 & H)|(e & H1 & ->)].
  2:{ unfold attempt in H1. by destruct rs; destruct (on_registry _ w). }
  assert (Hu : registry_step d h rs (registry w) = (u, registry w1) /\ conn w1 = conn w).
  { unfold attempt, on_registry in H1. destruct rs; simpl in *;
      [destruct (registry_rekey _ _ _ _ _)|destruct (upsert_handshake _ _ _ _ _)]; by injection H1 as <- <-. }
  destruct Hu as [Hu Hc]. assert (Hf1 : tx_faults (conn w1) = []) by by rewrite Hc.
  pose proof (wrote_nothing w w1 Hf Hc) as Hw. destruct u as [slot|e].
  2:{ destruct (registry_reject_code e) as [c msg]. apply reject_says in H as (ms & Hw2 & Hr); [|done].
      exists ms. split; [by eapply (wrote_trans _ _ _ [])|]. destruct ms as [|[] [|]]; try done. by left. }
  apply M_bind_inv in H as [(i & w2 & H2 & H)|(e & H2 & ->)].
  2:{ unfold attempt in H2. by destruct (on_wg _ w1). }
  assert (Hc2 : conn w2 = conn w1).
  { unfold attempt, on_wg in H2. destruct (install _ _ _ _ (wg w1)). by injection H2 as _ <-. }
  assert (Hf2 : tx_faults (conn w2) = []) by by rewrite Hc2.
  assert (Hw2 : wrote w w2 []) by (apply wrote_nothing; [done|congruence]). destruct i as [[]|e].
  2:{ apply give_up_says in H as [[-> Hw3]|[[io ->] Hw3]]; [| |done]; eexists;
        (split; [by eapply (wrote_trans _ _ _ [])|]); [right; by eauto|left; by eauto]. }
  apply M_bind_inv in H as [(wx & w3 & [= <- <-] & H)|(e & H3 & ->)]; [|done].
  apply M_bind_inv in H as [(pr & w4 & H4 & H)|(e & H4 & ->)].
  2:{ unfold attempt in H4. by destruct (on_disk _ _). }
  assert (Hc4 : conn w4 = conn w2).
  { unfold attempt, on_disk in H4. destruct (persist _ _). by injection H4 as _ <-. }
  assert (Hf4 : tx_faults (conn w4) = []) by by rewrite Hc4.
  assert (Hw4 : wrote w w4 []) by (apply wrote_nothing; [done|congruence]).
  apply M_bind_inv in H as [([] & w5 & H5 & H)|(e & H5 & ->)];
    apply write_says in H5 as [[Hr Hw5]|[[io Hr] Hw5]]; try done.
  - injection H as <- <-. eexists. split; [by eapply (wrote_trans _ _ _ [])|]. cbn [app].
    exists slot, (registry w1). by split_and!.
  - injection Hr as ->. exists []. split; [by eapply (wrote_trans _ _ _ [])|]. left. by eexists.
Qed.

Lemma respond_session id h sid sn d o : respond id h sid sn d = Ok o -> sh_session_id (server_hello o) = sid.
Proof. intros H%respond_hello_lens. apply H. Qed.

(** What the client is sent, by the reports of the handler. *)
Definition dialogue (ctx : ServerContext) (d : conn_draws) (w w' : World W)
    (r : result ConnError ConnResult) (ms : list Message) : Prop :=
  match ms with
  | [] => cut_off r
  | [MError m] => told r m
  | MServerHello sh :: rest => greeted ctx d w sh /\
      match rest with
      | [] => cut_off r
      | [MError m] => told r m \/ (exists e, r = Err (ConnInstall e)) /\ code m = x08
      | [MServerFinish sf] => exists h rs o fin w1 p,
          confirmed ctx d w h rs o fin w1 /\ sh = server_hello o /\
          server_tag sf = server_tag_of (confirm_key (keys o)) (transcript o) /\
          sf_session_id sf = sh_session_id sh /\
          inner (registry w') !! client_wg_pubkey h = Some p /\ session_id p = sf_session_id sf /\
          assigned_ip p = ServerWire.assigned_ip sf /\ algo p = ch_algo h /\
          install (client_wg_pubkey h) (psk (keys o)) (assigned_ip p) (ch_algo h) (wg w) = (Ok tt, wg w') /\
          r = Ok (match rs with Some _ => Rekey (sf_session_id sf) | None => Handshake (sf_session_id sf) end)
      | _ => False
      end
  | _ => False
  end.

Lemma opening_shape ctx d w w' r :
  opening ctx d w w' r ->
  exists ms, tx (conn w') = tx (conn w) ++ concat (map frame ms) /\ dialogue ctx d w w' r ms.
Proof.
  intros (ms & [_ Htx] & Hms). exists ms. split; [exact Htx|].
  destruct Hms as [Hr|(sh & rest & -> & Hg & Hr)].
  - by destruct ms as [|[] [|]].
  - split; [exact Hg|]. destruct rest as [|[] [|]]; try done. by left.
Qed.

(** What the client hears, from what the handler reports. *)
Lemma hears_of_handshake ctx d w w' s ms :
  dialogue ctx d w w' (Ok (Handshake s)) ms ->
  exists sh sf, ms = [MServerHello sh; MServerFinish sf] /\ sf_session_id sf = s.
Proof.
  assert (Hcut : ~ cut_off (Ok (Handshake s))) by (intros [[? [=]]|[? [=]]]).
  assert (Htold : forall m, ~ told (Ok (Handshake s)) m) by (intros m [[=]|[_ [[? [=]]|[? [=]]]]]).
  unfold dialogue. destruct ms as [|[|sh| | | |m] rest]; try done.
  - intros [_ H]. destruct rest as [|[| | |sf| |m] [|]]; try done.
    + destruct H as (h & [rs|] & o & fin & w1 & p & Hms); decompose [and] Hms; [done|].
      exists sh, sf. split; [done|congruence].
    + destruct H as [H|[[e [=]] _]]. by apply Htold in H.
  - destruct rest; [|done]. by intros H%Htold.
Qed.

Lemma hears_of_rejection ctx d w w' c ms :
  dialogue ctx d w w' (Ok (Rejected c)) ms -> exists pre m, ms = pre ++ [MError m] /\ code m = c.
Proof.
  assert (Hcut : cut_off (Ok (Rejected c)) -> False) by (intros [[? [=]]|[? [=]]]).
  assert (Htold : forall m, told (Ok (Rejected c)) m -> code m = c).
  { intros m [[= ->]|[_ [[? [=]]|[? [=]]]]]; done. }
  unfold dialogue. destruct ms as [|[|sh| | | |m] rest]; try done.
  - intros [_ H]. destruct rest as [|[| | |sf| |m] [|]]; try done.
    + destruct H as (h & [rs|] & o & fin & w1 & p & Hms); by decompose [and] Hms.
    + exists [MServerHello sh], m. split; [done|]. destruct H as [H|[[e [=]] _]]. by apply Htold.
  - destruct rest; [|done]. intros H. exists [], m. split; [done|]. by apply Htold.
Qed.

(** C17. The server speaks the protocol.  Whatever a client sends, as long as
    writing to it works, what it is sent back is one of: nothing, an [Error]; a
    [ServerHello]; a [ServerHello] and an [Error]; a [ServerHello] and a
    [ServerFinish].  A [ServerHello] answers a hello that was read, with the algorithm
    it asked for, the session and nonce of this connection and lengths that
    decode.  A [ServerFinish] is only sent to a client that has proved its keys
    on this connection, it bears the MAC of the same transcript, its session and
    address are the registered peer's, whose PSK is installed, and it is what the
    handler reports as success.  The handler reports a rejection exactly with
    the [Error] it sent; an [Error] otherwise says that the message was malformed
    or that the install failed. *)
Theorem server_speaks_protocol ctx d w r w' :
  tx_faults (conn w) = [] -> handle_connection debug ctx d w = (r, w') ->
  exists ms, tx (conn w') = tx (conn w) ++ concat (map frame ms) /\ dialogue ctx d w w' r ms.
Proof.
  intros Hf. rewrite handle_connection_split. intros H.
  apply M_bind_inv in H as [(x & w1 & H1 & H)|(e & H1 & ->)];
    apply prologue_says in H1 as Hsay; [|done| |done]; [destruct x as [r'|se]|].
  - injection H as <- <-. by apply opening_shape.
  - apply prologue_inv in H1 as [(_ & Hwg & _) (fin & Hconf)].
    destruct se as [h rs o]. cbn [se_hello se_rekey se_outcome] in *.
    assert (Hf1 : tx_faults (conn w1) = []) by apply Hsay.
    pose proof (respond_greets _ _ _ _ _ _ _ (cf_read _ _ _ _ _ _ _ _ Hconf) (cf_respond _ _ _ _ _ _ _ _ Hconf)) as Hg.
    apply commit_effects in H as Heff. apply commit_says in H as (ms & Hw & Hms); [|done].
    destruct (wrote_trans _ _ _ _ _ Hsay Hw) as [_ Htx]. exists (reply o :: ms). split; [exact Htx|].
    split; [exact Hg|]. destruct ms as [|m [|]]; [done| |by destruct m].
    destruct m as [| |f|sf|q|em]; [..|exact Hms]; destruct Hms as (slot & reg & Hstep & Hm & ->); try discriminate Hm.
    injection Hm as ->. rewrite Hstep in Heff. destruct Heff as (Hreg & Heff).
    destruct (registry_step_Ok _ _ _ _ _ _ Hstep) as (p & Hp & Hps & Hpi & Hpa).
    rewrite Hwg in Heff. rewrite <- Hpi in Heff |- *.
    destruct (install _ _ _ _ _) as [[[]|ie] s] eqn:Hi; [|by destruct Heff as (_ & _ & [|[]])].
    exists h, rs, o, fin, w1, p. destruct Heff as (-> & _). rewrite Hreg, Hp. cbn [sf_session_id server_tag ServerWire.assigned_ip].
    destruct Hg as (?&?&?&?& _ &_ & _ & _ & Hsid & _).
    split_and!; try done; [|apply lookup_insert_eq].
    rewrite (registry_step_session _ _ _ _ _ _ Hstep). by rewrite (respond_session _ _ _ _ _ _ (cf_respond _ _ _ _ _ _ _ _ Hconf)).
  - by apply opening_shape.
Qed.

End trace.

(** A client with the right tag hears of its session, one with a wrong tag of
    its rejection. *)
Lemma server_speaks_protocol_witness :
  (exists w' sh sf, serve WgTable.installer right_world = (Ok (Server.Handshake (sid x51)), w') /\
    tx (conn w') = frame (MServerHello sh) ++ frame (MServerFinish sf) /\ sf_session_id sf = sid x51) /\
  exists w' pre m, serve WgTable.installer wrong_world = (Ok (Server.Rejected x06), w') /\
    tx (conn w') = pre ++ frame (MError m) /\ code m = x06.
Proof.
  split.
  - destruct serve_right as [w' E]. destruct (server_speaks_protocol no_debug sample_ctx sample_draws right_world _ _ eq_refl E) as (ms & Htx & Hms).
    destruct (hears_of_handshake _ _ _ _ _ _ Hms) as (sh & sf & -> & Hs). exists w', sh, sf. split; [exact E|].
    split; [|exact Hs]. rewrite Htx. cbn [map concat]. by rewrite app_nil_r.
  - destruct serve_wrong as [w' E]. destruct (server_speaks_protocol no_debug sample_ctx sample_draws wrong_world _ _ eq_refl E) as (ms & Htx & Hms).
    destruct (hears_of_rejection _ _ _ _ _ _ Hms) as (pre & m & -> & Hm). exists w', (concat (map frame pre)), m.
    split; [exact E|]. split; [|exact Hm]. rewrite Htx, map_app, concat_app. cbn [map concat]. by rewrite app_nil_r.
Defined.
