(* ===== verification/Threads.v ===== *)
(** * Connections and the idle sweep, interleaved

    [serve] runs [handle_connection] in a thread per connection, beside the
    thread of [spawn_idle_sweep].  The threads meet in the registry (under its
    mutex), the WireGuard interface and the registry's file.  Here each thread
    is cut at its accesses to these, so that every interleaving of the accesses
    is a sequence of steps; what a thread does on its own connection happens
    within one step. *)

From S2P Require Import Prelude Utf8 Io Fs Net ServerWire Primitives WireParity.
From S2P Require Import Registry RegistryFacts Tunnel ServerHandshake Server ServerFacts.
From S2P Require Import Agreement EndToEnd.

Section threads.
Context `{P : Primitives} `{C : Codecs} {W : Type} `{I : PskInstaller W}.
Context (debug_message : Message -> rstring) (ctx : ServerContext) (timeout : Duration).

(** ** State *)

Record Shared := { sh_registry : Registry; sh_wg : W; sh_disk : fs }.

Definition with_conn (c : stream) (s : Shared) : World W :=
  Build_World c (sh_registry s) (sh_wg s) (sh_disk s).
Definition shared_of (w : World W) : Shared :=
  {| sh_registry := registry w; sh_wg := wg w; sh_disk := disk w |}.

(** Where a connection's thread stands: reading the client's messages; about to
    update the registry; about to install, to save, to answer; returned.  A
    thread that has updated the registry remembers its session and slot. *)
Inductive phase :=
  | Hello
  | Update (se : session)
  | Install (se : session) (slot : PeerSlot)
  | Save (se : session) (slot : PeerSlot)
  | Answer (se : session) (slot : PeerSlot)
  | Over (done : option (session * PeerSlot)) (r : result ConnError ConnResult).

Record thread := { th_draws : conn_draws; th_conn : stream; th_phase : phase }.

(** ** A connection's thread *)

Definition refuse_install (e : InstallError) : M (World W) ConnError ConnResult :=
  _ ← err_into ConnIo (on_conn (reject x08 (InstallError_to_string e)));
  throw (ConnInstall e).

Definition answer (se : session) (slot : PeerSlot) : M (World W) ConnError ConnResult :=
  let outcome := se_outcome se in
  let server_tag := server_tag_of (confirm_key (keys outcome)) (transcript outcome) in
  _ ← err_into ConnIo (on_conn (Message_write (MServerFinish
        {| sf_session_id := slot_session_id slot; server_tag := server_tag;
           server_wg_pubkey := ts_server_wg_pubkey (ctx_tunnel ctx);
           ServerWire.assigned_ip := slot_assigned_ip slot; wg_port := ts_wg_port (ctx_tunnel ctx) |})));
  mret (match se_rekey se with
        | Some _ => Rekey (slot_session_id slot)
        | None => Handshake (slot_session_id slot)
        end).

(** Run a last computation and return. *)
Definition finally (t : thread) (done : option (session * PeerSlot))
    (m : M (World W) ConnError ConnResult) (s : Shared) : thread * Shared :=
  let '(r, w) := m (with_conn (th_conn t) s) in
  ({| th_draws := th_draws t; th_conn := conn w; th_phase := Over done r |}, shared_of w).

Definition goto (t : thread) (ph : phase) : thread :=
  {| th_draws := th_draws t; th_conn := th_conn t; th_phase := ph |}.

Definition thread_step (t : thread) (s : Shared) : thread * Shared :=
  match th_phase t with
  | Hello =>
      let '(r, w) := prologue debug_message ctx (th_draws t) (with_conn (th_conn t) s) in
      ({| th_draws := th_draws t; th_conn := conn w;
          th_phase := match r with
                      | Err e => Over None (Err e)
                      | Ok (inl r) => Over None (Ok r)
                      | Ok (inr se) => Update se
                      end |}, shared_of w)
  | Update se =>
      let '(u, reg) := registry_step (th_draws t) (se_hello se) (se_rekey se) (sh_registry s) in
      let s := {| sh_registry := reg; sh_wg := sh_wg s; sh_disk := sh_disk s |} in
      match u with
      | Err e => let '(code, msg) := registry_reject_code e in finally t None (reject_with code msg) s
      | Ok slot => (goto t (Install se slot), s)
      end
  | Install se slot =>
      let '(i, g) := install (client_wg_pubkey (se_hello se)) (psk (keys (se_outcome se)))
                       (slot_assigned_ip slot) (ch_algo (se_hello se)) (sh_wg s) in
      let s := {| sh_registry := sh_registry s; sh_wg := g; sh_disk := sh_disk s |} in
      match i with
      | Err e => finally t (Some (se, slot)) (refuse_install e) s
      | Ok _ => (goto t (Save se slot), s)
      end
  | Save se slot =>
      (goto t (Answer se slot),
       {| sh_registry := sh_registry s; sh_wg := sh_wg s;
          sh_disk := (persist (sh_registry s) (sh_disk s)).2 |})
  | Answer se slot => finally t (Some (se, slot)) (answer se slot) s
  | Over _ _ => (t, s)
  end.

(** ** The sweep's thread *)

Inductive sweep : Type :=
  | Sleeping
  | Listing (wg_hs : gmap (arr 32) SystemTime)
  | Looping (wg_hs : gmap (arr 32) SystemTime) (now : SystemTime) (pks : list (arr 32)) (evicted : Z)
  | Removing (wg_hs : gmap (arr 32) SystemTime) (now : SystemTime) (pk : arr 32)
      (pks : list (arr 32)) (evicted : Z)
  | Panicked.

(** One step, the clock showing [clock]. *)
Definition sweep_step (clock : SystemTime) (sw : sweep) (s : Shared) : sweep * Shared :=
  match sw with
  | Sleeping =>
      let '(r, g) := last_handshakes (sh_wg s) in
      (match r with
       | Ok (Some hs) => Listing hs
       | Ok None => Panicked
       | Err _ => Listing ∅
       end, {| sh_registry := sh_registry s; sh_wg := g; sh_disk := sh_disk s |})
  | Listing hs => (Looping hs clock (idle_peers timeout clock (sh_registry s)) 0, s)
  | Looping hs now (pk :: pks) n =>
      if live hs timeout now pk then
        (Looping hs now pks n,
         {| sh_registry := touch clock pk (sh_registry s); sh_wg := sh_wg s; sh_disk := sh_disk s |})
      else
        (Removing hs now pk pks n,
         {| sh_registry := (registry_remove pk (sh_registry s)).2; sh_wg := sh_wg s; sh_disk := sh_disk s |})
  | Removing hs now pk pks n =>
      (Looping hs now pks (n + 1),
       {| sh_registry := sh_registry s; sh_wg := (remove_peer pk (sh_wg s)).2; sh_disk := sh_disk s |})
  | Looping hs now [] n =>
      (Sleeping,
       {| sh_registry := sh_registry s; sh_wg := sh_wg s;
          sh_disk := if 0 <? n then (persist (sh_registry s) (sh_disk s)).2 else sh_disk s |})
  | Panicked => (Panicked, s)
  end.

(** ** The system *)

Record Sys := { threads : list thread; sweeper : sweep; shared : Shared }.

Inductive event :=
  | Accept (d : conn_draws) (c : stream)
  | Run (i : nat)
  | Sweep (clock : SystemTime).

Definition sys_step (x : Sys) (e : event) : Sys :=
  match e with
  | Accept d c =>
      {| threads := threads x ++ [{| th_draws := d; th_conn := c; th_phase := Hello |}];
         sweeper := sweeper x; shared := shared x |}
  | Run i =>
      match threads x !! i with
      | Some t => let '(t, s) := thread_step t (shared x) in
          {| threads := <[i := t]> (threads x); sweeper := sweeper x; shared := s |}
      | None => x
      end
  | Sweep clock => let '(sw, s) := sweep_step clock (sweeper x) (shared x) in
      {| threads := threads x; sweeper := sw; shared := s |}
  end.

Definition sys_run (es : list event) (x : Sys) : Sys := foldl sys_step x es.

(** The server as it starts to listen. *)
Definition sys_start (s : Shared) : Sys := {| threads := []; sweeper := Sleeping; shared := s |}.

(** ** A thread alone is [handle_connection] *)

Lemma shared_with_conn c s : shared_of (with_conn c s) = s.
Proof. by destruct s. Qed.

Lemma with_conn_shared w : with_conn (conn w) (shared_of w) = w.
Proof. by destruct w. Qed.

Definition alone (n : nat) (t : thread) (s : Shared) : thread * Shared :=
  Nat.iter n (fun ts => thread_step ts.1 ts.2) (t, s).

#[local] Arguments alone : simpl never.

Lemma alone_S n t s : alone (S n) t s = let '(t, s) := thread_step t s in alone n t s.
Proof. unfold alone. rewrite Nat.iter_succ_r. simpl. by destruct (thread_step t s). Qed.

Lemma alone_over n d c done r s :
  alone n {| th_draws := d; th_conn := c; th_phase := Over done r |} s =
    ({| th_draws := d; th_conn := c; th_phase := Over done r |}, s).
Proof. induction n as [|n IH]; [done|]. by rewrite alone_S. Qed.

(** The second half, from the registry update on. *)
Lemma alone_commit d c se s r w' :
  commit_session ctx d (se_hello se) (se_rekey se) (se_outcome se) (with_conn c s) = (r, w') ->
  exists done, alone 4 {| th_draws := d; th_conn := c; th_phase := Update se |} s =
    ({| th_draws := d; th_conn := conn w'; th_phase := Over done r |}, shared_of w').
Proof.
  unfold commit_session. intros H. rewrite alone_S. cbn [thread_step th_phase th_draws th_conn goto].
  unfold registry_step. unfold mbind, M_bind, attempt in H.
  assert (Hreg : (match se_rekey se with
      | Some sid => on_registry (W := W) (registry_rekey (cn_now d) (client_wg_pubkey (se_hello se)) sid (ch_algo (se_hello se)))
      | None => on_registry (upsert_handshake (cn_now d) (client_wg_pubkey (se_hello se)) (ch_algo (se_hello se))
                  (default (cn_session_id d) (se_rekey se)))
      end) (with_conn c s) = on_registry (registry_step d (se_hello se) (se_rekey se)) (with_conn c s))
    by (by destruct (se_rekey se)).
  rewrite Hreg in H. clear Hreg. fold (registry_step d (se_hello se) (se_rekey se)).
  unfold on_registry in H. cbn [registry with_conn] in H.
  destruct (registry_step d (se_hello se) (se_rekey se) (sh_registry s)) as [[slot|e] reg].
  2:{ destruct (registry_reject_code e) as [code msg]. unfold finally. cbn [th_conn].
      unfold with_conn in *. simpl in *. rewrite H. eexists. by rewrite alone_over. }
  rewrite alone_S. cbn [thread_step th_phase th_draws th_conn goto]. unfold on_wg in H. simpl in H.
  cbn [sh_registry sh_wg sh_disk]. destruct (install _ _ _ _ (sh_wg s)) as [[u|e] g].
  2:{ unfold finally, refuse_install, mbind, M_bind, with_conn. cbn [goto th_conn th_draws sh_registry sh_wg sh_disk].
      rewrite H. eexists. by rewrite alone_over. }
  rewrite alone_S. cbn [thread_step th_phase th_draws th_conn goto]. unfold get, on_disk in H. simpl in H.
  cbn [sh_registry sh_wg sh_disk]. destruct (persist reg (sh_disk s)) as [pr dk].
  rewrite alone_S. cbn [thread_step th_phase th_draws th_conn goto]. unfold finally, answer, mbind, M_bind, with_conn.
  cbn [goto th_conn th_draws sh_registry sh_wg sh_disk fst snd]. rewrite H. eexists. reflexivity.
Qed.

(** Cutting the handler into steps changes nothing: a thread that runs without
    interruption does exactly what [handle_connection] does, and has returned
    after five steps. *)
Lemma alone_handler d c s :
  let '(r, w') := handle_connection debug_message ctx d (with_conn c s) in
  exists done, alone 5 {| th_draws := d; th_conn := c; th_phase := Hello |} s =
    ({| th_draws := d; th_conn := conn w'; th_phase := Over done r |}, shared_of w').
Proof.
  destruct (handle_connection _ _ _ _) as [r w'] eqn:H. rewrite handle_connection_split in H.
  rewrite alone_S. cbn [thread_step th_phase th_draws th_conn goto]. unfold mbind, M_bind in H.
  destruct (prologue debug_message ctx d (with_conn c s)) as [[[r'|se]|e] w1].
  - injection H as <- <-. eexists. by rewrite alone_over.
  - rewrite <- (with_conn_shared w1) in H. by apply alone_commit in H.
  - injection H as <- <-. eexists. by rewrite alone_over.
Qed.

(** ** The sweep alone is [idle_sweep] *)

(** The sweep's thread alone, one step per reading of the clock. *)
Definition sweep_alone (clocks : list SystemTime) (sw : sweep) (s : Shared) : sweep * Shared :=
  foldl (fun x clock => sweep_step clock x.1 x.2) (sw, s) clocks.

Lemma sweep_alone_app c1 c2 sw s :
  sweep_alone (c1 ++ c2) sw s = let '(sw, s) := sweep_alone c1 sw s in sweep_alone c2 sw s.
Proof. unfold sweep_alone. rewrite foldl_app. by destruct (foldl _ _ c1). Qed.

Lemma sweep_loop hs now later pks w n :
  exists clocks, (length clocks <= 2 * length pks)%nat /\
    let '(w1, n1) := fold_left (fun st pk => sweep_peer hs timeout now later pk st) pks (w, n) in
    sweep_alone clocks (Looping hs now pks n) (shared_of w) = (Looping hs now [] n1, shared_of w1).
Proof.
  revert w n. induction pks as [|pk pks IH]; intros w n; [by exists []|].
  cbn [fold_left]. unfold sweep_peer at 2. fold (live hs timeout now pk).
  destruct (live hs timeout now pk) eqn:Hl.
  - destruct (IH (Build_World (conn w) (touch (later pk) pk (registry w)) (wg w) (disk w)) n)
      as (cs & Hm & H). exists (later pk :: cs). split; [simpl; lia|].
    destruct (fold_left _ pks _) as [w1 n1]. rewrite <- H.
    unfold sweep_alone. cbn [foldl sweep_step fst snd]. by rewrite Hl.
  - destruct (IH (Build_World (conn w) (registry_remove pk (registry w)).2 (remove_peer pk (wg w)).2
      (disk w)) (n + 1)) as (cs & Hm & H). exists (now :: now :: cs). split; [simpl; lia|].
    destruct (fold_left _ pks _) as [w1 n1]. rewrite <- H.
    unfold sweep_alone. cbn [foldl sweep_step fst snd]. rewrite Hl. reflexivity.
Qed.

(** Cutting the sweep into steps changes nothing either: left alone, the sweep's
    thread is back asleep after at most two steps per idle peer and three more,
    having done exactly what [idle_sweep] describes; and it dies only if reading
    the handshake times panics, in its first step. *)
Lemma sweep_alone_idle_sweep c0 now later w :
  match idle_sweep timeout now later w with
  | None => sweep_alone [c0] Sleeping (shared_of w) = (Panicked, shared_of (Build_World (conn w)
      (registry w) (last_handshakes (wg w)).2 (disk w)))
  | Some w' => exists clocks, (length clocks <= 2 * length (idle_peers timeout now (registry w)) + 1)%nat /\
      sweep_alone (c0 :: now :: clocks) Sleeping (shared_of w) = (Sleeping, shared_of w')
  end.
Proof.
  unfold idle_sweep. destruct (last_handshakes (wg w)) as [r g] eqn:Hg.
  assert (H1 : sweep_alone [c0] Sleeping (shared_of w) =
    (match r with Ok (Some hs) => Listing hs | Ok None => Panicked | Err _ => Listing ∅ end,
     shared_of (Build_World (conn w) (registry w) g (disk w)))).
  { unfold sweep_alone. cbn [foldl fst snd sweep_step shared_of sh_wg]. by rewrite Hg. }
  destruct (match r with Ok m => m | Err _ => Some ∅ end) as [hs|] eqn:Hr; simpl.
  2:{ rewrite H1. destruct r as [[hs|]|]; try discriminate Hr. done. }
  set (w0 := Build_World (conn w) (registry w) g (disk w)) in *.
  destruct (sweep_loop hs now later (idle_peers timeout now (registry w)) w0 0) as (cs & Hm & H).
  destruct (fold_left _ _ _) as [w1 n1]. exists (cs ++ [now]). rewrite length_app. split; [simpl; lia|].
  change (c0 :: now :: cs ++ [now]) with ([c0] ++ [now] ++ cs ++ [now]).
  rewrite sweep_alone_app, H1.
  replace (match r with Ok (Some hs) => Listing hs | Ok None => Panicked | Err _ => Listing ∅ end)
    with (Listing hs) by (destruct r as [[?|]|]; congruence).
  rewrite sweep_alone_app.
  change (sweep_alone [now] (Listing hs) (shared_of w0)) with
    (Looping hs now (idle_peers timeout now (registry w)) 0, shared_of w0).
  cbv iota beta. rewrite sweep_alone_app, H. unfold sweep_alone. cbn [foldl fst snd sweep_step].
  unfold on_disk. destruct (0 <? n1); [|by destruct w1]. simpl.
  by destruct (persist (registry w1) (disk w1)).
Qed.

(** ** What every interleaving preserves *)

(** The session that a thread has put into the registry. *)
Definition committed (t : thread) : option (session * PeerSlot) :=
  match th_phase t with
  | Hello | Update _ => None
  | Install se slot | Save se slot | Answer se slot => Some (se, slot)
  | Over done _ => done
  end.

(** The client of a connection that was accepted with the stream [c] proved that
    it holds the session's confirmation key: the bytes it sent begin with the
    session's hello, or rekey request, and a [ClientFinish] with the session's id
    and with the MAC, under the key of the answer that the server gave to that
    hello, of the transcript it signed. *)
Record confirmed_session (d : conn_draws) (c : stream) (se : session) : Prop := {
  cs_answer : respond (ctx_identity ctx) (se_hello se) (default (cn_session_id d) (se_rekey se))
                (cn_server_nonce d) (cn_server d) = Ok (se_outcome se);
  cs_sent : exists fin rest,
    rx c = frame (first_message (se_hello se) (se_rekey se)) ++ frame (MClientFinish fin) ++ rest /\
    cf_session_id fin = default (cn_session_id d) (se_rekey se) /\
    client_tag fin = client_tag_of (confirm_key (keys (se_outcome se))) (transcript (se_outcome se))
}.

(** A thread whose connection was accepted with the stream [c]. *)
Definition thread_ok (c : stream) (t : thread) : Prop :=
  match th_phase t with
  | Hello => th_conn t = c
  | Update se => confirmed_session (th_draws t) c se
  | _ => match committed t with
         | Some (se, _) => confirmed_session (th_draws t) c se
         | None => True
         end
  end.

(** The registry's entry [p] under [k] is the session of [t]. *)
Definition owns (c : stream) (t : thread) (k : arr 32) (p : Peer) : Prop :=
  exists se slot, committed t = Some (se, slot) /\ confirmed_session (th_draws t) c se /\
    client_wg_pubkey (se_hello se) = k /\ session_id p = slot_session_id slot /\
    assigned_ip p = slot_assigned_ip slot /\ algo p = ch_algo (se_hello se).

Lemma finally_inv t done m s t' s' :
  quiet m -> finally t done m s = (t', s') ->
  s' = s /\ th_draws t' = th_draws t /\ exists r, th_phase t' = Over done r.
Proof.
  intros Hm. unfold finally. destruct (m _) as [r w] eqn:H. intros [= <- <-].
  apply Hm in H as (Hr & Hg & Hd). split; [|eauto].
  unfold shared_of. rewrite Hr, Hg, Hd. by destruct s.
Qed.

Lemma refuse_install_Err e w r w' : refuse_install e w = (r, w') -> exists x, r = Err x.
Proof.
  unfold refuse_install. intros H.
  apply M_bind_inv in H as [(u & w1 & _ & H)|(x & _ & ->)]; [|by eexists]. injection H as <- _. by eexists.
Qed.

Lemma quiet_refuse e : quiet (refuse_install e).
Proof. unfold refuse_install. auto using quiet_bind, quiet_err, quiet_conn, quiet_throw. Qed.
Lemma quiet_answer se slot : quiet (answer se slot).
Proof. unfold answer. auto using quiet_bind, quiet_err, quiet_conn, quiet_ret. Qed.

(** The registry step writes one entry, the session's. *)
(** What one step of a thread can do. *)
Lemma thread_step_inv c0 t s t' s' :
  thread_step t s = (t', s') -> thread_ok c0 t -> reg_wf (sh_registry s) ->
  thread_ok c0 t' /\ reg_wf (sh_registry s') /\ th_draws t' = th_draws t /\
  (forall c, committed t = Some c -> committed t' = Some c) /\
  (forall k p, inner (sh_registry s') !! k = Some p ->
    inner (sh_registry s) !! k = Some p \/ owns c0 t' k p).
Proof.
  destruct t as [d c ph]. unfold thread_step. cbn [th_phase th_draws th_conn].
  intros H Hok Hwf. destruct ph as [|se|se slot|se slot|se slot|dn r].
  - destruct (prologue _ _ _ _) as [r w] eqn:Hp. injection H as <- <-.
    apply prologue_inv in Hp as [(Hr & _) Hp]. cbn [shared_of sh_registry]. rewrite Hr.
    split; [|split_and!; [done|done|done|by auto]]. destruct r as [[|se]|]; try done. destruct Hp as [fin Hp].
    destruct Hp as [_ Hsent Hans Hsid Htag]. cbn in Hok. subst c0. split; [exact Hans|]. exists fin, (rx (conn w)). done.
  - pose proof (registry_step_wf d (se_hello se) (se_rekey se) _ Hwf) as Hwf'.
    destruct (registry_step _ _ _ _) as [[slot|e] reg] eqn:Hs.
    + injection H as <- <-. cbn [sh_registry]. split; [exact Hok|]. split; [exact Hwf'|].
      split; [done|]. split; [done|]. intros k p Hk.
      apply registry_step_Ok in Hs as (q & Hq & ? & ? & ?). rewrite Hq in Hk.
      apply lookup_insert_Some in Hk as [[<- <-]|[_ Hk]]; [right|by left].
      exists se, slot. done.
    + apply registry_step_Err in Hs as ->. destruct (registry_reject_code e) as [code msg].
      apply finally_inv in H as (-> & Hd & r & Hr); [|apply quiet_reject].
      unfold thread_ok, committed. rewrite Hr. cbn. split_and!; auto.
  - destruct (install _ _ _ _ _) as [[u|e] g].
    + injection H as <- <-. split_and!; cbn; auto.
    + apply finally_inv in H as (-> & Hd & r & Hr); [|apply quiet_refuse].
      unfold thread_ok, committed. rewrite Hr, Hd. cbn. split_and!; auto.
  - injection H as <- <-. split_and!; cbn; auto.
  - apply finally_inv in H as (-> & Hd & r & Hr); [|apply quiet_answer].
    unfold thread_ok, committed. rewrite Hr, Hd. cbn. split_and!; auto.
  - injection H as <- <-. split_and!; cbn; auto.
Qed.

Lemma owns_same c t k p p' :
  session_id p' = session_id p -> assigned_ip p' = assigned_ip p -> algo p' = algo p ->
  owns c t k p -> owns c t k p'.
Proof. intros H1 H2 H3 (se & slot & ?). exists se, slot. by rewrite H1, H2, H3. Qed.

Lemma owns_stable c t t' k p :
  th_draws t' = th_draws t -> (forall c, committed t = Some c -> committed t' = Some c) ->
  owns c t k p -> owns c t' k p.
Proof. intros Hd Hc (se & slot & H & ?). exists se, slot. rewrite Hd. by split; [apply Hc|]. Qed.

(** What one step of the sweep can do to the registry. *)
Lemma sweep_step_inv clock sw s sw' s' :
  sweep_step clock sw s = (sw', s') -> reg_wf (sh_registry s) ->
  reg_wf (sh_registry s') /\
  (forall k p', inner (sh_registry s') !! k = Some p' ->
    exists p, inner (sh_registry s) !! k = Some p /\
      session_id p' = session_id p /\ assigned_ip p' = assigned_ip p /\ algo p' = algo p).
Proof.
  intros H Hwf. destruct sw as [|hs|hs now [|pk pks] n|hs now pk pks n|]; cbn [sweep_step] in H;
    try (injection H as <- <-; split; [done|]; by eauto).
  - destruct (last_handshakes _) as [r g]. injection H as <- <-. split; [done|]. by eauto.
  - destruct (live _ _ _ _); injection H as <- <-; cbn [sh_registry]; (split; [by auto with pqc|]);
      intros k p' Hk.
    + unfold touch in Hk. destruct (inner (sh_registry s) !! pk) as [q|] eqn:Hq; [|by eauto].
      simpl in Hk. apply lookup_insert_Some in Hk as [[<- <-]|[_ Hk]]; by eauto.
    + simpl in Hk. apply lookup_delete_Some in Hk as [_ Hk]. by eauto.
Qed.

(** The connections accepted in a sequence of events, with their streams. *)
Definition accepted (es : list event) : list (conn_draws * stream) :=
  omap (fun e => match e with Accept d c => Some (d, c) | _ => None end) es.

(** The invariant of the running server, [acc] being the connections accepted so
    far. *)
Record sys_ok (acc : list (conn_draws * stream)) (x : Sys) : Prop := {
  ok_registry : reg_wf (sh_registry (shared x));
  ok_length : length acc = length (threads x);
  ok_threads : forall i t, threads x !! i = Some t ->
    exists c, acc !! i = Some (th_draws t, c) /\ thread_ok c t;
  ok_owned : forall k p, inner (sh_registry (shared x)) !! k = Some p ->
    exists i t c, threads x !! i = Some t /\ acc !! i = Some (th_draws t, c) /\ owns c t k p
}.

Lemma sys_step_ok acc x e : sys_ok acc x -> sys_ok (acc ++ accepted [e]) (sys_step x e).
Proof.
  intros [Hr Hlen Ht Ho]. destruct e as [d c|i|clock]; cbn [sys_step accepted omap list_omap];
    rewrite ?app_nil_r.
  - split; cbn [threads shared]; [done|by rewrite !length_app, Hlen| |].
    + intros i t Hi. apply lookup_snoc_Some in Hi as [[_ Hi]|[-> <-]].
      * destruct (Ht i t Hi) as (c' & Hc & Hok). exists c'. split; [by apply lookup_app_l_Some|done].
      * exists c. split; [by rewrite <- Hlen, list_lookup_middle|done].
    + intros k p Hk. destruct (Ho k p Hk) as (i & t & c' & Hi & Hc & H). exists i, t, c'.
      split_and!; [by apply lookup_app_l_Some..|done].
  - destruct (threads x !! i) as [t|] eqn:Hi; [|done].
    destruct (thread_step t (shared x)) as [t' s'] eqn:H.
    destruct (Ht i t Hi) as (c0 & Hc0 & Hok0).
    destruct (thread_step_inv c0 _ _ _ _ H Hok0 Hr) as (Hok & Hwf & Hd & Hc & Hown).
    pose proof (lookup_lt_Some _ _ _ Hi) as Hlt.
    split; cbn [threads shared]; [done|by rewrite length_insert| |].
    + intros j u Hj. apply list_lookup_insert_Some in Hj as [(<- & <- & _)|[_ Hj]]; [|by apply Ht].
      exists c0. by rewrite Hd.
    + intros k p Hk. apply Hown in Hk as [Hk|Hk].
      * destruct (Ho k p Hk) as (j & u & c & Hj & Hcj & Hu). destruct (decide (j = i)) as [->|Hne].
        -- exists i, t', c. rewrite list_lookup_insert_eq by done. split; [done|].
           assert (u = t) as -> by congruence. rewrite Hd. split; [done|]. by eapply owns_stable.
        -- exists j, u, c. by rewrite list_lookup_insert_ne by done.
      * exists i, t', c0. rewrite list_lookup_insert_eq by done. by rewrite Hd.
  - destruct (sweep_step clock (sweeper x) (shared x)) as [sw s'] eqn:H.
    apply sweep_step_inv in H as [Hwf Hreg]; [|done]. split; cbn [threads shared]; [done|done|done|].
    intros k p' Hk. destruct (Hreg k p' Hk) as (p & Hp & ? & ? & ?).
    destruct (Ho k p Hp) as (i & t & c & Hi & Hc & Hown). exists i, t, c. split_and!; [done|done|].
    by eapply owns_same.
Qed.

Lemma accepted_cons e es : accepted (e :: es) = accepted [e] ++ accepted es.
Proof. by destruct e. Qed.

Lemma sys_run_ok acc es x : sys_ok acc x -> sys_ok (acc ++ accepted es) (sys_run es x).
Proof.
  revert acc x. induction es as [|e es IH]; intros acc x H; [by rewrite app_nil_r|].
  rewrite accepted_cons, app_assoc. by apply IH, sys_step_ok.
Qed.

Lemma sys_start_ok s : reg_wf (sh_registry s) -> inner (sh_registry s) = ∅ -> sys_ok [] (sys_start s).
Proof. intros Hwf He. split; cbn [sys_start shared threads]; [done|done|done|]. intros k p. by rewrite He. Qed.

(** What one step of a thread can do to the interface. *)
Lemma thread_step_wg c0 t s t' s' :
  thread_step t s = (t', s') -> thread_ok c0 t ->
  sh_wg s' = sh_wg s \/
  exists se slot, confirmed_session (th_draws t) c0 se /\
    sh_wg s' = (install (client_wg_pubkey (se_hello se)) (psk (keys (se_outcome se)))
                  (slot_assigned_ip slot) (ch_algo (se_hello se)) (sh_wg s)).2.
Proof.
  destruct t as [d c ph]. unfold thread_step. cbn [th_phase th_draws th_conn]. intros H Hok.
  destruct ph as [|se|se slot|se slot|se slot|dn r]; try (injection H as <- <-; by left).
  - destruct (prologue _ _ _ _) as [r w] eqn:Hp. injection H as <- <-.
    apply prologue_inv in Hp as [(_ & Hw & _) _]. by left.
  - destruct (registry_step _ _ _ _) as [[slot|e] reg]; [injection H as <- <-; by left|].
    destruct (registry_reject_code e) as [code msg].
    apply finally_inv in H as (-> & _); [by left|apply quiet_reject].
  - right. exists se, slot. split; [exact Hok|].
    destruct (install _ _ _ _ _) as [[u|e] g]; [by injection H as <- <-|].
    by apply finally_inv in H as (-> & _); [|apply quiet_refuse].
  - apply finally_inv in H as (-> & _); [by left|apply quiet_answer].
Qed.

Lemma sweep_step_wg clock sw s :
  sh_wg (sweep_step clock sw s).2 = sh_wg s \/
  sh_wg (sweep_step clock sw s).2 = (last_handshakes (sh_wg s)).2 \/
  exists pk, sh_wg (sweep_step clock sw s).2 = (remove_peer pk (sh_wg s)).2.
Proof.
  destruct sw as [|hs|hs now [|pk pks] n|hs now pk pks n|]; cbn [sweep_step]; try by left.
  - destruct (last_handshakes _) as [r g]. right. by left.
  - left. by destruct (live _ _ _ _).
  - right. right. by exists pk.
Qed.

(** ** Properties *)


(** C21. Whatever the interleaving, the interface is only ever given PSKs of
    sessions whose client, on one of the accepted connections, sent the session's
    id and MAC, and for that client's own key: any property of the interface
    that such installs, removals and listings preserve is preserved by the
    server. *)
Theorem interleaving_interface (Q : W -> Prop) es s :
  reg_wf (sh_registry s) -> inner (sh_registry s) = ∅ ->
  (forall g, Q g -> Q (last_handshakes g).2) ->
  (forall pk g, Q g -> Q (remove_peer pk g).2) ->
  (forall d c se ip g, Accept d c ∈ es -> confirmed_session d c se -> Q g ->
     Q (install (client_wg_pubkey (se_hello se)) (psk (keys (se_outcome se))) ip
          (ch_algo (se_hello se)) g).2) ->
  Q (sh_wg s) -> Q (sh_wg (shared (sys_run es (sys_start s)))).
Proof.
  intros Hwf He Hl Hr Hi HQ. pose proof (sys_start_ok s Hwf He) as Hok.
  assert (Hin : forall d c, (d, c) ∈ [] ++ accepted es -> Accept d c ∈ es).
  { intros d c ([d' c'| |] & He' & [=])%list_elem_of_omap. by simplify_eq. }
  assert (Hstep : forall acc e es' x, sys_ok acc x -> Q (sh_wg (shared x)) ->
    (forall d c, (d, c) ∈ acc ++ accepted (e :: es') -> Accept d c ∈ es) -> Q (sh_wg (shared (sys_step x e)))).
  { intros acc e es' x Hx HQx Hacc. destruct e as [d c|i|clock]; cbn [sys_step]; [done| |].
    - destruct (threads x !! i) as [t|] eqn:Ht; [|done]. destruct (thread_step t (shared x)) as [t' s'] eqn:H.
      destruct (ok_threads _ _ Hx i t Ht) as (c & Hc & Htok).
      destruct (thread_step_wg c _ _ _ _ H Htok) as [Hw|(se & slot & Hse & Hw)]; cbn [shared]; rewrite Hw; [done|].
      apply (Hi (th_draws t) c); [|done|done]. apply Hacc, elem_of_app. left. by eapply list_elem_of_lookup_2.
    - pose proof (sweep_step_wg clock (sweeper x) (shared x)) as H.
      destruct (sweep_step clock (sweeper x) (shared x)) as [sw s']. cbn [snd shared] in *.
      destruct H as [H|[H|[pk H]]]; rewrite H; auto. }
  assert (Hrun : forall es' x acc, Q (sh_wg (shared x)) -> sys_ok acc x ->
    (forall d c, (d, c) ∈ acc ++ accepted es' -> Accept d c ∈ es) -> Q (sh_wg (shared (sys_run es' x)))).
  { induction es' as [|e es' IH]; intros x acc HQx Hx Hacc; [done|].
    apply (IH _ (acc ++ accepted [e])); [by eapply Hstep|by apply sys_step_ok|].
    intros d c. rewrite <- app_assoc, <- accepted_cons. apply Hacc. }
  by apply (Hrun es (sys_start s) []).
Qed.
(** *** Two races *)

(** What a race needs of a state: two threads and what they share. *)
Definition two (x : Sys) (i j : nat) (ti tj : thread) (s : Shared) : Prop :=
  threads x !! i = Some ti /\ threads x !! j = Some tj /\ shared x = s.

Lemma run_left x i j ti tj s t' s' :
  i <> j -> two x i j ti tj s -> thread_step ti s = (t', s') -> two (sys_step x (Run i)) i j t' tj s'.
Proof.
  intros Hij (Hi & Hj & <-) H. cbn [sys_step]. rewrite Hi, H. unfold two. cbn [threads shared].
  rewrite list_lookup_insert_eq, list_lookup_insert_ne by (done || by eapply lookup_lt_Some). done.
Qed.
Lemma run_right x i j ti tj s t' s' :
  i <> j -> two x i j ti tj s -> thread_step tj s = (t', s') -> two (sys_step x (Run j)) i j ti t' s'.
Proof.
  intros Hij (Hi & Hj & Hs) H. destruct (run_left x j i tj ti s t' s') as (? & ? & ?);
    [done|by split_and!|done|by split_and!].
Qed.

Lemma update_step t se s slot reg :
  th_phase t = Update se ->
  registry_step (th_draws t) (se_hello se) (se_rekey se) (sh_registry s) = (Ok slot, reg) ->
  thread_step t s =
    (goto t (Install se slot), {| sh_registry := reg; sh_wg := sh_wg s; sh_disk := sh_disk s |}).
Proof. intros Ht H. unfold thread_step. by rewrite Ht, H. Qed.

Lemma install_step t se slot s :
  th_phase t = Install se slot ->
  (forall k q ip a g, (install (W := W) k q ip a g).1 = Ok tt) ->
  thread_step t s =
    (goto t (Save se slot),
     {| sh_registry := sh_registry s;
        sh_wg := (install (client_wg_pubkey (se_hello se)) (psk (keys (se_outcome se)))
                    (slot_assigned_ip slot) (ch_algo (se_hello se)) (sh_wg s)).2;
        sh_disk := sh_disk s |}).
Proof.
  intros Ht H. unfold thread_step. rewrite Ht.
  specialize (H (client_wg_pubkey (se_hello se)) (psk (keys (se_outcome se))) (slot_assigned_ip slot)
    (ch_algo (se_hello se)) (sh_wg s)).
  destruct (install _ _ _ _ _) as [r g]. simpl in H. by subst r.
Qed.

Lemma save_step t se slot s :
  th_phase t = Save se slot ->
  thread_step t s = (goto t (Answer se slot),
    {| sh_registry := sh_registry s; sh_wg := sh_wg s; sh_disk := (persist (sh_registry s) (sh_disk s)).2 |}).
Proof. intros Ht. unfold thread_step. by rewrite Ht. Qed.

(** The thread of a handshake that has told its client of its success. *)
Definition completed (t : thread) (h : ClientHello) (o : HandshakeOutcome) (slot : PeerSlot)
    (k : bytes) (re : io_error) (written : bytes) : thread :=
  {| th_draws := th_draws t; th_conn := Stream k re (written ++ frame (final ctx o slot)) [];
     th_phase := Over (Some ({| se_hello := h; se_rekey := None; se_outcome := o |}, slot))
       (Ok (Handshake (slot_session_id slot))) |}.

Lemma answer_step d k re written h o slot s :
  let t := {| th_draws := d; th_conn := Stream k re written [];
              th_phase := Answer {| se_hello := h; se_rekey := None; se_outcome := o |} slot |} in
  thread_step t s = (completed t h o slot k re written, s).
Proof.
  unfold thread_step, finally, answer, with_conn. cbn [th_phase th_conn th_draws se_outcome se_rekey].
  erewrite M_bind_Ok by by apply (conn_write (final ctx o slot)). by destruct s.
Qed.

(** C39. What the interleaving leaves open: if two connections of the same client
    key reach the registry update together, both can complete - each reports its
    handshake and has told its client so - while the registry names the session
    of the second, and the interface was last given the PSK of the first. *)
Theorem handshake_race x i j ti tj hi hj oi oj ki ei wi kj ej wj sli slj reg reg' :
  i <> j -> threads x !! i = Some ti -> threads x !! j = Some tj ->
  th_phase ti = Update {| se_hello := hi; se_rekey := None; se_outcome := oi |} ->
  th_phase tj = Update {| se_hello := hj; se_rekey := None; se_outcome := oj |} ->
  th_conn ti = Stream ki ei wi [] -> th_conn tj = Stream kj ej wj [] ->
  client_wg_pubkey hi = client_wg_pubkey hj ->
  upsert_handshake (cn_now (th_draws ti)) (client_wg_pubkey hi) (ch_algo hi)
    (cn_session_id (th_draws ti)) (sh_registry (shared x)) = (Ok sli, reg) ->
  upsert_handshake (cn_now (th_draws tj)) (client_wg_pubkey hj) (ch_algo hj)
    (cn_session_id (th_draws tj)) reg = (Ok slj, reg') ->
  (forall k q ip a g, (install (W := W) k q ip a g).1 = Ok tt) ->
  let x' := sys_run [Run i; Run j; Run j; Run i; Run j; Run j; Run i; Run i] x in
  threads x' !! i = Some (completed ti hi oi sli ki ei wi) /\
  threads x' !! j = Some (completed tj hj oj slj kj ej wj) /\
  slot_session_id sli = cn_session_id (th_draws ti) /\ slot_session_id slj = cn_session_id (th_draws tj) /\
  (exists p, inner (sh_registry (shared x')) !! client_wg_pubkey hi = Some p /\
     session_id p = cn_session_id (th_draws tj)) /\
  sh_wg (shared x') =
    (install (client_wg_pubkey hi) (psk (keys oi)) (slot_assigned_ip sli) (ch_algo hi)
      (install (client_wg_pubkey hi) (psk (keys oj)) (slot_assigned_ip slj) (ch_algo hj) (sh_wg (shared x))).2).2.
Proof.
  intros Hij Hi Hj Hpi Hpj Hci Hcj Hk Hupi Hupj Hinst x'.
  destruct ti as [di ci phi], tj as [dj cj phj]. cbn [th_draws th_conn th_phase] in *. subst.
  assert (H : two x i j _ _ (shared x)) by by split_and!.
  eapply run_left in H; [|done|by eapply update_step].
  eapply run_right in H; [|done|by eapply update_step].
  eapply run_right in H; [|done|by eapply install_step].
  eapply run_left in H; [|done|by eapply install_step].
  eapply run_right in H; [|done|by eapply save_step].
  eapply run_right in H; [|done|apply answer_step].
  eapply run_left in H; [|done|by eapply save_step].
  eapply run_left in H; [|done|apply answer_step].
  destruct H as (Hti & Htj & Hs). fold (sys_run [Run i; Run j; Run j; Run i; Run j; Run j; Run i; Run i] x) in *.
  split; [exact Hti|]. split; [exact Htj|].
  split; [by eapply upsert_slot|]. split; [by eapply upsert_slot|].
  change (shared x') with (shared (sys_run [Run i; Run j; Run j; Run i; Run j; Run j; Run i; Run i] x)).
  unfold sys_run. cbn [foldl]. rewrite Hs. cbn [sh_registry sh_wg se_hello se_outcome]. rewrite Hk. split; [|done].
  destruct (registry_step_Ok dj hj None _ _ _ Hupj) as (p & Hreg & Hp & _). exists p.
  split; [|rewrite Hp; by eapply upsert_slot].
  cbn [se_rekey] in Hreg. rewrite Hreg. apply lookup_insert_eq.
Qed.

(** A thread beside the sweep. *)
Definition one (x : Sys) (i : nat) (t : thread) (sw : sweep) (s : Shared) : Prop :=
  threads x !! i = Some t /\ sweeper x = sw /\ shared x = s.

Lemma run_thread x i t sw s t' s' :
  one x i t sw s -> thread_step t s = (t', s') -> one (sys_step x (Run i)) i t' sw s'.
Proof.
  intros (Hi & <- & <-) H. cbn [sys_step]. rewrite Hi, H. unfold one. cbn [threads sweeper shared].
  by rewrite list_lookup_insert_eq by by eapply lookup_lt_Some.
Qed.
Lemma run_sweep x i t sw s clock sw' s' :
  one x i t sw s -> sweep_step clock sw s = (sw', s') -> one (sys_step x (Sweep clock)) i t sw' s'.
Proof. intros (Hi & <- & <-) H. cbn [sys_step]. by rewrite H. Qed.

Lemma evict_step clock hs now pk pks n s :
  live hs timeout now pk = false ->
  sweep_step clock (Looping hs now (pk :: pks) n) s =
    (Removing hs now pk pks n,
     {| sh_registry := (registry_remove pk (sh_registry s)).2; sh_wg := sh_wg s; sh_disk := sh_disk s |}).
Proof. intros H. cbn [sweep_step]. by rewrite H. Qed.

(** C20. What else it leaves open: the sweep decides on its list of idle peers.  If
    a listed client's fresh handshake reaches the registry and the interface
    before the sweep reaches the client, the sweep still evicts it: the
    connection goes on to tell its client of its success, for a session that is in
    the registry no more, and whose key has been taken off the interface. *)
Theorem sweep_evicts_fresh_session x i t h o k re w hs now pks n slot reg c1 c2 :
  threads x !! i = Some t ->
  th_phase t = Update {| se_hello := h; se_rekey := None; se_outcome := o |} ->
  th_conn t = Stream k re w [] ->
  sweeper x = Looping hs now (client_wg_pubkey h :: pks) n ->
  live hs timeout now (client_wg_pubkey h) = false ->
  upsert_handshake (cn_now (th_draws t)) (client_wg_pubkey h) (ch_algo h)
    (cn_session_id (th_draws t)) (sh_registry (shared x)) = (Ok slot, reg) ->
  (forall k q ip a g, (install (W := W) k q ip a g).1 = Ok tt) ->
  let x' := sys_run [Run i; Run i; Sweep c1; Sweep c2; Run i; Run i] x in
  threads x' !! i = Some (completed t h o slot k re w) /\
  slot_session_id slot = cn_session_id (th_draws t) /\
  inner (sh_registry (shared x')) !! client_wg_pubkey h = None /\
  sh_wg (shared x') = (remove_peer (client_wg_pubkey h)
    (install (client_wg_pubkey h) (psk (keys o)) (slot_assigned_ip slot) (ch_algo h) (sh_wg (shared x))).2).2.
Proof.
  intros Hi Hp Hc Hsw Hl Hup Hinst x'.
  destruct t as [d c ph]. cbn [th_draws th_conn th_phase] in *. subst.
  assert (H : one x i _ _ (shared x)) by by split_and!.
  eapply run_thread in H; [|by eapply update_step].
  eapply run_thread in H; [|by eapply install_step].
  eapply (run_sweep _ _ _ _ _ c1) in H; [|by apply evict_step].
  eapply (run_sweep _ _ _ _ _ c2) in H; [|reflexivity].
  eapply run_thread in H; [|by eapply save_step].
  eapply run_thread in H; [|apply answer_step].
  destruct H as (Ht & _ & Hs). split; [exact Ht|]. split; [by eapply upsert_slot|].
  change (shared x') with (shared (sys_run [Run i; Run i; Sweep c1; Sweep c2; Run i; Run i] x)).
  unfold sys_run. cbn [foldl]. rewrite Hs. split; [apply lookup_delete_eq|done].
Qed.

End threads.

(** ** Concrete interleavings

    Two clients with the same key, on the sample server of [EndToEnd]. *)

Definition other_draws : conn_draws (P := Toy.prims) :=
  @Build_conn_draws Toy.prims (Ok tt) (sid x61) (key x62) toy_server 6.
Definition other_tag : arr 32 :=
  match respond (P := Toy.prims) toy_identity toy_hello (sid x61) (key x62) toy_server with
  | Ok o => client_tag_of (P := Toy.prims) (confirm_key (keys o)) (transcript o)
  | Err _ => key x00
  end.
Definition toy_stream (session : arr 16) (tag : arr 32) : stream :=
  mem_stream (frame (MClientHello toy_hello) ++
              frame (MClientFinish {| cf_session_id := session; client_tag := tag |})).

Definition toy_shared : Shared (W := WgTable.table) :=
  {| sh_registry := Registry_new sample_base 64; sh_wg := ∅; sh_disk := mkfs ∅ |}.
Abbreviation toy_run :=
  (sys_run (P := Toy.prims) (C := ToyCodecs.codecs) (I := WgTable.installer) no_debug sample_ctx 10).
Definition two_updating : Sys (P := Toy.prims) (W := WgTable.table) :=
  toy_run [Accept sample_draws (toy_stream (sid x51) right_tag);
           Accept other_draws (toy_stream (sid x61) other_tag); Run 0; Run 1] (sys_start toy_shared).

(** What the race theorems need of a state, decided: the hello and the answer of
    a thread that can update the registry, and its connection. *)
Definition can_update {P : Primitives} {W} (x : Sys (W := W)) (i : nat) :
    option (ClientHello * (arr 16 * HandshakeOutcome * (bytes * io_error * bytes))) :=
  t ← threads x !! i;
  match th_phase t, th_conn t with
  | Update {| se_hello := h; se_rekey := None; se_outcome := o |}, Stream k e w [] =>
      match (upsert_handshake (cn_now (th_draws t)) (client_wg_pubkey h) (ch_algo h)
               (cn_session_id (th_draws t)) (sh_registry (shared x))).1 with
      | Ok _ => Some (h, (cn_session_id (th_draws t), o, (k, e, w)))
      | Err _ => None
      end
  | _, _ => None
  end.

Lemma can_update_inv {P : Primitives} {W} (x : Sys (W := W)) i h sd o k e w :
  can_update x i = Some (h, (sd, o, (k, e, w))) ->
  exists t slot reg, threads x !! i = Some t /\
    th_phase t = Update {| se_hello := h; se_rekey := None; se_outcome := o |} /\
    th_conn t = Stream k e w [] /\ cn_session_id (th_draws t) = sd /\
    upsert_handshake (cn_now (th_draws t)) (client_wg_pubkey h) (ch_algo h)
      (cn_session_id (th_draws t)) (sh_registry (shared x)) = (Ok slot, reg).
Proof.
  unfold can_update. destruct (threads x !! i) as [t|]; [|done]. cbn [mbind option_bind].
  destruct (th_phase t) as [|[h' [|] o']| | | |] eqn:Hp; try done.
  destruct (th_conn t) as [k' e' w' [|]] eqn:Hc; [|done].
  destruct (upsert_handshake _ _ _ _ _) as [[slot|err] reg] eqn:Hu; [|done]. intros [= -> <- -> -> -> ->].
  exists t, slot, reg. done.
Qed.

Definition who {A B C D} (x : option (A * (B * C * D))) : option (A * B) :=
  '(a, (b, _, _)) ← x; Some (a, b).

Lemma who_Some {A B C D E F} (x : option (A * (B * C * (D * E * F)))) a b :
  who x = Some (a, b) -> exists o k e w, x = Some (a, (b, o, (k, e, w))).
Proof. destruct x as [[a' [[b' o] [[k e] w]]]|]; [|done]. intros [= -> ->]. by exists o, k, e, w. Qed.

Lemma handshake_answer c (s s' : arr 16) :
  s = s' -> exists c', Over c (Ok (Handshake s)) = Over c' (Ok (Handshake s')).
Proof. intros ->. by eexists. Qed.

Lemma two_can_update :
  who (can_update two_updating 0) = Some (toy_hello, sid x51) /\
  who (can_update two_updating 1) = Some (toy_hello, sid x61).
Proof. split; vm_compute; reflexivity. Qed.

(** Both clients are told of their success; the registry has the second's
    session, the interface the first's PSK. *)
Lemma handshake_race_witness :
  exists x ti tj o ip p,
    x = toy_run [Run 0; Run 1; Run 1; Run 0; Run 1; Run 1; Run 0; Run 0] two_updating /\
    threads x !! 0%nat = Some ti /\ (exists c, th_phase ti = Over c (Ok (Handshake (sid x51)))) /\
    threads x !! 1%nat = Some tj /\ (exists c, th_phase tj = Over c (Ok (Handshake (sid x61)))) /\
    inner (sh_registry (shared x)) !! client_wg_pubkey toy_hello = Some p /\ session_id p = sid x61 /\
    (sh_wg (shared x) : WgTable.table) !! client_wg_pubkey toy_hello = Some (psk (keys o), ip) /\
    option_map (fun y => y.2.1.2) (can_update two_updating 0) = Some o.
Proof.
  destruct two_can_update as [(oi & ki & ei & wi & H0)%who_Some (oj & kj & ej & wj & H1)%who_Some].
  destruct (can_update_inv _ _ _ _ _ _ _ _ H0) as (ti & sli & reg & Hti & Hpi & Hci & Hsi & Hui).
  destruct (can_update_inv _ _ _ _ _ _ _ _ H1) as (tj & ? & ? & Htj & Hpj & Hcj & Hsj & _).
  destruct (registry_step_Ok (th_draws ti) toy_hello None _ _ _ Hui) as (q & Hq & _).
  pose proof (upsert_known (cn_now (th_draws tj)) (client_wg_pubkey toy_hello) (ch_algo toy_hello)
    (cn_session_id (th_draws tj)) reg q) as Huj.
  rewrite Hq, lookup_insert_eq in Huj. specialize (Huj eq_refl).
  destruct (handshake_race (C := ToyCodecs.codecs) (I := WgTable.installer) no_debug sample_ctx 10
    two_updating 0 1 ti tj toy_hello toy_hello oi oj ki ei wi kj ej wj sli _ reg _ ltac:(discriminate) Hti Htj Hpi Hpj
    Hci Hcj eq_refl Hui Huj (fun _ _ _ _ _ => eq_refl)) as (Hi & Hj & Hli & Hlj & (p & Hp & Hps) & Hwg).
  eexists _, _, _, oi, (slot_assigned_ip sli), p. split; [reflexivity|].
  split; [exact Hi|]. split; [exact (handshake_answer _ _ _ (eq_trans Hli Hsi))|].
  split; [exact Hj|]. split; [exact (handshake_answer _ _ _ Hsj)|].
  split; [exact Hp|]. split; [exact (eq_trans Hps Hsj)|].
  split; [|exact (f_equal (option_map _) H0)].
  rewrite Hwg. apply lookup_insert_eq.
Defined.

(** The client of a registered peer, idle for long, comes back during a sweep. *)
Definition sweeping : Sys (P := Toy.prims) (W := WgTable.table) :=
  toy_run [Accept sample_draws (toy_stream (sid x51) right_tag); Run 0; Run 0; Run 0; Run 0; Run 0;
           Accept other_draws (toy_stream (sid x61) other_tag); Run 1; Sweep 99; Sweep 100]
    (sys_start toy_shared).

Lemma sweeping_ready :
  who (can_update sweeping 1) = Some (toy_hello, sid x61) /\
  sweeper sweeping = Looping ∅ 100 [client_wg_pubkey toy_hello] 0.
Proof. split; vm_compute; reflexivity. Qed.

(** Its client is told of its success; the session is nowhere. *)
Lemma sweep_evicts_fresh_session_witness :
  exists x t, x = toy_run [Run 1; Run 1; Sweep 101; Sweep 102; Run 1; Run 1] sweeping /\
    threads x !! 1%nat = Some t /\ (exists c, th_phase t = Over c (Ok (Handshake (sid x61)))) /\
    inner (sh_registry (shared x)) !! client_wg_pubkey toy_hello = None /\
    (sh_wg (shared x) : WgTable.table) !! client_wg_pubkey toy_hello = None.
Proof.
  destruct sweeping_ready as [(o & k & e & w & H1)%who_Some Hsw].
  destruct (can_update_inv _ _ _ _ _ _ _ _ H1) as (t & slot & reg & Ht & Hp & Hc & Hs & Hu).
  destruct (sweep_evicts_fresh_session (C := ToyCodecs.codecs) (I := WgTable.installer) no_debug
    sample_ctx 10 sweeping 1 t toy_hello o k e w ∅ 100 [] 0 slot reg 101 102 Ht Hp Hc Hsw eq_refl Hu
    (fun _ _ _ _ _ => eq_refl)) as (Ht' & Hsl & Hreg & Hwg).
  eexists _, _. split; [reflexivity|]. split; [exact Ht'|]. split; [exact (handshake_answer _ _ _ (eq_trans Hsl Hs))|].
  split; [exact Hreg|]. rewrite Hwg. apply lookup_delete_eq.
Defined.

Lemma toy_shared_wf : reg_wf (sh_registry toy_shared) /\ inner (sh_registry toy_shared) = ∅.
Proof. split; [by apply new_wf|reflexivity]. Qed.

Definition toy_events : list (event (P := Toy.prims)) :=
  [Accept sample_draws (toy_stream (sid x51) right_tag);
   Accept other_draws (toy_stream (sid x61) other_tag); Run 0; Run 1; Run 0; Run 1; Run 0].

Lemma toy_registered :
  bool_decide (is_Some (inner (sh_registry (shared (toy_run toy_events (sys_start toy_shared))))
    !! client_wg_pubkey toy_hello)) = true.
Proof. vm_compute. reflexivity. Qed.


Lemma toy_installed :
  bool_decide (is_Some (sh_wg (shared (toy_run toy_events (sys_start toy_shared)))
    !! client_wg_pubkey toy_hello)) = true.
Proof. vm_compute. reflexivity. Qed.

(** Every key on the table is that of a client that one of the connections heard
    send a finish message with its session's id and MAC. *)
Lemma interleaving_interface_witness :
  exists d c se, Accept d c ∈ toy_events /\ confirmed_session (P := Toy.prims) sample_ctx d c se /\
    client_wg_pubkey (se_hello se) = client_wg_pubkey toy_hello.
Proof.
  destruct toy_shared_wf as [Hwf He].
  apply (interleaving_interface (C := ToyCodecs.codecs) (I := WgTable.installer) no_debug sample_ctx 10
    (fun g => forall k, is_Some ((g : WgTable.table) !! k) ->
       exists d c se, Accept d c ∈ toy_events /\ confirmed_session sample_ctx d c se /\ client_wg_pubkey (se_hello se) = k)
    toy_events toy_shared Hwf He).
  - intros g H. exact H.
  - intros pk g H k [v Hk]. simpl in Hk. apply lookup_delete_Some in Hk as [_ Hk]. apply H. by exists v.
  - intros d c se ip g Hin Hse H k [v Hk]. simpl in Hk.
    apply lookup_insert_Some in Hk as [[<- _]|[_ Hk]]; [by exists d, c, se|]. apply H. by exists v.
  - intros k [v Hk]. exfalso. exact (lookup_empty_Some k v Hk).
  - exact (bool_decide_eq_true_1 _ toy_installed).
Defined.
