(* ===== verification/Liveness.v ===== *)
(** * What every connection and every sweep turn comes to

    The system of [Threads] under any interleaving: a thread that gets its
    turns returns, a turn of the sweep comes to its end, and an honest client's
    handshake completes on both sides whatever the other connections send,
    unless the registry is full of them. *)

From S2P Require Import Prelude Utf8 Io Fs Net Algorithm Primitives.
From S2P Require CoreWire HybridKem CoreClient Transport.
From S2P Require Import ServerWire WireParity Registry RegistryFacts Tunnel ServerHandshake Agreement.
From S2P Require Import Server ServerFacts EndToEnd Threads.

(** ** Turns *)

Section turns.
Context `{P : Primitives} `{C : Codecs} {W : Type} `{I : PskInstaller W}.
Context (debug_message : Message -> rstring) (ctx : ServerContext) (timeout : Duration).
Abbreviation thread_step := (thread_step (W := W) debug_message ctx).
Abbreviation sys_step := (sys_step (W := W) debug_message ctx timeout).
Abbreviation sys_run := (sys_run (W := W) debug_message ctx timeout).

(** The steps a thread has left, at most. *)
Definition remaining (ph : phase) : nat :=
  match ph with
  | Hello => 5 | Update _ => 4 | Install _ _ => 3 | Save _ _ => 2 | Answer _ _ => 1 | Over _ _ => 0
  end.

Definition runs (i : nat) (e : event) : bool :=
  match e with Run j => bool_decide (i = j) | _ => false end.
Definition sweeps (e : event) : bool :=
  match e with Sweep _ => true | _ => false end.

(** How many of the events are turns of the thread in question. *)
Definition turns (f : event -> bool) (es : list event) : nat := length (List.filter f es).

(** The steps that the sweep's turn has left, at most, once it has its list. *)
Definition sweep_remaining (sw : sweep) : option nat :=
  match sw with
  | Looping _ _ pks _ => Some (2 * length pks + 1)
  | Removing _ _ _ pks _ => Some (2 * length pks + 2)
  | Sleeping | Listing _ | Panicked => None
  end%nat.

Lemma finally_over t done m (s : Shared (W := W)) : exists r, th_phase (finally t done m s).1 = Over done r.
Proof. unfold finally. destruct (m _) as [r w]. by exists r. Qed.

(** The thread in the goal ends with this step. *)
Ltac ends := match goal with
  |- context [finally ?t ?d ?m ?s] => destruct (finally_over t d m s) as [? ->]
  end.

Lemma thread_step_remaining t s :
  (remaining (th_phase (thread_step t s).1) <= remaining (th_phase t) - 1)%nat.
Proof.
  destruct t as [d c ph]. unfold Threads.thread_step. cbn [th_phase th_draws th_conn].
  destruct ph as [|se|se slot|se slot|se slot|dn r]; cbn [remaining].
  - destruct (prologue _ _ _ _) as [[[r|se]|e] w]; simpl; lia.
  - destruct (registry_step _ _ _ _) as [[slot|e] reg]; [simpl; lia|]. destruct (registry_reject_code e) as [c0 m0].
    ends. simpl. lia.
  - destruct (install _ _ _ _ _) as [[u|e] g]; [simpl; lia|].
    ends. simpl. lia.
  - simpl. lia.
  - ends. simpl. lia.
  - simpl. lia.
Qed.

(** A thread's entry changes with its own turns only. *)
Lemma sys_step_thread x e i t :
  threads x !! i = Some t ->
  threads (sys_step x e) !! i = Some (if runs i e then (thread_step t (shared x)).1 else t).
Proof.
  intros Hi. destruct e as [d c|j|clock]; cbn [Threads.sys_step runs].
  - by apply lookup_app_l_Some.
  - case_bool_decide as E.
    + subst j. rewrite Hi. destruct (thread_step t (shared x)) as [t' s']. cbn [threads fst].
      by apply list_lookup_insert_eq, lookup_lt_Some with t.
    + destruct (threads x !! j) as [u|]; [|done]. destruct (thread_step u (shared x)) as [u' s'].
      cbn [threads]. by rewrite list_lookup_insert_ne.
  - by destruct (sweep_step _ _ _ _).
Qed.

(** The sweep's state changes with its own turns only. *)
Lemma sys_step_sweeper x e :
  sweeper (sys_step x e) = if sweeps e then match e with
    | Sweep clock => (sweep_step timeout clock (sweeper x) (shared x)).1 | _ => sweeper x end else sweeper x.
Proof.
  destruct e as [d c|j|clock]; cbn [Threads.sys_step sweeps]; [done| |by destruct (sweep_step _ _ _ _)].
  destruct (threads x !! j) as [u|]; [|done]. by destruct (thread_step u (shared x)).
Qed.

Lemma turns_cons f e es : turns f (e :: es) = ((if f e then 1 else 0) + turns f es)%nat.
Proof. unfold turns. simpl. by destruct (f e). Qed.

(** One of its own steps brings a sweep with a list to sleep or a step nearer. *)
Lemma sweep_step_remaining clock sw s n :
  sweep_remaining sw = Some n ->
  let sw' := (sweep_step timeout clock sw s).1 in
  sw' = Sleeping \/ (1 < n)%nat /\ exists m, sweep_remaining sw' = Some m /\ (m < n)%nat.
Proof.
  destruct sw as [|hs|hs now [|pk pks] k|hs now pk pks k|]; cbn [sweep_remaining sweep_step]; intros [= <-].
  - by left.
  - right. split; [simpl; lia|].
    destruct (live hs timeout now pk); simpl; (eexists; split; [reflexivity|lia]).
  - right. split; [lia|]. eexists. split; [reflexivity|simpl; lia].
Qed.

(** A turn of the sweep ends. *)
Lemma sweep_turn_ends es x n :
  sweep_remaining (sweeper x) = Some n -> (n <= turns sweeps es)%nat ->
  exists es1 es2, es = es1 ++ es2 /\ sweeper (sys_run es1 x) = Sleeping.
Proof.
  revert x n. induction es as [|e es IH]; intros x n Hn Hle.
  { destruct (sweeper x); cbn in *; try done; injection Hn as <-; lia. }
  rewrite turns_cons in Hle. pose proof (sys_step_sweeper x e) as Hs. destruct (sweeps e) eqn:He.
  - destruct e as [| |clock]; try done.
    destruct (sweep_step_remaining clock _ (shared x) n Hn) as [Hz|(H1 & m & Hm & Hlt)].
    + exists [Sweep clock], es. split; [done|]. unfold Threads.sys_run. cbn [foldl]. by rewrite Hs, Hz.
    + rewrite <- Hs in Hm. destruct (IH _ _ Hm ltac:(lia)) as (es1 & es2 & -> & H).
      by exists (Sweep clock :: es1), es2.
  - rewrite <- Hs in Hn. destruct (IH _ _ Hn ltac:(lia)) as (es1 & es2 & -> & H). by exists (e :: es1), es2.
Qed.

(** What holds of a thread and the system around it, and is kept by every step,
    holds still when the thread has had all its turns; and then it is over. *)
Lemma thread_ends (Q : Sys (W := W) -> thread -> Prop) es x i t :
  (forall x e t, Q x t -> threads x !! i = Some t ->
     Q (sys_step x e) (if runs i e then (thread_step t (shared x)).1 else t)) ->
  Q x t -> threads x !! i = Some t -> (remaining (th_phase t) <= turns (runs i) es)%nat ->
  exists t' dn r, threads (sys_run es x) !! i = Some t' /\ th_phase t' = Over dn r /\ Q (sys_run es x) t'.
Proof.
  intros HQ. revert x t. induction es as [|e es IH]; intros x t Hx Hi Hle.
  - exists t. destruct (th_phase t) as [| | | | |dn r]; cbn in Hle; [lia..|]. by exists dn, r.
  - pose proof (sys_step_thread x e i t Hi) as Hi'. rewrite turns_cons in Hle.
    apply (IH _ _ (HQ x e t Hx Hi) Hi'). destruct (runs i e); [|lia].
    pose proof (thread_step_remaining t (shared x)). lia.
Qed.

(** ** The install that a completed connection has behind it *)

(** Past its install, which succeeded. *)
Definition installed (ph : phase) : bool :=
  match ph with
  | Save _ _ | Answer _ _ | Over (Some _) (Ok _) => true
  | _ => false
  end.

Lemma committed_stable t s c : committed t = Some c -> committed (thread_step t s).1 = Some c.
Proof.
  destruct t as [d k ph]. unfold committed at 1, Threads.thread_step. cbn [th_phase th_draws th_conn].
  destruct ph as [|se|se slot|se slot|se slot|dn r]; intros H; try done.
  - destruct (install _ _ _ _ _) as [[u|e] g]; [exact H|]. injection H as <-.
    unfold committed. by ends.
  - injection H as <-.
    unfold committed. by ends.
Qed.

Lemma install_turn t s :
  installed (th_phase t) = false -> installed (th_phase (thread_step t s).1) = true ->
  exists se slot, th_phase t = Install se slot /\ th_phase (thread_step t s).1 = Save se slot.
Proof.
  destruct t as [d k ph]. unfold Threads.thread_step. cbn [th_phase th_draws th_conn].
  destruct ph as [|se|se slot|se slot|se slot|dn r]; intros H H'; try done.
  - destruct (prologue _ _ _ _) as [[[r|se]|e] w]; done.
  - destruct (registry_step _ _ _ _) as [[slot|e] reg]; [done|]. destruct (registry_reject_code e) as [c0 m0].
    revert H'. by ends.
  - destruct (install _ _ _ _ _) as [[u|e] g]; [by exists se, slot|]. unfold finally in H'.
    destruct (refuse_install e _) as [r w] eqn:Hr. by apply refuse_install_Err in Hr as [y ->].
  - cbn in H, H'. congruence.
Qed.

Lemma run_install x i t se slot :
  threads x !! i = Some t -> th_phase t = Install se slot ->
  sh_wg (shared (sys_step x (Run i))) =
    (install (client_wg_pubkey (se_hello se)) (psk (keys (se_outcome se))) (slot_assigned_ip slot)
       (ch_algo (se_hello se)) (sh_wg (shared x))).2.
Proof.
  intros Hi Hp. cbn [Threads.sys_step]. rewrite Hi. unfold Threads.thread_step. rewrite Hp.
  destruct (install _ _ _ _ _) as [[u|e] g]; [done|].
  destruct (finally _ _ _ _) as [t' s'] eqn:H. by apply finally_inv in H as (-> & _); [|apply quiet_refuse].
Qed.

Lemma committed_run es x i t c :
  threads x !! i = Some t -> committed t = Some c ->
  exists t', threads (sys_run es x) !! i = Some t' /\ committed t' = Some c.
Proof.
  revert x t. induction es as [|e es IH]; intros x t Hi Hc; [by exists t|].
  apply (IH _ _ (sys_step_thread x e i t Hi)). destruct (runs i e); [by apply committed_stable|done].
Qed.

Lemma install_behind es x i t t' se slot :
  threads x !! i = Some t -> installed (th_phase t) = false ->
  threads (sys_run es x) !! i = Some t' -> installed (th_phase t') = true -> committed t' = Some (se, slot) ->
  exists es1 es2 t1, es = es1 ++ Run i :: es2 /\ threads (sys_run es1 x) !! i = Some t1 /\
    th_phase t1 = Install se slot.
Proof.
  revert x t. induction es as [|e es IH]; intros x t Hi Hn Hi' Hins Hc.
  { unfold Threads.sys_run in Hi'. cbn [foldl] in Hi'. congruence. }
  pose proof (sys_step_thread x e i t Hi) as Hs.
  destruct (installed (th_phase (if runs i e then (thread_step t (shared x)).1 else t))) eqn:E.
  - destruct (runs i e) eqn:He; [|congruence]. destruct (install_turn t (shared x) Hn E) as (se' & slot' & Hp & Hp').
    destruct e as [|j|]; try done. apply bool_decide_eq_true_1 in He as <-.
    destruct (committed_run es _ _ _ (se', slot') Hs) as (u & Hu & Hcu); [unfold committed; by rewrite Hp'|].
    assert (u = t') as -> by (change (threads (sys_run es (sys_step x (Run i))) !! i = Some t') in Hi'; congruence).
    rewrite Hc in Hcu. injection Hcu as -> ->. by exists [], es, t.
  - destruct (IH _ _ Hs E Hi' Hins Hc) as (es1 & es2 & t1 & -> & H1 & H2). by exists (e :: es1), es2, t1.
Qed.

(** ** The registry's limit *)

Lemma thread_step_limit t s t' s' :
  thread_step t s = (t', s') -> max_peers (sh_registry s') = max_peers (sh_registry s).
Proof.
  destruct t as [d c ph]. unfold Threads.thread_step. cbn [th_phase th_draws th_conn]. intros H.
  destruct ph as [|se|se slot|se slot|se slot|dn r]; try (by injection H as <- <-).
  - destruct (prologue _ _ _ _) as [r w] eqn:Hp. injection H as <- <-.
    apply prologue_inv in Hp as [(Hr & _) _]. unfold shared_of. cbn [sh_registry]. by rewrite Hr.
  - assert (Hl : max_peers (registry_step d (se_hello se) (se_rekey se) (sh_registry s)).2 = max_peers (sh_registry s)).
    { destruct (se_rekey se) as [r|].
      - apply (apply_op_config (OpRekey (cn_now d) (client_wg_pubkey (se_hello se)) r (ch_algo (se_hello se)))).
      - apply (apply_op_config (OpUpsert (cn_now d) (client_wg_pubkey (se_hello se)) (ch_algo (se_hello se)) (cn_session_id d))). }
    destruct (registry_step _ _ _ _) as [[slot|e] reg]; [by injection H as <- <-|].
    destruct (registry_reject_code e) as [code msg]. by apply finally_inv in H as (-> & _); [|apply quiet_reject].
  - destruct (install _ _ _ _ _) as [[u|e] g]; [by injection H as <- <-|].
    by apply finally_inv in H as (-> & _); [|apply quiet_refuse].
  - by apply finally_inv in H as (-> & _); [|apply quiet_answer].
Qed.

Lemma sweep_step_limit clock sw s :
  max_peers (sh_registry (sweep_step timeout clock sw s).2) = max_peers (sh_registry s).
Proof.
  destruct sw as [|hs|hs now [|pk pks] n|hs now pk pks n|]; cbn [sweep_step]; try done.
  - by destruct (last_handshakes _).
  - destruct (live _ _ _ _); cbn [snd sh_registry].
    + apply (apply_op_config (OpTouch clock pk)).
    + apply (apply_op_config (OpRemove pk)).
Qed.

Lemma sys_step_limit x e :
  max_peers (sh_registry (shared (sys_step x e))) = max_peers (sh_registry (shared x)).
Proof.
  destruct e as [d c|j|clock]; cbn [Threads.sys_step]; [done| |].
  - destruct (threads x !! j) as [u|]; [|done]. destruct (thread_step u (shared x)) as [u' s'] eqn:H.
    by apply thread_step_limit in H.
  - pose proof (sweep_step_limit clock (sweeper x) (shared x)). by destruct (sweep_step _ _ _ _).
Qed.

Lemma sys_run_limit es x :
  max_peers (sh_registry (shared (sys_run es x))) = max_peers (sh_registry (shared x)).
Proof.
  revert x. induction es as [|e es IH]; intros x; [done|]. unfold Threads.sys_run. cbn [foldl].
  etrans; [apply IH|apply sys_step_limit].
Qed.

Definition accepts (e : event) : bool :=
  match e with Accept _ _ => true | _ => false end.

Lemma sys_step_threads x e :
  length (threads (sys_step x e)) = ((if accepts e then 1 else 0) + length (threads x))%nat.
Proof.
  destruct e as [d c|j|clock]; cbn [Threads.sys_step accepts].
  - cbn [threads]. rewrite length_app. simpl. lia.
  - destruct (threads x !! j) as [u|]; [|done]. destruct (thread_step u (shared x)) as [u' s']. cbn [threads].
    by rewrite length_insert.
  - by destruct (sweep_step _ _ _ _).
Qed.

Lemma sys_run_threads es x : length (threads (sys_run es x)) = (turns accepts es + length (threads x))%nat.
Proof.
  revert x. induction es as [|e es IH]; intros x; [done|]. unfold Threads.sys_run. cbn [foldl].
  etrans; [apply IH|]. rewrite sys_step_threads, turns_cons. lia.
Qed.

End turns.

(** ** Room in the registry *)

Lemma omap_cons_length {A B} (f : A -> option B) x l :
  length (omap f (x :: l)) = ((if f x is Some _ then 1 else 0) + length (omap f l))%nat.
Proof. cbn. by destruct (f x). Qed.

Lemma length_omap_le {A B} (f : A -> option B) l : (length (omap f l) <= length l)%nat.
Proof. induction l as [|x l IH]; [done|]. rewrite omap_cons_length, length_cons. destruct (f x); lia. Qed.

Lemma length_omap_lt {A B} (f : A -> option B) l i x :
  l !! i = Some x -> f x = None -> (length (omap f l) < length l)%nat.
Proof.
  revert i. induction l as [|y l IH]; intros [|i]; [done..| |]; rewrite omap_cons_length, length_cons; simpl.
  - intros [= ->] ->. pose proof (length_omap_le f l). lia.
  - intros Hi Hx. pose proof (IH i Hi Hx). destruct (f y); lia.
Qed.

Section honest.
Context `{P : Primitives} `{L : !PrimitiveLaws P} `{C : Codecs} {W : Type} `{I : PskInstaller W}.
Context (debug_message : Message -> rstring) (ctx : ServerContext) (timeout : Duration).
Abbreviation thread_step := (thread_step (W := W) debug_message ctx).
Abbreviation sys_step := (sys_step (W := W) debug_message ctx timeout).
Abbreviation sys_run := (sys_run (W := W) debug_message ctx timeout).

(** Every registered peer takes a thread of its own that has been at the
    registry, so one that has not leaves the peers fewer than the threads. *)
Lemma registry_below_threads acc (x : Sys (W := W)) i t :
  sys_ok ctx acc x -> threads x !! i = Some t -> committed t = None ->
  (size (inner (sh_registry (shared x))) < length (threads x))%nat.
Proof.
  intros Hok Hi Ht.
  set (key := fun t : thread => '(se, _) ← committed t; Some (client_wg_pubkey (se_hello se))).
  apply Nat.le_lt_trans with (length (omap key (threads x))).
  2:{ apply length_omap_lt with i t; [done|]. unfold key. by rewrite Ht. }
  rewrite <- length_map_to_list, <- (length_fmap fst). apply submseteq_length, NoDup_submseteq.
  { apply NoDup_fst_map_to_list. }
  intros k [[k' p] [-> Hk]]%list_elem_of_fmap. apply elem_of_map_to_list in Hk. simpl.
  destruct (ok_owned _ _ _ Hok k' p Hk) as (j & u & _ & Hj & _ & se & slot & Hc & _ & Hkey & _).
  apply list_elem_of_omap. exists u. split; [by eapply list_elem_of_lookup_2|].
  unfold key. by rewrite Hc, <- Hkey.
Qed.

(** ** An honest client's thread *)

Context (d : conn_draws) (h : ClientHello) (fin : ClientFinish) (o : HandshakeOutcome) (re : io_error) (limit : Z).
Context (Htimeouts : cn_timeouts d = Ok tt)
  (Hrespond : respond (ctx_identity ctx) h (cn_session_id d) (cn_server_nonce d) (cn_server d) = Ok o)
  (Hsid : cf_session_id fin = cn_session_id d)
  (Htag : client_tag fin = client_tag_of (confirm_key (keys o)) (transcript o))
  (Hinstall : forall psk ip g, (install (W := W) (client_wg_pubkey h) psk ip (ch_algo h) g).1 = Ok tt).

Definition honest_session : session := {| se_hello := h; se_rekey := None; se_outcome := o |}.

Definition at_capacity : ErrorMsg := {| code := x09; message := lit "server at peer capacity" |}.

(** Where the thread of a client that sends its two messages can be. *)
Definition whereabouts (x : Sys (W := W)) (t : thread) : Prop :=
  max_peers (sh_registry (shared x)) = limit /\ th_draws t = d /\
  let replied := th_conn t = Stream [] re (frame (reply o)) [] in
  match th_phase t with
  | Hello => th_conn t = opened (frame (MClientHello h) ++ frame (MClientFinish fin)) re
  | Update se => se = honest_session /\ replied
  | Install se slot | Save se slot | Answer se slot =>
      se = honest_session /\ slot_session_id slot = cn_session_id d /\ replied
  | Over (Some (se, slot)) r =>
      se = honest_session /\ slot_session_id slot = cn_session_id d /\ r = Ok (Handshake (cn_session_id d)) /\
      th_conn t = Stream [] re (frame (reply o) ++ frame (final ctx o slot)) []
  | Over None r =>
      r = Ok (Rejected (code at_capacity)) /\ limit < Z.of_nat (length (threads x)) /\
      th_conn t = Stream [] re (frame (reply o) ++ frame (MError at_capacity)) []
  end.

(** Such a thread, the [i]th one, of a system in which its connection was
    accepted with those messages. *)
Definition honest (i : nat) (x : Sys (W := W)) (t : thread) : Prop :=
  whereabouts x t /\ exists acc, sys_ok ctx acc x /\
    acc !! i = Some (d, opened (frame (MClientHello h) ++ frame (MClientFinish fin)) re).

(** The registry takes the session or is full. *)
Lemma upsert_room now pk a sid r e r' :
  reg_wf r -> upsert_handshake now pk a sid r = (Err e, r') ->
  e = AtCapacity /\ max_peers r <= Z.of_nat (size (inner r)).
Proof.
  intros Hwf H. destruct (inner r !! pk) as [p|] eqn:Hp; [by rewrite (upsert_known _ _ _ _ _ _ Hp) in H|].
  destruct (Z.le_gt_cases (max_peers r) (Z.of_nat (size (inner r)))) as [Hs|Hs].
  - rewrite upsert_full in H by done. by injection H as <- _.
  - destruct (upsert_new now pk a sid r Hwf Hp Hs) as (ip & _ & Hu). by rewrite Hu in H.
Qed.

(** One turn of the thread. *)
Lemma honest_turn acc x i t :
  whereabouts x t -> threads x !! i = Some t -> sys_ok ctx acc x ->
  whereabouts (sys_step x (Run i)) (thread_step t (shared x)).1.
Proof.
  intros (Hlim & Hd & Ht) Hi Hok.
  split; [by rewrite sys_step_limit|].
  assert (Hlen : (length (threads x) <= length (threads (sys_step x (Run i))))%nat)
    by (rewrite sys_step_threads; lia).
  revert Hlen. generalize (length (threads (sys_step x (Run i)))). intros n' Hn'.
  pose proof (registry_below_threads acc x i t Hok Hi) as Hroom.
  destruct t as [d' c ph]. cbn [th_draws th_conn th_phase] in *. subst d'.
  unfold Threads.thread_step. cbn [th_phase th_draws th_conn].
  destruct ph as [|se|se slot|se slot|se slot|dn r].
  - subst c. unfold with_conn, opened. rewrite <- (app_nil_r (frame (MClientFinish fin))).
    erewrite (prologue_run debug_message ctx d h None o fin) by done. done.
  - destruct Ht as [-> ->]. specialize (Hroom eq_refl). cbn [registry_step honest_session se_hello se_rekey].
    unfold registry_step. destruct (upsert_handshake _ _ _ _ _) as [[slot|e] reg] eqn:Hu.
    + apply upsert_slot in Hu. by split.
    + apply upsert_room in Hu as [-> Hfull]; [|apply Hok]. unfold finally, with_conn.
      pose proof (fun rg (g : W) dk => reject_run AtCapacity re (frame (reply o)) [] rg g dk) as Hrej.
      cbn [registry_reject_code fst snd] in Hrej. cbn [th_conn registry_reject_code]. rewrite Hrej.
      split; [done|]. cbn [fst th_phase th_conn conn]. split; [done|]. split; [lia|done].
  - destruct Ht as (-> & Hslot & ->). specialize (Hinstall (psk (keys o)) (slot_assigned_ip slot) (sh_wg (shared x))).
    cbn [honest_session se_hello se_outcome]. destruct (install _ _ _ _ _) as [[[]|e] g]; [by split_and!|done].
  - by destruct Ht as (-> & Hslot & ->).
  - destruct Ht as (-> & Hslot & ->). unfold finally, answer, with_conn. cbn [th_conn th_draws].
    erewrite M_bind_Ok by by apply (conn_write (final ctx o slot)).
    cbn. by rewrite Hslot.
  - split; [done|]. destruct dn as [[se slot]|]; [exact Ht|]. destruct Ht as (-> & Hn & ->).
    split; [done|]. split; [lia|done].
Qed.

Lemma honest_step i x e t :
  honest i x t -> threads x !! i = Some t ->
  honest i (sys_step x e) (if runs i e then (thread_step t (shared x)).1 else t).
Proof.
  intros (Hx & acc & Hok & Hacc) Hi. split.
  2:{ exists (acc ++ accepted [e]). split; [by apply sys_step_ok|by apply lookup_app_l_Some]. }
  destruct (runs i e) eqn:He.
  - destruct e as [|j|]; try done. apply bool_decide_eq_true_1 in He as <-. by apply honest_turn with acc.
  - destruct Hx as (Hlim & Hd & Ht). split; [by rewrite sys_step_limit|]. split; [done|].
    pose proof (sys_step_threads debug_message ctx timeout x e) as Hn.
    destruct (th_phase t) as [|se|se slot|se slot|se slot|[[se slot]|] r]; try exact Ht.
    destruct Ht as (-> & Hl & ->). split_and!; [done|lia|done].
Qed.

End honest.

(** ** Properties *)

(** C5. An honest client gets its handshake, whatever the others do.  Its
    connection is accepted at any moment of the life of a server that started
    without peers, and its thread then gets five turns, interleaved in any way
    with the threads of any other connections and with the sweep.  Its connection
    has then returned.  Either it reports the handshake, and the client that reads
    what it was sent returns a configuration with exactly the confirmed session's
    PSK and address, which one of the thread's turns installed for the client's
    key; or the registry was at its limit, which takes more connections than the
    limit, and the client reports the server's refusal. *)
Theorem interleaved_end_to_end {P : Primitives} {L : PrimitiveLaws P} {C : Codecs} {W} {I : PskInstaller W}
    debug ctx timeout d a wgk cd sk ip re re' :
  Transport.sk_connect sk = Ok tt -> Transport.sk_timeouts sk = Ok tt -> Transport.sk_peer sk = Ok ip ->
  cn_timeouts d = Ok tt ->
  (forall psk ip (g : W), (install wgk psk ip a g).1 = Ok tt) ->
  exists to_server, forall s es1 es2,
    reg_wf (sh_registry s) -> inner (sh_registry s) = ∅ ->
    let x := sys_run (W := W) debug ctx timeout es1 (sys_start s) in
    let i := length (threads x) in
    let x' := sys_run debug ctx timeout es2 (sys_step debug ctx timeout x (Accept d (opened to_server re))) in
    (5 <= turns (runs i) es2)%nat ->
    exists t to_client, threads x' !! i = Some t /\ th_conn t = Stream [] re to_client [] /\
      let client := Transport.connect sk (level_of a) wgk (verifying_key_bytes (ctx_identity ctx)) cd
        (opened to_client re') in
      ((exists se slot cfg,
          th_phase t = Over (Some (se, slot)) (Ok (Handshake (cn_session_id d))) /\
          confirmed_session ctx d (opened to_server re) se /\ client_wg_pubkey (se_hello se) = wgk /\
          client = (Ok cfg, Stream [] re' to_server []) /\
          Transport.tc_psk cfg = psk (keys (se_outcome se)) /\
          Transport.tc_assigned_ip cfg = slot_assigned_ip slot /\
          exists es2a es2b, es2 = es2a ++ Run i :: es2b /\
            let y := sys_run debug ctx timeout es2a (sys_step debug ctx timeout x (Accept d (opened to_server re))) in
            sh_wg (shared (sys_step debug ctx timeout y (Run i))) =
              (install wgk (Transport.tc_psk cfg) (Transport.tc_assigned_ip cfg) a (sh_wg (shared y))).2) \/
       (th_phase t = Over None (Ok (Rejected x09)) /\
        max_peers (sh_registry s) < Z.of_nat (length (threads x')) /\
        client = (Err (Transport.Server x09 (lit "server at peer capacity")), Stream [] re' to_server []))).
Proof.
  intros H1 H2 H3 Ht Hinst.
  destruct (honest_client ctx d a wgk cd sk ip re' H1 H2 H3) as (o & fin & Ho & Hsid & Hct & Hdone & Hfull).
  set (h := wire_hello a wgk cd) in *.
  exists (frame (MClientHello h) ++ frame (MClientFinish fin)). intros s es1 es2 Hwf He x i x' Hturns.
  set (t0 := {| th_draws := d; th_conn := opened (frame (MClientHello h) ++ frame (MClientFinish fin)) re;
                th_phase := Hello |}).
  pose proof (sys_run_ok debug ctx timeout [] es1 _ (sys_start_ok ctx s Hwf He)) as Hok. fold x in Hok.
  assert (Hlim : max_peers (sh_registry (shared x)) = max_peers (sh_registry s)) by apply sys_run_limit.
  assert (Hi0 : threads (sys_step debug ctx timeout x (Accept d (th_conn t0))) !! i = Some t0)
    by (cbn [sys_step threads]; by rewrite list_lookup_middle).
  destruct (thread_ends debug ctx timeout
    (honest ctx d h fin o re (max_peers (sh_registry s)) i) es2
    (sys_step debug ctx timeout x (Accept d (th_conn t0))) i t0) as (t & dn & r & Hi & Hp & Hx).
  - intros y e t Hy Hyi. by apply honest_step.
  - split; [split; [by rewrite sys_step_limit|done]|]. eexists. split; [by apply sys_step_ok|].
    unfold i. rewrite <- (ok_length _ _ _ Hok). by apply list_lookup_middle.
  - exact Hi0.
  - exact Hturns.
  - destruct Hx as ((_ & Hd & Hx) & acc & Hok' & Hacc). rewrite Hp in Hx.
    destruct (ok_threads _ _ _ Hok' i t Hi) as (c & Hc & Hto). rewrite Hacc in Hc. injection Hc as _ <-.
    unfold thread_ok, committed in Hto. rewrite Hp, Hd in Hto.
    destruct dn as [[se slot]|].
    + destruct Hx as (-> & Hslot & -> & Hconn). exists t. eexists. split; [exact Hi|]. split; [exact Hconn|].
      left. exists (honest_session h o), slot. eexists. split; [exact Hp|]. split; [exact Hto|]. split; [done|].
      split; [by apply Hdone|]. split; [done|]. split; [done|].
      destruct (install_behind debug ctx timeout es2 _ i t0 t (honest_session h o) slot
        Hi0 eq_refl Hi) as (ea & eb & t1 & -> & Ht1 & Hp1).
      { unfold installed. by rewrite Hp. }
      { unfold committed. by rewrite Hp. }
      exists ea, eb. split; [done|]. by apply (run_install debug ctx timeout _ i t1 (honest_session h o)).
    + destruct Hx as (-> & Hn & Hconn). exists t. eexists. split; [exact Hi|]. split; [exact Hconn|].
      right. split; [exact Hp|]. split; [exact Hn|]. by apply (Hfull at_capacity), (reject_sendable AtCapacity).
Qed.

(** ** Witness

    Beside a connection of the same key and a sweep, on the sample server. *)

Definition before : list (event (P := Toy.prims)) := [Accept other_draws (toy_stream (sid x61) other_tag); Run 0].
Definition beside : list (event (P := Toy.prims)) :=
  [Run 1; Run 0; Sweep 7; Run 1; Sweep 8; Run 0; Run 1; Sweep 8; Run 1; Run 0; Run 1; Run 0].

Lemma interleaved_end_to_end_witness :
  exists to_server t cfg to_client s,
    threads (toy_run beside (sys_step (C := ToyCodecs.codecs) (I := WgTable.installer) no_debug sample_ctx 10
      (toy_run before (sys_start toy_shared)) (Accept sample_draws (opened to_server eof)))) !! 1%nat = Some t /\
    th_conn t = Stream [] eof to_client [] /\
    Transport.connect (P := Toy.prims) sample_socket Algorithm.MlKem768 (key x01)
      (verifying_key_bytes (P := Toy.prims) toy_identity) toy_client (opened to_client eof) = (Ok cfg, s).
Proof.
  destruct toy_shared_wf as [Hwf He].
  destruct (interleaved_end_to_end (L := Toy.laws) (C := ToyCodecs.codecs) (I := WgTable.installer) no_debug sample_ctx
    10 sample_draws ServerWire.MlKem768 (key x01) toy_client sample_socket (Transport.V4 sample_base) eof eof
    eq_refl eq_refl eq_refl eq_refl (fun _ _ _ => eq_refl)) as (ts & H).
  assert (Hi : length (threads (toy_run before (sys_start toy_shared))) = 1%nat) by by rewrite sys_run_threads.
  specialize (H toy_shared before beside Hwf He). cbv zeta in H. rewrite Hi in H.
  destruct H as (t & tc & Ht & Hconn & Hd).
  - apply (bool_decide_unpack _). vm_compute. exact Logic.I.
  - destruct Hd as [(se & slot & cfg & _ & _ & _ & Hc & _)|(_ & Hn & _)].
    + exists ts, t, cfg, tc. eexists. split; [|split; [exact Hconn|exact Hc]].
      exact Ht.
    + rewrite sys_run_threads, sys_step_threads, sys_run_threads in Hn.
      apply Z.lt_nge in Hn. by destruct Hn.
Defined.
