(* ===== verification/Main.v ===== *)
(** * Starting the server

    [server/handshake-server/src/main.rs]: the command line, and what the
    program sets up before it serves.  The result of a start is the system that
    [Threads] runs.  What the program prints is not modelled. *)

From S2P Require Import Prelude Utf8 Io Fs Net ServerWire Primitives.
From S2P Require Import Registry RegistryFacts Tunnel ServerHandshake Server ServerFacts.
From S2P Require Import Agreement EndToEnd Threads.

(** ** Numbers on the command line: [str::parse] *)

Definition u16_try (z : Z) : option u16 :=
  match Bool.bool_dec ((0 <=? z) && (z <? 2 ^ 16)) true with
  | left e => Some (UInt z e)
  | right _ => None
  end.
Definition u16_from_str (l : bytes) : option u16 := z ← uint_from_str (2 ^ 16 - 1) l; u16_try z.
Definition usize_from_str (l : bytes) : option Z := uint_from_str (2 ^ 64 - 1) l.

Lemma u16_from_str_fmt (x : u16) : u16_from_str (fmt_uint x) = Some x.
Proof.
  pose proof (uint_range x). unfold u16_from_str. rewrite uint_from_str_fmt by lia. simpl.
  unfold u16_try. destruct (Bool.bool_dec _ true) as [e|ne].
  - f_equal. by apply uint_eq.
  - destruct (ne (uval_ok x)).
Qed.

(** ** The command line *)

(** The locals of [main] that the flags set. *)
Record Options : Set := {
  bind : rstring;
  identity_path : path;
  wg_interface : option rstring;
  wg_port : u16;
  tunnel_cidr : rstring;
  wg_pubkey_b64 : option rstring;
  peers_file : option path;
  max_peers : Z;
  idle_timeout_secs : Z
}.

Definition default_options : Options := {|
  bind := lit "0.0.0.0:51821";
  identity_path := String.list_byte_of_string "server-identity.seed";
  wg_interface := None;
  wg_port := u16_of_be xca x6c; (* 51820 *)
  tunnel_cidr := lit "10.8.0.0/24";
  wg_pubkey_b64 := None;
  peers_file := None;
  max_peers := DEFAULT_MAX_PEERS;
  idle_timeout_secs := 0
|}.

Inductive Flag : Set :=
  | FBind | FIdentity | FWgInterface | FWgPort | FTunnelCidr | FWgPubkey | FPeersFile | FMaxPeers
  | FIdleTimeoutSecs.

#[export] Instance Flag_eq_dec : EqDecision Flag.
Proof. solve_decision. Defined.

Definition flag_text (f : Flag) : rstring :=
  match f with
  | FBind => lit "--bind"
  | FIdentity => lit "--identity"
  | FWgInterface => lit "--wg-interface"
  | FWgPort => lit "--wg-port"
  | FTunnelCidr => lit "--tunnel-cidr"
  | FWgPubkey => lit "--wg-pubkey"
  | FPeersFile => lit "--peers-file"
  | FMaxPeers => lit "--max-peers"
  | FIdleTimeoutSecs => lit "--idle-timeout-secs"
  end.

Definition flags : list Flag :=
  [FBind; FIdentity; FWgInterface; FWgPort; FTunnelCidr; FWgPubkey; FPeersFile; FMaxPeers;
   FIdleTimeoutSecs].
Definition flag_of (a : rstring) : option Flag := find (fun f => bool_decide (a = flag_text f)) flags.
Definition is_help (a : rstring) : bool := bool_decide (a = lit "-h") || bool_decide (a = lit "--help").

Inductive ArgError : Set :=
  | MissingValue
  | BadNumber (f : Flag)
  | UnknownArgument (a : rstring).

(** One arm of the [match], given the flag's value. *)
Definition set_flag (f : Flag) (v : rstring) (o : Options) : result ArgError Options :=
  let '(Build_Options bind identity iface port cidr pubkey peers max idle) := o in
  match f with
  | FBind => Ok (Build_Options v identity iface port cidr pubkey peers max idle)
  | FIdentity => Ok (Build_Options bind (str_bytes v) iface port cidr pubkey peers max idle)
  | FWgInterface => Ok (Build_Options bind identity (Some v) port cidr pubkey peers max idle)
  | FWgPort =>
      port ← ok_or (BadNumber f) (u16_from_str (str_bytes v));
      mret (Build_Options bind identity iface port cidr pubkey peers max idle)
  | FTunnelCidr => Ok (Build_Options bind identity iface port v pubkey peers max idle)
  | FWgPubkey => Ok (Build_Options bind identity iface port cidr (Some v) peers max idle)
  | FPeersFile => Ok (Build_Options bind identity iface port cidr pubkey (Some (str_bytes v)) max idle)
  | FMaxPeers =>
      max ← ok_or (BadNumber f) (usize_from_str (str_bytes v));
      mret (Build_Options bind identity iface port cidr pubkey peers max idle)
  | FIdleTimeoutSecs =>
      idle ← ok_or (BadNumber f) (u64_from_str (str_bytes v));
      mret (Build_Options bind identity iface port cidr pubkey peers max idle)
  end.

(** What the loop over the arguments comes to: go on with these options, or
    print the usage and exit. *)
Inductive CommandLine : Set := Start (o : Options) | Usage.

Fixpoint parse_args (o : Options) (args : list rstring) : result ArgError CommandLine :=
  match args with
  | [] => Ok (Start o)
  | a :: args =>
      match flag_of a with
      | Some f =>
          match args with
          | [] => Err MissingValue
          | v :: args => o ← set_flag f v o; parse_args o args
          end
      | None => if is_help a then Ok Usage else Err (UnknownArgument a)
      end
  end.

(** ** Setting up *)

Inductive StartError :=
  | IdentityError (p : path) (e : io_error)
  | CidrError (m : rstring)
  | RegistryLoadError (p : path) (e : io_error)
  | QueryPubkeyError (interface : rstring) (e : InstallError)
  | BindError (e : io_error).

Section main.
Context `{P : Primitives} `{C : Codecs} {W : Type} `{G : WgProgram W}.
Context (debug : bytes -> rstring).

Record Host := { host_wg : W; host_disk : fs }.

Definition on_host_wg {E A} : M W E A -> M Host E A :=
  zoom host_wg (fun s h => {| host_wg := s; host_disk := host_disk h |}).
Definition on_host_disk {E A} : M fs E A -> M Host E A :=
  zoom host_disk (fun s h => {| host_wg := host_wg h; host_disk := s |}).

Definition PUB : bytes := String.list_byte_of_string "pub".
Definition PEERS_JSON : bytes := String.list_byte_of_string "peers.json".

Definition pub_path (o : Options) : path := with_extension (identity_path o) PUB.
Definition peers_path (o : Options) : path :=
  match peers_file o with
  | Some p => p
  | None => join (default [dot] (parent (identity_path o))) PEERS_JSON
  end.

(** [Box<dyn PskInstaller>]. *)
Definition installer (o : Options) : PskInstaller W :=
  match wg_interface o with
  | Some iface => WgCli debug iface
  | None => DryRun
  end.

Definition server_wg_pubkey (o : Options) : M Host StartError (arr 32) :=
  match wg_interface o with
  | Some iface => err_into (QueryPubkeyError iface) (on_host_wg (query_pubkey iface))
  | None => mret (default (arr_fill 32 x00) (b ← wg_pubkey_b64 o; wg_key_from_base64 (str_bytes b)))
  end.

(** At start-up there is no connection yet; reconciliation does not use one. *)
Definition reconcile (I : PskInstaller W) (reg : Registry) (h : Host) : Host :=
  let w := reconcile_wg_peers (I := I) (Build_World (mem_stream []) reg (host_wg h) (host_disk h)) in
  {| host_wg := wg w; host_disk := disk w |}.

(** What serving starts from: the context, the installer, the registry, and the
    sweep's timeout if there is a sweep. *)
Record Running := {
  rn_ctx : ServerContext;
  rn_installer : PskInstaller W;
  rn_registry : Registry;
  rn_sweep : option Duration
}.

(** [main] after the arguments.  [seed] is what a new identity would draw,
    [bound] the outcome of binding the listener and asking for its address;
    [None] is a panic while the registry loads. *)
Definition main (o : Options) (seed : arr 32) (bound : result io_error unit) :
    M Host StartError (option Running) :=
  identity ← err_into (IdentityError (identity_path o)) (on_host_disk (load_or_create (identity_path o) seed));
  let vk := verifying_key_bytes identity in
  let vk_hex := hex_encode vk in
  _ ← attempt (on_host_disk (fs_write (pub_path o) (str_bytes vk_hex)));
  subnet_base ← lift (map_err CidrError (parse_cidr (str_bytes (tunnel_cidr o))));
  registry ← err_into (RegistryLoadError (peers_path o))
    (on_host_disk (registry_load (peers_path o) subnet_base (max_peers o)));
  match registry with
  | None => mret None
  | Some registry =>
  server_wg_pubkey ← server_wg_pubkey o;
  let installer := installer o in
  let ctx := {| ctx_identity := identity;
                ctx_tunnel := {| ts_server_wg_pubkey := server_wg_pubkey; ts_wg_port := wg_port o;
                                 ts_subnet_base := subnet_base |} |} in
  _ ← modify (reconcile installer registry);
  let sweep := if 0 <? idle_timeout_secs o then Some (idle_timeout_secs o * NANOS) else None in
  _ ← lift (map_err BindError bound);
  mret (Some {| rn_ctx := ctx; rn_installer := installer; rn_registry := registry; rn_sweep := sweep |})
  end.

(** The system that [serve] runs. *)
Definition serving (r : Running) (h : Host) : Sys :=
  sys_start {| sh_registry := rn_registry r; sh_wg := host_wg h; sh_disk := host_disk h |}.

End main.
Arguments Host W : clear implicits.
Arguments Running {P} W.

(** ** Facts *)

Lemma flag_of_text f : flag_of (flag_text f) = Some f.
Proof. by destruct f; vm_compute. Qed.

Lemma flag_of_Some a f : flag_of a = Some f -> a = flag_text f.
Proof. intros [_ H%bool_decide_eq_true_1]%find_some. done. Qed.

(** A sequence of settings, as the user types it and as the loop applies it. *)
Definition words (ps : list (Flag * rstring)) : list rstring :=
  concat (map (fun fv => [flag_text fv.1; fv.2]) ps).
Fixpoint set_flags (ps : list (Flag * rstring)) (o : Options) : result ArgError Options :=
  match ps with
  | [] => Ok o
  | (f, v) :: ps => o ← set_flag f v o; set_flags ps o
  end.

Lemma parse_flag o f v args :
  parse_args o (flag_text f :: v :: args) = (o ← set_flag f v o; parse_args o args).
Proof. cbn [parse_args]. by rewrite flag_of_text. Qed.

Lemma parse_words ps args o :
  parse_args o (words ps ++ args) = (o ← set_flags ps o; parse_args o args).
Proof.
  revert o. induction ps as [|[f v] ps IH]; intros o; [done|].
  change (words ((f, v) :: ps) ++ args) with (flag_text f :: v :: (words ps ++ args)).
  rewrite parse_flag. cbn [set_flags]. destruct (set_flag f v o) as [o1|]; [|done]. apply IH.
Qed.

(** The text form of given options: every flag whose value is not absent. *)
Definition settings (o : Options) : list (Flag * rstring) :=
  [(FBind, bind o); (FIdentity, from_utf8_lossy (identity_path o))] ++
  (match wg_interface o with Some v => [(FWgInterface, v)] | None => [] end) ++
  [(FWgPort, from_utf8_lossy (fmt_uint (wg_port o))); (FTunnelCidr, tunnel_cidr o)] ++
  (match wg_pubkey_b64 o with Some v => [(FWgPubkey, v)] | None => [] end) ++
  (match peers_file o with Some p => [(FPeersFile, from_utf8_lossy p)] | None => [] end) ++
  [(FMaxPeers, from_utf8_lossy (fmt_uint (max_peers o)));
   (FIdleTimeoutSecs, from_utf8_lossy (fmt_uint (idle_timeout_secs o)))].

(** Options that can be typed: the paths are text, the numbers in range. *)
Definition typable (o : Options) : Prop :=
  utf8_valid (identity_path o) = true /\
  (forall p, peers_file o = Some p -> utf8_valid p = true) /\
  0 <= max_peers o < 2 ^ 64 /\ 0 <= idle_timeout_secs o < 2 ^ 64.

Lemma set_flags_app ps qs o : set_flags (ps ++ qs) o = (o ← set_flags ps o; set_flags qs o).
Proof.
  revert o. induction ps as [|[f v] ps IH]; intros o; [done|]. cbn [app set_flags].
  destruct (set_flag f v o); [|done]. apply IH.
Qed.

Lemma valid_text l : utf8_valid l = true -> str_bytes (from_utf8_lossy l) = l.
Proof. exact (lossy_id l). Qed.

Lemma fmt_uint_text z : str_bytes (from_utf8_lossy (fmt_uint z)) = fmt_uint z.
Proof. apply from_utf8_lossy_ascii, fmt_uint_ascii. Qed.

Lemma set_settings o : typable o -> set_flags (settings o) default_options = Ok o.
Proof.
  destruct o as [b id iface port cidr pk peers max idle]. intros (Hid & Hp & Hm & Hi).
  cbn [identity_path peers_file max_peers idle_timeout_secs] in *. unfold settings.
  cbn [bind identity_path wg_interface wg_port tunnel_cidr wg_pubkey_b64 peers_file max_peers
    idle_timeout_secs].
  rewrite !set_flags_app. unfold default_options.
  cbn [set_flags set_flag mbind result_bind mret result_ret]. rewrite valid_text by done.
  assert (Hport : u16_from_str (str_bytes (from_utf8_lossy (fmt_uint port))) = Some port)
    by (by rewrite fmt_uint_text, u16_from_str_fmt).
  assert (Hmax : usize_from_str (str_bytes (from_utf8_lossy (fmt_uint max))) = Some max).
  { rewrite fmt_uint_text. apply uint_from_str_fmt. lia. }
  assert (Hidle : u64_from_str (str_bytes (from_utf8_lossy (fmt_uint idle))) = Some idle).
  { rewrite fmt_uint_text. apply uint_from_str_fmt. lia. }
  destruct iface, pk, peers as [p|]; cbn [app set_flags set_flag mbind result_bind mret result_ret];
    rewrite Hport; cbn [mbind result_bind ok_or mret result_ret set_flags set_flag];
    rewrite ?valid_text by (by apply Hp); rewrite Hmax; cbn [mbind result_bind ok_or mret result_ret set_flags set_flag];
    rewrite Hidle; done.
Qed.

(** *** What a command line means *)

(** Decimal digits, after an optional [+]. *)
Definition decimal_value (ds : bytes) : Z := foldl (fun z b => 10 * z + (b2z b - 48)) 0 ds.
Definition numeral (max : Z) (v : rstring) (z : Z) : Prop :=
  exists ds, (str_bytes v = ds \/ str_bytes v = x2b :: ds) /\ ds <> [] /\
    Forall (fun b => 48 <= b2z b <= 57) ds /\ z = decimal_value ds /\ z <= max.

(** The flags that take a number, and the largest one each takes. *)
Definition number_flag (f : Flag) : option Z :=
  match f with
  | FWgPort => Some 65535
  | FMaxPeers | FIdleTimeoutSecs => Some 18446744073709551615
  | _ => None
  end.
Definition readable (fv : Flag * rstring) : Prop :=
  match number_flag fv.1 with Some max => exists z, numeral max fv.2 z | None => True end.

(** The value that counts for a flag. *)
Definition last_of (f : Flag) (ps : list (Flag * rstring)) : option rstring :=
  snd <$> list.last (filter (fun fv => fv.1 = f) ps).

(** The options [o'] that settings make of [o], field by field. *)
Definition configured (o : Options) (ps : list (Flag * rstring)) (o' : Options) : Prop :=
  bind o' = default (bind o) (last_of FBind ps) /\
  identity_path o' = from_option str_bytes (identity_path o) (last_of FIdentity ps) /\
  wg_interface o' = from_option Some (wg_interface o) (last_of FWgInterface ps) /\
  from_option (fun v => numeral 65535 v (uval (wg_port o'))) (wg_port o' = wg_port o) (last_of FWgPort ps) /\
  tunnel_cidr o' = default (tunnel_cidr o) (last_of FTunnelCidr ps) /\
  wg_pubkey_b64 o' = from_option Some (wg_pubkey_b64 o) (last_of FWgPubkey ps) /\
  peers_file o' = from_option (fun v => Some (str_bytes v)) (peers_file o) (last_of FPeersFile ps) /\
  from_option (fun v => numeral 18446744073709551615 v (max_peers o')) (max_peers o' = max_peers o)
    (last_of FMaxPeers ps) /\
  from_option (fun v => numeral 18446744073709551615 v (idle_timeout_secs o'))
    (idle_timeout_secs o' = idle_timeout_secs o) (last_of FIdleTimeoutSecs ps).

Lemma decimal_grows l acc : 0 <= acc -> Forall (fun b => 48 <= b2z b <= 57) l ->
  acc <= foldl (fun z b => 10 * z + (b2z b - 48)) acc l.
Proof.
  intros Ha Hl. revert acc Ha. induction Hl as [|b l Hb Hl IH]; intros acc Ha; [done|].
  cbn [foldl]. specialize (IH (10 * acc + (b2z b - 48)) ltac:(lia)). lia.
Qed.

Lemma decimal_nonneg ds : Forall (fun b => 48 <= b2z b <= 57) ds -> 0 <= decimal_value ds.
Proof. by apply decimal_grows. Qed.

Lemma read_digits_iff max l : forall acc z, 0 <= acc <= max ->
  read_digits max acc l = Some z <->
    Forall (fun b => 48 <= b2z b <= 57) l /\ z = foldl (fun z b => 10 * z + (b2z b - 48)) acc l /\ z <= max.
Proof.
  induction l as [|b l IH]; intros acc z Ha; cbn [read_digits foldl].
  { split; [intros [= <-]; split_and!; [constructor|done|lia]|by intros (_ & -> & _)]. }
  unfold digit_val. destruct (Z.leb_spec 48 (b2z b)), (Z.leb_spec (b2z b) 57); cbn [andb mbind option_bind];
    try (split; [done|intros ([Hb _]%Forall_cons_1 & _); lia]).
  destruct (Z.ltb_spec max (10 * acc + (b2z b - 48))) as [Hlt|Hge].
  - split; [done|]. intros ([Hb Hl]%Forall_cons_1 & -> & Hz).
    pose proof (decimal_grows l (10 * acc + (b2z b - 48)) ltac:(lia) Hl). lia.
  - rewrite IH by lia. split; [intros [Hl Hz]; split; [constructor; [lia|done]|done]|].
    by intros ([_ Hl]%Forall_cons_1 & Hz).
Qed.

Lemma uint_from_str_iff max v z :
  0 <= max -> uint_from_str max (str_bytes v) = Some z <-> numeral max v z.
Proof.
  intros Hm. unfold uint_from_str, numeral. set (l := str_bytes v).
  assert (Hr : forall ds, ds <> [] -> match ds with [] => None | digits => read_digits max 0 digits end = Some z <->
    Forall (fun b => 48 <= b2z b <= 57) ds /\ z = decimal_value ds /\ z <= max).
  { intros [|d ds] Hne; [done|]. rewrite read_digits_iff by lia. done. }
  destruct l as [|c r] eqn:El.
  { split; [done|]. by intros (ds & [<-|?] & Hne & _). }
  destruct (decide (c = x2b)) as [->|Hc].
  - split.
    + intros H. exists r. split; [by right|]. destruct r as [|d r]; [done|]. split; [done|]. by apply (Hr (d :: r)).
    + intros (ds & [<-|[= <-]] & Hne & Hds & Hz); [by apply Forall_cons_1 in Hds as [[Hds _] _]; destruct (Hds eq_refl)|].
      destruct r as [|d r]; [done|]. apply (Hr (d :: r)); [done|]. by split.
  - replace (match c with x2b => r | _ => c :: r end) with (c :: r) by (by destruct c).
    rewrite (Hr (c :: r)) by done. split; [intros H; exists (c :: r); split; [by left|]; by split|].
    intros (ds & [<-|Hplus] & _ & Hds); [done|]. by injection Hplus as -> _.
Qed.

Lemma read_number max v :
  0 <= max -> match uint_from_str max (str_bytes v) with
              | Some z => numeral max v z
              | None => ~ exists z, numeral max v z
              end.
Proof.
  intros Hm. destruct (uint_from_str _ _) as [z|] eqn:E; [by apply uint_from_str_iff|].
  intros [z Hz%uint_from_str_iff]; [congruence|done].
Qed.

Lemma read_port v :
  match u16_from_str (str_bytes v) with
  | Some x => numeral 65535 v (uval x)
  | None => ~ exists z, numeral 65535 v z
  end.
Proof.
  pose proof (read_number 65535 v ltac:(lia)) as H. unfold u16_from_str. change (2 ^ 16 - 1) with 65535.
  destruct (uint_from_str 65535 _) as [z|] eqn:E; [|done]. cbn [mbind option_bind]. unfold u16_try.
  destruct (Bool.bool_dec _ true) as [e|ne]; [done|].
  destruct H as (ds & _ & _ & Hds & -> & Hz). exfalso. apply ne.
  pose proof (decimal_nonneg ds Hds).
  lia.
Qed.

Lemma last_of_cons g f v ps :
  last_of g ((f, v) :: ps) =
    match last_of g ps with Some w => Some w | None => if decide (f = g) then Some v else None end.
Proof.
  unfold last_of. destruct (decide (f = g)) as [e|ne].
  - rewrite filter_cons_True by done. rewrite list.last_cons. by destruct (list.last _).
  - rewrite filter_cons_False by done. by destruct (list.last _).
Qed.

(** An arm of the [match] does what its flag means. *)
Lemma set_flag_spec f v o :
  match set_flag f v o with
  | Ok o' => readable (f, v) /\ configured o [(f, v)] o'
  | Err e => e = BadNumber f /\ ~ readable (f, v)
  end.
Proof.
  pose proof (read_port v) as Hport.
  pose proof (read_number 18446744073709551615 v ltac:(lia)) as Hnum.
  destruct o, f; cbn [set_flag]; unfold usize_from_str, u64_from_str;
    try (split; [done|by split_and!]).
  - destruct (u16_from_str _) as [x|]; cbn; [|by split]. split; [by eexists|by split_and!].
  - change (2 ^ 64 - 1) with 18446744073709551615.
    destruct (uint_from_str _ _) as [x|]; cbn; [|by split]. split; [by eexists|by split_and!].
  - change (2 ^ 64 - 1) with 18446744073709551615.
    destruct (uint_from_str _ _) as [x|]; cbn; [|by split]. split; [by eexists|by split_and!].
Qed.

Lemma last_of_one g f v : last_of g [(f, v)] = if decide (f = g) then Some v else None.
Proof. by rewrite last_of_cons. Qed.

Lemma configured_cons o f v ps o1 o' :
  configured o [(f, v)] o1 -> configured o1 ps o' -> configured o ((f, v) :: ps) o'.
Proof.
  unfold configured. rewrite !last_of_one, !last_of_cons.
  intros (H1 & H2 & H3 & H4 & H5 & H6 & H7 & H8 & H9) (G1 & G2 & G3 & G4 & G5 & G6 & G7 & G8 & G9).
  split_and!.
  all: match goal with |- context [last_of ?g ?qs] => destruct (last_of g qs), (decide (f = g)) end.
  all: cbn in *; congruence.
Qed.

(** The loop, against that meaning. *)
Lemma parse_words_Start o ps : Forall readable ps -> exists o', parse_args o (words ps) = Ok (Start o').
Proof.
  intros H. revert o. induction H as [|[f v] ps Hr _ IH]; intros o; [by eexists|].
  change (words ((f, v) :: ps)) with (flag_text f :: v :: words ps). rewrite parse_flag.
  pose proof (set_flag_spec f v o) as Hs. destruct (set_flag f v o) as [o1|e]; [apply IH|by destruct Hs].
Qed.

Lemma parse_words_Usage o ps a rest :
  is_help a = true -> flag_of a = None -> Forall readable ps -> parse_args o (words ps ++ a :: rest) = Ok Usage.
Proof.
  intros Ha Hf H. revert o. induction H as [|[f v] ps Hr _ IH]; intros o.
  { cbn [words map concat app parse_args]. by rewrite Hf, Ha. }
  change (words ((f, v) :: ps) ++ a :: rest) with (flag_text f :: v :: (words ps ++ a :: rest)). rewrite parse_flag.
  pose proof (set_flag_spec f v o) as Hs. destruct (set_flag f v o) as [o1|e]; [apply IH|by destruct Hs].
Qed.

Lemma is_help_iff a : is_help a = true <-> a = lit "-h" \/ a = lit "--help".
Proof. unfold is_help. by rewrite orb_true_iff, !bool_decide_eq_true. Qed.

Lemma parse_args_spec o args :
  match parse_args o args with
  | Ok (Start o') => exists ps, args = words ps /\ Forall readable ps /\ configured o ps o'
  | Ok Usage => exists ps a rest,
      args = words ps ++ a :: rest /\ Forall readable ps /\ (a = lit "-h" \/ a = lit "--help")
  | Err e => exists ps rest, Forall readable ps /\
      match e with
      | UnknownArgument a => args = words ps ++ a :: rest /\
          a <> lit "-h" /\ a <> lit "--help" /\ forall f, a <> flag_text f
      | MissingValue => exists f, args = words ps ++ [flag_text f]
      | BadNumber f => exists v, args = words ps ++ flag_text f :: v :: rest /\ ~ readable (f, v)
      end
  end.
Proof.
  remember (length args) as n eqn:Hn. revert o args Hn.
  induction (lt_wf n) as [n _ IH]; intros o [|a args] Hn; subst n.
  { exists []. by split_and!. }
  cbn [parse_args]. destruct (flag_of a) as [f|] eqn:Ef.
  - apply flag_of_Some in Ef as ->. destruct args as [|v args].
    { exists [], []. split; [constructor|]. by exists f. }
    pose proof (set_flag_spec f v o) as Hs.
    destruct (set_flag f v o) as [o1|e]; cbn [mbind result_bind]; destruct Hs as [Hr Hs].
    2:{ subst e. exists [], args. split; [constructor|]. by exists v. }
    specialize (IH (length args) ltac:(simpl; lia) o1 args eq_refl).
    destruct (parse_args o1 args) as [[o'|]|e].
    + destruct IH as (ps & -> & Hps & Hc). exists ((f, v) :: ps). split; [done|].
      split; [by constructor|]. by eapply configured_cons.
    + destruct IH as (ps & b & rest & -> & Hps & Hb). exists ((f, v) :: ps), b, rest.
      split; [done|]. split; [by constructor|done].
    + destruct IH as (ps & rest & Hps & He). exists ((f, v) :: ps), rest. split; [by constructor|].
      destruct e as [|g|b]; [destruct He as (g & ->); by exists g|..].
      * destruct He as (w & -> & Hw). by exists w.
      * by destruct He as (-> & He).
  - destruct (is_help a) eqn:Eh.
    + exists [], a, args. split; [done|]. split; [constructor|by apply is_help_iff].
    + exists [], args. split; [constructor|]. split; [done|].
      assert (Hno : ~ (a = lit "-h" \/ a = lit "--help")) by (rewrite <- is_help_iff, Eh; done).
      split_and!; [tauto|tauto|]. intros f ->. by rewrite flag_of_text in Ef.
Qed.

Lemma words_inj ps qs : words ps = words qs -> ps = qs.
Proof.
  revert qs. induction ps as [|[f v] ps IH]; intros [|[g w] qs] H; try done.
  change (flag_text f :: v :: words ps = flag_text g :: w :: words qs) in H.
  injection H as Hf -> Hr. apply IH in Hr as ->.
  pose proof (flag_of_text f) as Hfg. rewrite Hf, flag_of_text in Hfg. by injection Hfg as ->.
Qed.

(** ** Properties *)

(** C36. What the command line means, stated without the parser.  It starts the
    server exactly when it is a sequence of flags each with a value, where a
    number is due a decimal numeral (a [+] and leading zeros allowed) that fits
    the type, and then every option holds the last value given for its flag, or
    else what it held before; it asks for help exactly when such a sequence is
    followed by [-h] or [--help]; and otherwise the error names the word after
    such a sequence that is no flag, the missing last value, or the flag whose
    value is no such numeral. *)
Theorem command_line_grammar o args :
  map flag_text [FBind; FIdentity; FWgInterface; FWgPort; FTunnelCidr; FWgPubkey; FPeersFile; FMaxPeers; FIdleTimeoutSecs] =
    map lit ["--bind"; "--identity"; "--wg-interface"; "--wg-port"; "--tunnel-cidr"; "--wg-pubkey"; "--peers-file";
             "--max-peers"; "--idle-timeout-secs"]%string /\
  (forall ps, args = words ps -> Forall readable ps -> exists o', parse_args o args = Ok (Start o')) /\
  (forall ps rest, args = words ps ++ lit "-h" :: rest \/ args = words ps ++ lit "--help" :: rest ->
     Forall readable ps -> parse_args o args = Ok Usage) /\
  match parse_args o args with
  | Ok (Start o') => exists ps, args = words ps /\ Forall readable ps /\ configured o ps o'
  | Ok Usage => exists ps a rest,
      args = words ps ++ a :: rest /\ Forall readable ps /\ (a = lit "-h" \/ a = lit "--help")
  | Err e => exists ps rest, Forall readable ps /\
      match e with
      | UnknownArgument a => args = words ps ++ a :: rest /\
          a <> lit "-h" /\ a <> lit "--help" /\ forall f, a <> flag_text f
      | MissingValue => exists f, args = words ps ++ [flag_text f]
      | BadNumber f => exists v, args = words ps ++ flag_text f :: v :: rest /\ ~ readable (f, v)
      end
  end.
Proof.
  split; [reflexivity|]. split; [intros ps ->; apply parse_words_Start|].
  split; [|apply parse_args_spec]. intros ps rest [-> | ->]; by apply parse_words_Usage.
Qed.

(** The last of two settings counts, and numerals may have a sign and zeros. *)
Lemma command_line_grammar_witness :
  exists o', parse_args default_options
    [lit "--bind"; lit "0.0.0.0:1"; lit "--max-peers"; lit "+007"; lit "--bind"; lit "0.0.0.0:2"] = Ok (Start o') /\
    bind o' = lit "0.0.0.0:2" /\ max_peers o' = 7 /\ wg_port o' = wg_port default_options.
Proof.
  set (ps := [(FBind, lit "0.0.0.0:1"); (FMaxPeers, lit "+007"); (FBind, lit "0.0.0.0:2")]).
  assert (Hps : Forall readable ps).
  { repeat constructor. exists 7, [x30; x30; x37]. split; [by right|]. split; [done|].
    split; [repeat constructor; done|done]. }
  destruct (command_line_grammar default_options (words ps)) as (_ & Hok & _ & Hspec).
  destruct (Hok ps eq_refl Hps) as [o' Ho]. exists o'. split; [exact Ho|]. rewrite Ho in Hspec.
  destruct Hspec as (qs & Hq & _ & Hc).
  assert (qs = ps) as -> by (symmetry; by apply words_inj).
  destruct Hc as (Hb & _ & _ & Hp & _ & _ & _ & (ds & [Hm|Hm] & _ & Hd & -> & _) & _).
  - vm_compute in Hm. subst ds. apply Forall_cons_1 in Hd as [[Hd _] _]. destruct (Hd eq_refl).
  - vm_compute in Hm. injection Hm as <-. split; [exact Hb|]. split; [reflexivity|exact Hp].
Defined.

(** Every typable choice of options has a command line. *)
Lemma command_line_complete o :
  typable o -> parse_args default_options (words (settings o)) = Ok (Start o).
Proof.
  intros H. rewrite <- (app_nil_r (words _)), parse_words, set_settings by done. reflexivity.
Qed.

(** *** Starting *)

Section start_facts.
Context `{P : Primitives} `{L : !PrimitiveLaws P} `{C : Codecs} `{CL : !CodecLaws C}.
Context {W : Type} `{G : WgProgram W} (debug : bytes -> rstring).

(** Reading the interface's key leaves the disk alone and, in a dry run,
    cannot fail. *)
Definition answers (o : Options) : Prop :=
  forall h : Host W, exists pk w', server_wg_pubkey o h = (Ok pk, {| host_wg := w'; host_disk := host_disk h |}).

Lemma dry_run_answers o : wg_interface o = None -> answers o.
Proof. intros H h. unfold server_wg_pubkey. rewrite H. by destruct h; eexists _, _. Qed.

Lemma reconcile_disk (I : PskInstaller W) reg h : host_disk (reconcile I reg h) = host_disk h.
Proof.
  unfold reconcile, reconcile_wg_peers. cbn [wg registry disk conn].
  by destruct (list_installed_peers (host_wg h)) as [[]].
Qed.

(** A start on a working disk, from what its parts do. *)
Lemma main_run o seed w f m id f1 m1 base reg :
  load_or_create (identity_path o) seed (Fs f m []) = (Ok id, Fs f1 m1 []) ->
  parse_cidr (str_bytes (tunnel_cidr o)) = Ok base ->
  (let f2 := <[pub_path o := str_bytes (hex_encode (verifying_key_bytes id))]> f1 in
   registry_load (peers_path o) base (max_peers o) (Fs f2 m1 []) = (Ok (Some reg), Fs f2 m1 [])) ->
  answers o ->
  exists r h, main debug o seed (Ok tt) {| host_wg := w; host_disk := Fs f m [] |} = (Ok (Some r), h) /\
    host_disk h = Fs (<[pub_path o := str_bytes (hex_encode (verifying_key_bytes id))]> f1) m1 [] /\
    ctx_identity (rn_ctx r) = id /\ rn_registry r = reg /\
    ts_subnet_base (ctx_tunnel (rn_ctx r)) = base /\ ts_wg_port (ctx_tunnel (rn_ctx r)) = wg_port o.
Proof.
  intros Hid Hcidr Hreg Hpk. cbv zeta in Hreg. unfold main.
  erewrite M_bind_Ok by (unfold err_into, on_host_disk, zoom; cbn [host_disk]; rewrite Hid; reflexivity). cbv beta zeta.
  erewrite M_bind_Ok by reflexivity. cbv beta. rewrite Hcidr.
  erewrite M_bind_Ok by reflexivity. cbv beta. cbn [host_wg host_disk].
  erewrite M_bind_Ok.
  2:{ unfold err_into, on_host_disk, zoom. cbn [host_disk host_wg]. unfold drop_fault. cbn [files modes faults tail].
      rewrite Hreg. reflexivity. }
  cbv beta iota.
  match goal with |- context [(server_wg_pubkey o ≫= _) ?h] => destruct (Hpk h) as (pk & w' & Hpk') end.
  erewrite M_bind_Ok by exact Hpk'. cbv beta. cbn [host_disk].
  erewrite M_bind_Ok by reflexivity. cbv beta.
  erewrite M_bind_Ok by reflexivity. do 2 eexists. split; [reflexivity|].
  rewrite reconcile_disk. by split_and!.
Qed.

Lemma load_or_create_new p seed f m :
  f !! p = None ->
  load_or_create p seed (Fs f m []) =
    (Ok (ServerIdentity_generate seed), Fs (<[p := arr_list seed]> f) (<[p := 384]> m) []).
Proof.
  intros Hp. unfold load_or_create, attempt, fs_read, mbind, M_bind. simpl.
  rewrite Hp. simpl. destruct (save_ok (ServerIdentity_generate seed) p f m) as (? & Hs & ->).
  unfold drop_fault. simpl. rewrite Hs. simpl. by rewrite dsa_seed.
Qed.

Lemma load_or_create_old p seed seed' f m :
  f !! p = Some (arr_list seed) ->
  load_or_create p seed' (Fs f m []) = (Ok (ServerIdentity_generate seed), Fs f m []).
Proof.
  intros Hp. unfold load_or_create, attempt, fs_read, mbind, M_bind. simpl.
  rewrite Hp. simpl. unfold SEED_LEN. by rewrite arr_try_from_arr.
Qed.

(** ** A start on a server's disk, whatever it meets *)

(** No fault pretends that a file is absent. *)
Definition truthful (fl : list (option fault)) : Prop :=
  Forall (fun x => forall f, x = Some f -> io_kind (f_err f) <> NotFound) fl.

Lemma truthful_next s f : truthful (faults s) -> next_fault s = Some f -> io_kind (f_err f) <> NotFound.
Proof.
  unfold next_fault. intros H Hf. destruct (faults s) as [|x fl]; [done|].
  apply Forall_cons_1 in H as [H _]. apply H. exact Hf.
Qed.
Lemma truthful_tail s : truthful (faults s) -> truthful (tail (faults s)).
Proof. intros H. destruct (faults s); [done|]. by apply Forall_cons_1 in H as [_ H]. Qed.

Lemma load_or_create_kept p seed seed' s r s' :
  files s !! p = Some (arr_list seed) -> truthful (faults s) -> load_or_create p seed' s = (r, s') ->
  files s' = files s /\ faults s' = tail (faults s) /\
  forall id, r = Ok id -> id = ServerIdentity_generate seed.
Proof.
  intros Hp Ht H. unfold load_or_create, attempt, fs_read, mbind, M_bind in H.
  destruct (next_fault s) as [f|] eqn:E; simpl in H.
  - rewrite bool_decide_false in H by by eapply truthful_next. by injection H as <- <-.
  - rewrite Hp in H. simpl in H. unfold SEED_LEN in H. rewrite arr_try_from_arr in H.
    injection H as <- <-. split; [done|]. split; [done|]. by intros id [= <-].
Qed.

Lemma fs_write_other p b s q : q <> p -> files (fs_write p b s).2 !! q = files s !! q.
Proof.
  intros Hq. unfold fs_write. destruct (next_fault s) as [f|]; [destruct (f_partial f); [|done]|]; simpl;
    by rewrite lookup_insert_ne.
Qed.
Lemma fs_write_faults p b s : faults (fs_write p b s).2 = tail (faults s).
Proof. unfold fs_write. by destruct (next_fault s) as [f|]; [destruct (f_partial f)|]. Qed.

Lemma registry_load_faulty p base max s reg :
  truthful (faults s) ->
  registry_load p base max (Fs (files s) (modes s) []) = (Ok (Some reg), Fs (files s) (modes s) []) ->
  exists r, registry_load p base max s = (r, drop_fault s) /\ (r = Ok (Some reg) \/ exists e, r = Err e).
Proof.
  intros Ht H. unfold registry_load, attempt, fs_read, mbind, M_bind in H |- *. cbn in H.
  destruct (next_fault s) as [f|] eqn:E; cbn.
  - rewrite bool_decide_false by by eapply truthful_next. cbn. eauto.
  - destruct (files s !! p) as [b|]; cbn in H |- *.
    + unfold lift in *. destruct (json_from_slice b); cbn in H |- *; [|done].
      injection H as H. rewrite H. eauto.
    + injection H as <-. eauto.
Qed.

Lemma server_wg_pubkey_disk o h r h' : server_wg_pubkey o h = (r, h') -> host_disk h' = host_disk h.
Proof.
  unfold server_wg_pubkey, err_into, on_host_wg, zoom. destruct (wg_interface o); [|by intros [= _ <-]].
  destruct (query_pubkey _ _). by intros [= _ <-].
Qed.

(** However such a start ends, only the verifying key's file may have changed;
    and if it serves, it serves the stored identity and registry. *)
Lemma main_again o seed0 seed bound w s base reg r h :
  pub_path o <> identity_path o -> pub_path o <> peers_path o ->
  parse_cidr (str_bytes (tunnel_cidr o)) = Ok base ->
  files s !! identity_path o = Some (arr_list seed0) -> truthful (faults s) ->
  (forall f m, f !! peers_path o = files s !! peers_path o ->
     registry_load (peers_path o) base (max_peers o) (Fs f m []) = (Ok (Some reg), Fs f m [])) ->
  main debug o seed bound {| host_wg := w; host_disk := s |} = (r, h) ->
  (forall q, q <> pub_path o -> files (host_disk h) !! q = files s !! q) /\
  forall x, r = Ok x -> exists rn, x = Some rn /\
    ctx_identity (rn_ctx rn) = ServerIdentity_generate seed0 /\ rn_registry rn = reg.
Proof.
  intros Hne1 Hne2 Hcidr Hid Ht Hload H. unfold main in H.
  apply M_bind_inv in H as [(id & h1 & H1 & H)|(e & H1 & ->)];
    unfold err_into, on_host_disk, zoom in H1; cbn [host_disk host_wg] in H1;
    destruct (load_or_create _ _ s) as [r1 s1] eqn:Hl;
    destruct (load_or_create_kept _ _ _ _ _ _ Hid Ht Hl) as (Hf1 & Hfl1 & Hr1); injection H1 as H1 <-.
  2:{ split; [intros q _; cbn; by rewrite Hf1|done]. }
  destruct r1 as [id'|]; [|done]. injection H1 as ->. rewrite (Hr1 _ eq_refl) in H. clear Hr1 Hl.
  apply M_bind_inv in H as [(x & h2 & H2 & H)|(? & H2 & _)]; unfold attempt, on_host_disk, zoom in H2;
    cbn [host_disk host_wg] in H2; (destruct (fs_write _ _ s1) as [r2 s2] eqn:Hw); [|done].
  injection H2 as _ <-.
  match type of Hw with fs_write ?p ?b ?d = _ =>
    pose proof (fun q => fs_write_other p b d q) as Hf2; pose proof (fs_write_faults p b d) as Hfl2 end.
  rewrite Hw in Hf2, Hfl2. cbn [snd] in Hf2, Hfl2. rewrite Hf1 in Hf2. rewrite Hfl1 in Hfl2.
  rewrite Hcidr in H. apply M_bind_inv in H as [(b & h3 & H3 & H)|(? & H3 & _)]; [|done]. injection H3 as <- <-.
  assert (Ht2 : truthful (faults s2)) by (rewrite Hfl2, <- Hfl1; apply truthful_tail; rewrite Hfl1; by apply truthful_tail).
  destruct (registry_load_faulty (peers_path o) base (max_peers o) s2 reg Ht2) as (rr & Hrl & Hrr);
    [by apply Hload, Hf2|].
  apply M_bind_inv in H as [(m & h4 & H4 & H)|(e & H4 & ->)]; unfold err_into, on_host_disk, zoom in H4;
    cbn [host_disk host_wg] in H4; rewrite Hrl in H4; injection H4 as H4 <-.
  2:{ split; [exact Hf2|done]. }
  destruct Hrr as [->|[e ->]]; [|done]. injection H4 as <-.
  apply M_bind_inv in H as [(pk & h5 & H5 & H)|(e & H5 & ->)]; apply server_wg_pubkey_disk in H5; cbn [host_disk] in H5.
  2:{ split; [by rewrite H5|done]. }
  apply M_bind_inv in H as [(u & h6 & H6 & H)|(? & H6 & _)]; [|done]. injection H6 as _ <-.
  apply M_bind_inv in H as [(u' & h7 & H7 & H)|(e & H7 & ->)].
  - destruct bound; [|done]. injection H7 as _ <-. injection H as <- <-. rewrite reconcile_disk, H5.
    split; [exact Hf2|]. intros y [= <-]. eexists. split; [reflexivity|]. done.
  - destruct bound; [done|]. injection H7 as _ <-. rewrite reconcile_disk, H5. split; [exact Hf2|done].
Qed.

(** An empty registry in the configured file. *)
Definition fresh_registry (o : Options) (base : arr 4) : Registry :=
  at_path (peers_path o) (Registry_new base (max_peers o)).

Lemma registry_load_absent p base max f m :
  f !! p = None ->
  registry_load p base max (Fs f m []) =
    (Ok (Some (at_path p (Registry_new base max))), Fs f m []).
Proof.
  intros Hp. unfold registry_load, attempt, fs_read, mbind, M_bind. simpl. by rewrite Hp.
Qed.

(** The files of a server that do not get in each other's way. *)
Definition files_apart (o : Options) : Prop :=
  pub_path o <> identity_path o /\ peers_path o <> identity_path o /\ peers_path o <> pub_path o /\
  with_extension (peers_path o) JSON_TMP <> identity_path o.

End start_facts.

(** C22. Starting, stopping and starting again.  On a working disk without the
    server's files the first start draws an identity, saves its seed with mode
    0600 and its verifying key beside it, and serves an empty registry.
    Whatever registry with the same configuration is saved after that, every
    later start with the same options, whatever it would draw, has the same
    identity and that registry, its times cut to whole seconds. *)
Theorem restart_resumes {P : Primitives} {L : PrimitiveLaws P} {C : Codecs} {CL : CodecLaws C}
    {W} {G : WgProgram W} debug o seed base w f m :
  files_apart o -> answers o -> 0 <= max_peers o ->
  parse_cidr (str_bytes (tunnel_cidr o)) = Ok base ->
  f !! identity_path o = None -> f !! peers_path o = None ->
  exists r1 h1 dk,
    main debug o seed (Ok tt) {| host_wg := w; host_disk := Fs f m [] |} = (Ok (Some r1), h1) /\
    host_disk h1 = dk /\ modes dk !! identity_path o = Some 384 /\
    files dk !! pub_path o = Some (str_bytes (hex_encode (verifying_key_bytes (ctx_identity (rn_ctx r1))))) /\
    rn_registry r1 = fresh_registry o base /\ reg_wf (rn_registry r1) /\
    forall reg, reg_wf reg -> set_inner ∅ reg = fresh_registry o base ->
      (forall k q, inner reg !! k = Some q -> peer_storable q) ->
      exists dk', persist reg dk = (Ok tt, dk') /\
      forall w' seed', exists r2 h2,
        main debug o seed' (Ok tt) {| host_wg := w'; host_disk := dk' |} = (Ok (Some r2), h2) /\
        ctx_identity (rn_ctx r2) = ctx_identity (rn_ctx r1) /\
        rn_registry r2 = set_inner (stored <$> inner reg) reg.
Proof.
  intros (H1 & H2 & H3 & H4) Hpk Hmax Hcidr Hid Hpeers.
  set (id := ServerIdentity_generate seed).
  set (f1 := <[pub_path o := str_bytes (hex_encode (verifying_key_bytes id))]>
               (<[identity_path o := arr_list seed]> f)).
  destruct (main_run debug o seed w f m id _ _ base (fresh_registry o base) (load_or_create_new _ seed f m Hid) Hcidr)
    as (r1 & h1 & Hrun & Hdk & Hrid & Hrreg & _); [|done|].
  { apply registry_load_absent. by rewrite !lookup_insert_ne by done. }
  exists r1, h1, (host_disk h1). rewrite Hdk, Hrid, Hrreg.
  split; [exact Hrun|]. split; [done|]. split; [apply lookup_insert_eq|].
  split; [apply lookup_insert_eq|]. split; [done|]. split; [by apply at_path_wf, new_wf|].
  intros reg Hwf Hreg Hst. assert (Hpath : reg_path reg = Some (peers_path o)) by exact (f_equal reg_path Hreg).
  destruct (persist_run reg _ f1 (<[identity_path o := 384]> m) Hpath Hst) as (b & f2 & Hp & Hsaved & Hb & Hsame).
  exists (Fs f2 (<[identity_path o := 384]> m) []). split; [exact Hp|]. intros w' seed'.
  assert (Hseed : f2 !! identity_path o = Some (arr_list seed)).
  { rewrite Hsame by done. unfold f1. by rewrite lookup_insert_ne, lookup_insert_eq. }
  destruct (main_run debug o seed' w' f2 (<[identity_path o := 384]> m) id _ _ base
    (set_inner (stored <$> inner reg) reg) (load_or_create_old _ _ seed' _ _ Hseed) Hcidr)
    as (r2 & h2 & Hrun2 & _ & Hrid2 & Hrreg2 & _); [|done|by exists r2, h2].
  cbv zeta. replace base with (subnet_base reg) by exact (f_equal subnet_base Hreg).
  apply load_saved with b; try done.
  - exact (eq_sym (f_equal Registry.max_peers Hreg)).
  - by rewrite lookup_insert_ne.
Qed.


(** ** Witnesses *)

Definition plain_text : bytes -> rstring := from_utf8_lossy.

Definition sample_options : Options :=
  Build_Options (lit "0.0.0.0:51821") (String.list_byte_of_string "/srv/id.seed") None (u16_of_be x00 x50)
    (from_utf8_lossy (fmt_ip sample_base ++ String.list_byte_of_string "/24")) None None 64 0.

Lemma sample_cidr : parse_cidr (str_bytes (tunnel_cidr sample_options)) = Ok sample_base.
Proof. vm_compute. reflexivity. Qed.

Lemma sample_apart : files_apart sample_options.
Proof. apply (bool_decide_unpack _). vm_compute. exact I. Qed.

(** A registered peer survives a restart of the sample server. *)
Lemma restart_resumes_witness :
  exists r1 h1 dk r2 h2,
    main (P := Toy.prims) (C := ToyCodecs.codecs) (G := sample_wg) plain_text sample_options (key x07) (Ok tt)
      {| host_wg := tt; host_disk := mkfs ∅ |} = (Ok (Some r1), h1) /\
    persist (C := ToyCodecs.codecs) (at_path (peers_path sample_options) one_peer) (host_disk h1) = (Ok tt, dk) /\
    main (P := Toy.prims) (C := ToyCodecs.codecs) (G := sample_wg) plain_text sample_options (key x08) (Ok tt)
      {| host_wg := tt; host_disk := dk |} = (Ok (Some r2), h2) /\
    ctx_identity (rn_ctx r2) = ctx_identity (rn_ctx r1).
Proof.
  edestruct (restart_resumes (L := Toy.laws) (CL := ToyCodecs.laws) (G := sample_wg) plain_text sample_options
    (key x07) sample_base tt ∅ ∅) as (r1 & h1 & dk & Hrun & Hdk & _ & _ & _ & _ & Hre).
  - apply sample_apart.
  - apply dry_run_answers. reflexivity.
  - discriminate.
  - apply sample_cidr.
  - reflexivity.
  - reflexivity.
  - edestruct (Hre (at_path (peers_path sample_options) one_peer)) as (dk' & Hp & Hagain).
    + apply at_path_wf, one_peer_wf.
    + reflexivity.
    + apply one_peer_storable.
    + destruct (Hagain tt (key x08)) as (r2 & h2 & Hrun2 & Hid & _).
      exists r1, h1, dk', r2, h2. subst dk. auto.
Defined.

Definition pub_options : Options :=
  Build_Options (lit "0.0.0.0:51821") (String.list_byte_of_string "vpn.pub") None (u16_of_be x00 x50)
    (from_utf8_lossy (fmt_ip sample_base ++ String.list_byte_of_string "/24")) None None 64 0.

Lemma pub_cidr : parse_cidr (str_bytes (tunnel_cidr pub_options)) = Ok sample_base.
Proof. vm_compute. reflexivity. Qed.
Lemma pub_clash : pub_path pub_options = identity_path pub_options /\ peers_path pub_options <> identity_path pub_options.
Proof. split; [by vm_compute | by apply (bool_decide_unpack _); vm_compute]. Qed.


(** The sample options as a command line. *)
Lemma command_line_complete_witness :
  parse_args default_options (words (settings sample_options)) = Ok (Start sample_options).
Proof.
  apply command_line_complete. split; [reflexivity|]. split; [intros p [=]|]. by split; split.
Defined.
