(* ===== verification/Recovery.v ===== *)
(** * Crashes

    A server may die at any point between two steps of its threads, and a start
    may fail.  What is left is its disk.  This file follows the registry from one
    life of the server to the next: which of the states that a life went through
    does the following start resume from. *)

From S2P Require Import Prelude Utf8 Io Fs Net ServerWire Primitives.
From S2P Require Import Registry RegistryFacts Tunnel ServerHandshake Server ServerFacts.
From S2P Require Import Agreement EndToEnd Threads Main.

(** ** Clocks *)

(** A Unix [SystemTime] counts at most [2 ^ 63] seconds. *)
Definition shows (now : SystemTime) : Prop := now < 2 ^ 63 * NANOS.

Definition timely_op (o : op) : Prop :=
  match o with
  | OpUpsert now _ _ _ | OpRekey now _ _ _ | OpTouch now _ => shows now
  | OpRemove _ => True
  end.

Lemma storable_insert r k p : storable r -> peer_storable p -> storable (set_inner (<[k := p]> (inner r)) r).
Proof.
  intros Hr Hp j q Hq. simpl in Hq. apply lookup_insert_Some in Hq as [[_ <-]|[_ Hq]]; [done|].
  by apply (Hr j).
Qed.

Lemma apply_op_storable o r : timely_op o -> storable r -> storable (apply_op o r).
Proof.
  intros Ho Hr. destruct o as [now pk a s|now pk c a|pk|now pk]; cbn [timely_op apply_op] in *; unfold shows in *.
  - unfold upsert_handshake. destruct (inner r !! pk) as [p|] eqn:Hp.
    + destruct (Hr _ _ Hp) as (H1 & _). apply storable_insert; [done|]. split_and!; simpl; [exact H1|done|lia|done].
    + case_match; [done|]. case_match; [|done]. apply storable_insert; [done|]. split_and!; simpl; done || lia.
  - unfold registry_rekey. destruct (inner r !! pk) as [p|] eqn:Hp; [|done].
    case_match; [done|]. case_match; [done|]. destruct (Hr _ _ Hp) as (H1 & _).
    apply storable_insert; [done|]. unfold peer_storable. simpl. unfold u32_wrap.
    pose proof (Z.mod_pos_bound (rekeys p + 1) (2 ^ 32)). split_and!; [exact H1|done|lia|lia].
  - intros k q Hk. simpl in Hk. apply lookup_delete_Some in Hk as [_ Hk]. by apply (Hr k).
  - unfold touch. destruct (inner r !! pk) as [p|] eqn:Hp; [|done]. destruct (Hr _ _ Hp) as (H1 & _ & H3).
    apply storable_insert; [done|]. split_and!; simpl; [exact H1|done|apply H3|apply H3].
Qed.

(** ** What a load makes of a registry *)

Definition reloaded (r : Registry) : Registry := set_inner (stored <$> inner r) r.

Lemma trunc_trunc t : trunc (trunc t) = trunc t.
Proof.
  unfold trunc, epoch, duration_since, NANOS. destruct (Z.leb_spec 0 t); simpl; [|reflexivity].
  rewrite Z.sub_0_r. pose proof (Z.div_pos t (10 ^ 9) ltac:(lia) ltac:(lia)).
  rewrite (proj2 (Z.leb_le 0 (t / 10 ^ 9 * 10 ^ 9))) by lia. simpl. rewrite Z.sub_0_r, Z.div_mul by lia. done.
Qed.

Lemma stored_stored p : stored (stored p) = stored p.
Proof. unfold stored. simpl. by rewrite !trunc_trunc. Qed.

Lemma reloaded_idem r : reloaded (reloaded r) = reloaded r.
Proof.
  unfold reloaded. destruct r. unfold set_inner. simpl. f_equal. rewrite <- map_fmap_compose.
  apply map_fmap_ext. intros k p _. apply stored_stored.
Qed.

Lemma trunc_shows t : shows t -> shows (trunc t).
Proof. intros H%epoch_range. unfold shows, trunc, NANOS. nia. Qed.

Lemma reloaded_storable r : storable r -> storable (reloaded r).
Proof.
  intros H k q (p & Hp & ->)%lookup_fmap_Some_eq. destruct (H _ _ Hp) as (H1 & H2 & H3).
  split_and!; simpl; [by apply trunc_shows|by apply trunc_shows|apply H3|apply H3].
Qed.

Lemma reloaded_empty r : inner r = ∅ -> reloaded r = r.
Proof. intros H. unfold reloaded. rewrite H, fmap_empty, <- H. by destruct r. Qed.

(** ** One step of the system *)

Section steps.
Context `{P : Primitives} `{C : Codecs} {W : Type} `{I : PskInstaller W}.
Context (debug_message : Message -> rstring) (ctx : ServerContext) (timeout : Duration).

(** What a step does to the registry and the disk: one operation on the
    registry, or a save of it, or neither.  [N] holds unless it is a save. *)
Inductive effect (N : Prop) (s s' : Shared (W := W)) : Prop :=
  | effect_op o : N -> timely_op o -> sh_registry s' = apply_op o (sh_registry s) ->
      sh_disk s' = sh_disk s -> effect N s s'
  | effect_save : sh_registry s' = sh_registry s ->
      sh_disk s' = (persist (sh_registry s) (sh_disk s)).2 -> effect N s s'
  | effect_none : N -> sh_registry s' = sh_registry s -> sh_disk s' = sh_disk s -> effect N s s'.

Lemma effect_mono (N N' : Prop) s s' : (N -> N') -> effect N s s' -> effect N' s s'.
Proof.
  intros HN [o ? ? ? ?|? ?|? ? ?]; [apply effect_op with o|apply effect_save|apply effect_none]; auto.
Qed.

(** The thread has got past saving: it is about to answer its client, or has
    answered it. *)
Definition answering (t : thread) : bool :=
  match th_phase t with
  | Answer _ _ | Over (Some _) (Ok _) => true
  | _ => false
  end.

Lemma registry_step_op d h rs r :
  shows (cn_now d) -> exists o, timely_op o /\ (registry_step d h rs r).2 = apply_op o r.
Proof.
  intros H. destruct rs as [s|].
  - by exists (OpRekey (cn_now d) (client_wg_pubkey h) s (ch_algo h)).
  - by exists (OpUpsert (cn_now d) (client_wg_pubkey h) (ch_algo h) (cn_session_id d)).
Qed.

Lemma thread_step_effect t s t' s' :
  thread_step debug_message ctx t s = (t', s') -> shows (cn_now (th_draws t)) ->
  th_draws t' = th_draws t /\ effect (answering t' = true -> answering t = true) s s'.
Proof.
  destruct t as [d c ph]. unfold thread_step. cbn [th_phase th_draws th_conn]. intros H Hd.
  destruct ph as [|se|se slot|se slot|se slot|dn r].
  - destruct (prologue _ _ _ _) as [r w] eqn:Hp. injection H as <- <-.
    apply prologue_inv in Hp as [(Hr & _ & Hk) _]. split; [done|]. apply effect_none; [|done..].
    unfold answering. simpl. by repeat case_match.
  - destruct (registry_step_op d (se_hello se) (se_rekey se) (sh_registry s) Hd) as (o & Ho & Hreg).
    destruct (registry_step _ _ _ _) as [[slot|e] reg]; simpl in Hreg.
    + injection H as <- <-. split; [done|]. by apply effect_op with o.
    + destruct (registry_reject_code e) as [code msg]. apply finally_inv in H as (-> & Hd' & r & Hr); [|apply quiet_reject].
      split; [done|]. apply effect_op with o; try done. unfold answering. by rewrite Hr.
  - destruct (install _ _ _ _ _) as [[u|e] g].
    + injection H as <- <-. split; [done|]. by apply effect_none.
    + pose proof H as H0. apply finally_inv in H as (-> & Hd' & r & Hr); [|apply quiet_refuse].
      split; [done|]. apply effect_none; try done. revert H0. unfold finally.
      destruct (refuse_install e _) as [x w] eqn:Hx. intros [= <- _].
      apply refuse_install_Err in Hx as [y ->]. done.
  - injection H as <- <-. split; [done|]. by apply effect_save.
  - apply finally_inv in H as (-> & Hd' & r & Hr); [|apply quiet_answer]. split; [done|]. by apply effect_none.
  - injection H as <- <-. split; [done|]. by apply effect_none.
Qed.

Lemma sweep_step_effect clock sw s sw' s' :
  sweep_step timeout clock sw s = (sw', s') -> shows clock -> effect True s s'.
Proof.
  intros H Hc. destruct sw as [|hs|hs now [|pk pks] n|hs now pk pks n|]; cbn [sweep_step] in H.
  - destruct (last_handshakes _) as [r g]. injection H as <- <-. by apply effect_none.
  - injection H as <- <-. by apply effect_none.
  - injection H as <- <-. destruct (0 <? n); [by apply effect_save|by apply effect_none].
  - destruct (live _ _ _ _); injection H as <- <-.
    + by apply effect_op with (OpTouch clock pk).
    + by apply effect_op with (OpRemove pk).
  - injection H as <- <-. by apply effect_none.
  - injection H as <- <-. by apply effect_none.
Qed.

(** The event's clock is one that a [SystemTime] can show. *)
Definition timely (e : event) : Prop :=
  match e with
  | Accept d _ => shows (cn_now d)
  | Run _ => True
  | Sweep clock => shows clock
  end.

Definition timely_threads (x : Sys (W := W)) : Prop := Forall (fun t => shows (cn_now (th_draws t))) (threads x).

(** Whoever is answering in [x'] was answering in [x]. *)
Definition no_new_answer (x x' : Sys (W := W)) : Prop :=
  forall i t', threads x' !! i = Some t' -> answering t' = true ->
    exists t, threads x !! i = Some t /\ answering t = true.

Lemma sys_step_effect x e :
  timely e -> timely_threads x ->
  let x' := sys_step debug_message ctx timeout x e in
  timely_threads x' /\ effect (no_new_answer x x') (shared x) (shared x').
Proof.
  intros He Hx. destruct e as [d c|i|clock]; cbn [sys_step timely] in *.
  - split; [by apply Forall_app_2; [|apply Forall_singleton]|]. apply effect_none; [|done..].
    intros j t' [Hj|[_ Hj]]%lookup_app_Some Ha; [by eexists|].
    apply list_lookup_singleton_Some in Hj as [_ <-]. discriminate Ha.
  - destruct (threads x !! i) as [t|] eqn:Hi.
    2:{ split; [done|]. apply effect_none; [|done..]. intros j t' Hj Ha. by eexists. }
    destruct (thread_step debug_message ctx t (shared x)) as [t1 s1] eqn:Ht.
    pose proof (proj1 (Forall_lookup _ _) Hx i t Hi) as Hd.
    destruct (thread_step_effect _ _ _ _ Ht Hd) as (Hdr & He').
    split; [by apply Forall_insert; [|rewrite Hdr]|]. eapply effect_mono, He'. intros Ha' j t' Hj Ha.
    apply list_lookup_insert_Some in Hj as [(<- & <- & _)|[_ Hj]]; [exists t; auto|by eexists].
  - destruct (sweep_step timeout clock (sweeper x) (shared x)) as [sw s] eqn:Hs. split; [done|].
    eapply effect_mono, (sweep_step_effect _ _ _ _ _ Hs He). intros _ j t' Hj Ha. by eexists.
Qed.

End steps.

(** ** The lives of a server *)

Section lives.
Context `{P : Primitives} `{L : !PrimitiveLaws P} `{C : Codecs} `{CL : !CodecLaws C}.
Context {W : Type} `{G : WgProgram W}.
Context (debug : bytes -> rstring) (debug_message : Message -> rstring) (o : Options) (base : arr 4).

(** A life: what its start draws and finds of the interface, the faults that the
    start meets on the disk and the outcome of binding the listener, the faults of
    the disk while it serves, and its events up to the crash.  A start that is
    killed leaves the disk as one that fails there: past reading, its only
    access to the disk is to write the verifying key. *)
Record life := {
  lf_seed : arr 32;
  lf_wg : W;
  lf_start_faults : list (option fault);
  lf_bound : result io_error unit;
  lf_faults : list (option fault);
  lf_events : list event
}.

Definition with_faults (fl : list (option fault)) (dk : fs) : fs := Fs (files dk) (modes dk) fl.

Definition start (l : life) (dk : fs) : result StartError (option (Running W)) * Host W :=
  main debug o (lf_seed l) (lf_bound l) {| host_wg := lf_wg l; host_disk := with_faults (lf_start_faults l) dk |}.

(** Nothing hinders the start. *)
Definition calm (l : life) : Prop := lf_start_faults l = [] /\ lf_bound l = Ok tt.

(** The system after some of a life's events. *)
Definition life_after (l : life) (r : Running W) (h : Host W) (es : list event) : Sys :=
  sys_run (I := rn_installer r) debug_message (rn_ctx r) (default 0 (rn_sweep r)) es
    (serving r {| host_wg := host_wg h; host_disk := with_faults (lf_faults l) (host_disk h) |}).

(** The disk that a sequence of lives leaves; a life whose start fails ends there. *)
Fixpoint outlive (ls : list life) (dk : fs) : fs :=
  match ls with
  | [] => dk
  | l :: ls =>
      match start l dk with
      | (Ok (Some r), h) => outlive ls (sh_disk (shared (life_after l r h (lf_events l))))
      | (_, h) => outlive ls (host_disk h)
      end
  end.

(** The clocks are in range and no fault of the start pretends a file is absent. *)
Definition sound_life (l : life) : Prop := Forall timely (lf_events l) /\ truthful (lf_start_faults l).

(** *** What a disk stands for *)

(** A registry with the server's configuration that a save can write. *)
Record savable (r : Registry) : Prop := {
  sv_config : set_inner ∅ r = fresh_registry o base;
  sv_wf : reg_wf r;
  sv_storable : storable r
}.

Lemma apply_op_savable op r : timely_op op -> savable r -> savable (apply_op op r).
Proof.
  intros Hop [Hc Hw Hs]. destruct (apply_op_config op r) as (H1 & H2 & H3).
  split; [|by apply apply_op_wf|by apply apply_op_storable].
  rewrite <- Hc. unfold set_inner. by rewrite H1, H2, H3.
Qed.

Lemma reloaded_savable r : savable r -> savable (reloaded r).
Proof. intros [Hc Hw Hs]. split; [exact Hc|by apply stored_wf|by apply reloaded_storable]. Qed.

Lemma fresh_savable : 0 <= max_peers o -> savable (fresh_registry o base).
Proof. intros H. split; [done|by apply at_path_wf, new_wf|]. by intros k q Hq. Qed.

(** The next start will load [r], whatever the other files hold. *)
Definition recovers (dk : fs) (r : Registry) : Prop :=
  forall f m, f !! peers_path o = files dk !! peers_path o ->
    registry_load (peers_path o) base (max_peers o) (Fs f m []) = (Ok (Some (reloaded r)), Fs f m []).

Lemma absent_recovers dk : files dk !! peers_path o = None -> recovers dk (fresh_registry o base).
Proof.
  intros H f m Hf. rewrite registry_load_absent by by rewrite Hf. by rewrite reloaded_empty.
Qed.

Lemma saved_recovers dk r json :
  savable r -> saved_as r json -> files dk !! peers_path o = Some json -> recovers dk r.
Proof.
  intros [Hc Hw Hs] Hj Hf f m Hf'. rewrite Hf in Hf'. unfold reloaded.
  rewrite <- (f_equal subnet_base Hc : subnet_base r = base).
  apply load_saved with json; try done.
  - exact (f_equal reg_path Hc).
  - exact (eq_sym (f_equal Registry.max_peers Hc)).
Qed.

Lemma recovers_same dk dk' r :
  files dk' !! peers_path o = files dk !! peers_path o -> recovers dk r -> recovers dk' r.
Proof. intros H Hr f m Hf. apply Hr. by rewrite Hf. Qed.

Lemma recovers_reloaded dk r : recovers dk r -> recovers dk (reloaded r).
Proof. intros H f m Hf. rewrite reloaded_idem. by apply H. Qed.

(** A save leaves a disk that recovers what it did, or the saved registry; the
    latter if no fault strikes. *)
Lemma persist_recovers dk r r0 :
  savable r -> recovers dk r0 ->
  let dk' := (persist r dk).2 in
  (recovers dk' r0 \/ recovers dk' r) /\ (faults dk = [] -> recovers dk' r /\ faults dk' = []) /\
  forall q, q <> peers_path o -> q <> with_extension (peers_path o) JSON_TMP -> files dk' !! q = files dk !! q.
Proof.
  intros Hr H0. pose proof (f_equal reg_path (sv_config r Hr) : reg_path r = Some (peers_path o)) as Hp.
  destruct (persist_files r _ dk Hp) as [H1 H2]. split; [|split; [|exact H2]].
  - destruct H1 as [H1|(json & Hj & H1)]; [left; by eapply recovers_same|right; by eapply saved_recovers].
  - intros Hf. destruct dk as [f m fl]. simpl in Hf. subst fl.
    destruct (persist_run r _ f m Hp (sv_storable r Hr)) as (json & f' & Hrun & Hj & Hf' & _).
    rewrite Hrun. split; [by eapply saved_recovers|done].
Qed.

(** The disk of a server with identity [seed]. *)
Definition holds (seed : arr 32) (dk : fs) (r : Registry) : Prop :=
  files dk !! identity_path o = Some (arr_list seed) /\ recovers dk r.

(** A start on such a disk leaves such a disk; if it serves, it serves what the
    disk stands for; and if nothing hinders it, it serves. *)
Lemma start_holds l seed dk r x h :
  files_apart o -> parse_cidr (str_bytes (tunnel_cidr o)) = Ok base -> truthful (lf_start_faults l) ->
  holds seed dk r -> start l dk = (x, h) ->
  holds seed (host_disk h) r /\
  forall y, x = Ok y -> exists rn, y = Some rn /\
    ctx_identity (rn_ctx rn) = ServerIdentity_generate seed /\ rn_registry rn = reloaded r.
Proof.
  intros (H1 & H2 & H3 & H4) Hcidr Ht [Hid Hrec] Hs.
  destruct (main_again debug o seed _ _ _ (with_faults (lf_start_faults l) dk) base (reloaded r) _ _
    ltac:(done) ltac:(done) Hcidr Hid Ht Hrec Hs) as [Hf Hx].
  split; [|exact Hx]. split; [by rewrite Hf|]. eapply recovers_same; [|exact Hrec]. by rewrite Hf.
Qed.

Lemma start_runs l seed dk r :
  files_apart o -> answers o -> parse_cidr (str_bytes (tunnel_cidr o)) = Ok base -> calm l ->
  holds seed dk r -> exists rn h, start l dk = (Ok (Some rn), h).
Proof.
  intros (H1 & H2 & H3 & H4) Hpk Hcidr [Hfl Hb] [Hid Hrec]. unfold start. rewrite Hfl, Hb.
  destruct (main_run debug o (lf_seed l) (lf_wg l) (files dk) (modes dk) _ _ _ base (reloaded r)
    (load_or_create_old _ seed _ _ _ Hid) Hcidr) as (rn & h & Hrun & _); [|done|by exists rn, h].
  cbv zeta. apply Hrec. by rewrite lookup_insert_ne.
Qed.

Lemma start_fresh l f m :
  files_apart o -> answers o -> parse_cidr (str_bytes (tunnel_cidr o)) = Ok base -> calm l ->
  f !! identity_path o = None -> f !! peers_path o = None ->
  exists rn h, start l (Fs f m []) = (Ok (Some rn), h) /\
    ctx_identity (rn_ctx rn) = ServerIdentity_generate (lf_seed l) /\
    rn_registry rn = fresh_registry o base /\ holds (lf_seed l) (host_disk h) (fresh_registry o base).
Proof.
  intros (H1 & H2 & H3 & H4) Hpk Hcidr [Hfl Hb] Hid Hpeers. unfold start. rewrite Hfl, Hb.
  destruct (main_run debug o (lf_seed l) (lf_wg l) f m _ _ _ base (fresh_registry o base)
    (load_or_create_new _ (lf_seed l) _ _ Hid) Hcidr) as (rn & h & Hrun & Hdk & Hrid & Hreg & _); [|done|].
  { apply registry_load_absent. by rewrite !lookup_insert_ne by done. }
  exists rn, h. split; [exact Hrun|]. split; [done|]. split; [done|]. rewrite Hdk. split.
  - cbn [files]. by rewrite lookup_insert_ne, lookup_insert_eq by done.
  - apply absent_recovers. cbn [files]. by rewrite !lookup_insert_ne by done.
Qed.

(** What holds after every prefix of a life: the disk stands for the registry
    after a prefix of that, and without faults every connection that is
    answering by now was answering by then. *)
Lemma life_prefix seed l rn h es :
  files_apart o -> Forall timely es -> savable (rn_registry rn) -> holds seed (host_disk h) (rn_registry rn) ->
  let x := life_after l rn h es in
  timely_threads x /\ savable (sh_registry (shared x)) /\
  exists es1 es2, es = es1 ++ es2 /\ savable (sh_registry (shared (life_after l rn h es1))) /\
    holds seed (sh_disk (shared x)) (sh_registry (shared (life_after l rn h es1))) /\
    (lf_faults l = [] -> faults (sh_disk (shared x)) = [] /\ no_new_answer (life_after l rn h es1) x).
Proof.
  intros Hap Hes Hsv Hh. induction es as [|e es IH] using rev_ind; intros x.
  { split; [by apply Forall_nil|]. split; [exact Hsv|]. exists [], []. split; [done|]. split; [exact Hsv|].
    split; [exact Hh|]. intros Hf. split; [exact Hf|]. intros i t Hi Ha. by exists t. }
  apply Forall_app in Hes as [Hes [He _]%Forall_cons_1].
  destruct (IH Hes) as (Htt & Hx & es1 & es2 & Hes12 & Hx1 & [Hid Hrec] & Hnf). clear IH.
  assert (Hstep : x = sys_step (I := rn_installer rn) debug_message (rn_ctx rn) (default 0 (rn_sweep rn)) (life_after l rn h es) e)
    by (subst x; unfold life_after, sys_run; by rewrite foldl_app).
  destruct (sys_step_effect (I := rn_installer rn) debug_message (rn_ctx rn) (default 0 (rn_sweep rn)) _ e He Htt)
    as [Htt' Heff]. rewrite <- Hstep in Htt', Heff. split; [exact Htt'|].
  assert (Hkeep : sh_disk (shared x) = sh_disk (shared (life_after l rn h es)) -> no_new_answer (life_after l rn h es) x ->
    exists es1 es2, es ++ [e] = es1 ++ es2 /\ savable (sh_registry (shared (life_after l rn h es1))) /\
      holds seed (sh_disk (shared x)) (sh_registry (shared (life_after l rn h es1))) /\
      (lf_faults l = [] -> faults (sh_disk (shared x)) = [] /\ no_new_answer (life_after l rn h es1) x)).
  { intros Hd Hn. exists es1, (es2 ++ [e]). split; [by rewrite Hes12, app_assoc|]. split; [done|]. split; [by rewrite Hd|]. rewrite Hd.
    intros [Hf Hn1]%Hnf. split; [done|]. intros i t Hi Ha. destruct (Hn i t Hi Ha) as (t1 & Hi1 & Ha1). by eapply Hn1. }
  destruct Heff as [op Hn Hop Hreg Hd|Hreg Hd|Hn Hreg Hd].
  - rewrite Hreg. split; [by apply apply_op_savable|auto].
  - rewrite Hreg. split; [done|]. destruct Hap as (_ & H2 & _ & H4).
    destruct (persist_recovers _ _ _ Hx Hrec) as (Hor & Hok & Hsame). rewrite <- Hd in Hor, Hok, Hsame.
    assert (Hid' : files (sh_disk (shared x)) !! identity_path o = Some (arr_list seed)) by by rewrite Hsame.
    destruct (lf_faults l) as [|fl fls].
    + destruct (Hnf eq_refl) as [Hf _]. destruct (Hok Hf) as [Hr Hf']. exists (es ++ [e]), [].
      rewrite app_nil_r. fold x. rewrite Hreg. split; [done|]. split; [done|]. split; [done|]. intros _. split; [done|].
      intros i t Hi Ha. by exists t.
    + destruct Hor as [Hr|Hr]; [exists es1, (es2 ++ [e])|exists es, [e]]; (split; [by rewrite ?Hes12, ?app_assoc|]); by split_and!.
  - rewrite Hreg. split; [done|auto].
Qed.

(** A start, and the life that follows it. *)
Definition serves (seed : arr 32) (rn : Running W) (h : Host W) : Prop :=
  ctx_identity (rn_ctx rn) = ServerIdentity_generate seed /\ savable (rn_registry rn) /\
  holds seed (host_disk h) (rn_registry rn).

Lemma start_serves l seed dk r rn h :
  files_apart o -> parse_cidr (str_bytes (tunnel_cidr o)) = Ok base -> truthful (lf_start_faults l) ->
  holds seed dk r -> savable r -> start l dk = (Ok (Some rn), h) ->
  rn_registry rn = reloaded r /\ serves seed rn h.
Proof.
  intros Hap Hcidr Ht Hh Hr Hs.
  destruct (start_holds l seed dk r _ _ Hap Hcidr Ht Hh Hs) as ([Hf Hrec] & Hx).
  destruct (Hx _ eq_refl) as (rn' & [= <-] & Hid & Hreg).
  split; [done|]. split; [done|]. rewrite Hreg.
  split; [by apply reloaded_savable|]. split; [done|]. by apply recovers_reloaded.
Qed.

Lemma start_serves_fresh l f m :
  files_apart o -> answers o -> 0 <= max_peers o -> parse_cidr (str_bytes (tunnel_cidr o)) = Ok base -> calm l ->
  f !! identity_path o = None -> f !! peers_path o = None ->
  exists rn h, start l (Fs f m []) = (Ok (Some rn), h) /\ serves (lf_seed l) rn h.
Proof.
  intros Hap Hpk Hmax Hcidr Hc Hid Hpeers.
  destruct (start_fresh l f m Hap Hpk Hcidr Hc Hid Hpeers) as (rn & h & Hs & Hrid & Hreg & Hh).
  exists rn, h. split; [done|]. split; [done|]. rewrite Hreg. split; [by apply fresh_savable|done].
Qed.

(** A life that serves leaves a disk that stands for a savable registry. *)
Lemma life_leaves seed l rn h :
  files_apart o -> sound_life l -> serves seed rn h ->
  exists r, holds seed (sh_disk (shared (life_after l rn h (lf_events l)))) r /\ savable r.
Proof.
  intros Hap [Hl _] (_ & Hsv & Hh).
  destruct (life_prefix _ l rn h (lf_events l) Hap Hl Hsv Hh) as (_ & _ & es1 & _ & _ & Hx & Hx' & _). by eexists.
Qed.

(** So does any sequence of lives on such a disk. *)
Lemma outlive_keeps ls seed dk r :
  files_apart o -> parse_cidr (str_bytes (tunnel_cidr o)) = Ok base -> Forall sound_life ls ->
  holds seed dk r -> savable r -> exists r', holds seed (outlive ls dk) r' /\ savable r'.
Proof.
  intros Hap Hcidr Hls. revert dk r. induction Hls as [|l ls Hl Hls IH]; intros dk r Hh Hr; [by exists r|].
  cbn [outlive]. destruct (start l dk) as [x h] eqn:Hs. destruct Hl as [Htl Ht].
  destruct (start_holds l seed dk r x h Hap Hcidr Ht Hh Hs) as [Hh' _].
  destruct x as [[rn|]|]; [|by eapply IH..].
  destruct (start_serves l seed dk r rn h Hap Hcidr Ht Hh Hr Hs) as [_ Hsv].
  destruct (life_leaves seed l rn h Hap (conj Htl Ht) Hsv) as (r' & Hh1 & Hr1). by eapply IH.
Qed.

(** The disk after any lives holds the first one's identity and a savable registry. *)
Lemma outlive_holds first ls f m :
  files_apart o -> answers o -> 0 <= max_peers o -> parse_cidr (str_bytes (tunnel_cidr o)) = Ok base ->
  f !! identity_path o = None -> f !! peers_path o = None -> calm first -> Forall sound_life (first :: ls) ->
  exists r, holds (lf_seed first) (outlive (first :: ls) (Fs f m [])) r /\ savable r.
Proof.
  intros Hap Hpk Hmax Hcidr Hid Hpeers Hc [Hl Hls]%Forall_cons_1. cbn [outlive].
  destruct (start_serves_fresh first f m Hap Hpk Hmax Hcidr Hc Hid Hpeers) as (rn & h & -> & Hsv).
  destruct (life_leaves _ first rn h Hap Hl Hsv) as (r & Hh & Hr). by eapply outlive_keeps.
Qed.

(** Starts that fail one after the other, and the disk after them. *)
Inductive retries : list life -> fs -> fs -> Prop :=
  | retries_none dk : retries [] dk dk
  | retries_more l ls dk x h dk' :
      truthful (lf_start_faults l) -> start l dk = (x, h) -> (forall rn, x <> Ok (Some rn)) ->
      retries ls (host_disk h) dk' -> retries (l :: ls) dk dk'.

Lemma retries_holds ls seed dk dk' r :
  files_apart o -> parse_cidr (str_bytes (tunnel_cidr o)) = Ok base ->
  holds seed dk r -> retries ls dk dk' -> holds seed dk' r.
Proof.
  intros Hap Hcidr Hh H. induction H as [|l ls dk x h dk' Ht Hs _ _ IH]; [done|].
  by apply IH, (start_holds l seed dk r x h Hap Hcidr Ht Hh Hs).
Qed.

(** *** A seed cut short *)

(** A start that finds no seed file fails when it writes one, [k] bytes in. *)
Definition seed_write_fails (e : io_error) (k : nat) : list (option fault) :=
  None :: match parent (identity_path o) with Some (_ :: _) => [None] | _ => [] end ++
  [Some (Fault e (Some k))].

Lemma first_write_fails l f m e k :
  f !! identity_path o = None -> lf_start_faults l = seed_write_fails e k ->
  start l (Fs f m []) = (Err (IdentityError (identity_path o) e),
    {| host_wg := lf_wg l; host_disk := Fs (<[identity_path o := take k (arr_list (lf_seed l))]> f) m [] |}).
Proof.
  intros Hid Hf. unfold start, main. apply M_bind_Err. rewrite Hf. unfold with_faults, seed_write_fails. cbn [files modes].
  unfold err_into, on_host_disk, zoom. cbn [host_disk host_wg].
  set (fl := match parent (identity_path o) with Some (_ :: _) => [None] | _ => [] end ++ _).
  assert (H : load_or_create (identity_path o) (lf_seed l) (Fs f m (None :: fl)) =
    (Err e, Fs (<[identity_path o := take k (arr_list (lf_seed l))]> f) m [])); [|by rewrite H].
  unfold load_or_create. erewrite M_bind_Ok by (unfold attempt, fs_read, next_fault; cbn [files faults]; by rewrite Hid).
  cbn. apply M_bind_Err. unfold ServerIdentity_save.
  assert (Hseed : HybridKem.to_seed_bytes (auth (ServerIdentity_generate (lf_seed l))) = lf_seed l).
  { unfold HybridKem.to_seed_bytes. rewrite arr_copy_arr. apply dsa_seed. }
  rewrite Hseed.
  assert (Hdir : (match parent (identity_path o) with
      | Some dir => if negb (bool_decide (dir = [])) then fs_create_dir_all dir else mret tt
      | None => mret tt
      end) (drop_fault (Fs f m (None :: fl))) = (Ok tt, Fs f m [Some (Fault e (Some k))])).
  { subst fl. unfold drop_fault. cbn [files modes faults tail].
    by destruct (parent (identity_path o)) as [[|b d]|]. }
  erewrite M_bind_Ok by exact Hdir. by apply M_bind_Err.
Qed.

(** No start gets past such a seed, or changes it. *)
Lemma bad_seed_stays l dk b :
  files dk !! identity_path o = Some b -> arr_try_from SEED_LEN b = None -> truthful (lf_start_faults l) ->
  exists e h, start l dk = (Err (IdentityError (identity_path o) e), h) /\
    files (host_disk h) !! identity_path o = Some b.
Proof.
  intros Hb Hn Ht. set (s := with_faults (lf_start_faults l) dk).
  assert (H : exists e, load_or_create (identity_path o) (lf_seed l) s = (Err e, drop_fault s)).
  { unfold load_or_create, attempt, fs_read, mbind, M_bind. destruct (next_fault s) as [f|] eqn:E.
    - exists (f_err f). rewrite bool_decide_false; [done|]. by apply (truthful_next s).
    - exists bad_seed. change (files s) with (files dk). rewrite Hb. cbn. by rewrite Hn. }
  destruct H as [e H]. exists e, {| host_wg := lf_wg l; host_disk := drop_fault s |}. split; [|exact Hb].
  unfold start, main. apply M_bind_Err. unfold err_into, on_host_disk, zoom. cbn [host_disk host_wg].
  fold s. by rewrite H.
Qed.

Lemma bad_seed_outlives ls dk b :
  files dk !! identity_path o = Some b -> arr_try_from SEED_LEN b = None ->
  Forall (fun l => truthful (lf_start_faults l)) ls -> files (outlive ls dk) !! identity_path o = Some b.
Proof.
  intros Hb Hn Hls. revert dk Hb. induction Hls as [|l ls Hl _ IH]; intros dk Hb; [done|]. cbn [outlive].
  destruct (bad_seed_stays l dk b Hb Hn Hl) as (e & h & -> & Hh). by apply IH.
Qed.

Lemma short_seed_bad k (seed : arr 32) : (k < 32)%nat -> arr_try_from SEED_LEN (take k (arr_list seed)) = None.
Proof.
  intros Hk. apply arr_try_from_None. unfold len. rewrite length_take.
  change (Z.of_N SEED_LEN) with 32. lia.
Qed.

End lives.
Arguments life {P} W.

(** C9. The server may crash at any point, any number of times.  After a first
    start that nothing hinders on a disk without its files, whatever faults strike
    later starts and their serving, and however the threads interleave, every later
    start that succeeds - and one that nothing hinders does - has the identity
    of the first one and resumes from the registry (times cut to whole seconds)
    after some prefix of the life that served last; if no fault struck that one's
    serving, the prefix includes the save of every connection that has got as far
    as answering.  Failed starts in between change nothing of this. *)
Theorem crash_recovery {P : Primitives} {L : PrimitiveLaws P} {C : Codecs} {CL : CodecLaws C} {W} {G : WgProgram W}
    debug debug_message o base f m (ls : list (life W)) l rn h :
  files_apart o -> answers o -> 0 <= max_peers o -> parse_cidr (str_bytes (tunnel_cidr o)) = Ok base ->
  f !! identity_path o = None -> f !! peers_path o = None ->
  calm (default l (head ls)) -> Forall sound_life (ls ++ [l]) ->
  start debug o l (outlive debug debug_message o ls (Fs f m [])) = (Ok (Some rn), h) ->
  let id := ServerIdentity_generate (lf_seed (default l (head ls))) in
  let x := life_after debug_message l rn h (lf_events l) in
  ctx_identity (rn_ctx rn) = id /\
  exists es1 es2, lf_events l = es1 ++ es2 /\
    let x1 := life_after debug_message l rn h es1 in
    (lf_faults l = [] -> no_new_answer x1 x) /\
    forall failed next dk, truthful (lf_start_faults next) ->
      retries debug o failed (sh_disk (shared x)) dk ->
      (calm next -> exists rn' h', start debug o next dk = (Ok (Some rn'), h')) /\
      forall rn' h', start debug o next dk = (Ok (Some rn'), h') ->
        ctx_identity (rn_ctx rn') = id /\ rn_registry rn' = reloaded (sh_registry (shared x1)) /\
        reg_wf (rn_registry rn').
Proof.
  intros Hap Hpk Hmax Hcidr Hid Hpeers Hcalm [Hls [[Hl Ht] _]%Forall_cons_1]%Forall_app Hs.
  assert (Hserve : serves o base (lf_seed (default l (head ls))) rn h).
  { destruct ls as [|first ls].
    - destruct (start_serves_fresh debug o base l f m Hap Hpk Hmax Hcidr Hcalm Hid Hpeers) as (rn' & h' & Hs' & Hv).
      cbn [outlive] in Hs. rewrite Hs in Hs'. by injection Hs' as <- <-.
    - destruct (outlive_holds debug debug_message o base first ls f m Hap Hpk Hmax Hcidr Hid Hpeers Hcalm Hls) as (r & Hh & Hr).
      by apply (start_serves debug o base l _ _ r rn h Hap Hcidr Ht Hh Hr). }
  destruct Hserve as (Hrid & Hsv & Hh). split; [done|].
  destruct (life_prefix debug_message o base _ l rn h (lf_events l) Hap Hl Hsv Hh)
    as (_ & _ & es1 & es2 & Hes & Hx1 & Hhx & Hnf).
  exists es1, es2. split; [done|]. split; [intros [_ H]%Hnf; exact H|]. intros failed next dk Htn Hretry.
  pose proof (retries_holds debug o base _ _ _ _ _ Hap Hcidr Hhx Hretry) as Hdk. split.
  - intros Hc. by eapply start_runs.
  - intros rn' h' Hs'. destruct (start_serves debug o base next _ _ _ rn' h' Hap Hcidr Htn Hdk Hx1 Hs') as (Hreg & Hid' & Hsv' & _).
    split; [done|]. split; [done|]. by apply (sv_wf o base).
Qed.

(** C10. What recovery leaves out: the first start must not be interrupted while
    it writes the seed.  If that write is cut short, the start fails, and so does
    every later one, on the identity, whatever happened in between and whatever
    the disk does, without ever drawing a new identity: the file stays what it is. *)
Theorem torn_seed_is_final {P : Primitives} {L : PrimitiveLaws P} {C : Codecs} {W} {G : WgProgram W}
    debug debug_message o f m (first l : life W) ls e k :
  f !! identity_path o = None ->
  lf_start_faults first = seed_write_fails o e k -> (k < 32)%nat ->
  Forall (fun l => truthful (lf_start_faults l)) (ls ++ [l]) ->
  let dk := outlive debug debug_message o (first :: ls) (Fs f m []) in
  (start debug o first (Fs f m [])).1 = Err (IdentityError (identity_path o) e) /\
  files dk !! identity_path o = Some (take k (arr_list (lf_seed first))) /\
  exists e', (start debug o l dk).1 = Err (IdentityError (identity_path o) e').
Proof.
  intros Hid Hf Hk [Hls [Hl _]%Forall_cons_1]%Forall_app dk.
  pose proof (first_write_fails debug o first f m e k Hid Hf) as Hs.
  pose proof (short_seed_bad k (lf_seed first) Hk) as Hn.
  assert (Hdk : files dk !! identity_path o = Some (take k (arr_list (lf_seed first)))).
  { unfold dk. cbn [outlive]. rewrite Hs. apply bad_seed_outlives; [|done|done]. apply lookup_insert_eq. }
  split; [by rewrite Hs|]. split; [exact Hdk|].
  destruct (bad_seed_stays debug o l dk _ Hdk Hn Hl) as (e' & h & H & _). exists e'. by rewrite H.
Qed.

(** ** Witnesses *)

Abbreviation toy_life := (life (P := Toy.prims) unit).

(** One client comes, and the server dies after [n] steps of its thread. *)
Definition one_client (fl : list (option fault)) (n : nat) : toy_life :=
  {| lf_seed := arr_fill 32 x31; lf_wg := tt; lf_start_faults := []; lf_bound := Ok tt; lf_faults := fl;
     lf_events := Accept sample_draws (toy_stream (sid x51) right_tag) :: replicate n (Run 0) |}.

Definition full_disk : option fault := Some (Fault (IoError OtherKind (lit "No space left on device")) (Some 7%nat)).
Definition unreadable : option fault := Some (Fault (IoError PermissionDenied (lit "Permission denied")) None).

(** A start that reads the seed, fails to write the key and to read the peers. *)
Definition failed_start : toy_life :=
  {| lf_seed := arr_fill 32 x32; lf_wg := tt; lf_start_faults := [None; full_disk; unreadable];
     lf_bound := Ok tt; lf_faults := []; lf_events := [] |}.

Lemma one_client_sound fl n : sound_life (one_client fl n).
Proof. split; [|by apply Forall_nil]. constructor; [reflexivity|]. apply Forall_replicate. exact I. Qed.
Lemma failed_start_sound : sound_life failed_start.
Proof. split; [by apply Forall_nil|]. repeat constructor; intros f; try discriminate; intros [= <-]; discriminate. Qed.

Abbreviation toy_outlive :=
  (outlive (P := Toy.prims) (C := ToyCodecs.codecs) (G := sample_wg) plain_text no_debug sample_options).
Abbreviation toy_start := (start (P := Toy.prims) (C := ToyCodecs.codecs) (G := sample_wg) plain_text sample_options).
Abbreviation toy_disk l rn h := (sh_disk (shared
  (life_after (P := Toy.prims) (C := ToyCodecs.codecs) no_debug l rn h (lf_events l)))).

Definition served {S} (r : result StartError (option (Running (P := Toy.prims) unit)) * S) : bool :=
  match r.1 with Ok (Some _) => true | _ => false end.
Lemma served_start {S} (r : result StartError (option (Running (P := Toy.prims) unit)) * S) :
  served r = true -> exists rn h, r = (Ok (Some rn), h).
Proof. destruct r as [[[rn|]|] h]; try discriminate. by exists rn, h. Qed.

Lemma life_starts : exists rn h,
  toy_start (one_client [] 4) (toy_outlive [one_client [full_disk] 5; failed_start] (mkfs ∅)) = (Ok (Some rn), h).
Proof. apply served_start. vm_compute. reflexivity. Qed.
(** The server starts again after a write cut short and a failed start, and then
    after a crash. *)
Lemma crash_recovery_witness :
  exists rn h, toy_start (one_client [] 4) (toy_outlive [one_client [full_disk] 5; failed_start] (mkfs ∅)) =
      (Ok (Some rn), h) /\
    ctx_identity (rn_ctx rn) = ServerIdentity_generate (P := Toy.prims) (arr_fill 32 x31) /\
    exists rn' h', toy_start (one_client [] 0) (toy_disk (one_client [] 4) rn h) = (Ok (Some rn'), h') /\
      ctx_identity (rn_ctx rn') = ServerIdentity_generate (P := Toy.prims) (arr_fill 32 x31).
Proof.
  destruct life_starts as (rn & h & Hs). exists rn, h. split; [exact Hs|].
  destruct (crash_recovery (L := Toy.laws) (CL := ToyCodecs.laws) (G := sample_wg) plain_text no_debug
    sample_options sample_base ∅ ∅ [one_client [full_disk] 5; failed_start] (one_client [] 4) rn h) as [H1 (es1 & es2 & _ & _ & H)].
  - apply sample_apart.
  - apply dry_run_answers. reflexivity.
  - discriminate.
  - apply sample_cidr.
  - reflexivity.
  - reflexivity.
  - split; reflexivity.
  - apply Forall_cons_2; [apply one_client_sound|]. apply Forall_cons_2; [apply failed_start_sound|].
    apply Forall_singleton, one_client_sound.
  - exact Hs.
  - split; [exact H1|].
    destruct (H [] (one_client [] 0) _ ltac:(by apply Forall_nil) (retries_none _ _ _)) as [Hrun Hsame].
    destruct (Hrun (conj eq_refl eq_refl)) as (rn' & h' & Hs'). exists rn', h'. split; [exact Hs'|].
    exact (proj1 (Hsame rn' h' Hs')).
Defined.

(** The number of peers the next start finds, after another one failed. *)
Definition found (l : toy_life) : option Z :=
  match (toy_start l (toy_outlive [l; failed_start] (mkfs ∅))).1 with
  | Ok (Some r) => Some (registry_len (rn_registry r))
  | _ => None
  end.

(** A crash before the save loses the session, one after it does not; a failed
    save is not noticed by the client. *)
Example crash_before_save : found (one_client [] 3) = Some 0.
Proof. vm_compute. reflexivity. Qed.
Example crash_after_save : found (one_client [] 4) = Some 1.
Proof. vm_compute. reflexivity. Qed.
Example crash_failed_save : found (one_client [full_disk] 5) = Some 0.
Proof. vm_compute. reflexivity. Qed.

(** The disk fills up while the fresh seed is written. *)
Definition full_first : toy_life :=
  {| lf_seed := arr_fill 32 x31; lf_wg := tt; lf_start_faults := [None; None; full_disk];
     lf_bound := Ok tt; lf_faults := []; lf_events := [] |}.

Lemma torn_seed_is_final_witness :
  exists e', (toy_start (one_client [] 0) (toy_outlive [full_first; failed_start] (mkfs ∅))).1 =
    Err (IdentityError (identity_path sample_options) e').
Proof.
  refine (proj2 (proj2 (torn_seed_is_final (L := Toy.laws) (C := ToyCodecs.codecs) (G := sample_wg) plain_text no_debug
    sample_options ∅ ∅ full_first (one_client [] 0) [failed_start] _ 7 _ _ _ _))).
  - reflexivity.
  - vm_compute. reflexivity.
  - lia.
  - constructor; [apply failed_start_sound|]. constructor; [apply one_client_sound|constructor].
Defined.
