(* ===== verification/TestClient.v ===== *)
(** * The command-line client

    [server/handshake-server/src/bin/test-client.rs]: one handshake or rekey
    from a command line, ending in a [wg-quick] configuration.  The run sees
    the disk (for arguments given as [@path]) and its connection.  Of what it
    prints, the final report is modelled. *)

From S2P Require Import Prelude Utf8 Io Fs Strings Net ServerWire WireParity Primitives.
From S2P Require Import Registry RegistryFacts Tunnel ServerHandshake Server ServerFacts.
From S2P Require CoreClient.
From S2P Require Import Agreement EndToEnd.

(** ** The command line *)

Record Args : Set := {
  hs_addr : rstring;
  vk_arg : rstring;
  algo_arg : AlgoCode;
  wg_endpoint_host : option rstring;
  rekey : bool;
  session_arg : option rstring;
  wg_key_arg : option rstring
}.

Inductive TestError :=
  | Bail (text : rstring)
  | BadHex (what text : rstring)
  | TestIo (e : io_error)
  | TestFrame (e : FrameError)
  | TestHandshake (e : HandshakeError).

Definition usage : rstring :=
  lit "usage: test-client <host:port> <vk-hex|@path> [--algo N] [--wg-endpoint HOST] [--rekey --session <hex> --wg-key <base64|@path>]".
Definition need_key : rstring := lit "need the server verifying key (hex or @path)".

Definition algo_of (v : rstring) : option AlgoCode :=
  if decide (v = lit "512") then Some MlKem512
  else if decide (v = lit "768") then Some MlKem768
  else if decide (v = lit "1024") then Some MlKem1024
  else None.

Section test_client.
Context `{P : Primitives} `{C : Codecs}.

(** [{:?}] of an [Option<&str>] and of a message, for error texts. *)
Context (debug_value : option rstring -> rstring) (debug_message : Message -> rstring).

Definition bad_algo (v : option rstring) : TestError :=
  Bail (lit "bad --algo " +:+ debug_value v +:+ lit " (use 512|768|1024)")%rs.

(** The loop over the options; [--algo] alone insists on a value. *)
Fixpoint parse_options (o : Args) (args : list rstring) : result TestError Args :=
  let '(Build_Args addr vk algo host rk session key) := o in
  match args with
  | [] => Ok o
  | a :: args =>
      if decide (a = lit "--algo") then
        match args with
        | [] => Err (bad_algo None)
        | v :: args =>
            algo ← ok_or (bad_algo (Some v)) (algo_of v);
            parse_options (Build_Args addr vk algo host rk session key) args
        end
      else if decide (a = lit "--wg-endpoint") then
        match args with
        | [] => Ok (Build_Args addr vk algo None rk session key)
        | v :: args => parse_options (Build_Args addr vk algo (Some v) rk session key) args
        end
      else if decide (a = lit "--rekey") then
        parse_options (Build_Args addr vk algo host true session key) args
      else if decide (a = lit "--session") then
        match args with
        | [] => Ok (Build_Args addr vk algo host rk None key)
        | v :: args => parse_options (Build_Args addr vk algo host rk (Some v) key) args
        end
      else if decide (a = lit "--wg-key") then
        match args with
        | [] => Ok (Build_Args addr vk algo host rk session None)
        | v :: args => parse_options (Build_Args addr vk algo host rk session (Some v)) args
        end
      else Err (Bail (lit "unknown argument " +:+ a)%rs)
  end.

Definition parse (args : list rstring) : result TestError Args :=
  match args with
  | [] => Err (Bail usage)
  | [_] => Err (Bail need_key)
  | addr :: vk :: args =>
      parse_options (Build_Args addr vk MlKem768 None false None None) args
  end.

(** ** Key material *)

(** An argument that is the value itself, or the file that holds it after [@]. *)
Definition value_of (a : rstring) : M fs TestError rstring :=
  match str_bytes a with
  | x40 :: p =>
      s ← err_into TestIo (fs_read_to_string p);
      mret (from_utf8_lossy (trim (str_bytes s)))
  | _ => mret a
  end.

Definition trimmed (s : rstring) : rstring := from_utf8_lossy (trim (str_bytes s)).

Definition read_verifying_key (a : rstring) : M fs TestError bytes :=
  s ← value_of a;
  lift (map_err (BadHex (lit "verifying key must be hex")) (hex_decode (trimmed s))).

(** The WireGuard secret: the given one, or [fresh]. *)
Definition read_wg_private (a : option rstring) (fresh : arr 32) : M fs TestError (arr 32) :=
  match a with
  | None => mret fresh
  | Some a =>
      s ← value_of a;
      b ← lift (map_err (BadHex (lit "--wg-key must be base64")) (b64_decode (trimmed s)));
      lift (ok_or (Bail (lit "--wg-key must decode to 32 bytes")) (arr_try_from 32 b))
  end.

Definition read_session (a : option rstring) : M fs TestError (option (arr 16)) :=
  match a with
  | None => mret None
  | Some s =>
      b ← lift (map_err (BadHex (lit "--session must be hex")) (hex_decode (trimmed s)));
      sid ← lift (ok_or (Bail (lit "--session must decode to 16 bytes")) (arr_try_from 16 b));
      mret (Some sid)
  end.

(** ** The exchange *)

Definition server_error (e : ErrorMsg) : TestError :=
  Bail (lit "server returned Error " +:+ fmt_hex8 (code e) +:+ lit ": " +:+ message e)%rs.

Definition exchange (state : ClientState) (verifying_key : bytes) (claimed_session : option (arr 16)) :
    M stream TestError (SessionKeys * ClientFinish * ServerFinish) :=
  _ ← err_into TestIo (Message_write
        match claimed_session with
        | Some session_id => MRekeyRequest {| rk_session_id := session_id; hello := client_hello state |}
        | None => MClientHello (client_hello state)
        end);
  m ← err_into TestFrame Message_read;
  server_hello ←
    match m with
    | MServerHello sh => mret sh
    | MError e => throw (server_error e)
    | other => throw (Bail (lit "expected ServerHello, got " +:+ debug_message other)%rs)
    end;
  '(keys, finish, transcript) ← lift (map_err TestHandshake (client_finish state server_hello verifying_key));
  _ ← err_into TestIo (Message_write (MClientFinish finish));
  m ← err_into TestFrame Message_read;
  sf ←
    match m with
    | MServerFinish sf => mret sf
    | MError e => throw (server_error e)
    | other => throw (Bail (lit "expected ServerFinish, got " +:+ debug_message other)%rs)
    end;
  if negb (bool_decide (sf_session_id sf = cf_session_id finish)) then
    throw (Bail (lit "ServerFinish session id mismatch"))
  else if negb (verify_server_tag (confirm_key keys) transcript (server_tag sf)) then
    throw (Bail (lit "ServerFinish tag did not verify — server derived a different secret"))
  else mret (keys, finish, sf).

(** ** The program *)

(** What a run draws, in order, and what opening the connection reports. *)
Record test_draws := {
  td_wg : arr 32;
  td_nonce : arr 32;
  td_x : arr 32;
  td_kem : kem_entropy;
  td_connect : result io_error unit;
  td_timeouts : result io_error unit
}.

Record Terminal := { t_disk : fs; t_conn : stream }.
Definition on_t_disk {E A} : M fs E A -> M Terminal E A :=
  zoom t_disk (fun s t => {| t_disk := s; t_conn := t_conn t |}).
Definition on_t_conn {E A} : M stream E A -> M Terminal E A :=
  zoom t_conn (fun s t => {| t_disk := t_disk t; t_conn := s |}).

(** What a successful run prints its report from. *)
Record Report := {
  rp_hs_addr : rstring;
  rp_rekey : bool;
  rp_algo : AlgoCode;
  rp_keys : SessionKeys;
  rp_finish : ClientFinish;
  rp_server : ServerFinish;
  rp_wg_private : arr 32;
  rp_endpoint_host : rstring
}.

Definition colon : u8 := x3a.
Definition host_of (addr : rstring) : rstring :=
  match rsplit colon (str_bytes addr) with
  | Some (h, _) => from_utf8_lossy h
  | None => addr
  end.

Definition main (args : list rstring) (d : test_draws) : M Terminal TestError Report :=
  a ← lift (parse args);
  verifying_key ← on_t_disk (read_verifying_key (vk_arg a));
  wg_private ← on_t_disk (read_wg_private (wg_key_arg a) (td_wg d));
  let wg_public := x25519_base wg_private in
  claimed_session ← on_t_disk (read_session (session_arg a));
  if rekey a && (bool_decide (wg_key_arg a = None) || bool_decide (claimed_session = None)) then
    throw (Bail (lit "--rekey needs both --session <hex> and --wg-key <base64|@path> (from the first run)"))
  else
  let state := client_start (algo_arg a) (td_nonce d) wg_public (td_x d) (td_kem d) in
  _ ← lift (map_err TestIo (td_connect d));
  _ ← lift (map_err TestIo (td_timeouts d));
  '(keys, finish, sf) ← on_t_conn (exchange state verifying_key claimed_session);
  mret {| rp_hs_addr := hs_addr a; rp_rekey := rekey a; rp_algo := algo_arg a; rp_keys := keys; rp_finish := finish; rp_server := sf;
          rp_wg_private := wg_private;
          rp_endpoint_host := default (host_of (hs_addr a)) (wg_endpoint_host a) |}.

(** ** What it prints *)

Definition trim_last_octet (ip : Ipv4Addr) : bytes :=
  fmt_u8 (octet 0 ip) ++ [dot] ++ fmt_u8 (octet 1 ip) ++ [dot] ++ fmt_u8 (octet 2 ip).

Definition text (s : string) : bytes := String.list_byte_of_string s.

(** [hex::encode] and base64 of an array. *)
Definition hex_text {n} (a : arr n) : bytes := str_bytes (hex_encode (arr_list a)).
Definition b64_text {n} (a : arr n) : bytes := str_bytes (b64 (arr_list a)).

(** The [wg-quick] file after a first handshake. *)
Definition wg_quick_config (r : Report) : list bytes :=
  let sf := rp_server r in
  let assigned_ip := ServerWire.assigned_ip sf in
  [text "[Interface]";
   text "PrivateKey = " ++ b64_text (rp_wg_private r);
   text "Address    = " ++ fmt_ip assigned_ip ++ text "/24";
   [];
   text "[Peer]";
   text "PublicKey    = " ++ b64_text (server_wg_pubkey sf);
   text "PresharedKey = " ++ b64_text (psk (rp_keys r));
   text "Endpoint     = " ++ str_bytes (rp_endpoint_host r) ++ [colon] ++ fmt_uint (wg_port sf);
   text "AllowedIPs   = " ++ trim_last_octet assigned_ip ++ text ".0/24";
   text "PersistentKeepalive = 25"].

Definition algo_line (r : Report) : bytes := String.list_byte_of_string (AlgoCode_name (rp_algo r)).

Definition handshake_report (r : Report) : list bytes :=
  let sf := rp_server r in
  [text "HANDSHAKE OK";
   text "  algorithm     : " ++ algo_line r;
   text "  session id    : " ++ hex_text (cf_session_id (rp_finish r));
   text "  derived PSK    : " ++ hex_text (psk (rp_keys r)) ++ text "  (base64: " ++ b64_text (psk (rp_keys r)) ++ text ")";
   text "  assigned IP    : " ++ fmt_ip (ServerWire.assigned_ip sf);
   text "  server wg pub  : " ++ b64_text (server_wg_pubkey sf);
   text "  wg endpoint    : " ++ str_bytes (rp_endpoint_host r) ++ [colon] ++ fmt_uint (wg_port sf);
   [];
   text "----- wg-quick config (save as pqc0.conf) -----"] ++
  wg_quick_config r ++
  [[];
   text "Rekey this peer later with:";
   text "  test-client " ++ str_bytes (rp_hs_addr r) ++ text " <vk> --rekey --session " ++
     hex_text (cf_session_id (rp_finish r)) ++ text " --wg-key " ++ b64_text (rp_wg_private r)].

Definition rekey_report (r : Report) : list bytes :=
  [text "REKEY OK";
   text "  algorithm      : " ++ algo_line r;
   text "  session id     : " ++ hex_text (cf_session_id (rp_finish r));
   text "  new PSK        : " ++ hex_text (psk (rp_keys r)) ++ text "  (base64: " ++ b64_text (psk (rp_keys r)) ++ text ")";
   text "  assigned IP    : " ++ fmt_ip (ServerWire.assigned_ip (rp_server r)) ++ text "  (unchanged)";
   [];
   text "Hot-swap the PSK on the client's already-up interface — no `wg-quick down`,";
   text "the tunnel keeps passing traffic through the rekey:";
   [];
   text "  wg set <iface> peer " ++ b64_text (server_wg_pubkey (rp_server r)) ++
     text " preshared-key <(echo " ++ b64_text (psk (rp_keys r)) ++ text ")"].

(** The lines of the final report. *)
Definition printed (r : Report) : list bytes :=
  if rp_rekey r then rekey_report r else handshake_report r.

End test_client.

(** ** Facts *)

Section facts.
Context `{P : Primitives} `{L : !PrimitiveLaws P} `{C : Codecs} `{CL : !CodecLaws C}.
Context (debug_value : option rstring -> rstring) (debug : Message -> rstring).

Definition algo_text (a : AlgoCode) : rstring :=
  match a with MlKem512 => lit "512" | MlKem768 => lit "768" | MlKem1024 => lit "1024" end.

(** The command line of a rekey. *)
Definition rekey_args (addr vk sid key : rstring) (a : AlgoCode) : list rstring :=
  [addr; vk; lit "--rekey"; lit "--session"; sid; lit "--wg-key"; key; lit "--algo"; algo_text a].

Lemma parse_rekey_args addr vk sid key a :
  parse debug_value (rekey_args addr vk sid key a) =
    Ok (Build_Args addr vk a None true (Some sid) (Some key)).
Proof. destruct a; vm_compute; reflexivity. Qed.

(** Text over the base64 alphabet is taken as it is. *)
Definition plain (s : rstring) : Prop := forallb b64_char (str_bytes s) = true.

Lemma value_of_plain s dk : plain s -> value_of s dk = (Ok s, dk).
Proof.
  unfold plain, value_of. destruct (str_bytes s) as [|b l]; [done|].
  intros [Hb _]%andb_true_iff. by destruct b.
Qed.

Lemma trimmed_plain s : plain s -> trimmed s = s.
Proof. intros H. unfold trimmed. by rewrite trim_b64, from_utf8_lossy_str. Qed.

Lemma read_vk b dk : read_verifying_key (hex_encode b) dk = (Ok b, dk).
Proof.
  unfold read_verifying_key. erewrite M_bind_Ok by apply value_of_plain, hex_alphabet.
  rewrite trimmed_plain by apply hex_alphabet. by rewrite hex_round.
Qed.

Lemma read_key (k fresh : arr 32) dk :
  read_wg_private (Some (b64_encode (arr_list k))) fresh dk = (Ok k, dk).
Proof.
  unfold read_wg_private. erewrite M_bind_Ok by apply value_of_plain, b64_alphabet.
  rewrite trimmed_plain by apply b64_alphabet. rewrite b64_round.
  erewrite M_bind_Ok by reflexivity. by rewrite arr_try_from_arr.
Qed.

Lemma read_sid (sid : arr 16) dk :
  read_session (Some (hex_encode (arr_list sid))) dk = (Ok (Some sid), dk).
Proof.
  unfold read_session. rewrite trimmed_plain by apply hex_alphabet. rewrite hex_round.
  erewrite M_bind_Ok by reflexivity. by rewrite arr_try_from_arr.
Qed.

(** The exchange on an input that holds a [ServerHello] the client accepts and
    another message. *)
Lemma exchange_upto state vk session sh ks fin t m k re :
  sendable (first_message (client_hello state) session) -> sendable (MServerHello sh) -> sendable m ->
  client_finish state sh vk = Ok (ks, fin, t) ->
  exchange debug state vk session (Stream (frame (MServerHello sh) ++ frame m ++ k) re [] []) =
    (match m with
     | MServerFinish sf =>
         if negb (bool_decide (sf_session_id sf = cf_session_id fin)) then
           Err (Bail (lit "ServerFinish session id mismatch"))
         else if negb (verify_server_tag (confirm_key ks) t (server_tag sf)) then
           Err (Bail (lit "ServerFinish tag did not verify — server derived a different secret"))
         else Ok (ks, fin, sf)
     | MError e => Err (server_error e)
     | other => Err (Bail (lit "expected ServerFinish, got " +:+ debug other)%rs)
     end, Stream k re (frame (first_message (client_hello state) session) ++ frame (MClientFinish fin)) []).
Proof.
  intros H1 H2 Hm Hf. unfold exchange.
  erewrite M_bind_Ok by (unfold err_into;
    by rewrite (server_write_ok (first_message (client_hello state) session) _ _ _ H1)).
  cbv beta iota. erewrite M_bind_Ok by (unfold err_into; by rewrite (server_read_frame (MServerHello sh))).
  cbv beta iota. erewrite M_bind_Ok by reflexivity. cbv beta. rewrite Hf.
  erewrite M_bind_Ok by reflexivity. cbv beta iota.
  erewrite M_bind_Ok by (unfold err_into;
    by rewrite (server_write_ok (MClientFinish fin)) by apply finish_sendable).
  cbv beta iota. erewrite M_bind_Ok by (unfold err_into; by rewrite (server_read_frame m)).
  cbv beta iota. destruct m as [| | |sf| |]; try done. erewrite M_bind_Ok by reflexivity. cbv beta.
  destruct (bool_decide _); [|done]. by destruct (verify_server_tag _ _ _).
Qed.

(** The honest run of [Agreement], with the command-line client. *)
Lemma honest_test_run id a n wg x kem sid sn d :
  let state := client_start a n wg x kem in
  exists o ks fin,
    respond id (client_hello state) sid sn d = Ok o /\
    client_finish state (server_hello o) (verifying_key_bytes id) = Ok (ks, fin, transcript o) /\
    psk ks = psk (keys o) /\ confirm_key ks = confirm_key (keys o) /\ cf_session_id fin = sid /\
    client_tag fin = client_tag_of (confirm_key (keys o)) (transcript o) /\
    verify_server_tag (confirm_key ks) (transcript o)
      (server_tag_of (confirm_key (keys o)) (transcript o)) = true.
Proof.
  intros state. set (cd := CoreClient.Build_client_draws n x kem).
  pose proof (client_start_parity a wg cd) as Hh.
  destruct (honest_run id a wg cd (client_hello state) sid sn d Hh)
    as (o & ks & fin & Ho & Hf & Hpsk & Hck & Hsid & Hct & Hst).
  pose proof (client_finish_parity a wg cd (server_hello o) (verifying_key_bytes id)) as Hp.
  rewrite Hf in Hp. change (client_start a _ wg _ _) with state in Hp.
  destruct (client_finish state _ _) as [[[ks' fin'] t']|] eqn:Ef; [|done].
  destruct Hp as (Hk & Hc & Hfin & <-). exists o, ks', fin'.
  apply (f_equal (fun m => match m with CoreWire.MClientFinish f => f | _ => fin end)) in Hfin.
  simpl in Hfin. subst fin. apply verify_client_tag_iff in Hct. simpl in Hsid, Hct, Hst.
  split; [done|]. split; [done|]. split; [congruence|]. split; [congruence|]. split; [done|]. split; [done|].
  rewrite <- Hc. exact Hst.
Qed.

End facts.

(** What a rekey does to the peer's entry. *)
Definition rekeyed (now : SystemTime) (a : AlgoCode) (p : Peer) : Peer :=
  {| wg_pubkey := wg_pubkey p; Registry.assigned_ip := Registry.assigned_ip p; session_id := session_id p;
     algo := a; created := created p; last_activity := now; rekeys := u32_wrap (Registry.rekeys p + 1) |}.

Lemma rekey_run now k p a rg :
  inner rg !! k = Some p -> algo_ltb a (algo p) = false ->
  registry_rekey now k (session_id p) a rg =
    (Ok {| slot_session_id := session_id p; slot_assigned_ip := Registry.assigned_ip p |},
     set_inner (<[k := rekeyed now a p]> (inner rg)) rg).
Proof. intros Hp Ha. unfold registry_rekey. by rewrite Hp, bool_decide_true, Ha by done. Qed.

(** The hello carries the key and algorithm the client was started with. *)
Lemma client_hello_fields {P : Primitives} a n wg x kem :
  let h := client_hello (client_start a n wg x kem) in
  client_wg_pubkey h = wg /\ ch_algo h = a /\ len (client_mlkem_pub h) = AlgoCode_mlkem_pub_len a.
Proof. destruct a; cbn; (split; [done|]; split; [done|]); by rewrite arr_len. Qed.

(** ** The two programs against each other *)

Section both.
Context `{P : Primitives} `{L : !PrimitiveLaws P} `{C : Codecs} `{CL : !CodecLaws C} {W} `{I : PskInstaller W}.
Context (debug_value : option rstring -> rstring) (debug : Message -> rstring).

(** The result of a connection that reached the end. *)
Definition done_as (rs : option (arr 16)) (sid : arr 16) : ConnResult :=
  match rs with Some _ => Server.Rekey sid | None => Server.Handshake sid end.

(** The exchange when the registry takes the session. *)
Lemma exchange_taken ctx d a n wgk x kem rs slot reg rg wg0 dk re re' :
  let state := client_start a n wgk x kem in
  cn_timeouts d = Ok tt ->
  registry_step d (client_hello state) rs rg = (Ok slot, reg) ->
  slot_session_id slot = default (cn_session_id d) rs ->
  (forall psk, (install wgk psk (slot_assigned_ip slot) a wg0).1 = Ok tt) ->
  exists to_server to_client ks fin sf s,
    handle_connection debug ctx d (Build_World (opened to_server re) rg wg0 dk) =
      (Ok (done_as rs (slot_session_id slot)), Build_World (Stream [] re to_client []) reg s (persist reg dk).2) /\
    exchange debug state (verifying_key_bytes (ctx_identity ctx)) rs (opened to_client re') =
      (Ok (ks, fin, sf), Stream [] re' to_server []) /\
    install wgk (psk ks) (slot_assigned_ip slot) a wg0 = (Ok tt, s) /\
    cf_session_id fin = slot_session_id slot /\ ServerWire.assigned_ip sf = slot_assigned_ip slot.
Proof.
  intros state Ht Hstep Hslot Hinst.
  destruct (client_hello_fields a n wgk x kem) as (Hwg & Halg & Hlen). fold state in Hwg, Halg, Hlen.
  destruct (honest_test_run (ctx_identity ctx) a n wgk x kem (default (cn_session_id d) rs)
    (cn_server_nonce d) (cn_server d)) as (o & ks & fin & Ho & Hf & Hpsk & _ & Hsid & Hct & Hst).
  fold state in Ho, Hf.
  specialize (Hinst (psk (keys o))). destruct (install _ (psk (keys o)) _ _ _) as [[[]|] s] eqn:Hi; [|done].
  pose proof (server_run debug ctx d (client_hello state) rs o fin slot reg s re [] [] rg wg0 dk
    Ht Ho Hsid Hct Hstep) as Hserver. rewrite Hwg, Halg in Hserver. specialize (Hserver Hi).
  destruct (final ctx o slot) as [| | |sf| |] eqn:Efinal; try done. injection Efinal as Esf.
  assert (Hclient : exchange debug state (verifying_key_bytes (ctx_identity ctx)) rs
      (Stream (frame (MServerHello (server_hello o)) ++ frame (MServerFinish sf) ++ []) re' [] []) =
      (Ok (ks, fin, sf), Stream [] re'
        (frame (first_message (client_hello state) rs) ++ frame (MClientFinish fin)) [])).
  { rewrite (exchange_upto debug _ _ _ _ ks fin (transcript o)); [ | | by eapply reply_sendable | done | done].
    - subst sf. cbn [sf_session_id server_tag]. by rewrite Hsid, Hst, bool_decide_true.
    - apply first_sendable. by rewrite Halg. }
  rewrite !app_nil_r in *. rewrite app_nil_l in Hserver.
  do 5 eexists. exists s. split; [exact Hserver|]. split; [exact Hclient|].
  rewrite Hpsk, Hslot. split; [exact Hi|]. split; [done|]. by rewrite <- Esf.
Qed.

(** The exchange when the registry refuses it: the server reports the refusal
    and keeps everything, the client fails with the server's words. *)
Lemma exchange_refused ctx d a n wgk x kem rs e rg reg (wg0 : W) dk re re' :
  let state := client_start a n wgk x kem in
  let '(c, msg) := registry_reject_code e in
  cn_timeouts d = Ok tt ->
  registry_step d (client_hello state) rs rg = (Err e, reg) ->
  exists to_server to_client,
    handle_connection debug ctx d (Build_World (opened to_server re) rg wg0 dk) =
      (Ok (Server.Rejected c), Build_World (Stream [] re to_client []) rg wg0 dk) /\
    exchange debug state (verifying_key_bytes (ctx_identity ctx)) rs (opened to_client re') =
      (Err (server_error {| code := c; message := msg |}), Stream [] re' to_server []).
Proof.
  intros state. pose proof (reject_sendable e) as He. pose proof (fun h o fin => server_refuses debug ctx d h rs o fin e)
    as Hserver. destruct (registry_reject_code e) as [c msg]. cbn [fst snd] in *. intros Ht Hstep.
  destruct (client_hello_fields a n wgk x kem) as (Hwg & Halg & Hlen). fold state in Hwg, Halg, Hlen.
  destruct (honest_test_run (ctx_identity ctx) a n wgk x kem (default (cn_session_id d) rs)
    (cn_server_nonce d) (cn_server d)) as (o & ks & fin & Ho & Hf & _ & _ & Hsid & Hct & _).
  fold state in Ho, Hf. specialize (Hserver _ _ _ _ re [] rg wg0 dk Ht Ho Hsid Hct Hstep).
  assert (Hfirst : sendable (first_message (client_hello state) rs)) by (apply first_sendable; by rewrite Halg).
  assert (Hreply : sendable (MServerHello (server_hello o))) by (by eapply reply_sendable).
  pose proof (exchange_upto debug state _ rs _ ks fin (transcript o) _ [] re' Hfirst Hreply He Hf) as Hclient.
  rewrite app_nil_r in Hclient. do 2 eexists. split; [exact Hserver|exact Hclient].
Qed.

(** What the client reports of an exchange. *)
Definition report_of (a : Args) (priv : arr 32) (r : SessionKeys * ClientFinish * ServerFinish) : Report :=
  let '(ks, fin, sf) := r in
  {| rp_hs_addr := hs_addr a; rp_rekey := rekey a; rp_algo := algo_arg a; rp_keys := ks; rp_finish := fin;
     rp_server := sf; rp_wg_private := priv;
     rp_endpoint_host := default (host_of (hs_addr a)) (wg_endpoint_host a) |}.

(** A run whose arguments are the values themselves: the exchange decides. *)
Lemma client_main_run args addr a vk session td dsk c :
  let priv := match session with Some (_, p) => p | None => td_wg td end in
  let args_read := Build_Args addr (hex_encode vk) a None (bool_decide (is_Some session))
    (hex_encode ∘ arr_list ∘ fst <$> session) (b64_encode ∘ arr_list ∘ snd <$> session) in
  parse debug_value args = Ok args_read -> td_connect td = Ok tt -> td_timeouts td = Ok tt ->
  main debug_value debug args td {| t_disk := dsk; t_conn := c |} =
    (let '(r, c) := exchange debug (client_start a (td_nonce td) (x25519_base priv) (td_x td) (td_kem td))
                      vk (fst <$> session) c in
     (match r with Ok x => Ok (report_of args_read priv x) | Err e => Err e end,
      {| t_disk := dsk; t_conn := c |})).
Proof.
  intros priv args_read Hparse Hconn Htime. unfold main. rewrite Hparse.
  erewrite M_bind_Ok by reflexivity. cbv beta. subst args_read.
  cbn [vk_arg wg_key_arg session_arg rekey algo_arg hs_addr wg_endpoint_host].
  erewrite M_bind_Ok by (by apply zoom_eq, read_vk). cbv beta.
  destruct session as [[sid p]|]; cbn [fmap option_fmap option_map compose fst snd] in *.
  - erewrite M_bind_Ok by (apply zoom_eq; apply read_key). cbv beta zeta.
    erewrite M_bind_Ok by (apply zoom_eq; apply read_sid). cbv beta.
    rewrite !(bool_decide_false (Some _ = None)), andb_false_r by done. rewrite Hconn, Htime.
    erewrite M_bind_Ok by reflexivity. cbv beta. erewrite M_bind_Ok by reflexivity. cbv beta.
    unfold mbind, M_bind, on_t_conn, zoom. cbn [t_conn t_disk].
    by destruct (exchange debug _ vk _ c) as [[[[? ?] ?]|] ?].
  - erewrite M_bind_Ok by reflexivity. cbv beta zeta. erewrite M_bind_Ok by reflexivity. cbv beta.
    rewrite (bool_decide_false (is_Some None)) by by intros [? [=]]. cbn [andb]. rewrite Hconn, Htime.
    erewrite M_bind_Ok by reflexivity. cbv beta. erewrite M_bind_Ok by reflexivity. cbv beta.
    unfold mbind, M_bind, on_t_conn, zoom. cbn [t_conn t_disk].
    by destruct (exchange debug _ vk _ c) as [[[[? ?] ?]|] ?].
Qed.

End both.

(** ** Properties *)

(** C7. A rekey, from the command line to the server's registry: for a
    registered peer and an algorithm no weaker than the session's, the client
    started with the session id and the WireGuard key of the first run and the
    server run to completion against each other; the session and its address
    stay, the registry counts the rekey, and the server installed the very PSK
    that the client reports, in place of the old one. *)
Theorem rekey_end_to_end {P : Primitives} {L : PrimitiveLaws P} {C : Codecs} {CL : CodecLaws C} {W}
    {I : PskInstaller W} debug_value debug ctx d td addr a priv p rg wg0 dk dsk re re' :
  let k := x25519_base priv in
  let sid := session_id p in
  inner rg !! k = Some p -> algo_ltb a (algo p) = false ->
  cn_timeouts d = Ok tt -> td_connect td = Ok tt -> td_timeouts td = Ok tt ->
  (forall psk, (install k psk (Registry.assigned_ip p) a wg0).1 = Ok tt) ->
  exists to_server to_client rep s,
    let reg := set_inner (<[k := rekeyed (cn_now d) a p]> (inner rg)) rg in
    handle_connection debug ctx d (Build_World (opened to_server re) rg wg0 dk) =
      (Ok (Server.Rekey sid), Build_World (Stream [] re to_client []) reg s (persist reg dk).2) /\
    main debug_value debug
      (rekey_args addr (hex_encode (verifying_key_bytes (ctx_identity ctx))) (hex_encode (arr_list sid))
         (b64_encode (arr_list priv)) a)
      td {| t_disk := dsk; t_conn := opened to_client re' |} =
      (Ok rep, {| t_disk := dsk; t_conn := Stream [] re' to_server [] |}) /\
    install k (psk (rp_keys rep)) (Registry.assigned_ip p) a wg0 = (Ok tt, s) /\
    rp_rekey rep = true /\ cf_session_id (rp_finish rep) = sid /\
    ServerWire.assigned_ip (rp_server rep) = Registry.assigned_ip p.
Proof.
  intros k sid Hp Ha Ht Hconn Htime Hinst.
  destruct (client_hello_fields a (td_nonce td) k (td_x td) (td_kem td)) as (Hwg & Halg & _).
  pose proof (rekey_run (cn_now d) k p a rg Hp Ha) as Hstep.
  destruct (exchange_taken debug ctx d a (td_nonce td) k (td_x td) (td_kem td) (Some sid)
    {| slot_session_id := sid; slot_assigned_ip := Registry.assigned_ip p |}
    (set_inner (<[k := rekeyed (cn_now d) a p]> (inner rg)) rg) rg wg0 dk re re')
    as (ts & tc & ks & fin & sf & s & Hserver & Hclient & Hi & Hsid & Hip); [done| |done|done|].
  { unfold registry_step. by rewrite Hwg, Halg. }
  exists ts, tc, (report_of (Build_Args addr (hex_encode (verifying_key_bytes (ctx_identity ctx))) a None true
    (Some (hex_encode (arr_list sid))) (Some (b64_encode (arr_list priv)))) priv (ks, fin, sf)), s.
  split; [exact Hserver|]. split; [|done].
  rewrite (client_main_run debug_value debug _ addr a _ (Some (sid, priv))) by first [done | apply parse_rekey_args].
  subst k sid. cbn [fmap option_fmap option_map fst]. by rewrite Hclient.
Qed.

(** ** Witnesses *)

Definition sample_test : test_draws (P := Toy.prims) :=
  @Build_test_draws Toy.prims (key x61) (key x62) (key x63) (key x64) (Ok tt) (Ok tt).
Definition rekey_peer : Peer :=
  {| wg_pubkey := x25519_base (Primitives := Toy.prims) (key x05); Registry.assigned_ip := sample_base;
     session_id := sid x51; algo := MlKem512; created := 0; last_activity := 0; rekeys := 3 |}.
Definition rekey_registry : Registry :=
  set_inner {[ x25519_base (Primitives := Toy.prims) (key x05) := rekey_peer ]} (Registry_new sample_base 64).

Lemma rekey_peer_found :
  inner rekey_registry !! x25519_base (Primitives := Toy.prims) (key x05) = Some rekey_peer.
Proof. apply lookup_singleton_eq. Qed.

Lemma rekey_end_to_end_witness :
  exists to_client rep t,
    main (P := Toy.prims) (C := ToyCodecs.codecs) (fun _ => lit "value") (fun _ => lit "message")
      (rekey_args (lit "vpn:51821")
         (hex_encode (Codecs := ToyCodecs.codecs) (verifying_key_bytes (P := Toy.prims) toy_identity))
         (hex_encode (Codecs := ToyCodecs.codecs) (arr_list (sid x51)))
         (b64_encode (Codecs := ToyCodecs.codecs) (arr_list (key x05))) MlKem768)
      sample_test {| t_disk := mkfs ∅; t_conn := opened to_client eof |} = (Ok rep, t).
Proof.
  edestruct (rekey_end_to_end (L := Toy.laws) (CL := ToyCodecs.laws) (I := WgTable.installer)
    (fun _ => lit "value") (fun _ => lit "message") sample_ctx sample_draws sample_test (lit "vpn:51821")
    MlKem768 (key x05) rekey_peer rekey_registry ∅ (mkfs ∅) (mkfs ∅) eof eof)
    as (ts & tc & rep & s & _ & Hc & _).
  - apply rekey_peer_found.
  - reflexivity.
  - reflexivity.
  - reflexivity.
  - reflexivity.
  - intros psk. reflexivity.
  - exists tc, rep. eexists. exact Hc.
Defined.

(** What the client prints for a first handshake. *)
Example allowed_network : trim_last_octet sample_base ++ text ".0/24" = text "10.8.0.0/24".
Proof. reflexivity. Qed.
