(* ===== verification/RekeyCommand.v ===== *)
(** * The rekey command that the test client prints

    The last line of a first run's report is a command to rekey the session
    with ([server/handshake-server/src/bin/test-client.rs], the end of [main]).
    This file runs both: the first run against the server, and then the printed
    command, its [<vk>] filled in, against the server as the first run left it. *)

From S2P Require Import Prelude Utf8 Io Fs Strings Net ServerWire WireParity Primitives.
From S2P Require Import Registry RegistryFacts Tunnel ServerHandshake Server ServerFacts.
From S2P Require Import Agreement EndToEnd TestClient.

(** ** The two command lines *)

Definition first_args (addr vk : rstring) (a : AlgoCode) : list rstring :=
  [addr; vk; lit "--algo"; algo_text a].

Section commands.
Context `{C : Codecs}.

(** The arguments of the printed command: no [--algo] among them. *)
Definition rekey_command (addr vk : rstring) (session_id : arr 16) (wg_private : arr 32) : list rstring :=
  [addr; vk; lit "--rekey"; lit "--session"; hex_encode (arr_list session_id);
   lit "--wg-key"; b64_encode (arr_list wg_private)].

Definition blank_separated (words : list rstring) : bytes :=
  match words with
  | [] => []
  | w :: words => str_bytes w ++ concat (map (fun w => x20 :: str_bytes w) words)
  end.

(** The line of the report. *)
Definition rekey_line (r : Report) : bytes :=
  text "  " ++ blank_separated
    (lit "test-client" :: rekey_command (rp_hs_addr r) (lit "<vk>") (cf_session_id (rp_finish r)) (rp_wg_private r)).

Lemma printed_last r : rp_rekey r = false -> list.last (printed r) = Some (rekey_line r).
Proof.
  intros H. unfold printed. rewrite H. unfold handshake_report.
  unfold rekey_line, blank_separated, rekey_command. cbn [list.last app wg_quick_config map concat].
  by rewrite app_nil_r.
Qed.

Lemma parse_first debug_value addr vk a :
  parse debug_value (first_args addr vk a) = Ok (Build_Args addr vk a None false None None).
Proof. destruct a; vm_compute; reflexivity. Qed.

Lemma parse_command debug_value addr vk sid priv :
  parse debug_value (rekey_command addr vk sid priv) =
    Ok (Build_Args addr vk MlKem768 None true (Some (hex_encode (arr_list sid))) (Some (b64_encode (arr_list priv)))).
Proof. vm_compute. reflexivity. Qed.

End commands.

(** The entry that a handshake leaves. *)
Lemma upsert_entry now pk a sid r slot r' :
  upsert_handshake now pk a sid r = (Ok slot, r') ->
  exists p, inner r' !! pk = Some p /\ session_id p = sid /\ algo p = a /\ rekeys p = 0 /\
            slot = {| slot_session_id := sid; slot_assigned_ip := Registry.assigned_ip p |}.
Proof.
  unfold upsert_handshake. repeat case_match; intros H'; try discriminate H'; injection H' as <- <-;
    (eexists; split; [apply lookup_insert_eq | done]).
Qed.

Lemma rekey_downgrade now k p a rg :
  inner rg !! k = Some p -> algo_ltb a (algo p) = true ->
  registry_rekey now k (session_id p) a rg = (Err Downgrade, rg).
Proof. intros Hp Ha. unfold registry_rekey. by rewrite Hp, bool_decide_true, Ha by done. Qed.

(** ** The theorem *)

(** C8. The command that the test client prints does rekey, but not at the
    strongest level.  After a first run at level [a] the last printed line is
    the command with session id and WireGuard key filled in.  Run against the
    server as the first run left it, it sends the default level: up to ML-KEM-768
    the rekey succeeds, for the same session and address, and the PSK reported is
    the one the server installed; after a run at ML-KEM-1024 the server refuses it as a
    downgrade, keeping registry, interface and disk, and the client fails. *)
Theorem printed_command_rekeys {P : Primitives} {L : PrimitiveLaws P} {C : Codecs} {CL : CodecLaws C} {W}
    {I : PskInstaller W} debug_value debug ctx addr a d td d2 td2 rg reg slot wg0 dk dsk re re' :
  let k := x25519_base (td_wg td) in
  let sid := cn_session_id d in
  let vk := hex_encode (verifying_key_bytes (ctx_identity ctx)) in
  let dk1 := (persist reg dk).2 in
  cn_timeouts d = Ok tt -> td_connect td = Ok tt -> td_timeouts td = Ok tt ->
  cn_timeouts d2 = Ok tt -> td_connect td2 = Ok tt -> td_timeouts td2 = Ok tt ->
  upsert_handshake (cn_now d) k a sid rg = (Ok slot, reg) ->
  (forall psk b w, (install k psk (slot_assigned_ip slot) b w).1 = Ok tt) ->
  exists to_server to_client rep wg1 to_server2 to_client2,
    handle_connection debug ctx d (Build_World (opened to_server re) rg wg0 dk) =
      (Ok (Server.Handshake sid), Build_World (Stream [] re to_client []) reg wg1 dk1) /\
    main debug_value debug (first_args addr vk a) td {| t_disk := dsk; t_conn := opened to_client re' |} =
      (Ok rep, {| t_disk := dsk; t_conn := Stream [] re' to_server [] |}) /\
    list.last (printed rep) =
      Some (text "  " ++ blank_separated (lit "test-client" :: rekey_command addr (lit "<vk>") sid (td_wg td))) /\
    let '(answer, world) :=
      handle_connection debug ctx d2 (Build_World (opened to_server2 re) reg wg1 dk1) in
    let '(told, terminal) :=
      main debug_value debug (rekey_command addr vk sid (td_wg td)) td2
        {| t_disk := dsk; t_conn := opened to_client2 re' |} in
    conn world = Stream [] re to_client2 [] /\
    terminal = {| t_disk := dsk; t_conn := Stream [] re' to_server2 [] |} /\
    if algo_ltb MlKem768 a then
      answer = Ok (Server.Rejected x05) /\ world = Build_World (conn world) reg wg1 dk1 /\
      told = Err (server_error {| code := x05; message := lit "rekey may not downgrade the algorithm" |})
    else
      answer = Ok (Server.Rekey sid) /\
      (exists p, inner (registry world) !! k = Some p /\ session_id p = sid /\ algo p = MlKem768 /\ rekeys p = 1) /\
      disk world = (persist (registry world) dk1).2 /\
      exists rep2, told = Ok rep2 /\ cf_session_id (rp_finish rep2) = sid /\
        ServerWire.assigned_ip (rp_server rep2) = ServerWire.assigned_ip (rp_server rep) /\
        install k (psk (rp_keys rep2)) (slot_assigned_ip slot) MlKem768 wg1 = (Ok tt, wg world).
Proof.
  intros k sid vk dk1 Ht Hc1 Ht1 Ht2 Hc2 Htt2 Hup Hinst.
  destruct (upsert_entry _ _ _ _ _ _ _ Hup) as (p & Hp & Hpsid & Hpa & Hpr & ->). cbn [slot_assigned_ip] in Hinst.
  destruct (client_hello_fields a (td_nonce td) k (td_x td) (td_kem td)) as (Hwg & Halg & _).
  destruct (exchange_taken debug ctx d a (td_nonce td) k (td_x td) (td_kem td) None
    {| slot_session_id := sid; slot_assigned_ip := Registry.assigned_ip p |} reg rg wg0 dk re re')
    as (ts & tc & ks & fin & sf & wg1 & Hserver & Hclient & _ & Hsid & Hip); [done| |done|done|].
  { unfold registry_step. by rewrite Hwg, Halg. }
  destruct (client_hello_fields MlKem768 (td_nonce td2) k (td_x td2) (td_kem td2)) as (Hwg2 & Halg2 & _).
  pose proof (client_main_run debug_value debug (first_args addr vk a) addr a _ None td dsk (opened tc re')
    (parse_first _ _ _ _) Hc1 Ht1) as Hfirst.
  cbn [fmap option_fmap option_map] in Hfirst. fold k in Hfirst. rewrite Hclient in Hfirst.
  exists ts, tc. do 2 eexists.
  assert (Hrun := fun c => client_main_run debug_value debug (rekey_command addr vk sid (td_wg td)) addr MlKem768 _
    (Some (sid, td_wg td)) td2 dsk c (parse_command _ _ _ _ _) Hc2 Htt2).
  cbn [fmap option_fmap option_map compose fst snd] in Hrun. fold k in Hrun.
  destruct (algo_ltb MlKem768 a) eqn:Elt.
  - pose proof (exchange_refused debug ctx d2 MlKem768 (td_nonce td2) k (td_x td2) (td_kem td2) (Some sid)
      Downgrade reg reg wg1 dk1 re re') as H. cbn [registry_reject_code] in H.
    destruct H as (ts2 & tc2 & Hserver2 & Hclient2); [done| |].
    { unfold registry_step. rewrite Hwg2, Halg2, <- Hpsid. apply (rekey_downgrade _ _ p); [done|]. by rewrite Hpa. }
    exists ts2, tc2. split; [exact Hserver|]. split; [exact Hfirst|]. split.
    { rewrite printed_last by done. unfold rekey_line, report_of. cbn [rp_hs_addr rp_finish rp_wg_private]. by rewrite Hsid. }
    rewrite Hserver2, Hrun, Hclient2. done.
  - destruct (exchange_taken debug ctx d2 MlKem768 (td_nonce td2) k (td_x td2) (td_kem td2) (Some sid)
      {| slot_session_id := sid; slot_assigned_ip := Registry.assigned_ip p |}
      (set_inner (<[k := rekeyed (cn_now d2) MlKem768 p]> (inner reg)) reg) reg wg1 dk1 re re')
      as (ts2 & tc2 & ks2 & fin2 & sf2 & wg2 & Hserver2 & Hclient2 & Hi & Hsid2 & Hip2); [done| |done|done|].
    { unfold registry_step. rewrite Hwg2, Halg2, <- Hpsid. apply rekey_run; [done|]. by rewrite Hpa. }
    exists ts2, tc2. split; [exact Hserver|]. split; [exact Hfirst|]. split.
    { rewrite printed_last by done. unfold rekey_line, report_of. cbn [rp_hs_addr rp_finish rp_wg_private]. by rewrite Hsid. }
    rewrite Hserver2, Hrun, Hclient2. split; [done|]. split; [done|]. split; [done|]. split.
    { eexists. split; [apply lookup_insert_eq|]. cbn. by rewrite Hpr. }
    split; [done|]. eexists. split; [done|]. split; [done|]. split; [|done]. cbn in *. congruence.
Qed.

(** ** Witness *)

(** After a first run at ML-KEM-1024, on the sample server. *)
Lemma printed_command_rekeys_witness :
  exists (r : Registry) (w : WgTable.table) dk input terminal,
    main (P := Toy.prims) (C := ToyCodecs.codecs) (fun _ => lit "value") (fun _ => lit "message")
      (rekey_command (C := ToyCodecs.codecs) (lit "vpn:51821")
         (hex_encode (Codecs := ToyCodecs.codecs) (verifying_key_bytes (P := Toy.prims) toy_identity)) (sid x51) (key x61))
      sample_test {| t_disk := mkfs ∅; t_conn := opened input eof |} =
      (Err (server_error {| code := x05; message := lit "rekey may not downgrade the algorithm" |}), terminal) /\
    size (inner r) = 1%nat /\
    exists to_server, (handle_connection (C := ToyCodecs.codecs) (I := WgTable.installer) (fun _ => lit "message")
      sample_ctx sample_draws (Build_World (opened to_server eof) r w dk)).1 = Ok (Server.Rejected x05).
Proof.
  destruct (upsert_handshake 5 (x25519_base (Primitives := Toy.prims) (key x61)) MlKem1024 (sid x51)
    (Registry_new sample_base 64)) as [[slot|] reg] eqn:Hup; [|vm_compute in Hup; discriminate].
  assert (Hsize : size (inner reg) = 1%nat).
  { change reg with (Ok (E := RegistryError) slot, reg).2. rewrite <- Hup. vm_compute. reflexivity. }
  edestruct (printed_command_rekeys (L := Toy.laws) (CL := ToyCodecs.laws) (I := WgTable.installer)
    (fun _ => lit "value") (fun _ => lit "message") sample_ctx (lit "vpn:51821") MlKem1024
    sample_draws sample_test sample_draws sample_test (Registry_new sample_base 64) reg slot ∅ (mkfs ∅) (mkfs ∅) eof eof)
    as (ts & tc & rep & w & ts2 & tc2 & _ & _ & _ & H).
  - reflexivity.
  - reflexivity.
  - reflexivity.
  - reflexivity.
  - reflexivity.
  - reflexivity.
  - exact Hup.
  - intros psk b w. reflexivity.
  - destruct (handle_connection _ _ _ _) as [answer world] eqn:Es. destruct (main _ _ _ _ _) as [told terminal] eqn:Em.
    destruct H as (_ & _ & Ha & _ & Ht). subst answer told.
    exists reg, w, (persist (C := ToyCodecs.codecs) reg (mkfs ∅)).2, tc2, terminal. split; [exact Em|]. split; [exact Hsize|].
    exists ts2. by rewrite Es.
Defined.
