(* ===== verification/Spike.v ===== *)
(** * The crypto check

    [server/crypto-spike/src/main.rs] drives the client core's cryptography the
    way the server does and reports the size of every value that crosses the
    wire.  A failed [expect] or assertion is [None]. *)

From S2P Require Import Prelude Utf8 Net Algorithm Primitives HybridKem CoreWire CoreClient.

Section spike.
Context `{P : Primitives}.

(** The first eight bytes, two hexadecimal digits each. *)
Definition hex8 (l : bytes) : bytes :=
  concat (map (fun b => [hex_digit (b2z b / 16); hex_digit (b2z b mod 16)]) (take 8 l)).

(** What [exercise] prints. *)
Record report : Set := {
  r_name : string;
  r_secret_len : Z;
  r_first8 : bytes;
  r_x25519_pub : Z;
  r_mlkem_pub : Z;
  r_ciphertext : Z;
  r_signature : Z;
  r_transcript : Z
}.

(** What [exercise] draws, in order. *)
Record spike_draws := {
  sp_client_x : arr 32;
  sp_client_kem : kem_entropy;
  sp_seed : arr 32;
  sp_server_x : arr 32;
  sp_server_kem : kem_entropy;
  sp_client_nonce : arr 32;
  sp_server_nonce : arr 32
}.

Definition exercise (K : KemParams) (level : MlKemLevel) (d : spike_draws) : option report :=
  let name := name level in
  let client_keys := generate_client_keypairs K (sp_client_x d) (sp_client_kem d) in
  let server_identity := ServerAuthenticator_generate (sp_seed d) in
  server_result ← ok (server_encapsulate (x25519_public client_keys) (mlkem_public client_keys)
    (sp_server_x d) (sp_server_kem d));
  let transcript := build_handshake_transcript (String.list_byte_of_string name)
    (generate_nonce (sp_client_nonce d)) (generate_nonce (sp_server_nonce d)) client_keys
    (HybridKem.server_x25519_public server_result) (ciphertext server_result) in
  let signature := sign server_identity transcript in
  let authentic := verify (verifying_key server_identity) transcript signature in
  if negb authentic then None else
  client_secret ← ok (client_decapsulate client_keys (HybridKem.server_x25519_public server_result)
    (ciphertext server_result));
  if negb (bool_decide (client_secret = hybrid_secret server_result)) then None else
  let x25519_pub := len (arr_list (x25519_public client_keys)) in
  let mlkem_pub := len (arr_list (ek_as_bytes (mlkem_public client_keys))) in
  let ciphertext := len (arr_list (ciphertext server_result)) in
  let sig_len := len (arr_list (sig_encode signature)) in
  Some {| r_name := name; r_secret_len := len (arr_list client_secret); r_first8 := hex8 (arr_list client_secret);
          r_x25519_pub := x25519_pub; r_mlkem_pub := mlkem_pub; r_ciphertext := ciphertext;
          r_signature := sig_len; r_transcript := len transcript |}.

(** The loop over core's own helper. *)
Fixpoint drive_local (runs : list (MlKemLevel * local_draws)) : option unit :=
  match runs with
  | [] => Some tt
  | (level, d) :: runs =>
      secret ← ok (run_local_authenticated_handshake level d);
      if negb (len (arr_list secret) =? 32) then None else drive_local runs
  end.

Definition main (d512 d768 d1024 : spike_draws) (l512 l768 l1024 : local_draws) :
    option (list report) :=
  r512 ← exercise P512 MlKem512 d512;
  r768 ← exercise P768 MlKem768 d768;
  r1024 ← exercise P1024 MlKem1024 d1024;
  _ ← drive_local [(MlKem512, l512); (MlKem768, l768); (MlKem1024, l1024)];
  Some [r512; r768; r1024].

(** ** Properties *)

(** The sizes that the wire format assumes. *)
Definition sizes (level : MlKemLevel) (first8 : bytes) : report :=
  {| r_name := name level; r_secret_len := 32; r_first8 := first8; r_x25519_pub := 32;
     r_mlkem_pub := mlkem_pub_len level; r_ciphertext := ciphertext_len level;
     r_signature := SIGNATURE_LEN;
     r_transcript := 158 + mlkem_pub_len level + ciphertext_len level + (if decide (level = MlKem1024) then 1 else 0) |}.

Context `{L : !PrimitiveLaws P}.

Lemma exercise_sizes level d :
  exists secret : arr 32, exercise (core_params level) level d = Some (sizes level (hex8 (arr_list secret))).
Proof.
  unfold exercise.
  destruct (exchange_agrees (core_params level) (sp_client_x d) (sp_client_kem d) (sp_server_x d) (sp_server_kem d))
    as (s & Hs & Hc). rewrite Hs. cbn [ok mbind option_bind].
  unfold verify, verifying_key, sign. rewrite dsa_correct. cbn [negb]. rewrite Hc. cbn [ok mbind option_bind].
  rewrite bool_decide_true by done. cbn [negb]. exists (hybrid_secret s).
  unfold build_handshake_transcript. rewrite transcript_app. unfold sizes. rewrite !len_app, !arr_len.
  rewrite core_ek_len, core_ct_len. by destruct level.
Qed.

(** The check passes whatever it draws: no handshake of any level takes an
    error branch or disagrees, and the reported sizes are the ones the wire
    format is laid out for. *)
Theorem spike_passes d512 d768 d1024 l512 l768 l1024 :
  exists s512 s768 s1024 : arr 32,
    main d512 d768 d1024 l512 l768 l1024 =
      Some [sizes MlKem512 (hex8 (arr_list s512)); sizes MlKem768 (hex8 (arr_list s768));
            sizes MlKem1024 (hex8 (arr_list s1024))].
Proof.
  destruct (exercise_sizes MlKem512 d512) as (s512 & H1), (exercise_sizes MlKem768 d768) as (s768 & H2),
    (exercise_sizes MlKem1024 d1024) as (s1024 & H3).
  exists s512, s768, s1024. unfold main. simpl in H1, H2, H3. rewrite H1, H2, H3. cbn [mbind option_bind].
  assert (Hd : forall runs, drive_local runs = Some tt).
  { induction runs as [|[l d] runs IH]; [done|]. cbn [drive_local].
    destruct (local_handshake_succeeds l d) as (K & dh & k & ct & -> & _). cbn [ok mbind option_bind].
    by rewrite arr_len. }
  by rewrite Hd.
Qed.

End spike.

Definition sample_spike : spike_draws (P := Toy.prims) :=
  @Build_spike_draws Toy.prims (arr_fill 32 x01) (arr_fill 32 x02 : arr 32) (arr_fill 32 x03)
    (arr_fill 32 x04) (arr_fill 32 x05 : arr 32) (arr_fill 32 x06) (arr_fill 32 x07).

Lemma spike_passes_witness :
  exists rs, main sample_spike sample_spike sample_spike sample_draws sample_draws sample_draws = Some rs /\
    length rs = 3%nat.
Proof.
  edestruct (spike_passes (L := Toy.laws) sample_spike sample_spike sample_spike sample_draws sample_draws
    sample_draws) as (s1 & s2 & s3 & H).
  eexists. split; [exact H | reflexivity].
Defined.
