(* ===== verification/Vectors.v ===== *)
(** * The wire-format fixtures

    [server/handshake-server/src/bin/emit-vectors.rs] writes
    [server/handshake-vectors.json], against which both sides test their
    encoders.  [serde_json]'s printer is an argument. *)

From S2P Require Import Prelude Utf8 Io Fs Algorithm ServerWire WireParity Primitives.
From S2P Require HybridKem CoreClient CoreWire.
From S2P Require Import Registry ServerHandshake.

(** [serde_json::Value]: numbers, strings, arrays and objects. *)
#[warnings="-register-all"]
Inductive value :=
  | Num (z : Z)
  | Text (s : rstring)
  | List (l : list value)
  | Obj (fields : list (string * value)).

Section vectors.
Context `{P : Primitives} `{C : Codecs}.

(** The bytes that [write] puts into a [Vec]; [None] is the failed [expect]. *)
Definition frame_bytes (m : Message) : option bytes :=
  match Message_write m (mem_stream []) with
  | (Ok _, s) => Some (tx s)
  | (Err _, _) => None
  end.
Definition frame_hex (m : Message) : option rstring := hex_encode <$> frame_bytes m.

(** ** Fixed inputs *)

Definition v_client_nonce : arr 32 := arr_fill 32 x11.
Definition v_server_nonce : arr 32 := arr_fill 32 x22.
Definition v_client_x25519 : arr 32 := arr_fill 32 x33.
Definition v_server_x25519 : arr 32 := arr_fill 32 x55.
Definition mlkem_stub (a : AlgoCode) : bytes := replicate (Z.to_nat (AlgoCode_mlkem_pub_len a)) x44.
Definition v_ciphertext : bytes := replicate (Z.to_nat (AlgoCode_ciphertext_len MlKem768)) x66.
Definition v_hybrid_secret : arr 32 := arr_fill 32 x77.
Definition v_session_id : arr 16 := arr_fill 16 xab.
Definition sig_stub : bytes := replicate (Z.to_nat SIGNATURE_LEN) x99.

Definition v_transcript : bytes := transcript_build
  {| ti_algo := MlKem768; ti_client_nonce := v_client_nonce; ti_server_nonce := v_server_nonce;
     ti_client_x25519_pub := v_client_x25519; ti_client_mlkem_pub := mlkem_stub MlKem768;
     ti_server_x25519_pub := v_server_x25519; ti_mlkem_ciphertext := v_ciphertext |}.

Definition v_keys : SessionKeys := derive v_hybrid_secret v_client_nonce v_server_nonce.
Definition v_client_tag : arr 32 := client_tag_of (confirm_key v_keys) v_transcript.
Definition v_server_tag : arr 32 := server_tag_of (confirm_key v_keys) v_transcript.

(** ** The framing samples *)

Definition v_hello (a : AlgoCode) : ClientHello :=
  {| ch_algo := a; client_nonce := v_client_nonce; client_wg_pubkey := arr_fill 32 x01;
     client_x25519_pub := v_client_x25519; client_mlkem_pub := mlkem_stub a |}.

Definition samples : list (string * Message) :=
  [("client_hello_mlkem768", MClientHello (v_hello MlKem768));
   ("server_hello_mlkem768", MServerHello
      {| sh_algo := MlKem768; sh_session_id := v_session_id; server_nonce := v_server_nonce;
         server_x25519_pub := v_server_x25519; mlkem_ciphertext := v_ciphertext; signature := sig_stub |});
   ("client_finish", MClientFinish {| cf_session_id := v_session_id; client_tag := v_client_tag |});
   ("server_finish", MServerFinish
      {| sf_session_id := v_session_id; server_tag := v_server_tag; server_wg_pubkey := arr_fill 32 x5a;
         ServerWire.assigned_ip := arr_copy 4 [x0a; x08; x00; x02]; wg_port := u16_of_be xca x6c |});
   ("rekey_request_mlkem1024", MRekeyRequest {| rk_session_id := v_session_id; hello := v_hello MlKem1024 |});
   ("error_algo_mismatch", MError
      {| code := x05; message := lit "rekey may not downgrade the algorithm" |})]%string.

Fixpoint framing (l : list (string * Message)) : option (list value) :=
  match l with
  | [] => Some []
  | (name, m) :: l =>
      h ← frame_hex m;
      vs ← framing l;
      Some (Obj [("name", Text (lit name)); ("frame_hex", Text h)]%string :: vs)
  end.

Definition hex_of {n} (a : arr n) : value := Text (hex_encode (arr_list a)).
Definition text_of (s : string) : value := Text (lit s).

Definition doc : option value :=
  framing ← framing samples;
  let t := v_transcript in
  Some (Obj
    [("schema_version", Num 1);
     ("generated_by", text_of "cargo run -p handshake-server --bin emit-vectors");
     ("protocol", text_of "server/PROTOCOL.md v1 (frozen)");
     ("note", text_of "Deterministic layers only. The KEM/DH/signature roundtrip uses fresh randomness and is covered by core's tests, crypto-spike, and the integration test.");
     ("framing", List framing);
     ("transcript", Obj
        [("algo", text_of "ML-KEM-768");
         ("client_nonce_hex", hex_of v_client_nonce);
         ("server_nonce_hex", hex_of v_server_nonce);
         ("client_x25519_pub_hex", hex_of v_client_x25519);
         ("client_mlkem_pub_hex", Text (hex_encode (mlkem_stub MlKem768)));
         ("server_x25519_pub_hex", hex_of v_server_x25519);
         ("mlkem_ciphertext_hex", Text (hex_encode v_ciphertext));
         ("transcript_hex", Text (hex_encode t));
         ("transcript_sha256", hex_of (sha256 t))]);
     ("kdf", Obj
        [("hybrid_secret_hex", hex_of v_hybrid_secret);
         ("client_nonce_hex", hex_of v_client_nonce);
         ("server_nonce_hex", hex_of v_server_nonce);
         ("psk_hex", hex_of (psk v_keys));
         ("confirm_key_hex", hex_of (confirm_key v_keys))]);
     ("mac", Obj
        [("confirm_key_hex", hex_of (confirm_key v_keys));
         ("transcript_hex", Text (hex_encode t));
         ("client_tag_hex", hex_of v_client_tag);
         ("server_tag_hex", hex_of v_server_tag)])])%string.

(** The program: [None] when an [expect] or [unwrap] fails. *)
Definition main (to_string_pretty : value -> option rstring) (args : list rstring) (s : fs) : option fs :=
  let out := match args with
             | _ :: a :: _ => str_bytes a
             | _ => String.list_byte_of_string "server/handshake-vectors.json"
             end in
  d ← doc;
  text ← to_string_pretty d;
  match fs_write out (str_bytes text ++ [x0a]) s with
  | (Ok _, s) => Some s
  | (Err _, _) => None
  end.

(** ** Facts *)

Lemma samples_sendable n m : (n, m) ∈ samples -> sendable m.
Proof.
  intros H. unfold samples in H.
  repeat (apply elem_of_cons in H as [[= -> ->]|H];
    [first [by split | apply (bool_decide_unpack _); vm_compute; exact I]|]).
  by apply not_elem_of_nil in H.
Qed.

Lemma frame_bytes_ok m : sendable m -> frame_bytes m = Some (frame m).
Proof. intros H. unfold frame_bytes, mem_stream. by rewrite server_write_ok. Qed.

Lemma framing_ok l :
  (forall n m, (n, m) ∈ l -> sendable m) ->
  framing l = Some (map (fun nm => Obj [("name", Text (lit nm.1)); ("frame_hex", Text (hex_encode (frame nm.2)))]%string) l).
Proof.
  induction l as [|[n m] l IH]; intros H; [done|]. cbn [framing]. unfold frame_hex.
  rewrite frame_bytes_ok by (apply (H n); by left). cbn [fmap option_fmap option_map mbind option_bind].
  rewrite IH; [done|]. intros n' m' Hm. apply (H n'). by right.
Qed.

(** ** Properties *)

(** The fixtures stand for both implementations.  Writing them cannot
    fail; every framing sample is exactly the frame of its message, which the
    server's and the client's decoder both read back whole; and the transcript,
    the keys and the two tags are those the client core computes from the same
    inputs and each side accepts from the other. *)
Theorem vectors_agree :
  is_Some doc /\
  (forall n m, (n, m) ∈ samples ->
     frame_bytes m = Some (frame m) /\
     Message_read (mem_stream (frame m)) = (Ok m, mem_stream []) /\
     CoreWire.Message_read (mem_stream (frame m)) = (Ok (to_core m), mem_stream [])) /\
  v_transcript = HybridKem.build_handshake_transcript_from_bytes (String.list_byte_of_string (name Algorithm.MlKem768))
    v_client_nonce v_server_nonce v_client_x25519 (mlkem_stub MlKem768) v_server_x25519 v_ciphertext /\
  let ck := HybridKem.derive_session_keys v_hybrid_secret v_client_nonce v_server_nonce in
  HybridKem.psk ck = psk v_keys /\
  verify_client_tag (confirm_key v_keys) v_transcript (CoreClient.client_tag_of (HybridKem.confirm_key ck) v_transcript) = true /\
  CoreClient.client_tag_of (HybridKem.confirm_key ck) v_transcript = v_client_tag /\
  CoreClient.verify_server_tag (HybridKem.confirm_key ck) v_transcript v_server_tag = true.
Proof.
  split; [unfold doc; rewrite framing_ok by apply samples_sendable; by eexists|]. split.
  { intros n m H%samples_sendable. split; [by apply frame_bytes_ok|].
    pose proof (server_read_frame m [] eof [] [] H) as Hr. rewrite app_nil_r in Hr. split; [exact Hr|].
    rewrite read_parity. unfold mem_stream. by rewrite Hr. }
  split; [done|]. split; [done|].
  split; [by apply verify_client_tag_iff|]. split; [done|]. by apply CoreClient.verify_server_tag_iff.
Qed.

End vectors.

(** The samples that no cryptography enters, byte by byte as the file has them. *)
Example client_hello_bytes :
  frame (MClientHello (v_hello MlKem768)) =
    [x01; x01; x05; x05; x01] ++ replicate 32 x11 ++ replicate 32 x01 ++ [x00; x20] ++ replicate 32 x33 ++
    [x04; xa0] ++ replicate 1184 x44.
Proof. vm_compute. reflexivity. Qed.

Example server_hello_bytes :
  frame (MServerHello
    {| sh_algo := MlKem768; sh_session_id := v_session_id; server_nonce := v_server_nonce;
       server_x25519_pub := v_server_x25519; mlkem_ciphertext := v_ciphertext; signature := sig_stub |}) =
    [x01; x02; x11; x84; x01] ++ replicate 16 xab ++ replicate 32 x22 ++ [x00; x20] ++ replicate 32 x55 ++
    [x04; x40] ++ replicate 1088 x66 ++ [x0c; xed] ++ replicate 3309 x99.
Proof. vm_compute. reflexivity. Qed.

Example rekey_request_bytes :
  frame (MRekeyRequest {| rk_session_id := v_session_id; hello := v_hello MlKem1024 |}) =
    [x01; x05; x06; x95] ++ replicate 16 xab ++ [x02] ++ replicate 32 x11 ++ replicate 32 x01 ++
    [x00; x20] ++ replicate 32 x33 ++ [x06; x20] ++ replicate 1568 x44.
Proof. vm_compute. reflexivity. Qed.

Example error_bytes :
  frame (MError {| code := x05; message := lit "rekey may not downgrade the algorithm" |}) =
    [x01; xee; x00; x28; x05; x00; x25] ++ String.list_byte_of_string "rekey may not downgrade the algorithm".
Proof. vm_compute. reflexivity. Qed.
