(* ===== verification/FrozenVectors.v ===== *)
(** * The published fixtures

    [committed] is [server/handshake-vectors.json] as it lies in the repository,
    value by value, long runs of one byte abbreviated.  It is what
    [Vectors.doc], the model of [emit-vectors.rs], evaluates to on the real
    hashes, whatever the other primitives are: the framing, the transcript, the
    key schedule and both tags of the model are the published ones. *)

From S2P Require Import Prelude Utf8 Io Algorithm ServerWire Primitives Sha256 Registry ServerHandshake Vectors.
From S2P Require HybridKem CoreClient.

Definition text (s : string) : value := Text (lit s).
Fixpoint run (n : nat) (s : string) : string :=
  match n with O => "" | S n => String.append s (run n s) end.
(** A text of hexadecimal digits, in pieces. *)
Definition hexes (l : list string) : value := text (foldr String.append "" l).

(** The objects of [serde_json] are maps, which it prints in the order of their keys. *)
Fixpoint insert_field (k : string) (v : value) (l : list (string * value)) : list (string * value) :=
  match l with
  | [] => [(k, v)]
  | (k', v') :: l' =>
      match String.compare k k' with
      | Gt => (k', v') :: insert_field k v l'
      | _ => (k, v) :: l
      end
  end.
Fixpoint printed_order (v : value) : value :=
  match v with
  | Num z => Num z
  | Text s => Text s
  | List l => List (map printed_order l)
  | Obj fields => Obj (fold_right (fun kv => insert_field kv.1 (printed_order kv.2)) [] fields)
  end.

Definition committed : value :=
  Obj
    [("framing", List
       [Obj
          [("frame_hex", hexes ["0101050501"; run 32 "11"; run 32 "01"; "0020"; run 32 "33"; "04a0"; run 1184 "44"]);
           ("name", text "client_hello_mlkem768")];
        Obj
          [("frame_hex", hexes ["0102118401"; run 16 "ab"; run 32 "22"; "0020"; run 32 "55"; "0440"; run 1088 "66"; "0ced"; run 3309 "99"]);
           ("name", text "server_hello_mlkem768")];
        Obj
          [("frame_hex", hexes ["01030030"; run 16 "ab"; "17eb8450e6c8c76591b8706bf1363ac5d5d924002c8855d14d9ab7acbcc0b9ff"]);
           ("name", text "client_finish")];
        Obj
          [("frame_hex", hexes ["01040056"; run 16 "ab"; "89bb0c7af045ac12f8b241c0655fa1eef9bb7b63f7ca67e60bf074b60f81794a"; run 32 "5a"; "0a080002ca6c"]);
           ("name", text "server_finish")];
        Obj
          [("frame_hex", hexes ["01050695"; run 16 "ab"; "02"; run 32 "11"; run 32 "01"; "0020"; run 32 "33"; "0620"; run 1568 "44"]);
           ("name", text "rekey_request_mlkem1024")];
        Obj
          [("frame_hex", hexes ["01ee002805002572656b6579206d6179206e6f7420646f776e67726164652074686520616c676f726974686d"]);
           ("name", text "error_algo_mismatch")]]);
     ("generated_by", text "cargo run -p handshake-server --bin emit-vectors");
     ("kdf", Obj
       [("client_nonce_hex", hexes [run 32 "11"]);
        ("confirm_key_hex", hexes ["a0c383a95d5cc667a44a6d3cb2b16cf9c079597e8a6ea19e6b04408ca934615f"]);
        ("hybrid_secret_hex", hexes [run 32 "77"]);
        ("psk_hex", hexes ["4e6f2cfda41322d9b384db4171a2bbd9be4328d49158b50b14b77c637d41145e"]);
        ("server_nonce_hex", hexes [run 32 "22"])]);
     ("mac", Obj
       [("client_tag_hex", hexes ["17eb8450e6c8c76591b8706bf1363ac5d5d924002c8855d14d9ab7acbcc0b9ff"]);
        ("confirm_key_hex", hexes ["a0c383a95d5cc667a44a6d3cb2b16cf9c079597e8a6ea19e6b04408ca934615f"]);
        ("server_tag_hex", hexes ["89bb0c7af045ac12f8b241c0655fa1eef9bb7b63f7ca67e60bf074b60f81794a"]);
        ("transcript_hex", hexes ["5051432d56504e2d48414e445348414b452d76314d4c2d4b454d2d373638"; run 32 "11"; run 32 "22"; run 32 "33"; run 1184 "44"; run 32 "55"; run 1088 "66"])]);
     ("note", text "Deterministic layers only. The KEM/DH/signature roundtrip uses fresh randomness and is covered by core's tests, crypto-spike, and the integration test.");
     ("protocol", text "server/PROTOCOL.md v1 (frozen)");
     ("schema_version", Num 1);
     ("transcript", Obj
       [("algo", text "ML-KEM-768");
        ("client_mlkem_pub_hex", hexes [run 1184 "44"]);
        ("client_nonce_hex", hexes [run 32 "11"]);
        ("client_x25519_pub_hex", hexes [run 32 "33"]);
        ("mlkem_ciphertext_hex", hexes [run 1088 "66"]);
        ("server_nonce_hex", hexes [run 32 "22"]);
        ("server_x25519_pub_hex", hexes [run 32 "55"]);
        ("transcript_hex", hexes ["5051432d56504e2d48414e445348414b452d76314d4c2d4b454d2d373638"; run 32 "11"; run 32 "22"; run 32 "33"; run 1184 "44"; run 32 "55"; run 1088 "66"]);
        ("transcript_sha256", hexes ["259af9e18b8abbe199682f69270eb6c85a638ec40002b04af32fa9f998e4f90b"])])].

(** ** They agree *)

(** Run on the real SHA-256, HMAC and HKDF, the vector generator writes the
    file in the repository, whatever the other primitives compute: every frame,
    the transcript and its hash, the derived PSK and confirmation key, and both
    finish tags.  The client core derives the same published keys and tags. *)
Lemma published_vectors {P : Primitives} :
  let P' := with_sha P in
  printed_order <$> @doc P' ToyCodecs.codecs = Some committed /\
  HybridKem.derive_session_keys (P := P') v_hybrid_secret v_client_nonce v_server_nonce =
    {| HybridKem.psk := arr_copy 32 (of_hex "4e6f2cfda41322d9b384db4171a2bbd9be4328d49158b50b14b77c637d41145e");
       HybridKem.confirm_key := arr_copy 32 (of_hex "a0c383a95d5cc667a44a6d3cb2b16cf9c079597e8a6ea19e6b04408ca934615f") |} /\
  CoreClient.client_tag_of (P := P')
      (arr_copy 32 (of_hex "a0c383a95d5cc667a44a6d3cb2b16cf9c079597e8a6ea19e6b04408ca934615f")) v_transcript =
    arr_copy 32 (of_hex "17eb8450e6c8c76591b8706bf1363ac5d5d924002c8855d14d9ab7acbcc0b9ff") /\
  CoreClient.verify_server_tag (P := P')
      (arr_copy 32 (of_hex "a0c383a95d5cc667a44a6d3cb2b16cf9c079597e8a6ea19e6b04408ca934615f")) v_transcript
      (arr_copy 32 (of_hex "89bb0c7af045ac12f8b241c0655fa1eef9bb7b63f7ca67e60bf074b60f81794a")) = true.
Proof. vm_compute. repeat split. Qed.
