(* ===== verification/CryptoTests.v ===== *)
(** * The unit tests of the cryptographic modules

    The test modules of [core/src/crypto/] ([hybrid_kem.rs], [auth.rs],
    [kdf.rs], [ml_kem.rs], [x25519.rs]), of [core/src/protocol/tags.rs] and
    [client.rs], and of the server's [kdf.rs], [transcript.rs] and
    [identity.rs].  A test is [true] when no assertion fails and nothing it
    unwraps is absent; what it draws is an argument.

    The tests that expect success pass for all lawful primitives and all draws.
    Those that expect a rejection depend on more than the laws and are run on
    [sha_toy], which computes the real hashes; on it the constants that the
    repository publishes come out byte for byte. *)

From S2P Require Import Prelude Utf8 Io Fs Algorithm Primitives Sha256.
From S2P Require CoreWire ServerWire HybridKem CoreClient ServerHandshake.

Section tests.
Context `{P : Primitives}.
Import HybridKem.

Definition result_true {E A} (r : result E A) (f : A -> bool) : bool :=
  match r with Ok a => f a | Err _ => false end.

(** [v[i] ^= mask]. *)
Definition xor_at (i : nat) (mask : u8) (l : bytes) : bytes :=
  alter (fun b => z2b (Z.lxor (b2z b) (b2z mask))) i l.

(** ** [ml_kem.rs] and [x25519.rs] *)

Definition ml_kem_round_trip (K : KemParams) (r1 r2 : kem_entropy) : bool :=
  let '(client_private_key, client_public_key) := kem_generate K r1 in
  result_true (kem_encapsulate client_public_key r2) (fun '(ciphertext, server_shared_secret) =>
    result_true (kem_decapsulate client_private_key ciphertext) (fun client_shared_secret =>
      bool_decide (client_shared_secret = server_shared_secret))).
Definition ml_kem_512_round_trip := ml_kem_round_trip P512.
Definition ml_kem_768_round_trip := ml_kem_round_trip P768.
Definition ml_kem_1024_round_trip := ml_kem_round_trip P1024.

Definition x25519_shared_secrets_match (client_private server_private : arr 32) : bool :=
  let client_public := x25519_base client_private in
  let server_public := x25519_base server_private in
  bool_decide (x25519 client_private server_public = x25519 server_private client_public).

(** ** [hybrid_kem.rs] *)

Definition combine_shared_secrets_matches_python_reference_vectors : bool :=
  bool_decide (arr_list (combine_shared_secrets (replicate 32 x01) (replicate 32 x02)) =
    of_hex "f818afd37a6dc3bc92fb44731011277006db4efa6e9023cd7468c02335d22a4d")
  && let x25519_secret := map (fun i => z2b (Z.of_nat i)) (seq 0 32) in
     let mlkem_secret := map (fun i => z2b (Z.of_nat (i + 32))) (seq 0 32) in
     bool_decide (arr_list (combine_shared_secrets x25519_secret mlkem_secret) =
       of_hex "fdeab9acf3710362bd2658cdc9a29e8f9c757fcf9811603a8c447cd1d9151108").

(** The draws of the client's keys and of the server's answer. *)
Record exchange := {
  ex_client_x : arr 32;
  ex_client_kem : kem_entropy;
  ex_server_x : arr 32;
  ex_server_kem : kem_entropy
}.

Definition hybrid_secrets_match (K : KemParams) (d : exchange) : bool :=
  let client_keys := generate_client_keypairs K (ex_client_x d) (ex_client_kem d) in
  result_true (server_encapsulate (x25519_public client_keys) (mlkem_public client_keys)
      (ex_server_x d) (ex_server_kem d)) (fun server_result =>
    result_true (client_decapsulate client_keys (server_x25519_public server_result)
        (ciphertext server_result)) (fun client_hybrid_secret =>
      bool_decide (client_hybrid_secret = hybrid_secret server_result)
      && (len (arr_list client_hybrid_secret) =? 32))).
Definition hybrid_x25519_ml_kem_768_secrets_match := hybrid_secrets_match P768.
Definition hybrid_x25519_ml_kem_512_secrets_match := hybrid_secrets_match P512.
Definition hybrid_x25519_ml_kem_1024_secrets_match := hybrid_secrets_match P1024.

Definition modified_ciphertext_does_not_produce_server_secret (d : exchange) : bool :=
  let client_keys := generate_client_keypairs_768 (ex_client_x d) (ex_client_kem d) in
  result_true (server_encapsulate_768 (x25519_public client_keys) (mlkem_public client_keys)
      (ex_server_x d) (ex_server_kem d)) (fun server_result =>
    let modified_ciphertext := arr_copy (ct_len P768) (xor_at 0 x01 (arr_list (ciphertext server_result))) in
    match client_decapsulate_768 client_keys (server_x25519_public server_result) modified_ciphertext with
    | Ok client_secret => negb (bool_decide (client_secret = hybrid_secret server_result))
    | Err _ => true
    end).

Definition authenticated_handshake_succeeds (K : KemParams)
    (transcript_of : arr 32 -> arr 32 -> HybridClientKeys K -> arr 32 -> Ciphertext K -> bytes)
    (seed : arr 32) (d : exchange) : bool :=
  let authenticator := ServerAuthenticator_generate seed in
  let client_keys := generate_client_keypairs K (ex_client_x d) (ex_client_kem d) in
  result_true (server_encapsulate (x25519_public client_keys) (mlkem_public client_keys)
      (ex_server_x d) (ex_server_kem d)) (fun server_result =>
    let transcript := transcript_of (arr_fill 32 x09) (arr_fill 32 x0a) client_keys
      (server_x25519_public server_result) (ciphertext server_result) in
    let signature := sign authenticator transcript in
    let authenticated := verify (verifying_key authenticator) transcript signature in
    authenticated &&
    result_true (client_decapsulate client_keys (server_x25519_public server_result)
        (ciphertext server_result)) (fun client_secret =>
      bool_decide (client_secret = hybrid_secret server_result))).
Definition authenticated_hybrid_handshake_succeeds :=
  authenticated_handshake_succeeds P768 build_handshake_transcript_768.
Definition authenticated_ml_kem_512_handshake_succeeds :=
  authenticated_handshake_succeeds P512 build_handshake_transcript_512.
Definition authenticated_ml_kem_1024_handshake_succeeds :=
  authenticated_handshake_succeeds P1024 build_handshake_transcript_1024.

Definition modified_handshake_transcript_is_rejected (seed : arr 32) (d : exchange) : bool :=
  let authenticator := ServerAuthenticator_generate seed in
  let client_keys := generate_client_keypairs_768 (ex_client_x d) (ex_client_kem d) in
  result_true (server_encapsulate_768 (x25519_public client_keys) (mlkem_public client_keys)
      (ex_server_x d) (ex_server_kem d)) (fun server_result =>
    let transcript := build_handshake_transcript_768 (arr_fill 32 x09) (arr_fill 32 x0a) client_keys
      (server_x25519_public server_result) (ciphertext server_result) in
    let signature := sign authenticator transcript in
    let modified_transcript := xor_at (length transcript - 1) x01 transcript in
    negb (verify (verifying_key authenticator) modified_transcript signature)).

Definition generated_nonces_are_not_repeated (drawn1 drawn2 : arr 32) : bool :=
  let a := generate_nonce drawn1 in
  let b := generate_nonce drawn2 in
  negb (bool_decide (a = arr_fill 32 x00)) && negb (bool_decide (b = arr_fill 32 x00))
  && negb (bool_decide (a = b)).

(** [&v[from..to]], which panics past the end. *)
Definition slice (from to : nat) (l : bytes) : option bytes :=
  if bool_decide (from <= to <= length l)%nat then Some (take (to - from) (drop from l)) else None.

Definition transcript_places_nonces_right_after_the_algorithm_name (d : exchange) : bool :=
  let client_keys := generate_client_keypairs_768 (ex_client_x d) (ex_client_kem d) in
  result_true (server_encapsulate_768 (x25519_public client_keys) (mlkem_public client_keys)
      (ex_server_x d) (ex_server_kem d)) (fun server_result =>
    let client_nonce := arr_fill 32 x0b in
    let server_nonce := arr_fill 32 x16 in
    let transcript := build_handshake_transcript_768 client_nonce server_nonce client_keys
      (server_x25519_public server_result) (ciphertext server_result) in
    bool_decide (slice 0 20 transcript = Some (ascii "PQC-VPN-HANDSHAKE-v1"))
    && bool_decide (slice 20 30 transcript = Some (ascii "ML-KEM-768"))
    && bool_decide (slice 30 62 transcript = Some (arr_list client_nonce))
    && bool_decide (slice 62 94 transcript = Some (arr_list server_nonce))).

Definition runtime_selection_runs_all_ml_kem_levels (d : MlKemLevel -> local_draws) : bool :=
  forallb (fun level => result_true (run_local_authenticated_handshake level (d level))
             (fun secret => len (arr_list secret) =? 32))
    [MlKem512; MlKem768; MlKem1024].

(** ** [auth.rs] *)

Definition ml_dsa_65_sign_and_verify (seed : arr 32) : bool :=
  let authenticator := ServerAuthenticator_generate seed in
  let message := ascii "test server public key" in
  let signature := sign authenticator message in
  verify (verifying_key authenticator) message signature.

Definition modified_message_is_rejected (seed : arr 32) : bool :=
  let authenticator := ServerAuthenticator_generate seed in
  let signature := sign authenticator (ascii "real handshake public-key data") in
  negb (verify (verifying_key authenticator) (ascii "attacker handshake public-key data") signature).

Definition seed_round_trip_reproduces_the_same_identity (drawn : arr 32) : bool :=
  let original := ServerAuthenticator_generate drawn in
  let seed := to_seed_bytes original in
  let reloaded := from_seed_bytes seed in
  let message := ascii "reloaded identity signs the same way" in
  bool_decide (vk_encode (verifying_key original) = vk_encode (verifying_key reloaded))
  && verify (verifying_key original) message (sign reloaded message).

Definition attacker_identity_key_is_rejected (seed attacker_seed : arr 32) : bool :=
  let real_server := ServerAuthenticator_generate seed in
  let attacker := ServerAuthenticator_generate attacker_seed in
  let handshake_data := ascii "genuine server handshake data" in
  let signature := sign real_server handshake_data in
  negb (verify (verifying_key attacker) handshake_data signature).

(** ** [core/src/crypto/kdf.rs] *)

Definition derivation_is_deterministic_and_separates_the_two_keys : bool :=
  let a := derive_session_keys (arr_fill 32 x07) (arr_fill 32 x01) (arr_fill 32 x02) in
  let b := derive_session_keys (arr_fill 32 x07) (arr_fill 32 x01) (arr_fill 32 x02) in
  bool_decide (psk a = psk b) && bool_decide (confirm_key a = confirm_key b)
  && negb (bool_decide (psk a = confirm_key a)).

Definition changing_either_nonce_changes_both_keys : bool :=
  let baseline := derive_session_keys (arr_fill 32 x07) (arr_fill 32 x01) (arr_fill 32 x02) in
  let different_server_nonce := derive_session_keys (arr_fill 32 x07) (arr_fill 32 x01) (arr_fill 32 x09) in
  let different_client_nonce := derive_session_keys (arr_fill 32 x07) (arr_fill 32 x09) (arr_fill 32 x02) in
  negb (bool_decide (psk baseline = psk different_server_nonce))
  && negb (bool_decide (psk baseline = psk different_client_nonce)).

Definition changing_the_hybrid_secret_changes_both_keys : bool :=
  let a := derive_session_keys (arr_fill 32 x07) (arr_fill 32 x01) (arr_fill 32 x02) in
  let b := derive_session_keys (arr_fill 32 x08) (arr_fill 32 x01) (arr_fill 32 x02) in
  negb (bool_decide (psk a = psk b)) && negb (bool_decide (confirm_key a = confirm_key b)).

(** ** [tags.rs] *)

Definition client_and_server_tags_differ_for_the_same_inputs : bool :=
  let confirm_key := arr_fill 32 x03 in
  let transcript := ascii "transcript bytes" in
  let c := CoreClient.client_tag_of confirm_key transcript in
  negb (bool_decide (c = arr_fill 32 x00)) && negb (CoreClient.verify_server_tag confirm_key transcript c).

Definition tags_match_the_frozen_vector : bool :=
  let confirm_key := arr_copy 32 (of_hex "a0c383a95d5cc667a44a6d3cb2b16cf9c079597e8a6ea19e6b04408ca934615f") in
  let transcript := of_hex "5051432d56504e2d48414e445348414b452d76314d4c2d4b454d2d373638" in
  let transcript := transcript ++ replicate 32 x11 in
  let transcript := transcript ++ replicate 32 x22 in
  let transcript := transcript ++ replicate 32 x33 in
  let transcript := transcript ++ replicate 1184 x44 in
  let transcript := transcript ++ replicate 32 x55 in
  let transcript := transcript ++ replicate 1088 x66 in
  let expected_client_tag := arr_copy 32 (of_hex "17eb8450e6c8c76591b8706bf1363ac5d5d924002c8855d14d9ab7acbcc0b9ff") in
  let expected_server_tag := arr_copy 32 (of_hex "89bb0c7af045ac12f8b241c0655fa1eef9bb7b63f7ca67e60bf074b60f81794a") in
  (len transcript =? 2430)
  && bool_decide (CoreClient.client_tag_of confirm_key transcript = expected_client_tag)
  && CoreClient.verify_server_tag confirm_key transcript expected_server_tag.

(** ** [client.rs] *)

(** The test's own server: [response_algo] is what it claims to have used. *)
Definition server_side_hello (response_algo : MlKemLevel) (client_hello : CoreWire.ClientHello)
    (authenticator : ServerAuthenticator) (session_id : arr 16) (server_nonce : arr 32)
    (server_x : arr 32) (server_kem : kem_entropy) : option (CoreWire.ServerHello * arr 32) :=
  let client_x25519_pub := CoreWire.client_x25519_pub client_hello in
  let respond (K : KemParams) :=
    enc ← arr_try_from (ek_len K) (CoreWire.client_mlkem_pub client_hello);
    let client_mlkem_pub := ek_from_bytes (K := K) enc in
    server_result ← ok (server_encapsulate client_x25519_pub client_mlkem_pub server_x server_kem);
    let transcript := build_handshake_transcript_from_bytes (String.list_byte_of_string (name response_algo))
      (CoreWire.client_nonce client_hello) server_nonce (CoreWire.client_x25519_pub client_hello)
      (CoreWire.client_mlkem_pub client_hello) (server_x25519_public server_result)
      (arr_list (ciphertext server_result)) in
    let signature := arr_list (sig_encode (sign authenticator transcript)) in
    Some (CoreWire.Build_ServerHello response_algo session_id server_nonce
            (server_x25519_public server_result) (arr_list (ciphertext server_result)) signature,
          hybrid_secret server_result) in
  match CoreWire.ch_algo client_hello with
  | MlKem512 => respond P512
  | MlKem768 => respond P768
  | MlKem1024 => respond P1024
  end.

(** What a test of [client.rs] draws. *)
Record client_test := {
  ct_seed : arr 32;
  ct_client : CoreClient.client_draws;
  ct_server_x : arr 32;
  ct_server_kem : kem_entropy
}.

Definition opt_true {A} (o : option A) (f : A -> bool) : bool :=
  match o with Some a => f a | None => false end.

Definition full_handshake_agrees (algo : MlKemLevel) (d : client_test) : bool :=
  let authenticator := ServerAuthenticator_generate (ct_seed d) in
  let vk := arr_list (vk_encode (verifying_key authenticator)) in
  let client := CoreClient.start algo (arr_fill 32 x07) (ct_client d) in
  opt_true (server_side_hello algo (CoreClient.hello_of client) authenticator (arr_fill 16 x09)
      (arr_fill 32 x08) (ct_server_x d) (ct_server_kem d)) (fun '(server_hello, server_secret) =>
    result_true (CoreClient.finish client server_hello vk) (fun '(keys, finish, _) =>
      let server_keys := derive_session_keys server_secret
        (CoreWire.client_nonce (CoreClient.hello_of client)) (CoreWire.server_nonce server_hello) in
      bool_decide (CoreWire.cf_session_id finish = CoreWire.sh_session_id server_hello)
      && bool_decide (psk keys = psk server_keys))).

Definition full_handshake_agrees_with_the_server_side_secret_at_every_level
    (d : MlKemLevel -> client_test) : bool :=
  forallb (fun algo => full_handshake_agrees algo (d algo)) [MlKem512; MlKem768; MlKem1024].

Definition is_auth_failed {A} (r : result CoreClient.HandshakeError A) : bool :=
  match r with Err CoreClient.AuthFailed => true | _ => false end.

Definition wrong_pinned_key_is_rejected (attacker_seed : arr 32) (d : client_test) : bool :=
  let authenticator := ServerAuthenticator_generate (ct_seed d) in
  let attacker := ServerAuthenticator_generate attacker_seed in
  let attacker_vk := arr_list (vk_encode (verifying_key attacker)) in
  let client := CoreClient.start MlKem768 (arr_fill 32 x01) (ct_client d) in
  opt_true (server_side_hello MlKem768 (CoreClient.hello_of client) authenticator (arr_fill 16 x00)
      (arr_fill 32 x00) (ct_server_x d) (ct_server_kem d)) (fun '(server_hello, _) =>
    is_auth_failed (CoreClient.finish client server_hello attacker_vk)).

Definition tamper (sh : CoreWire.ServerHello) : CoreWire.ServerHello :=
  CoreWire.Build_ServerHello (CoreWire.sh_algo sh) (CoreWire.sh_session_id sh) (CoreWire.server_nonce sh)
    (CoreWire.server_x25519_pub sh) (xor_at 0 x01 (CoreWire.mlkem_ciphertext sh)) (CoreWire.signature sh).

Definition tampered_ciphertext_fails_authentication (d : client_test) : bool :=
  let authenticator := ServerAuthenticator_generate (ct_seed d) in
  let vk := arr_list (vk_encode (verifying_key authenticator)) in
  let client := CoreClient.start MlKem768 (arr_fill 32 x01) (ct_client d) in
  opt_true (server_side_hello MlKem768 (CoreClient.hello_of client) authenticator (arr_fill 16 x00)
      (arr_fill 32 x00) (ct_server_x d) (ct_server_kem d)) (fun '(server_hello, _) =>
    is_auth_failed (CoreClient.finish client (tamper server_hello) vk)).

Definition server_algo_mismatch_is_rejected_before_touching_crypto (d : client_test) : bool :=
  let authenticator := ServerAuthenticator_generate (ct_seed d) in
  let vk := arr_list (vk_encode (verifying_key authenticator)) in
  let client := CoreClient.start MlKem512 (arr_fill 32 x01) (ct_client d) in
  opt_true (server_side_hello MlKem768 (CoreClient.hello_of client) authenticator (arr_fill 16 x00)
      (arr_fill 32 x00) (ct_server_x d) (ct_server_kem d)) (fun '(server_hello, _) =>
    match CoreClient.finish client server_hello vk with Err CoreClient.AlgoMismatch => true | _ => false end).

(** ** The server's [kdf.rs], [transcript.rs] and [identity.rs] *)

Definition kdf_is_deterministic_and_separated : bool :=
  let k1 := ServerHandshake.derive (arr_fill 32 x07) (arr_fill 32 x01) (arr_fill 32 x02) in
  let k2 := ServerHandshake.derive (arr_fill 32 x07) (arr_fill 32 x01) (arr_fill 32 x02) in
  bool_decide (ServerHandshake.psk k1 = ServerHandshake.psk k2)
  && bool_decide (ServerHandshake.confirm_key k1 = ServerHandshake.confirm_key k2)
  && negb (bool_decide (ServerHandshake.psk k1 = ServerHandshake.confirm_key k1)).

Definition nonces_change_the_keys : bool :=
  let a := ServerHandshake.derive (arr_fill 32 x07) (arr_fill 32 x01) (arr_fill 32 x02) in
  let b := ServerHandshake.derive (arr_fill 32 x07) (arr_fill 32 x01) (arr_fill 32 x09) in
  negb (bool_decide (ServerHandshake.psk a = ServerHandshake.psk b)).

Definition tags_verify_and_labels_differ : bool :=
  let ck := arr_fill 32 x03 in
  let t := ascii "transcript bytes" in
  let c := ServerHandshake.client_tag_of ck t in
  let s := ServerHandshake.server_tag_of ck t in
  negb (bool_decide (c = s)) && ServerHandshake.verify_client_tag ck t c
  && ServerHandshake.verify_server_tag ck t s && negb (ServerHandshake.verify_client_tag ck t s).

Definition transcript_layout_is_stable : bool :=
  let t := ServerHandshake.transcript_build
    {| ServerHandshake.ti_algo := ServerWire.MlKem768; ServerHandshake.ti_client_nonce := arr_fill 32 x01;
       ServerHandshake.ti_server_nonce := arr_fill 32 x02; ServerHandshake.ti_client_x25519_pub := arr_fill 32 x03;
       ServerHandshake.ti_client_mlkem_pub := replicate 1184 x04;
       ServerHandshake.ti_server_x25519_pub := arr_fill 32 x05;
       ServerHandshake.ti_mlkem_ciphertext := replicate 1088 x06 |} in
  (len t =? 20 + 10 + 32 + 32 + 32 + 1184 + 32 + 1088)
  && bool_decide (slice 0 20 t = Some (ascii "PQC-VPN-HANDSHAKE-v1"))
  && bool_decide (slice 20 30 t = Some (ascii "ML-KEM-768")).

Definition sign_verify_round_trip (seed : arr 32) : bool :=
  let id := ServerHandshake.ServerIdentity_generate seed in
  let msg := ascii "handshake transcript" in
  let sig := ServerHandshake.identity_sign id msg in
  let vk := ServerHandshake.verifying_key_bytes id in
  (len sig =? ServerWire.SIGNATURE_LEN) && (len vk =? Z.of_N ServerHandshake.VERIFYING_KEY_LEN)
  && ServerHandshake.identity_verify vk msg sig
  && negb (ServerHandshake.identity_verify vk (ascii "tampered") sig).

(** [path] is the test's file in the temporary directory, which the test removes
    first and in the end; the two seeds are what the two starts would draw. *)
Definition persists_and_reloads_the_same_key (path : path) (seed1 seed2 : arr 32) (disk : fs) : bool :=
  let disk := Fs (delete path (files disk)) (modes disk) [] in
  let '(a, disk) := ServerHandshake.load_or_create path seed1 disk in
  let '(b, _) := ServerHandshake.load_or_create path seed2 disk in
  result_true a (fun a => result_true b (fun b =>
    let msg := ascii "same key still signs" in
    let sig := ServerHandshake.identity_sign a msg in
    bool_decide (ServerHandshake.verifying_key_bytes a = ServerHandshake.verifying_key_bytes b)
    && ServerHandshake.identity_verify (ServerHandshake.verifying_key_bytes b) msg sig)).

(** ** What the laws guarantee *)

Context `{L : !PrimitiveLaws P}.

Lemma ml_kem_passes K r1 r2 : ml_kem_round_trip K r1 r2 = true.
Proof.
  unfold ml_kem_round_trip. pose proof (kem_correct K r1 r2) as H.
  destruct (kem_generate K r1) as [d e]. destruct H as (ct & k & -> & Hd).
  unfold result_true. rewrite Hd. by apply bool_decide_eq_true.
Qed.

Lemma x25519_passes a b : x25519_shared_secrets_match a b = true.
Proof. apply bool_decide_eq_true, x25519_comm. Qed.

Lemma hybrid_secrets_pass K d : hybrid_secrets_match K d = true.
Proof.
  unfold hybrid_secrets_match.
  destruct (exchange_agrees K (ex_client_x d) (ex_client_kem d) (ex_server_x d) (ex_server_kem d)) as (s & -> & Hc).
  unfold result_true. rewrite Hc. by rewrite bool_decide_true, arr_len.
Qed.

Lemma authenticated_passes K tr seed d : authenticated_handshake_succeeds K tr seed d = true.
Proof.
  unfold authenticated_handshake_succeeds.
  destruct (exchange_agrees K (ex_client_x d) (ex_client_kem d) (ex_server_x d) (ex_server_kem d)) as (s & -> & Hc).
  unfold result_true, verify, verifying_key, sign. rewrite dsa_correct, Hc. by rewrite bool_decide_true.
Qed.

Lemma slice_app a b c : slice (length a) (length a + length b) (a ++ b ++ c) = Some b.
Proof.
  unfold slice. rewrite !length_app. rewrite bool_decide_true by lia.
  rewrite drop_app_length, Nat.add_comm, Nat.add_sub. by rewrite take_app_length.
Qed.

Lemma transcript_layout_passes d : transcript_places_nonces_right_after_the_algorithm_name d = true.
Proof.
  unfold transcript_places_nonces_right_after_the_algorithm_name.
  destruct (exchange_agrees P768 (ex_client_x d) (ex_client_kem d) (ex_server_x d) (ex_server_kem d)) as (s & Hs & _).
  unfold server_encapsulate_768, generate_client_keypairs_768. rewrite Hs. unfold result_true.
  unfold build_handshake_transcript_768, build_handshake_transcript. rewrite transcript_app.
  set (rest := arr_list (x25519_public _) ++ _). clearbody rest.
  set (cn := arr_list (arr_fill 32 x0b)). set (sn := arr_list (arr_fill 32 x16)).
  set (nm := String.list_byte_of_string "ML-KEM-768").
  rewrite !andb_true_iff, !bool_decide_eq_true. split_and!.
  - exact (slice_app [] PROTOCOL_LABEL _).
  - exact (slice_app PROTOCOL_LABEL nm _).
  - rewrite (app_assoc PROTOCOL_LABEL). exact (slice_app (PROTOCOL_LABEL ++ nm) cn _).
  - rewrite (app_assoc nm), (app_assoc PROTOCOL_LABEL). exact (slice_app (PROTOCOL_LABEL ++ nm ++ cn) sn rest).
Qed.

Lemma sign_and_verify_passes seed : ml_dsa_65_sign_and_verify seed = true.
Proof. apply dsa_correct. Qed.

Lemma to_from_seed s : from_seed_bytes (to_seed_bytes (ServerAuthenticator_generate s)) = ServerAuthenticator_generate s.
Proof. unfold from_seed_bytes, to_seed_bytes, ServerAuthenticator_generate. simpl. by rewrite dsa_seed, arr_copy_arr. Qed.

Lemma seed_round_trip_passes s : seed_round_trip_reproduces_the_same_identity s = true.
Proof.
  unfold seed_round_trip_reproduces_the_same_identity. rewrite to_from_seed, bool_decide_true by done.
  apply dsa_correct.
Qed.

Lemma signature_accepted a m :
  CoreClient.verify_server_signature (arr_list (vk_encode (verifying_key a))) m
    (arr_list (sig_encode (sign a m))) = true.
Proof.
  unfold CoreClient.verify_server_signature, CoreClient.VERIFYING_KEY_LEN.
  rewrite !arr_try_from_arr, sig_decode_encode, vk_decode_encode. apply dsa_correct.
Qed.

(** The test's server answers a genuine hello. *)
Lemma server_side_answers response_algo algo wg cd a sid sn sx sk :
  let keys := CoreClient.start_keys algo cd in
  let hello := CoreClient.hello_of (CoreClient.start algo wg cd) in
  exists s, client_decapsulate keys (server_x25519_public s) (ciphertext s) = Ok (hybrid_secret s) /\
    server_side_hello response_algo hello a sid sn sx sk =
      Some (CoreWire.Build_ServerHello response_algo sid sn (server_x25519_public s) (arr_list (ciphertext s))
        (arr_list (sig_encode (sign a (build_handshake_transcript_from_bytes
          (String.list_byte_of_string (name response_algo)) (CoreWire.client_nonce hello) sn
          (CoreWire.client_x25519_pub hello) (CoreWire.client_mlkem_pub hello) (server_x25519_public s)
          (arr_list (ciphertext s)))))), hybrid_secret s).
Proof.
  intros keys hello.
  destruct (exchange_agrees (CoreClient.core_params algo) (CoreClient.cd_x cd) (CoreClient.cd_kem cd) sx sk) as (s & Hs & Hc).
  exists s. split; [exact Hc|]. subst hello. unfold server_side_hello.
  destruct algo; cbn [CoreClient.start CoreClient.hello_of CoreClient.start_hello CoreWire.ch_algo
    CoreWire.client_mlkem_pub CoreWire.client_x25519_pub CoreWire.client_nonce];
  rewrite arr_try_from_arr; cbn [mbind option_bind]; rewrite ek_from_as_bytes;
  cbn [CoreClient.core_params] in Hs; unfold generate_client_keypairs_512, generate_client_keypairs_768,
    generate_client_keypairs_1024; by rewrite Hs.
Qed.

Lemma full_handshake_passes algo d : full_handshake_agrees algo d = true.
Proof.
  unfold full_handshake_agrees.
  match goal with |- context [server_side_hello ?ra _ ?a ?sid ?sn ?sx ?sk] =>
    destruct (server_side_answers ra algo (arr_fill 32 x07) (ct_client d) a sid sn sx sk) as (s & Hc & ->) end.
  cbn [opt_true]. rewrite CoreClient.finish_start. cbn [CoreWire.sh_algo CoreWire.signature CoreWire.mlkem_ciphertext
    CoreWire.server_x25519_pub CoreWire.sh_session_id CoreWire.server_nonce].
  rewrite bool_decide_true by done. cbn [negb]. unfold CoreClient.client_transcript.
  rewrite (CoreClient.start_hello_eq algo). cbn [CoreClient.start_hello CoreWire.ch_algo].
  cbn [CoreWire.server_x25519_pub CoreWire.server_nonce CoreWire.mlkem_ciphertext].
  rewrite signature_accepted. cbn [negb]. rewrite arr_try_from_arr. cbn [ok_or mbind result_bind].
  rewrite Hc. cbn. by rewrite !bool_decide_true.
Qed.

Lemma algo_mismatch_passes d : server_algo_mismatch_is_rejected_before_touching_crypto d = true.
Proof.
  unfold server_algo_mismatch_is_rejected_before_touching_crypto.
  match goal with |- context [server_side_hello ?ra _ ?a ?sid ?sn ?sx ?sk] =>
    destruct (server_side_answers ra MlKem512 (arr_fill 32 x01) (ct_client d) a sid sn sx sk) as (s & _ & ->) end.
  cbn [opt_true]. by rewrite CoreClient.finish_start.
Qed.

Lemma runtime_selection_passes d : runtime_selection_runs_all_ml_kem_levels d = true.
Proof.
  assert (H : forall K n l, result_true (run_local_handshake_for K n l) (fun s => len (arr_list s) =? 32) = true).
  { intros K n l. unfold run_local_handshake_for.
    destruct (exchange_agrees K (ld_client_x l) (ld_client_kem l) (ld_server_x l) (ld_server_kem l)) as (s & -> & Hc).
    cbn [mbind result_bind]. unfold verify, verifying_key, sign. rewrite dsa_correct. cbn [negb].
    rewrite Hc. cbn [mbind result_bind]. rewrite bool_decide_true by done. cbn. by rewrite arr_len. }
  unfold runtime_selection_runs_all_ml_kem_levels. cbn [forallb run_local_authenticated_handshake].
  by rewrite !H.
Qed.

Lemma identity_file_passes p seed1 seed2 disk : persists_and_reloads_the_same_key p seed1 seed2 disk = true.
Proof.
  unfold persists_and_reloads_the_same_key.
  destruct (ServerHandshake.identity_persists p (delete p (files disk)) (modes disk) seed1 seed2)
    as (id & s1 & -> & _ & _ & ->); [apply lookup_delete_eq|].
  unfold result_true. rewrite bool_decide_true by done. apply ServerHandshake.identity_verify_sign.
Qed.

(** The tests that expect success pass whatever the cryptographic crates
    compute, as long as they keep their documented laws, and whatever the tests
    draw: the KEM and X25519 round trips, the hybrid exchange and the
    authenticated handshake of every level, the layout of the transcript,
    signing, the reload of a seed from memory and from a file, and the client
    against the server side that the tests simulate. *)
Theorem round_trip_tests_pass r1 r2 ka kb (ex : exchange) seed seed' disk p (ct : MlKemLevel -> client_test)
    (ld : MlKemLevel -> local_draws) :
  [ml_kem_512_round_trip r1 r2; ml_kem_768_round_trip r1 r2; ml_kem_1024_round_trip r1 r2;
   x25519_shared_secrets_match ka kb;
   hybrid_x25519_ml_kem_512_secrets_match ex; hybrid_x25519_ml_kem_768_secrets_match ex;
   hybrid_x25519_ml_kem_1024_secrets_match ex;
   authenticated_ml_kem_512_handshake_succeeds seed ex; authenticated_hybrid_handshake_succeeds seed ex;
   authenticated_ml_kem_1024_handshake_succeeds seed ex;
   transcript_places_nonces_right_after_the_algorithm_name ex;
   runtime_selection_runs_all_ml_kem_levels ld;
   ml_dsa_65_sign_and_verify seed; seed_round_trip_reproduces_the_same_identity seed;
   full_handshake_agrees_with_the_server_side_secret_at_every_level ct;
   server_algo_mismatch_is_rejected_before_touching_crypto (ct MlKem512);
   transcript_layout_is_stable; persists_and_reloads_the_same_key p seed seed' disk] = replicate 18 true.
Proof.
  unfold ml_kem_512_round_trip, ml_kem_768_round_trip, ml_kem_1024_round_trip,
    hybrid_x25519_ml_kem_512_secrets_match, hybrid_x25519_ml_kem_768_secrets_match,
    hybrid_x25519_ml_kem_1024_secrets_match, authenticated_ml_kem_512_handshake_succeeds,
    authenticated_hybrid_handshake_succeeds, authenticated_ml_kem_1024_handshake_succeeds,
    full_handshake_agrees_with_the_server_side_secret_at_every_level.
  rewrite !ml_kem_passes, x25519_passes, !hybrid_secrets_pass, !authenticated_passes,
    transcript_layout_passes, runtime_selection_passes, sign_and_verify_passes, seed_round_trip_passes,
    algo_mismatch_passes, identity_file_passes.
  cbn [forallb]. rewrite !full_handshake_passes. reflexivity.
Qed.

End tests.

(** ** On the real hashes *)

(** The hashes are real, the rest is the toy of [Primitives]. *)
Abbreviation sha_toy := (with_sha Toy.prims).

Definition sample_exchange : exchange (P := sha_toy) :=
  @Build_exchange sha_toy (arr_fill 32 x01) (arr_fill 32 x02 : arr 32) (arr_fill 32 x03) (arr_fill 32 x04 : arr 32).
Definition sample_client_test : client_test (P := sha_toy) :=
  @Build_client_test sha_toy (arr_fill 32 x05)
    (@CoreClient.Build_client_draws sha_toy (arr_fill 32 x06) (arr_fill 32 x07) (arr_fill 32 x08 : arr 32))
    (arr_fill 32 x09) (arr_fill 32 x0a : arr 32).

(** The tests that expect a difference or a rejection. *)
Lemma rejection_tests_pass :
  forallb id
    [modified_ciphertext_does_not_produce_server_secret sample_exchange;
     modified_handshake_transcript_is_rejected (P := sha_toy) (arr_fill 32 x05) sample_exchange;
     generated_nonces_are_not_repeated (arr_fill 32 x06) (arr_fill 32 x07);
     modified_message_is_rejected (P := sha_toy) (arr_fill 32 x05);
     attacker_identity_key_is_rejected (P := sha_toy) (arr_fill 32 x05) (arr_fill 32 x0b);
     derivation_is_deterministic_and_separates_the_two_keys (P := sha_toy);
     changing_either_nonce_changes_both_keys (P := sha_toy);
     changing_the_hybrid_secret_changes_both_keys (P := sha_toy);
     client_and_server_tags_differ_for_the_same_inputs (P := sha_toy);
     wrong_pinned_key_is_rejected (P := sha_toy) (arr_fill 32 x0b) sample_client_test;
     tampered_ciphertext_fails_authentication (P := sha_toy) sample_client_test;
     kdf_is_deterministic_and_separated (P := sha_toy);
     nonces_change_the_keys (P := sha_toy);
     tags_verify_and_labels_differ (P := sha_toy);
     sign_verify_round_trip (P := sha_toy) (arr_fill 32 x05)] = true.
Proof. vm_compute. reflexivity. Qed.
