(* ===== verification/HandshakeTests.v ===== *)
(** * The integration tests

    [server/handshake-server/tests/handshake.rs] and the test module of
    [core/src/protocol/transport.rs]: a client and the connection handler on the
    two ends of a loopback connection.  [talk] runs the two programs against each
    other; a test is [true] when no assertion fails and nothing it unwraps is
    absent.  What the two ends draw is an argument; the loopback connection
    itself does not fail. *)

From S2P Require Import Prelude Utf8 Io Fs Net Algorithm Primitives Sha256.
From S2P Require CoreWire HybridKem CoreClient Transport.
From S2P Require Import ServerWire WireParity Registry RegistryFacts Tunnel ServerHandshake Agreement.
From S2P Require Import Server ServerFacts EndToEnd.
From S2P Require TestClient CryptoTests.

(** ** Two programs on one connection

    A program is given by what it does on an input after which reading fails: its
    result and the bytes it writes.  In turn each end reads what the other has
    sent; the conversation is over when reading the whole of it makes the client
    write what the server has read. *)

Section talk.
Context {A B : Type} (client : bytes -> A * bytes) (server : bytes -> B * bytes).

(** What each end has sent after [n] turns. *)
Fixpoint sent (n : nat) : bytes * bytes :=
  match n with
  | O => ([], [])
  | S n => let to_server := (client (sent n).2).2 in (to_server, (server to_server).2)
  end.

Definition talk (n : nat) : option (A * B) :=
  let '(to_server, to_client) := sent n in
  let '(a, to_server') := client to_client in
  if bool_decide (to_server' = to_server) then Some (a, (server to_server).1) else None.

(** [talk] ends in a conversation: each end's input is the other's output. *)
Lemma talk_Some n a b :
  talk (S n) = Some (a, b) ->
  exists to_server to_client, client to_client = (a, to_server) /\ server to_server = (b, to_client).
Proof.
  unfold talk. cbn [sent]. set (ts := (client (sent n).2).2). intros H.
  destruct (client (server ts).2) as [a' ts'] eqn:E. case_bool_decide; [|done]. subst ts'.
  injection H as -> <-. exists ts, (server ts).2. split; [done|]. by destruct (server ts).
Qed.

(** Two messages each way. *)
Lemma talk_two a1 t1 b1 c1 a2 t2 b c2 a :
  client [] = (a1, t1) -> server t1 = (b1, c1) -> client c1 = (a2, t2) -> server t2 = (b, c2) ->
  client c2 = (a, t2) -> talk 2 = Some (a, b).
Proof.
  intros H1 H2 H3 H4 H5. unfold talk. cbn [sent snd]. rewrite H1. cbn [snd]. rewrite H2. cbn [snd].
  rewrite H3. cbn [snd]. rewrite H4. cbn [snd]. rewrite H5. by rewrite bool_decide_true.
Qed.
End talk.

(** A program on a stream as [talk] takes it. *)
Definition on_input {E A} (m : M stream E A) (input : bytes) : result E A * bytes :=
  let '(r, s) := m (opened input eof) in (r, tx s).

(** ** The tests *)

#[export] Instance ConnResult_eq_dec : EqDecision ConnResult.
Proof. solve_decision. Defined.

Section tests.
Context `{P : Primitives} `{C : Codecs} (debug : Message -> rstring).
Import CryptoTests.

Definition rand_nonce : arr 32 :=
  arr_copy 32 (map (fun i => z2b ((Z.of_nat i * 37 + 1) mod 256)) (seq 0 32)).
Definition base : arr 4 := arr_copy 4 [x0a; x08; x00; x00].
Definition test_tunnel : TunnelSettings :=
  {| ts_server_wg_pubkey := arr_fill 32 x5a; ts_wg_port := u16_of_be xca x6c; ts_subnet_base := base |}.

(** What one connection draws, on the server and on the client. *)
Record loopback := {
  lo_session_id : arr 16;
  lo_nonce : arr 32;
  lo_server : server_draws;
  lo_now : SystemTime;
  lo_x : arr 32;
  lo_kem : kem_entropy
}.
Definition conn_of (d : loopback) : conn_draws :=
  Build_conn_draws (Ok tt) (lo_session_id d) (lo_nonce d) (lo_server d) (lo_now d).

(** The context is shared by the connections of a test; its registry, the
    installer and the disk are the state. *)
Definition ctx_for (identity : ServerIdentity) : ServerContext := Build_ServerContext identity test_tunnel.
Definition test_ctx {W} (wg : W) (disk : fs) : World W :=
  Build_World (opened [] eof) (Registry_new base DEFAULT_MAX_PEERS) wg disk.

(** The server thread. *)
Definition server_thread {W} `{I : PskInstaller W} identity (d : loopback) (w : World W) (input : bytes) :
    (result ConnError ConnResult * World W) * bytes :=
  let '(r, w') := handle_connection debug (ctx_for identity) (conn_of d)
    (Build_World (opened input eof) (registry w) (wg w) (disk w)) in
  ((r, Build_World (conn w) (registry w') (wg w') (disk w')), tx (conn w')).

(** A panic is the error [tt]. *)
Definition unwrap {S E A} (m : M S E A) : M S unit A := err_into (fun _ => tt) m.
Definition assert {S} (b : bool) : M S unit unit := if b then mret tt else throw tt.

(** One connection: the client against the server thread, then [join]. *)
Definition connection {W A} `{I : PskInstaller W} identity (d : loopback) (client : M stream unit A) :
    M (World W) unit (ConnResult * A) := fun w =>
  match talk (on_input client) (server_thread identity d w) 2 with
  | Some (Ok out, (Ok r, w')) => (Ok (r, out), w')
  | _ => (Err tt, w)
  end.

Definition write_message (m : Message) : M stream unit unit := unwrap (Message_write m).
Definition read_message : M stream unit Message := unwrap Message_read.

(** The client of [tcp_handshake]. *)
Definition handshake_client vk wg_pub algo (d : loopback) : M stream unit (arr 16 * Ipv4Addr) :=
  let state := client_start algo rand_nonce wg_pub (lo_x d) (lo_kem d) in
  _ ← write_message (MClientHello (client_hello state));
  m ← read_message;
  sh ← match m with MServerHello sh => mret sh | _ => throw tt end;
  '(keys, finish, transcript) ← unwrap (lift (client_finish state sh vk));
  _ ← write_message (MClientFinish finish);
  m ← read_message;
  match m with
  | MServerFinish sf =>
      _ ← assert (bool_decide (sf_session_id sf = cf_session_id finish));
      _ ← assert (verify_server_tag (confirm_key keys) transcript (server_tag sf));
      _ ← assert (bool_decide (server_wg_pubkey sf = arr_fill 32 x5a));
      _ ← assert (bool_decide (wg_port sf = u16_of_be xca x6c));
      mret (cf_session_id finish, ServerWire.assigned_ip sf)
  | _ => throw tt
  end.

Definition tcp_handshake {W} `{I : PskInstaller W} identity wg_pub algo (d : loopback) :
    M (World W) unit Ipv4Addr :=
  '(r, (sid, assigned)) ← connection identity d (handshake_client (verifying_key_bytes identity) wg_pub algo d);
  match r with
  | Server.Handshake session_id => _ ← assert (bool_decide (session_id = sid)); mret assigned
  | _ => throw tt
  end.

(** The client of [tcp_connect]. *)
Definition connect_client vk wg_pub algo (rekey_session : option (arr 16)) (d : loopback) :
    M stream unit (option (Ipv4Addr * arr 32)) :=
  let state := client_start algo rand_nonce wg_pub (lo_x d) (lo_kem d) in
  _ ← match rekey_session with
      | Some session_id => write_message (MRekeyRequest {| rk_session_id := session_id; hello := client_hello state |})
      | None => write_message (MClientHello (client_hello state))
      end;
  m ← read_message;
  match m with
  | MServerHello sh =>
      '(keys, finish, transcript) ← unwrap (lift (client_finish state sh vk));
      _ ← write_message (MClientFinish finish);
      m ← read_message;
      match m with
      | MServerFinish sf =>
          _ ← assert (bool_decide (sf_session_id sf = cf_session_id finish));
          _ ← assert (verify_server_tag (confirm_key keys) transcript (server_tag sf));
          mret (Some (ServerWire.assigned_ip sf, psk keys))
      | MError _ => mret None
      | _ => throw tt
      end
  | MError _ => mret None
  | _ => throw tt
  end.

Definition tcp_connect {W} `{I : PskInstaller W} identity wg_pub algo rekey_session (d : loopback) :
    M (World W) unit (ConnResult * option (Ipv4Addr * arr 32)) :=
  connection identity d (connect_client (verifying_key_bytes identity) wg_pub algo rekey_session d).

(** [RecordingInstaller]: the vectors behind its two mutexes. *)
Record Recording := {
  installs : list (arr 32 * arr 32 * Ipv4Addr * AlgoCode);
  removals : list (arr 32)
}.
Definition RecordingInstaller : PskInstaller Recording := {|
  install peer_wg_pubkey psk assigned_ip algo := fun w =>
    (Ok tt, {| installs := installs w ++ [(peer_wg_pubkey, psk, assigned_ip, algo)]; removals := removals w |});
  list_installed_peers := fun w => (Ok (map (fun '(pk, _, _, _) => pk) (installs w)), w);
  remove_peer peer_wg_pubkey := fun w =>
    (Ok tt, {| installs := installs w; removals := removals w ++ [peer_wg_pubkey] |});
  last_handshakes := mret (Some ∅)
|}.
Definition recording_ctx (disk : fs) : World Recording := test_ctx {| installs := []; removals := [] |} disk.

(** No panic. *)
Definition passes {S A} (m : M S unit A) (s : S) : bool :=
  match (m s).1 with Ok _ => true | Err _ => false end.

(** *** In process *)

Definition in_process_level identity (d : loopback) (algo : AlgoCode) : bool :=
  let vk := verifying_key_bytes identity in
  let state := client_start algo (arr_fill 32 x01) (arr_fill 32 x02) (lo_x d) (lo_kem d) in
  result_true (respond identity (client_hello state) (arr_fill 16 x09) (arr_fill 32 x08) (lo_server d)) (fun outcome =>
  result_true (client_finish state (server_hello outcome) vk) (fun '(client_keys, finish, transcript') =>
    bool_decide (psk client_keys = psk (keys outcome))
    && bool_decide (confirm_key client_keys = confirm_key (keys outcome))
    && verify_client_tag (confirm_key (keys outcome)) (transcript outcome) (client_tag finish)
    && let server_tag := server_tag_of (confirm_key (keys outcome)) (transcript outcome) in
       verify_server_tag (confirm_key client_keys) transcript' server_tag)).
Definition in_process_handshake_all_levels_agree_on_psk identity (d : AlgoCode -> loopback) : bool :=
  forallb (fun algo => in_process_level identity (d algo) algo) [MlKem512; MlKem768; MlKem1024].

(** The client's verdict on a (possibly altered) reply at the middle level. *)
Definition auth_fails identity (d : loopback) vk (alter : ServerHello -> ServerHello) : bool :=
  let state := client_start MlKem768 (arr_fill 32 x01) (arr_fill 32 x02) (lo_x d) (lo_kem d) in
  result_true (respond identity (client_hello state) (arr_fill 16 x00) (arr_fill 32 x00) (lo_server d)) (fun outcome =>
    match client_finish state (alter (server_hello outcome)) vk with Err AuthFailed => true | _ => false end).
Definition wrong_pinned_key_is_rejected identity attacker (d : loopback) : bool :=
  auth_fails identity d (verifying_key_bytes attacker) id.
Definition flip_ciphertext (sh : ServerHello) : ServerHello :=
  {| sh_algo := sh_algo sh; sh_session_id := sh_session_id sh; server_nonce := server_nonce sh;
     server_x25519_pub := server_x25519_pub sh; mlkem_ciphertext := xor_at 0 x01 (mlkem_ciphertext sh);
     signature := signature sh |}.
Definition tampered_server_hello_fails_auth identity (d : loopback) : bool :=
  auth_fails identity d (verifying_key_bytes identity) flip_ciphertext.

(** *** Over TCP *)

Definition over_tcp_two_peers_get_distinct_addresses_and_sessions identity (d1 d2 d3 : loopback) disk : bool :=
  let I := DryRun in
  passes (
    ip1 ← tcp_handshake identity (arr_fill 32 x11) MlKem768 d1;
    ip2 ← tcp_handshake identity (arr_fill 32 x22) MlKem1024 d2;
    _ ← assert (bool_decide (ip1 = Ipv4Addr_new x0a x08 x00 x02));
    _ ← assert (bool_decide (ip2 = Ipv4Addr_new x0a x08 x00 x03));
    w ← get;
    _ ← assert (registry_len (registry w) =? 2);
    _ ← assert (contains (arr_fill 32 x11) (registry w));
    _ ← assert (contains (arr_fill 32 x22) (registry w));
    ip1_again ← tcp_handshake identity (arr_fill 32 x11) MlKem512 d3;
    _ ← assert (bool_decide (ip1_again = ip1));
    w ← get;
    assert (registry_len (registry w) =? 2)) (test_ctx tt disk).

(** The session id of a first handshake. *)
Definition expect_handshake {W} (r : ConnResult) : M (World W) unit (arr 16) :=
  match r with Server.Handshake session_id => mret session_id | _ => throw tt end.

Definition over_tcp_rekey_swaps_psk_without_removing_peer identity (d1 d2 : loopback) disk : bool :=
  let I := RecordingInstaller in
  let wg_pub := arr_fill 32 x33 in
  passes (
    '(result, out) ← tcp_connect identity wg_pub MlKem768 None d1;
    session_id ← expect_handshake result;
    '(ip1, psk1) ← lift (ok_or tt out);
    '(result, out) ← tcp_connect identity wg_pub MlKem1024 (Some session_id) d2;
    _ ← match result with
        | Server.Rekey sid => assert (bool_decide (sid = session_id))
        | _ => throw tt
        end;
    '(ip2, psk2) ← lift (ok_or tt out);
    _ ← assert (bool_decide (ip1 = ip2));
    _ ← assert (negb (bool_decide (psk1 = psk2)));
    w ← get;
    _ ← assert (registry_len (registry w) =? 1);
    let rec := installs (wg w) in
    _ ← assert (length rec =? 2)%nat;
    _ ← assert (forallb (fun '(pk, _, ip, _) => bool_decide (pk = wg_pub) && bool_decide (ip = ip1)) rec);
    '(psk_a, algo_a) ← lift (ok_or tt ((fun '(_, k, _, a) => (k, a)) <$> rec !! 0%nat));
    '(psk_b, algo_b) ← lift (ok_or tt ((fun '(_, k, _, a) => (k, a)) <$> rec !! 1%nat));
    _ ← assert (bool_decide (algo_a = MlKem768));
    _ ← assert (bool_decide (algo_b = MlKem1024));
    _ ← assert (negb (bool_decide (psk_a = psk_b)));
    assert (bool_decide (removals (wg w) = []))) (recording_ctx disk).

Definition over_tcp_rekey_rejects_unknown_session identity (d : loopback) disk : bool :=
  let I := RecordingInstaller in
  passes (
    '(result, out) ← tcp_connect identity (arr_fill 32 x44) MlKem768 (Some (arr_fill 16 xab)) d;
    _ ← assert (bool_decide (result = Server.Rejected x04));
    _ ← assert (bool_decide (out = None));
    w ← get;
    assert (bool_decide (installs (wg w) = []))) (recording_ctx disk).

(** A refused rekey: only the first handshake installed, nothing removed. *)
Definition refused_after_handshake identity wg_pub first second (claim : arr 16 -> arr 16) code
    (d1 d2 : loopback) disk : bool :=
  let I := RecordingInstaller in
  passes (
    '(result, _) ← tcp_connect identity wg_pub first None d1;
    session_id ← expect_handshake result;
    '(result, out) ← tcp_connect identity wg_pub second (Some (claim session_id)) d2;
    _ ← assert (bool_decide (result = Server.Rejected code));
    _ ← assert (bool_decide (out = None));
    w ← get;
    _ ← assert (length (installs (wg w)) =? 1)%nat;
    assert (bool_decide (removals (wg w) = []))) (recording_ctx disk).
(** [wrong_session[0] ^= 0xFF] *)
Definition wrong_session (sid : arr 16) : arr 16 := arr_copy 16 (xor_at 0 xff (arr_list sid)).
Definition over_tcp_rekey_rejects_session_mismatch_for_known_peer identity :=
  refused_after_handshake identity (arr_fill 32 x55) MlKem768 MlKem768 wrong_session x04.
Definition over_tcp_rekey_rejects_downgrade identity :=
  refused_after_handshake identity (arr_fill 32 x66) MlKem1024 MlKem512 id x05.

(** *** [transport.rs]: the client library against the connection handler *)

Definition loopback_socket (peer : Transport.IpAddr) : Transport.socket :=
  {| Transport.sk_connect := Ok tt; Transport.sk_timeouts := Ok tt; Transport.sk_peer := Ok peer |}.

Definition transport_run identity (pinned : bytes) wgk peer cd (d : loopback) (w : World unit) :=
  let I := DryRun in
  talk (on_input (Transport.connect (loopback_socket peer) Algorithm.MlKem768 wgk pinned cd))
    (server_thread identity d w) 2.

Definition real_handshake_over_a_loopback_socket identity peer cd (d : loopback) disk : bool :=
  match transport_run identity (verifying_key_bytes identity) (arr_fill 32 x11) peer cd d (test_ctx tt disk) with
  | Some (Ok tunnel, (Ok _, w)) =>
      bool_decide (Transport.tc_server_wg_pubkey tunnel = arr_fill 32 x5a)
      && bool_decide (Transport.sock_port (Transport.tc_server_endpoint tunnel) = u16_of_be xca x6c)
      && bool_decide (Transport.tc_assigned_ip tunnel = Ipv4Addr_new x0a x08 x00 x02)
      && (len (arr_list (Transport.tc_psk tunnel)) =? 32)
      && contains (arr_fill 32 x11) (registry w)
  | _ => false
  end.

Definition wrong_pinned_key_over_the_network_is_rejected_client_side identity attacker peer cd (d : loopback) disk : bool :=
  match transport_run identity (verifying_key_bytes attacker) (arr_fill 32 x22) peer cd d (test_ctx tt disk) with
  | Some (Err (Transport.Handshake CoreClient.AuthFailed), _) => true
  | _ => false
  end.

End tests.

(** ** How a conversation goes *)

Section runs.
Context `{P : Primitives} `{L : !PrimitiveLaws P} `{C : Codecs} `{CL : !CodecLaws C}.
Context (debug : Message -> rstring) {W : Type} `{I : PskInstaller W}.

Lemma read_nothing re t fs : Message_read (Stream [] re t fs) = (Err (FrameIo re), Stream [] re t fs).
Proof. done. Qed.

(** The server whose client has said no more than its first message. *)
Lemma server_waits ctx d h rs o re t rg wg0 dk :
  cn_timeouts d = Ok tt ->
  respond (ctx_identity ctx) h (default (cn_session_id d) rs) (cn_server_nonce d) (cn_server d) = Ok o ->
  handle_connection debug ctx d (Build_World (Stream (frame (first_message h rs)) re t []) rg wg0 dk) =
    (Err (ConnFrame (FrameIo re)), Build_World (Stream [] re (t ++ frame (reply o)) []) rg wg0 dk).
Proof.
  intros Ht Ho. pose proof (respond_hello_lens _ _ _ _ _ _ Ho) as (_ & _ & _ & Hpk & _).
  unfold handle_connection. erewrite M_bind_Ok by (rewrite Ht; reflexivity).
  rewrite <- (app_nil_r (frame (first_message h rs))).
  erewrite M_bind_Ok by (by apply read_first_run, first_sendable).
  cbv beta iota. rewrite Ho.
  erewrite M_bind_Ok by (apply (conn_write (reply o)); by eapply reply_sendable).
  apply M_bind_Err. unfold read_finish. by apply M_bind_Err.
Qed.

(** The clients of the tests: message 1, the server's reply, the finish, and
    whatever is made of the last message. *)
Definition drive {X} (state : ClientState) (vk : bytes) (first : Message) (refused : Message -> M stream unit X)
    (last : SessionKeys -> ClientFinish -> bytes -> Message -> M stream unit X) : M stream unit X :=
  _ ← write_message first;
  m ← read_message;
  match m with
  | MServerHello sh =>
      '(keys, finish, transcript) ← unwrap (lift (client_finish state sh vk));
      _ ← write_message (MClientFinish finish);
      m ← read_message;
      last keys finish transcript m
  | m => refused m
  end.

Lemma send_step m i re t : sendable m -> write_message m (Stream i re t []) = (Ok tt, Stream i re (t ++ frame m) []).
Proof. intros H. unfold write_message, unwrap, err_into. by rewrite server_write_ok. Qed.

Lemma recv_step m k re t : sendable m -> read_message (Stream (frame m ++ k) re t []) = (Ok m, Stream k re t []).
Proof. intros H. unfold read_message, unwrap, err_into. by rewrite server_read_frame. Qed.

Section drive.
Context {X} (state : ClientState) (vk : bytes) (first : Message) (refused : Message -> M stream unit X)
  (last : SessionKeys -> ClientFinish -> bytes -> Message -> M stream unit X).
Hypothesis Hfirst : sendable first.
Abbreviation run := (on_input (drive state vk first refused last)).

Lemma drive_start : run [] = (Err tt, frame first).
Proof. unfold on_input, drive, opened. by erewrite M_bind_Ok by (by apply send_step). Qed.

(** The client on the server's reply and [k] after it. *)
Lemma drive_reply sh ks fin t k :
  sendable (MServerHello sh) -> client_finish state sh vk = Ok (ks, fin, t) ->
  run (frame (MServerHello sh) ++ k) =
    let '(r, s) := (m ← read_message; last ks fin t m)
                     (Stream k eof (frame first ++ frame (MClientFinish fin)) []) in (r, tx s).
Proof.
  intros Hsh Hf. unfold on_input, drive, opened.
  erewrite M_bind_Ok by (by apply send_step). erewrite M_bind_Ok by (by apply recv_step).
  cbv beta iota. rewrite Hf. erewrite M_bind_Ok by reflexivity. cbv beta iota.
  by erewrite M_bind_Ok by (apply send_step, finish_sendable).
Qed.

Lemma drive_waits sh ks fin t :
  sendable (MServerHello sh) -> client_finish state sh vk = Ok (ks, fin, t) ->
  run (frame (MServerHello sh)) = (Err tt, frame first ++ frame (MClientFinish fin)).
Proof. intros Hsh Hf. rewrite <- (app_nil_r (frame _)). by rewrite (drive_reply sh ks fin t). Qed.

Lemma drive_last sh ks fin t m a :
  sendable (MServerHello sh) -> client_finish state sh vk = Ok (ks, fin, t) -> sendable m ->
  (forall s, last ks fin t m s = (Ok a, s)) ->
  run (frame (MServerHello sh) ++ frame m) = (Ok a, frame first ++ frame (MClientFinish fin)).
Proof.
  intros Hsh Hf Hm Hl. rewrite (drive_reply sh ks fin t) by done. rewrite <- (app_nil_r (frame m)).
  erewrite M_bind_Ok by (by apply recv_step). by rewrite Hl.
Qed.
End drive.

(** What the registry does for a connection, and the PSK of its session. *)
Definition step (rs : option (arr 16)) wg_pub algo (d : loopback) : M Registry RegistryError PeerSlot :=
  match rs with
  | Some sid => registry_rekey (lo_now d) wg_pub sid algo
  | None => upsert_handshake (lo_now d) wg_pub algo (lo_session_id d)
  end.
Definition session_psk identity wg_pub algo (rs : option (arr 16)) (d : loopback) : arr 32 :=
  match respond identity (client_hello (client_start algo rand_nonce wg_pub (lo_x d) (lo_kem d)))
          (default (lo_session_id d) rs) (lo_nonce d) (lo_server d) with
  | Ok o => psk (keys o)
  | Err _ => arr_fill 32 x00
  end.
Definition completed (rs : option (arr 16)) (slot : PeerSlot) : ConnResult :=
  match rs with
  | Some _ => Server.Rekey (slot_session_id slot)
  | None => Server.Handshake (slot_session_id slot)
  end.

Lemma connection_run identity d rs state {X} (client : M stream unit X) refused last o ks fin m r w w' a :
  let first := first_message (client_hello state) rs in
  (forall s, client s = drive state (verifying_key_bytes identity) first refused last s) ->
  respond identity (client_hello state) (default (lo_session_id d) rs) (lo_nonce d) (lo_server d) = Ok o ->
  client_finish state (server_hello o) (verifying_key_bytes identity) = Ok (ks, fin, transcript o) ->
  handle_connection debug (ctx_for identity) (conn_of d)
    (Build_World (opened (frame first ++ frame (MClientFinish fin)) eof) (registry w) (wg w) (disk w)) = (Ok r, w') ->
  tx (conn w') = frame (reply o) ++ frame m -> sendable m ->
  (forall st, last ks fin (transcript o) m st = (Ok a, st)) ->
  connection debug identity d client w = (Ok (r, a), Build_World (conn w) (registry w') (wg w') (disk w')).
Proof.
  intros first Hclient Ho Hf Hserver Htx Hm Hlast.
  pose proof (reply_sendable _ _ _ _ _ _ Ho) as Hreply.
  pose proof (respond_hello_lens _ _ _ _ _ _ Ho) as (_ & _ & _ & Hpk & _).
  pose proof (first_sendable _ rs Hpk) as Hfirst. fold first in Hfirst.
  assert (Hrun : forall i, on_input client i = on_input (drive state (verifying_key_bytes identity)
    first refused last) i) by (intros i; unfold on_input; by rewrite Hclient).
  unfold connection. erewrite talk_two with (a := Ok a)
    (b := (Ok r, Build_World (conn w) (registry w') (wg w') (disk w'))); [done | | | | |].
  - by rewrite Hrun, drive_start.
  - unfold server_thread, opened, first. by erewrite server_waits by done.
  - rewrite Hrun. by apply (drive_waits _ _ _ _ _ Hfirst (server_hello o) ks fin (transcript o)).
  - unfold server_thread. by rewrite Hserver, Htx.
  - rewrite Hrun. by apply (drive_last _ _ _ _ _ Hfirst (server_hello o) ks fin (transcript o)).
Qed.

(** A client of the tests against the server thread: either the registry takes
    the session and the client sees the [ServerFinish], or it refuses it and the
    client sees an error. *)
Lemma conversation identity wg_pub algo rs d :
  let state := client_start algo rand_nonce wg_pub (lo_x d) (lo_kem d) in
  exists o ks fin,
    psk ks = session_psk identity wg_pub algo rs d /\
    cf_session_id fin = default (lo_session_id d) rs /\
    verify_server_tag (confirm_key ks) (transcript o)
      (server_tag_of (confirm_key (keys o)) (transcript o)) = true /\
    forall X (client : M stream unit X) refused last,
      (forall s, client s = drive state (verifying_key_bytes identity)
         (first_message (client_hello state) rs) refused last s) ->
      (forall (w : World W) slot reg s a,
         step rs wg_pub algo d (registry w) = (Ok slot, reg) ->
         install wg_pub (session_psk identity wg_pub algo rs d) (slot_assigned_ip slot) algo (wg w) = (Ok tt, s) ->
         (forall st, last ks fin (transcript o) (final (ctx_for identity) o slot) st = (Ok a, st)) ->
         connection debug identity d client w =
           (Ok (completed rs slot, a), Build_World (conn w) reg s (persist reg (disk w)).2)) /\
      (forall (w : World W) e reg a,
         step rs wg_pub algo d (registry w) = (Err e, reg) ->
         (forall c st, last ks fin (transcript o) (MError c) st = (Ok a, st)) ->
         connection debug identity d client w =
           (Ok (Server.Rejected (registry_reject_code e).1, a),
            Build_World (conn w) (registry w) (wg w) (disk w))).
Proof.
  intros state.
  destruct (TestClient.client_hello_fields algo rand_nonce wg_pub (lo_x d) (lo_kem d)) as (Hwg & Halg & Hlen).
  fold state in Hwg, Halg, Hlen.
  destruct (TestClient.honest_test_run identity algo rand_nonce wg_pub (lo_x d) (lo_kem d)
    (default (lo_session_id d) rs) (lo_nonce d) (lo_server d)) as (o & ks & fin & Ho & Hf & Hpsk & _ & Hsid & Hct & Hst).
  fold state in Ho, Hf. exists o, ks, fin.
  assert (Hk : session_psk identity wg_pub algo rs d = psk (keys o)) by (unfold session_psk; fold state; by rewrite Ho).
  split; [congruence|]. split; [done|]. split; [done|]. intros X client refused last Hclient.
  assert (Hstep : step rs wg_pub algo d = registry_step (conn_of d) (client_hello state) rs).
  { unfold registry_step. destruct rs; simpl; by rewrite Hwg, Halg. }
  split.
  - intros w slot reg s a Hs Hi Hl. rewrite Hstep in Hs. rewrite Hk in Hi.
    pose proof (server_run debug (ctx_for identity) (conn_of d) (client_hello state) rs o fin slot reg s eof [] []
      (registry w) (wg w) (disk w) eq_refl Ho Hsid Hct Hs) as Hr.
    rewrite Hwg, Halg in Hr. specialize (Hr Hi). rewrite !app_nil_r in Hr.
    by rewrite (connection_run _ _ _ _ _ _ _ _ _ _ _ _ w _ _ Hclient Ho Hf Hr eq_refl) by done.
  - intros w e reg a Hs Hl. rewrite Hstep in Hs.
    by rewrite (connection_run _ _ _ _ _ _ _ _ _ _ _ _ w _ _ Hclient Ho Hf
      (server_refuses debug (ctx_for identity) (conn_of d) _ _ _ _ _ _ _ _ _ _ _ eq_refl Ho Hsid Hct Hs) eq_refl
      (reject_sendable e)) by done.
Qed.

(** The clients of the tests are such clients. *)
Definition connect_refused (m : Message) : M stream unit (option (Ipv4Addr * arr 32)) :=
  match m with MError _ => mret None | _ => throw tt end.
Definition connect_last (keys : SessionKeys) (finish : ClientFinish) (transcript : bytes) (m : Message) :
    M stream unit (option (Ipv4Addr * arr 32)) :=
  match m with
  | MServerFinish sf =>
      _ ← assert (bool_decide (sf_session_id sf = cf_session_id finish));
      _ ← assert (verify_server_tag (confirm_key keys) transcript (server_tag sf));
      mret (Some (ServerWire.assigned_ip sf, psk keys))
  | MError _ => mret None
  | _ => throw tt
  end.

Lemma connect_client_drive vk wg_pub algo rs d s :
  let state := client_start algo rand_nonce wg_pub (lo_x d) (lo_kem d) in
  connect_client vk wg_pub algo rs d s =
  drive state vk (first_message (client_hello state) rs) connect_refused connect_last s.
Proof.
  unfold connect_client, drive. destruct rs; (apply M_bind_ext; intros _ s1; apply M_bind_ext; intros [] s2; done).
Qed.

Definition handshake_last (keys : SessionKeys) (finish : ClientFinish) (transcript : bytes) (m : Message) :
    M stream unit (arr 16 * Ipv4Addr) :=
  match m with
  | MServerFinish sf =>
      _ ← assert (bool_decide (sf_session_id sf = cf_session_id finish));
      _ ← assert (verify_server_tag (confirm_key keys) transcript (server_tag sf));
      _ ← assert (bool_decide (server_wg_pubkey sf = arr_fill 32 x5a));
      _ ← assert (bool_decide (wg_port sf = u16_of_be xca x6c));
      mret (cf_session_id finish, ServerWire.assigned_ip sf)
  | _ => throw tt
  end.

Lemma handshake_client_drive vk wg_pub algo d s :
  let state := client_start algo rand_nonce wg_pub (lo_x d) (lo_kem d) in
  handshake_client vk wg_pub algo d s =
  drive state vk (first_message (client_hello state) None) (fun _ => throw tt) handshake_last s.
Proof.
  unfold handshake_client, drive. apply M_bind_ext; intros _ s1; apply M_bind_ext; intros [] s2; done.
Qed.

(** ** The connections of the tests *)

Lemma tcp_connect_taken identity wg_pub algo rs d (w : World W) slot reg s :
  step rs wg_pub algo d (registry w) = (Ok slot, reg) ->
  install wg_pub (session_psk identity wg_pub algo rs d) (slot_assigned_ip slot) algo (wg w) = (Ok tt, s) ->
  slot_session_id slot = default (lo_session_id d) rs ->
  tcp_connect debug identity wg_pub algo rs d w =
    (Ok (completed rs slot, Some (slot_assigned_ip slot, session_psk identity wg_pub algo rs d)),
     Build_World (conn w) reg s (persist reg (disk w)).2).
Proof.
  intros Hs Hi Hsid. destruct (conversation identity wg_pub algo rs d) as (o & ks & fin & Hk & Hf & Ht & H).
  apply (H _ _ connect_refused connect_last (connect_client_drive _ _ _ _ _)); [done..|]. intros st.
  cbn [connect_last final sf_session_id server_tag]. by rewrite bool_decide_true, Ht, Hk by congruence.
Qed.

Lemma tcp_connect_refused identity wg_pub algo rs d (w : World W) e reg :
  step rs wg_pub algo d (registry w) = (Err e, reg) ->
  tcp_connect debug identity wg_pub algo rs d w =
    (Ok (Server.Rejected (registry_reject_code e).1, None),
     Build_World (conn w) (registry w) (wg w) (disk w)).
Proof.
  intros Hs. destruct (conversation identity wg_pub algo rs d) as (o & ks & fin & _ & _ & _ & H).
  by eapply (H _ _ connect_refused connect_last (connect_client_drive _ _ _ _ _)).
Qed.

Lemma tcp_handshake_taken identity wg_pub algo d (w : World W) slot reg s :
  step None wg_pub algo d (registry w) = (Ok slot, reg) ->
  install wg_pub (session_psk identity wg_pub algo None d) (slot_assigned_ip slot) algo (wg w) = (Ok tt, s) ->
  tcp_handshake debug identity wg_pub algo d w =
    (Ok (slot_assigned_ip slot), Build_World (conn w) reg s (persist reg (disk w)).2).
Proof.
  intros Hs Hi. pose proof (upsert_slot _ _ _ _ _ _ _ Hs) as Hsid.
  destruct (conversation identity wg_pub algo None d) as (o & ks & fin & Hk & Hf & Ht & H).
  unfold tcp_handshake. erewrite M_bind_Ok.
  2:{ apply (H _ _ (fun _ => throw tt) handshake_last (handshake_client_drive _ _ _ _) ); [done..|]. intros st.
      cbn [handshake_last final sf_session_id server_tag server_wg_pubkey wg_port].
      rewrite (bool_decide_true (slot_session_id slot = cf_session_id fin)), Ht by (simpl in Hf; congruence).
      reflexivity. }
  cbv beta iota. cbn [completed]. by rewrite bool_decide_true by (simpl in Hf; congruence).
Qed.
End runs.

(** ** The tests pass *)

Section results.
Context `{P : Primitives} `{L : !PrimitiveLaws P} `{C : Codecs} `{CL : !CodecLaws C}.
Context (debug : Message -> rstring).
Abbreviation empty_registry := (Registry_new base DEFAULT_MAX_PEERS).

Definition new_peer now pk a sid ip : Peer :=
  {| wg_pubkey := pk; Registry.assigned_ip := ip; session_id := sid; algo := a; created := now;
     last_activity := now; rekeys := 0 |}.

(** The first peer of a test gets host 2. *)
Lemma first_peer pk a d :
  step None pk a d empty_registry =
    (Ok {| slot_session_id := lo_session_id d; slot_assigned_ip := Ipv4Addr_new x0a x08 x00 x02 |},
     set_inner {[pk := new_peer (lo_now d) pk a (lo_session_id d) (Ipv4Addr_new x0a x08 x00 x02)]} empty_registry).
Proof. unfold step, upsert_handshake. cbn [inner Registry_new]. rewrite lookup_empty. reflexivity. Qed.

Lemma connect_first identity pk a d w disk :
  tcp_connect (I := RecordingInstaller) debug identity pk a None d
    (Build_World w empty_registry {| installs := []; removals := [] |} disk) =
    (Ok (Server.Handshake (lo_session_id d),
         Some (Ipv4Addr_new x0a x08 x00 x02, session_psk identity pk a None d)),
     Build_World w (set_inner {[pk := new_peer (lo_now d) pk a (lo_session_id d) (Ipv4Addr_new x0a x08 x00 x02)]} empty_registry)
       {| installs := [(pk, session_psk identity pk a None d, Ipv4Addr_new x0a x08 x00 x02, a)]; removals := [] |} disk).
Proof. by erewrite tcp_connect_taken by (apply first_peer || reflexivity). Qed.

Lemma in_process_passes identity d : in_process_handshake_all_levels_agree_on_psk identity d = true.
Proof.
  unfold in_process_handshake_all_levels_agree_on_psk. apply forallb_forall. intros algo _.
  unfold in_process_level.
  destruct (TestClient.honest_test_run identity algo (arr_fill 32 x01) (arr_fill 32 x02) (lo_x (d algo)) (lo_kem (d algo))
    (arr_fill 16 x09) (arr_fill 32 x08) (lo_server (d algo))) as (o & ks & fin & -> & Hf & Hpsk & Hck & _ & Hct & Hst).
  cbn [CryptoTests.result_true]. rewrite Hf. cbn [CryptoTests.result_true].
  rewrite Hst, (proj2 (verify_client_tag_iff _ _ _) Hct).
  rewrite Hpsk, Hck, !bool_decide_true by done. reflexivity.
Qed.

Lemma unknown_session_passes identity d disk : over_tcp_rekey_rejects_unknown_session debug identity d disk = true.
Proof.
  unfold over_tcp_rekey_rejects_unknown_session, passes, recording_ctx, test_ctx.
  erewrite M_bind_Ok by (by eapply tcp_connect_refused). reflexivity.
Qed.

Lemma refused_passes identity pk first second claim code d1 d2 disk e :
  (step (Some (claim (lo_session_id d1))) pk second d2
     (set_inner {[pk := new_peer (lo_now d1) pk first (lo_session_id d1) (Ipv4Addr_new x0a x08 x00 x02)]} empty_registry)).1 = Err e ->
  (registry_reject_code e).1 = code ->
  refused_after_handshake debug identity pk first second claim code d1 d2 disk = true.
Proof.
  intros Hs Hc. unfold refused_after_handshake, passes, recording_ctx, test_ctx.
  erewrite M_bind_Ok by apply connect_first. cbv beta iota. erewrite M_bind_Ok by reflexivity. cbv beta.
  erewrite M_bind_Ok by (eapply tcp_connect_refused; cbn [registry]; rewrite (surjective_pairing (step _ _ _ _ _)), Hs; done).
  cbv beta iota. rewrite Hc. by rewrite (bool_decide_true (Server.Rejected code = _)).
Qed.

Lemma wrong_session_ne sid : wrong_session sid <> sid.
Proof.
  intros H%(f_equal arr_list). unfold wrong_session in H.
  assert (Hl : len (CryptoTests.xor_at 0 xff (arr_list sid)) = Z.of_N 16).
  { unfold len, CryptoTests.xor_at. rewrite length_alter. apply (arr_len sid). }
  rewrite arr_copy_exact in H by done. pose proof (arr_len sid) as Hs.
  destruct (arr_list sid) as [|b l]; [done|]. injection H as H. revert b H Hl Hs.
  assert (Hx : forall b, negb (bool_decide (z2b (Z.lxor (b2z b) (b2z xff)) = b)) = true)
    by (apply byte_forall; vm_compute; reflexivity).
  intros b H _ _. specialize (Hx b). by rewrite bool_decide_true in Hx.
Qed.

Lemma session_mismatch_passes identity d1 d2 disk :
  over_tcp_rekey_rejects_session_mismatch_for_known_peer debug identity d1 d2 disk = true.
Proof.
  apply (refused_passes _ _ _ _ _ _ _ _ _ SessionMismatch); [|done].
  unfold step, registry_rekey. cbn [inner set_inner]. rewrite lookup_singleton_eq. cbn [session_id new_peer].
  rewrite bool_decide_false; [done|]. intros H. symmetry in H. revert H. apply wrong_session_ne.
Qed.

Lemma downgrade_passes identity d1 d2 disk :
  over_tcp_rekey_rejects_downgrade debug identity d1 d2 disk = true.
Proof.
  apply (refused_passes _ _ _ _ _ _ _ _ _ Downgrade); [|done].
  unfold step, registry_rekey. cbn [inner set_inner]. rewrite lookup_singleton_eq. cbn [session_id new_peer id].
  by rewrite bool_decide_true.
Qed.


(** Two peers and the first one again. *)
Lemma two_peers_pass identity d1 d2 d3 disk :
  over_tcp_two_peers_get_distinct_addresses_and_sessions debug identity d1 d2 d3 disk = true.
Proof.
  unfold over_tcp_two_peers_get_distinct_addresses_and_sessions, passes, test_ctx.
  set (p1 := new_peer (lo_now d1) (arr_fill 32 x11) MlKem768 (lo_session_id d1) (Ipv4Addr_new x0a x08 x00 x02)).
  set (p2 := new_peer (lo_now d2) (arr_fill 32 x22) MlKem1024 (lo_session_id d2) (Ipv4Addr_new x0a x08 x00 x03)).
  assert (H2 : step None (arr_fill 32 x22) MlKem1024 d2 (set_inner {[arr_fill 32 x11 := p1]} empty_registry) =
    (Ok {| slot_session_id := lo_session_id d2; slot_assigned_ip := Ipv4Addr_new x0a x08 x00 x03 |},
     set_inner (<[arr_fill 32 x22 := p2]> {[arr_fill 32 x11 := p1]}) empty_registry)).
  { unfold step, upsert_handshake. cbn [inner set_inner]. rewrite lookup_singleton_ne by done. reflexivity. }
  assert (H3 : exists p, step None (arr_fill 32 x11) MlKem512 d3
      (set_inner (<[arr_fill 32 x22 := p2]> {[arr_fill 32 x11 := p1]}) empty_registry) =
    (Ok {| slot_session_id := lo_session_id d3; slot_assigned_ip := Ipv4Addr_new x0a x08 x00 x02 |},
     set_inner (<[arr_fill 32 x11 := p]> (<[arr_fill 32 x22 := p2]> {[arr_fill 32 x11 := p1]})) empty_registry)).
  { eexists. unfold step. by rewrite (upsert_known _ _ _ _ _ p1)
      by (cbn [inner set_inner]; by rewrite lookup_insert_ne, lookup_singleton_eq). }
  destruct H3 as [p H3].
  erewrite M_bind_Ok by (by apply tcp_handshake_taken; [apply first_peer|]). cbv beta.
  erewrite M_bind_Ok by (by apply tcp_handshake_taken; [exact H2|]). cbv beta.
  do 6 (erewrite M_bind_Ok by reflexivity; cbv beta).
  erewrite M_bind_Ok by (by apply tcp_handshake_taken; [exact H3|]). cbv beta.
  do 2 (erewrite M_bind_Ok by reflexivity; cbv beta). reflexivity.
Qed.

(** The rekey test passes as soon as the two PSKs differ. *)
Lemma swap_passes identity d1 d2 disk :
  over_tcp_rekey_swaps_psk_without_removing_peer debug identity d1 d2 disk =
    negb (bool_decide (session_psk identity (arr_fill 32 x33) MlKem768 None d1 =
                       session_psk identity (arr_fill 32 x33) MlKem1024 (Some (lo_session_id d1)) d2)).
Proof.
  unfold over_tcp_rekey_swaps_psk_without_removing_peer, passes, recording_ctx, test_ctx.
  erewrite M_bind_Ok by apply connect_first. cbv beta iota.
  erewrite M_bind_Ok by reflexivity. cbv beta. erewrite M_bind_Ok by reflexivity. cbv beta iota.
  erewrite M_bind_Ok.
  2:{ apply tcp_connect_taken; [|reflexivity|].
      - unfold step. cbn [registry]. apply (TestClient.rekey_run _ _ (new_peer (lo_now d1) (arr_fill 32 x33) MlKem768 (lo_session_id d1)
          (Ipv4Addr_new x0a x08 x00 x02))); [|done].
        cbn [inner set_inner]. apply lookup_singleton_eq.
      - done. }
  cbv beta iota. cbn [completed slot_session_id slot_assigned_ip new_peer session_id Registry.assigned_ip].
  rewrite (bool_decide_true (lo_session_id d1 = lo_session_id d1)) by done.
  do 2 (erewrite M_bind_Ok by reflexivity; cbv beta iota).
  erewrite M_bind_Ok by (rewrite bool_decide_true by done; reflexivity). cbv beta.
  case_bool_decide as Hk; [done|]. cbn [negb]. 
  do 9 (erewrite M_bind_Ok by reflexivity; cbv beta iota).
  rewrite (bool_decide_false (session_psk _ _ _ _ _ = _)) by done. reflexivity.
Qed.

(** The client library before the server's messages are all there. *)
Lemma connect_start peer algo wgk pin cd h :
  hello_to_core h = CoreClient.hello_of (CoreClient.start algo wgk cd) -> sendable (MClientHello h) ->
  on_input (Transport.connect (loopback_socket peer) algo wgk pin cd) [] =
    (Err (Transport.Io eof), frame (MClientHello h)).
Proof.
  intros Hh Hs. unfold on_input, Transport.connect, opened, loopback_socket.
  cbn [Transport.sk_connect Transport.sk_timeouts Transport.sk_peer].
  do 3 (erewrite M_bind_Ok by reflexivity). cbv beta iota. rewrite <- Hh.
  by erewrite M_bind_Ok by (unfold err_into; by rewrite (core_write (MClientHello h))).
Qed.

Lemma connect_waits peer algo wgk pin cd h sh ks fin t :
  hello_to_core h = CoreClient.hello_of (CoreClient.start algo wgk cd) -> sendable (MClientHello h) ->
  sendable (MServerHello sh) ->
  CoreClient.finish (CoreClient.start algo wgk cd) (server_hello_to_core sh) pin =
    Ok (ks, CoreWire.Build_ClientFinish (cf_session_id fin) (client_tag fin), t) ->
  on_input (Transport.connect (loopback_socket peer) algo wgk pin cd) (frame (MServerHello sh)) =
    (Err (Transport.Io eof), frame (MClientHello h) ++ frame (MClientFinish fin)).
Proof.
  intros Hh Hs Hsh Hf. unfold on_input, Transport.connect, opened, loopback_socket.
  cbn [Transport.sk_connect Transport.sk_timeouts Transport.sk_peer].
  do 3 (erewrite M_bind_Ok by reflexivity). cbv beta iota. rewrite <- Hh.
  erewrite M_bind_Ok by (unfold err_into; by rewrite (core_write (MClientHello h))).
  rewrite <- (app_nil_r (frame (MServerHello sh))).
  erewrite M_bind_Ok by (unfold err_into; by rewrite (core_read (MServerHello sh))). cbv beta iota.
  erewrite M_bind_Ok by reflexivity. cbv beta iota. rewrite Hf.
  erewrite M_bind_Ok by reflexivity. cbv beta iota.
  by erewrite M_bind_Ok by (unfold err_into; by rewrite (core_write (MClientFinish fin)) by apply finish_sendable).
Qed.

Lemma loopback_handshake_passes identity peer cd d disk :
  real_handshake_over_a_loopback_socket debug identity peer cd d disk = true.
Proof.
  set (wgk := arr_fill 32 x11). set (h := wire_hello MlKem768 wgk cd).
  pose proof (wire_hello_eq MlKem768 wgk cd) as Hh. pose proof (wire_hello_sendable MlKem768 wgk cd) as Hs.
  fold h in Hh, Hs. change (level_of MlKem768) with Algorithm.MlKem768 in Hh.
  destruct (honest_run identity MlKem768 wgk cd h (lo_session_id d) (lo_nonce d) (lo_server d) Hh)
    as (o & ks & fc & Ho & Hf & _ & _ & Hsid & Hct & Hst).
  set (fin := {| cf_session_id := CoreWire.cf_session_id fc; client_tag := CoreWire.client_tag fc |}).
  change (level_of MlKem768) with Algorithm.MlKem768 in Hf.
  replace fc with (CoreWire.Build_ClientFinish (cf_session_id fin) (client_tag fin)) in Hf by (by destruct fc).
  apply verify_client_tag_iff in Hct. pose proof (reply_sendable _ _ _ _ _ _ Ho) as Hreply.
  pose proof (first_peer wgk MlKem768 d) as Hreg. set (slot := Build_PeerSlot _ _) in Hreg.
  pose proof (server_run (I := DryRun) debug (ctx_for identity) (conn_of d) h None o fin slot _ tt eof [] [] _ tt disk
    eq_refl Ho Hsid Hct Hreg eq_refl) as Hserver.
  destruct (final (ctx_for identity) o slot) as [| | |sf| |] eqn:Efinal; try done. pose proof Efinal as Esf. injection Esf as Esf.
  pose proof (connect_run (loopback_socket peer) Algorithm.MlKem768 wgk _ cd h peer (server_hello o) ks fin
    (transcript o) sf [] eof eq_refl eq_refl eq_refl Hh Hs Hreply Hf) as Hclient.
  rewrite !app_nil_r in Hclient. rewrite app_nil_r, app_nil_l in Hserver.
  cbn [first_message] in Hserver.
  unfold real_handshake_over_a_loopback_socket, transport_run. erewrite talk_two; cycle 1.
  - by apply connect_start.
  - unfold server_thread, opened, test_ctx. cbn [registry wg Server.disk]. by erewrite (server_waits _ _ _ h None) by done.
  - by eapply connect_waits.
  - unfold server_thread, opened, test_ctx. cbn [registry wg Server.disk]. by rewrite Hserver.
  - unfold on_input, opened, reply. cbn [conn tx]. fold wgk. rewrite Hclient; [reflexivity| |]; rewrite <- Esf; [done|exact Hst].
  - assert (Hc : contains (arr_fill 32 x11) (set_inner {[wgk := new_peer (lo_now d) wgk MlKem768
      (lo_session_id d) (Ipv4Addr_new x0a x08 x00 x02)]} empty_registry) = true)
      by (apply bool_decide_eq_true; cbn [inner set_inner]; by rewrite lookup_singleton_eq).
    rewrite <- Esf. cbn [registry snd fst]. rewrite Hc. cbn -[HybridKem.psk]. by rewrite arr_len.
Qed.

Lemma client_start_nonce a n pk x kem : client_nonce (client_hello (client_start a n pk x kem)) = n.
Proof. by destruct a. Qed.

(** Two sessions with the same PSK and different server nonces give a collision of HKDF. *)
Lemma session_psk_salted identity pk a rs d :
  exists secret, session_psk identity pk a rs d =
    hkdf_sha256 (arr_list rand_nonce ++ arr_list (lo_nonce d)) secret HybridKem.INFO_PSK.
Proof.
  unfold session_psk.
  destruct (TestClient.honest_test_run identity a rand_nonce pk (lo_x d) (lo_kem d)
    (default (lo_session_id d) rs) (lo_nonce d) (lo_server d)) as (o & _ & _ & Ho & _). rewrite Ho.
  pose proof (client_start_nonce a rand_nonce pk (lo_x d) (lo_kem d)) as Hn.
  rewrite respond_eq in Ho. destruct (encapsulate_for _ _ _ _) as [[[x ct] secret]|]; [|done].
  injection Ho as <-. cbn [keys]. rewrite Hn. by exists (arr_list secret).
Qed.


End results.

(** ** On the real hashes *)

Abbreviation sha_toy := (with_sha Toy.prims).
Definition loopback_draws (b : u8) : loopback (P := sha_toy) :=
  @Build_loopback sha_toy (arr_fill 16 b) (arr_fill 32 b)
    (@Build_server_draws sha_toy (arr_fill 32 x03) (arr_fill 32 x04 : arr 32)) 5 (arr_fill 32 x01) (arr_fill 32 x02 : arr 32).
Definition sha_identity (b : u8) : ServerIdentity (P := sha_toy) := ServerIdentity_generate (arr_fill 32 b).
Definition sha_client : CoreClient.client_draws (P := sha_toy) :=
  @CoreClient.Build_client_draws sha_toy (arr_fill 32 x06) (arr_fill 32 x07) (arr_fill 32 x08 : arr 32).
Definition no_text : Message -> rstring := fun _ => lit "message".

(** The tests that need more than the laws: a rejected signature, and PSKs that differ. *)
Lemma adversarial_tests_pass :
  forallb id
    [wrong_pinned_key_is_rejected (sha_identity x05) (sha_identity x0b) (loopback_draws x51);
     tampered_server_hello_fails_auth (sha_identity x05) (loopback_draws x51);
     wrong_pinned_key_over_the_network_is_rejected_client_side (C := ToyCodecs.codecs) no_text (sha_identity x05)
       (sha_identity x0b) (Transport.V4 base) sha_client (loopback_draws x51) (mkfs ∅)] = true.
Proof. vm_compute. reflexivity. Qed.

Lemma live_rekey_test_passes :
  over_tcp_rekey_swaps_psk_without_removing_peer (C := ToyCodecs.codecs) no_text (sha_identity x05)
    (loopback_draws x51) (loopback_draws x52) (mkfs ∅) = true.
Proof. rewrite (swap_passes (L := with_sha_laws Toy.prims (L := Toy.laws))). vm_compute. reflexivity. Qed.

