(* ===== verification/KeyStore.v ===== *)
(** * The in-memory key store

    [core/src/crypto/key_store.rs].  Overwriting the released bytes (the
    [Zeroizing] wrapper) has no observable result and is not modelled. *)

From S2P Require Import Prelude Utf8.

#[export] Instance rstring_countable : Countable rstring :=
  inj_countable str_bytes (fun l => Some (from_utf8_lossy l))
    (fun s => f_equal Some (from_utf8_lossy_str s)).

Record SecureKeyStore : Type := { store_keys : gmap rstring bytes }.

Definition KeyStore_new : SecureKeyStore := {| store_keys := ∅ |}.
Definition store (name : rstring) (key_bytes : bytes) (s : SecureKeyStore) : SecureKeyStore :=
  {| store_keys := <[name := key_bytes]> (store_keys s) |}.
Definition key_get (name : rstring) (s : SecureKeyStore) : option bytes := store_keys s !! name.
Definition wipe (name : rstring) (s : SecureKeyStore) : bool * SecureKeyStore :=
  (bool_decide (is_Some (store_keys s !! name)), {| store_keys := delete name (store_keys s) |}).
Definition wipe_all (s : SecureKeyStore) : SecureKeyStore := {| store_keys := ∅ |}.

(** ** Histories *)

Inductive key_op : Type :=
  | OpStore (name : rstring) (key_bytes : bytes)
  | OpWipe (name : rstring)
  | OpWipeAll.

Definition key_apply (s : SecureKeyStore) (o : key_op) : SecureKeyStore :=
  match o with
  | OpStore n k => store n k s
  | OpWipe n => (wipe n s).2
  | OpWipeAll => wipe_all s
  end.

(** What a history, newest operation first, says about a name. *)
Fixpoint last_written (name : rstring) (newest_first : list key_op) : option bytes :=
  match newest_first with
  | [] => None
  | OpStore n k :: os => if decide (n = name) then Some k else last_written name os
  | OpWipe n :: os => if decide (n = name) then None else last_written name os
  | OpWipeAll :: _ => None
  end.

(** The store answers from its history: after any sequence of operations a
    name is bound to the bytes stored last under it, unless it was wiped, alone
    or with everything, since; and [wipe] reports whether it was bound. *)
Theorem key_store_history os name :
  let s := fold_left key_apply os KeyStore_new in
  key_get name s = last_written name (rev os) /\
  (wipe name s).1 = bool_decide (is_Some (last_written name (rev os))) /\
  key_get name (wipe name s).2 = None.
Proof.
  intros s.
  assert (H : key_get name s = last_written name (rev os)).
  { unfold s. induction os as [|o os IH] using rev_ind; [apply lookup_empty|].
    rewrite fold_left_app, rev_app_distr. cbn [fold_left rev app last_written].
    destruct o as [n k|n|]; cbn [key_apply]; unfold key_get in *; cbn [store wipe snd store_keys wipe_all].
    - case_decide as E; [subst; apply lookup_insert_eq|]. by rewrite lookup_insert_ne.
    - case_decide as E; [subst; apply lookup_delete_eq|]. by rewrite lookup_delete_ne.
    - apply lookup_empty. }
  split; [exact H|]. split.
  - unfold key_get in H. unfold wipe. cbn [fst]. by rewrite H.
  - apply lookup_delete_eq.
Qed.
