(* ===== verification/StatePipeline.v ===== *)
(** * The state vector

    [core/src/state/mod.rs]: from raw device readings to the seven normalised
    components the policy consumes.  A [Duration] is its whole number of
    nanoseconds. *)

From S2P Require Import Prelude Ieee.

Definition STATE_DIM : nat := 7.
Definition CPU_LOAD : nat := 0.
Definition RAM_AVAIL : nat := 1.
Definition LATENCY : nat := 2.
Definition UPLOAD : nat := 3.
Definition CONN_TYPE : nat := 4.
Definition TIME_SINCE_REKEY : nat := 5.
Definition THREAT : nat := 6.

Inductive ConnectionType : Set := Wired | WifiOrUnknown | Cellular.

Definition score (c : ConnectionType) : f32 :=
  match c with
  | Wired => f32_lit 0 1
  | WifiOrUnknown => f32_lit 1 2
  | Cellular => f32_lit 1 1
  end.

(** [Duration]: nanoseconds, up to [u64::MAX] seconds and 999999999. *)
Definition NANOS_PER_SEC : Z := 10 ^ 9.
Definition DURATION_MAX : Z := 2 ^ 64 * NANOS_PER_SEC - 1.
Definition from_millis (ms : Z) : Z := ms * 10 ^ 6.
Definition from_secs (s : Z) : Z := s * NANOS_PER_SEC.
Definition saturating_add (a b : Z) : Z := Z.min (a + b) DURATION_MAX.
Definition is_zero (d : Z) : bool := d =? 0.
Definition as_secs_f64 (d : Z) : f64 :=
  f64_add (f64_of_Z (d / NANOS_PER_SEC))
    (f64_div (f64_of_Z (d mod NANOS_PER_SEC)) (f64_of_Z NANOS_PER_SEC)).

(** The trait [DeviceState]: one set of readings. *)
Record DeviceState : Set := {
  cpu_load : f32;
  ram_available_fraction : f32;
  latency : option Z;
  upload_rate_bytes_per_sec : f64;
  connection_type : ConnectionType
}.

Record NormalizationCaps : Set := {
  latency_cap : Z;
  upload_cap_bytes_per_sec : f64;
  rekey_interval_cap : Z
}.

Definition default_caps : NormalizationCaps :=
  {| latency_cap := from_millis 300; upload_cap_bytes_per_sec := f64_of_Z 5000000;
     rekey_interval_cap := from_secs 3600 |}.

Definition normalize_duration (value cap : Z) : f32 :=
  if is_zero cap then f32_one
  else f32_of_f64 (f_clamp (f64_div (as_secs_f64 value) (as_secs_f64 cap)) f_zero f64_one).

Definition normalize_latency (latency : option Z) (cap : Z) : f32 :=
  match latency with
  | Some rtt => normalize_duration rtt cap
  | None => f32_one
  end.

Definition normalize_rate (value cap : f64) : f32 :=
  if f_le cap f_zero then f32_one
  else f32_of_f64 (f_clamp (f64_div (f_max value f_zero) cap) f_zero f64_one).

Record StatePipeline : Set := {
  device : DeviceState;
  caps : NormalizationCaps;
  time_since_rekey : Z
}.

Definition StatePipeline_with_caps (device : DeviceState) (caps : NormalizationCaps) : StatePipeline :=
  {| device := device; caps := caps; time_since_rekey := 0 |}.
Definition StatePipeline_new (device : DeviceState) : StatePipeline :=
  StatePipeline_with_caps device default_caps.

(** Read access to the wrapped source (StatePipeline::device). *)
Definition StatePipeline_device (p : StatePipeline) : DeviceState := device p.

Definition mark_rekey (p : StatePipeline) : StatePipeline :=
  {| device := device p; caps := caps p; time_since_rekey := 0 |}.
Definition advance (elapsed : Z) (p : StatePipeline) : StatePipeline :=
  {| device := device p; caps := caps p; time_since_rekey := saturating_add (time_since_rekey p) elapsed |}.

Definition observe (threat_score : f32) (p : StatePipeline) : list f32 :=
  let d := device p in
  let vector := replicate STATE_DIM f_zero in
  let vector := <[CPU_LOAD := cpu_load d]> vector in
  let vector := <[RAM_AVAIL := ram_available_fraction d]> vector in
  let vector := <[LATENCY := normalize_latency (latency d) (latency_cap (caps p))]> vector in
  let vector := <[UPLOAD := normalize_rate (upload_rate_bytes_per_sec d)
                              (upload_cap_bytes_per_sec (caps p))]> vector in
  let vector := <[CONN_TYPE := score (connection_type d)]> vector in
  let vector := <[TIME_SINCE_REKEY := normalize_duration (time_since_rekey p)
                                        (rekey_interval_cap (caps p))]> vector in
  let vector := <[THREAT := threat_score]> vector in
  map (fun value => f_clamp value f_zero f32_one) vector.

(** ** Facts *)

Definition in_unit (x : f32) : Prop := f_le f_zero x = true /\ f_le x f32_one = true.

Lemma clamp_unit x : is_nan x = false -> in_unit (f_clamp x f_zero f32_one).
Proof. intros H. by apply f_clamp_range. Qed.

Lemma clamp_nan_iff x : is_nan (f_clamp x f_zero f32_one) = is_nan x.
Proof.
  destruct (is_nan x) eqn:E; [by destruct x|].
  destruct (clamp_unit x E) as [H _]. by destruct (f_clamp x f_zero f32_one).
Qed.

(** The seven components, by position. *)
Lemma observe_components threat p :
  observe threat p = map (fun value => f_clamp value f_zero f32_one)
    [cpu_load (device p); ram_available_fraction (device p);
     normalize_latency (latency (device p)) (latency_cap (caps p));
     normalize_rate (upload_rate_bytes_per_sec (device p)) (upload_cap_bytes_per_sec (caps p));
     score (connection_type (device p));
     normalize_duration (time_since_rekey p) (rekey_interval_cap (caps p)); threat].
Proof. reflexivity. Qed.

Lemma as_secs_f64_nonneg d : 0 <= d -> nonneg (as_secs_f64 d) = true.
Proof.
  intros Hd. unfold as_secs_f64, f64_add, f64_div, f64_of_Z, NANOS_PER_SEC.
  apply SFadd_nonneg; [|apply SFdiv_nonneg; [|reflexivity]]; apply binary_normalize_nonneg.
  - by apply Z.div_pos.
  - by apply Z.mod_pos_bound.
Qed.

(** A usable cap: zero, or read back as a positive finite number of seconds. *)
Definition good_caps (c : NormalizationCaps) : bool :=
  (is_zero (latency_cap c) || positive_finite (as_secs_f64 (latency_cap c))) &&
  (f_le (upload_cap_bytes_per_sec c) f_zero || positive_finite (upload_cap_bytes_per_sec c)) &&
  (is_zero (rekey_interval_cap c) || positive_finite (as_secs_f64 (rekey_interval_cap c))).

Lemma default_caps_good : good_caps default_caps = true.
Proof. vm_compute. reflexivity. Qed.

Lemma normalize_duration_nonneg v cap :
  0 <= v -> is_zero cap || positive_finite (as_secs_f64 cap) = true ->
  nonneg (normalize_duration v cap) = true.
Proof.
  intros Hv Hc. unfold normalize_duration. destruct (is_zero cap); [reflexivity|].
  apply f32_of_f64_nonneg, f_clamp_nonneg; [|reflexivity].
  apply SFdiv_nonneg; [by apply as_secs_f64_nonneg|exact Hc].
Qed.

Lemma normalize_rate_nonneg v cap :
  f_le cap f_zero || positive_finite cap = true -> nonneg (normalize_rate v cap) = true.
Proof.
  intros Hc. unfold normalize_rate. destruct (f_le cap f_zero); [reflexivity|].
  apply f32_of_f64_nonneg, f_clamp_nonneg; [|reflexivity].
  apply SFdiv_nonneg; [apply f_max_zero_nonneg|exact Hc].
Qed.

(** The control loop's calls between two observations. *)
Inductive tick : Set := Advance (elapsed : Z) | MarkRekey.
Definition apply_tick (p : StatePipeline) (t : tick) : StatePipeline :=
  match t with Advance d => advance d p | MarkRekey => mark_rekey p end.
Definition tick_ok (t : tick) : Prop :=
  match t with Advance d => 0 <= d | MarkRekey => True end.

(** The time since the last [MarkRekey], added up. *)
Definition elapsed_since (acc : Z) (t : tick) : Z :=
  match t with Advance d => acc + d | MarkRekey => 0 end.

Lemma DURATION_MAX_pos : 0 < DURATION_MAX.
Proof. reflexivity. Qed.

Lemma timer_exact ts : forall p acc, Forall tick_ok ts -> 0 <= acc ->
  time_since_rekey p = Z.min acc DURATION_MAX ->
  let q := foldl apply_tick p ts in
  device q = device p /\ caps q = caps p /\
  time_since_rekey q = Z.min (foldl elapsed_since acc ts) DURATION_MAX /\
  0 <= foldl elapsed_since acc ts.
Proof.
  induction ts as [|t ts IH]; intros p acc Hts Hacc Hp; simpl; [done|].
  apply Forall_cons_1 in Hts as [Ht Hts].
  assert (Hstep : device (apply_tick p t) = device p /\ caps (apply_tick p t) = caps p /\
    0 <= elapsed_since acc t /\
    time_since_rekey (apply_tick p t) = Z.min (elapsed_since acc t) DURATION_MAX).
  { pose proof DURATION_MAX_pos. destruct t as [d|]; simpl; unfold saturating_add; rewrite ?Hp;
      simpl in Ht; split_and!; try done; lia. }
  destruct Hstep as (<- & <- & Hacc' & Hp'). by apply IH.
Qed.

Definition reading_nan (threat : f32) (d : DeviceState) (i : nat) : Prop :=
  (i = CPU_LOAD /\ is_nan (cpu_load d) = true) \/
  (i = RAM_AVAIL /\ is_nan (ram_available_fraction d) = true) \/
  (i = THREAT /\ is_nan threat = true).

(** Every component is NaN exactly with its reading, and in the unit interval otherwise. *)
Lemma observe_component threat p :
  good_caps (caps p) = true -> (forall rtt, latency (device p) = Some rtt -> 0 <= rtt) ->
  0 <= time_since_rekey p ->
  forall i x, observe threat p !! i = Some x ->
    if is_nan x then reading_nan threat (device p) i
    else in_unit x /\ ~ reading_nan threat (device p) i.
Proof.
  intros Hcaps Hlat Htime i x. rewrite observe_components. intros Hx.
  apply andb_prop in Hcaps as [[Hc1 Hc2]%andb_prop Hc3].
  rewrite list_lookup_fmap in Hx. apply fmap_Some in Hx as (y & Hy & ->). rewrite clamp_nan_iff.
  assert (Hcases : reading_nan threat (device p) i <->
    (i = 0 \/ i = 1 \/ i = 6)%nat /\ is_nan y = true).
  { unfold reading_nan, CPU_LOAD, RAM_AVAIL, THREAT.
    do 7 (destruct i as [|i]; [injection Hy as <-; clear; intuition lia|]). done. }
  assert (Hnan : is_nan y = true -> (i = 0 \/ i = 1 \/ i = 6)%nat).
  { pose proof (nonneg_not_nan y) as Hnn. intros Hn.
    destruct i as [|[|[|[|[|[|[|i]]]]]]]; try (by auto); injection Hy as <-; rewrite Hnn in Hn; try done.
    - destruct (latency (device p)) eqn:E; [|reflexivity].
      by apply normalize_duration_nonneg; [apply Hlat|].
    - by apply normalize_rate_nonneg.
    - by destruct (connection_type (device p)).
    - by apply normalize_duration_nonneg. }
  destruct (is_nan y) eqn:E; [apply Hcases; auto|].
  split; [by apply clamp_unit|]. intros H%Hcases. by destruct H.
Qed.

(** C34.  Whatever the device reports and however the control loop advances and
    resets the timer, the vector has seven components in the frozen order; a
    component is NaN exactly if it is the CPU, RAM or threat reading and that
    reading is NaN, and lies in [[0, 1]] otherwise; an unreachable probe reads as
    [1.0]; and the timer component is that of the time added up since the last
    rekey, saturated at [Duration::MAX]. *)
Theorem observe_normalised (threat : f32) (d : DeviceState) (ts : list tick)
    (Hts : Forall tick_ok ts) (Hlat : forall rtt, latency d = Some rtt -> 0 <= rtt) :
  let p := foldl apply_tick (StatePipeline_new d) ts in
  let v := observe threat p in
  length v = STATE_DIM /\
  (forall i x, v !! i = Some x ->
    if is_nan x then reading_nan threat d i else in_unit x /\ ~ reading_nan threat d i) /\
  v !! CONN_TYPE = Some (score (connection_type d)) /\
  (latency d = None -> v !! LATENCY = Some f32_one) /\
  v !! TIME_SINCE_REKEY =
    Some (f_clamp (normalize_duration (Z.min (foldl elapsed_since 0 ts) DURATION_MAX)
                     (from_secs 3600)) f_zero f32_one).
Proof.
  intros p v. destruct (timer_exact ts (StatePipeline_new d) 0 Hts ltac:(lia) eq_refl)
    as (Hd & Hc & Ht & Hpos). fold p in Hd, Hc, Ht. simpl in Hd, Hc.
  split; [reflexivity|]. split.
  { rewrite <- Hd. apply observe_component; rewrite ?Hc, ?Hd, ?Ht; try done.
    pose proof DURATION_MAX_pos. lia. }
  unfold v. rewrite observe_components, Hd, Hc, Ht. split_and!; [|by intros ->|reflexivity].
  by destruct (connection_type d).
Qed.

Lemma observe_normalised_witness :
  let d := {| cpu_load := f_zero; ram_available_fraction := S754_nan; latency := Some 1;
              upload_rate_bytes_per_sec := S754_nan; connection_type := Cellular |} in
  is_Some (observe f_zero (foldl apply_tick (StatePipeline_new d) [Advance 5; MarkRekey]) !! UPLOAD) /\
  length (observe f_zero (foldl apply_tick (StatePipeline_new d) [Advance 5; MarkRekey])) = STATE_DIM.
Proof.
  intros d. split; [by eexists|].
  refine (proj1 (observe_normalised f_zero d [Advance 5; MarkRekey] _ _)).
  - repeat constructor; simpl; lia.
  - intros rtt [= <-]. lia.
Defined.

(** Concrete readings. *)
Example half_latency : normalize_latency (Some (from_millis 150)) (latency_cap default_caps) = f32_lit 1 2.
Proof. vm_compute. reflexivity. Qed.
Example rate_saturates : normalize_rate (f64_of_Z 6000000) (f64_of_Z 5000000) = f32_one.
Proof. vm_compute. reflexivity. Qed.
