(* ===== verification/Desktop.v ===== *)
(** * The desktop shell

    [desktop/src-tauri/src/device_state.rs] (the readings behind the trait
    [DeviceState], from what [sysinfo] and [ping] report) and [lib.rs] (the
    state of the application, its commands, and a session of the program from
    its start to the menu entry that ends it).  What the crates [sysinfo] and
    [tauri] and the program [ping] report is an argument. *)

From S2P Require Import Prelude Utf8 Io Ieee StatePipeline.

(** ** What the crate [sysinfo], the program [ping] and the clock report

    One set of raw facts per reading: the refreshes of [sysinfo] happen right
    before the fact is read. *)
Record Raw : Set := {
  global_cpu_usage : f32;
  total_memory : Z;                  (* u64 *)
  available_memory : Z;              (* u64 *)
  transmitted : list Z;              (* u64, per network, since the last refresh *)
  network_names : list rstring;
  ping : list rstring -> result io_error bool;   (* run with these arguments: the exit status was success *)
  ping_elapsed : Z;                  (* and the time that took *)
  sampled_at : Z;                    (* the clock at [elapsed] *)
  restarted_at : Z                   (* the clock at [Instant::now] after it *)
}.

(** ** [device_state.rs] *)

(** The handles of [sysinfo] hold nothing but the facts above. *)
Record SysinfoDeviceState : Set := { last_network_sample : Z; ping_target : rstring }.

Definition DEFAULT_PING_TARGET : rstring := lit "1.1.1.1".

Definition with_ping_target (now : Z) (target : rstring) : SysinfoDeviceState :=
  {| last_network_sample := now; ping_target := target |}.
Definition SysinfoDeviceState_new (now : Z) : SysinfoDeviceState := with_ping_target now DEFAULT_PING_TARGET.
Definition SysinfoDeviceState_default (now : Z) : SysinfoDeviceState := SysinfoDeviceState_new now.

Definition sys_cpu_load (raw : Raw) : f32 :=
  f_clamp (f32_div (global_cpu_usage raw) (f32_of_Z 100)) f_zero f32_one.

Definition sys_ram_available_fraction (raw : Raw) : f32 :=
  let total := total_memory raw in
  if total =? 0 then f_zero
  else f_clamp (f32_div (f32_of_Z (available_memory raw)) (f32_of_Z total)) f_zero f32_one.

(** [windows] is [cfg!(target_os)]. *)
Definition ping_args (windows : bool) (target : rstring) : list rstring :=
  if windows then [lit "-n"; lit "1"; lit "-w"; lit "1000"; target]
  else [lit "-c"; lit "1"; lit "-W"; lit "1"; target].

Definition ping_once (windows : bool) (target : rstring) (raw : Raw) : option Z :=
  match ping raw (ping_args windows target) with
  | Ok true => Some (ping_elapsed raw)
  | _ => None
  end.

(** [sum] of [u64]s, as the release build computes it. *)
Definition u64_sum (l : list Z) : Z := foldl (fun acc z => (acc + z) mod 2 ^ 64) 0 l.

Definition sys_upload_rate_bytes_per_sec (raw : Raw) (s : SysinfoDeviceState) :
    f64 * SysinfoDeviceState :=
  let elapsed := f_max (as_secs_f64 (Z.max 0 (sampled_at raw - last_network_sample s)))
                   (f64_lit 1 1000000) in
  let s := {| last_network_sample := restarted_at raw; ping_target := ping_target s |} in
  let bytes_sent := u64_sum (transmitted raw) in
  (f64_div (f64_of_Z bytes_sent) elapsed, s).

Fixpoint starts_with (text pat : bytes) : bool :=
  match pat, text with
  | [], _ => true
  | p :: pat, t :: text => bool_decide (p = t) && starts_with text pat
  | _, _ => false
  end.

Fixpoint str_contains (text pat : bytes) : bool :=
  starts_with text pat || match text with [] => false | _ :: text => str_contains text pat end.

(** [to_lowercase] is Unicode's, a table of the standard library. *)
Definition classify_connection_type (to_lowercase : rstring -> rstring)
    (interface_names : list rstring) : ConnectionType :=
  let lowered := map to_lowercase interface_names in
  let contains (n : rstring) (p : string) := str_contains n (String.list_byte_of_string p) in
  let starts (n : rstring) (p : string) := starts_with n (String.list_byte_of_string p) in
  if existsb (fun n => contains n "wl" || contains n "wifi" || contains n "wlan") lowered then
    WifiOrUnknown
  else if existsb (fun n => (starts n "en" || starts n "eth") && negb (contains n "wl")) lowered then
    Wired
  else if existsb (fun n => contains n "cellular" || contains n "wwan") lowered then
    Cellular
  else WifiOrUnknown.

Definition sys_connection_type (to_lowercase : rstring -> rstring) (raw : Raw) : ConnectionType :=
  classify_connection_type to_lowercase (network_names raw).

(** [impl DeviceState for SysinfoDeviceState]: the five readings, in the order
    the shell takes them. *)
Definition sysinfo_readings (windows : bool) (to_lowercase : rstring -> rstring) (raw : Raw) (s : SysinfoDeviceState) :
    DeviceState * SysinfoDeviceState :=
  let cpu := sys_cpu_load raw in
  let ram := sys_ram_available_fraction raw in
  let lat := ping_once windows (ping_target s) raw in
  let '(upload, s) := sys_upload_rate_bytes_per_sec raw s in
  let conn := sys_connection_type to_lowercase raw in
  ({| cpu_load := cpu; ram_available_fraction := ram; latency := lat;
      upload_rate_bytes_per_sec := upload; connection_type := conn |}, s).

(** ** [lib.rs] *)

Inductive ConnectionStatus : Set := Disconnected | Connecting | Connected.

#[export] Instance ConnectionStatus_eq_dec : EqDecision ConnectionStatus.
Proof. solve_decision. Defined.

Record AppState : Set := { status : ConnectionStatus; app_device : SysinfoDeviceState }.

(** What the frontend is shown. *)
Record DeviceSnapshot : Set := {
  snap_cpu_load : f32;
  snap_ram_available_fraction : f32;
  latency_ms : option f64;
  snap_upload_rate_bytes_per_sec : f64;
  snap_connection_type : string
}.

(** [{:?}] of a [ConnectionType]. *)
Definition debug_connection_type (c : ConnectionType) : string :=
  match c with
  | Wired => "Wired"
  | WifiOrUnknown => "WifiOrUnknown"
  | Cellular => "Cellular"
  end.

Definition device_snapshot (windows : bool) (to_lowercase : rstring -> rstring) (raw : Raw) (st : AppState) :
    DeviceSnapshot * AppState :=
  let '(device, s) := sysinfo_readings windows to_lowercase raw (app_device st) in
  ({| snap_cpu_load := cpu_load device;
      snap_ram_available_fraction := ram_available_fraction device;
      latency_ms := (fun d => f64_mul (as_secs_f64 d) (f64_of_Z 1000)) <$> latency device;
      snap_upload_rate_bytes_per_sec := upload_rate_bytes_per_sec device;
      snap_connection_type := debug_connection_type (connection_type device) |},
   {| status := status st; app_device := s |}).

Definition lock_status (st : AppState) : ConnectionStatus := status st.

(** The guard that [lock_status] hands out reads and writes the status; its
    holders only do that, so the lock is never poisoned. *)
Definition set_status (v : ConnectionStatus) (st : AppState) : AppState :=
  {| status := v; app_device := app_device st |}.

Definition connect (st : AppState) : ConnectionStatus * AppState :=
  let st := set_status Connected st in (lock_status st, st).
Definition disconnect (st : AppState) : ConnectionStatus * AppState :=
  let st := set_status Disconnected st in (lock_status st, st).
Definition connection_status (st : AppState) : ConnectionStatus := lock_status st.

(** *** [run] *)

(** What the toolkit reports of each part of the setup, and whether the bundle
    has a window icon. *)
Record Toolkit (E : Set) : Set := {
  tk_quit_item : result E unit;
  tk_menu : result E unit;
  tk_icon : bool;
  tk_tray : result E unit
}.
Arguments tk_quit_item {E}.
Arguments tk_menu {E}.
Arguments tk_icon {E}.
Arguments tk_tray {E}.

(** The closure given to [setup]: the tray icon with its menu, or [None] for a panic. *)
Definition setup {E} (tk : Toolkit E) : option (result E unit) :=
  match tk_quit_item tk with
  | Err e => Some (Err e)
  | Ok _ =>
  match tk_menu tk with
  | Err e => Some (Err e)
  | Ok _ =>
  if tk_icon tk then Some (tk_tray tk) else None
  end
  end.

Definition initial_state (now : Z) : AppState :=
  {| status := Disconnected; app_device := SysinfoDeviceState_new now |}.

(** The registered commands, a snapshot with what the system reports to it. *)
Inductive command := Connect | Disconnect | Status | Snapshot (raw : Raw).
Inductive answer := TheStatus (s : ConnectionStatus) | TheSnapshot (s : DeviceSnapshot).

Definition invoke (windows : bool) (to_lowercase : rstring -> rstring) (c : command) (st : AppState) :
    answer * AppState :=
  match c with
  | Connect => let '(s, st) := connect st in (TheStatus s, st)
  | Disconnect => let '(s, st) := disconnect st in (TheStatus s, st)
  | Status => (TheStatus (connection_status st), st)
  | Snapshot raw => let '(s, st) := device_snapshot windows to_lowercase raw st in (TheSnapshot s, st)
  end.

(** The handler of the tray's menu: does this entry end the program? *)
Definition on_menu_event (id : rstring) : bool := bool_decide (id = lit "quit").

(** What reaches the program from its window and its tray. *)
Inductive ui_event := Invoke (c : command) | Menu (id : rstring).

(** The answers given before the program exits, its last state, and whether it
    has exited. *)
Fixpoint session (windows : bool) (to_lowercase : rstring -> rstring) (es : list ui_event) (st : AppState) :
    list answer * AppState * bool :=
  match es with
  | [] => ([], st, false)
  | Menu id :: es => if on_menu_event id then ([], st, true) else session windows to_lowercase es st
  | Invoke c :: es =>
      let '(a, st) := invoke windows to_lowercase c st in
      let '(answers, st, exited) := session windows to_lowercase es st in
      (a :: answers, st, exited)
  end.

(** The program: it panics when the setup fails or panics. *)
Definition run {E} (windows : bool) (to_lowercase : rstring -> rstring) (now : Z) (tk : Toolkit E)
    (es : list ui_event) : option (list answer * AppState * bool) :=
  match setup tk with
  | Some (Ok _) => Some (session windows to_lowercase es (initial_state now))
  | _ => None
  end.

(** ** Facts *)

(** Readings as [sysinfo] documents them: a usage that is a number, and [u64]s. *)
Definition raw_ok (raw : Raw) : Prop :=
  nonneg (global_cpu_usage raw) = true /\
  0 <= total_memory raw < 2 ^ 64 /\ 0 <= available_memory raw < 2 ^ 64 /\
  0 <= ping_elapsed raw.

Lemma sys_cpu_not_nan raw : raw_ok raw -> is_nan (sys_cpu_load raw) = false.
Proof.
  intros (Hc & _). unfold sys_cpu_load. rewrite clamp_nan_iff.
  by apply nonneg_not_nan, SFdiv_nonneg.
Qed.

Lemma sys_ram_not_nan raw : raw_ok raw -> is_nan (sys_ram_available_fraction raw) = false.
Proof.
  intros (_ & Ht & Ha & _). unfold sys_ram_available_fraction.
  destruct (Z.eqb_spec (total_memory raw) 0) as [|Hne]; [reflexivity|].
  rewrite clamp_nan_iff. apply nonneg_not_nan, SFdiv_nonneg.
  - apply binary_normalize_nonneg, Ha.
  - apply f32_of_u64_positive. lia.
Qed.

Lemma sys_cpu_in_unit raw : raw_ok raw -> in_unit (sys_cpu_load raw).
Proof.
  intros H%sys_cpu_not_nan. unfold sys_cpu_load in *. rewrite clamp_nan_iff in H. by apply clamp_unit.
Qed.

Lemma sys_ram_in_unit raw : raw_ok raw -> in_unit (sys_ram_available_fraction raw).
Proof.
  intros H%sys_ram_not_nan. unfold sys_ram_available_fraction in *.
  destruct (total_memory raw =? 0); [by split|]. rewrite clamp_nan_iff in H. by apply clamp_unit.
Qed.

Lemma readings_in_unit windows lower raw s ts threat :
  raw_ok raw -> is_nan threat = false -> Forall tick_ok ts ->
  Forall in_unit (observe threat (foldl apply_tick (StatePipeline_new (sysinfo_readings windows lower raw s).1) ts)).
Proof.
  intros Hraw Hthreat Hts. unfold sysinfo_readings.
  destruct (sys_upload_rate_bytes_per_sec raw s) as [up dev']. cbn [fst].
  set (dev := Build_DeviceState _ _ _ _ _).
  destruct (timer_exact ts (StatePipeline_new dev) 0 Hts ltac:(lia) eq_refl)
    as (Hd & Hc & Ht & Hpos).
  apply Forall_lookup. intros i x Hx.
  apply observe_component in Hx; rewrite ?Hd, ?Hc, ?Ht in *; [|done| |].
  - destruct (is_nan x); [|by destruct Hx]. exfalso. simpl in Hx.
    destruct Hx as [[_ Hx]|[[_ Hx]|[_ Hx]]]; simpl in Hx.
    + by rewrite sys_cpu_not_nan in Hx.
    + by rewrite sys_ram_not_nan in Hx.
    + by rewrite Hthreat in Hx.
  - intros t Hlat. simpl in Hlat. unfold ping_once in Hlat. destruct (ping raw _) as [[]|]; try done.
    injection Hlat as <-. apply Hraw.
  - pose proof DURATION_MAX_pos. lia.
Qed.

(** A sum that wraps at every step is the sum, wrapped. *)
Lemma u64_sum_total l : u64_sum l = foldr Z.add 0 l mod 2 ^ 64.
Proof.
  assert (H : forall l acc, foldl (fun acc z => (acc + z) mod 2 ^ 64) (acc mod 2 ^ 64) l = (acc + foldr Z.add 0 l) mod 2 ^ 64).
  { induction l0 as [|z l0 IH]; intros acc; cbn [foldl foldr]; [by rewrite Z.add_0_r|].
    rewrite Zplus_mod_idemp_l, IH. f_equal. lia. }
  exact (H l 0).
Qed.

Definition infix (p : string) (n : rstring) : Prop :=
  exists a b, str_bytes n = a ++ String.list_byte_of_string p ++ b.
Definition leads (p : string) (n : rstring) : Prop :=
  exists b, str_bytes n = String.list_byte_of_string p ++ b.

Lemma starts_with_iff text pat : starts_with text pat = true <-> exists b, text = pat ++ b.
Proof.
  revert text. induction pat as [|p pat IH]; intros text; cbn [starts_with app].
  - split; [by exists text|]. by destruct text.
  - destruct text as [|t text]; [split; [done|by intros [b Hb]]|].
    cbn [starts_with]. rewrite andb_true_iff, bool_decide_eq_true, IH. split.
    + intros [-> [b ->]]. by exists b.
    + intros [b [= -> ->]]. eauto.
Qed.

Lemma str_contains_iff text pat : str_contains text pat = true <-> exists a b, text = a ++ pat ++ b.
Proof.
  assert (Hstart : forall text, starts_with text pat = true -> exists a b, text = a ++ pat ++ b).
  { intros t [b ->]%starts_with_iff. by exists [], b. }
  induction text as [|t text IH]; cbn [str_contains]; rewrite orb_true_iff.
  - split; [intros [H|H]; [by apply Hstart|done]|].
    intros (a & b & [-> H]%eq_sym%app_nil). left. apply starts_with_iff. eauto.
  - rewrite IH. split.
    + intros [H|(a & b & ->)]; [by apply Hstart|]. by exists (t :: a), b.
    + intros ([|c a] & b & H); [left; apply starts_with_iff; eauto|].
      right. injection H as -> ->. eauto.
Qed.

Lemma existsb_iff {A} (f : A -> bool) (Q : A -> Prop) l :
  (forall x, f x = true <-> Q x) -> existsb f l = true <-> Exists Q l.
Proof.
  intros H. rewrite existsb_exists, Exists_exists. split; intros (x & Hx & Hf); exists x;
    (split; [by (done || apply list_elem_of_In)|by apply H]).
Qed.

(** What [classify_connection_type] looks for in the name of an interface. *)
Definition wifi_name (n : rstring) : Prop := infix "wl" n \/ infix "wifi" n.
Definition wired_name (n : rstring) : Prop := leads "en" n \/ leads "eth" n.
Definition cellular_name (n : rstring) : Prop := infix "cellular" n \/ infix "wwan" n.

Lemma infix_wlan n : infix "wlan" n -> infix "wl" n.
Proof. intros (a & b & H). exists a, (String.list_byte_of_string "an" ++ b). by rewrite H. Qed.

(** The order of the tests: Wi-Fi first, then a cable, then a modem. *)
Lemma classify_spec lower names :
  let ns := map lower names in
  let c := classify_connection_type lower names in
  (c = Wired <-> ~ Exists wifi_name ns /\ Exists wired_name ns) /\
  (c = Cellular <-> ~ Exists wifi_name ns /\ ~ Exists wired_name ns /\ Exists cellular_name ns).
Proof.
  cbv zeta. unfold classify_connection_type. set (ns := map lower names).
  set (f := existsb _ ns). assert (Hf : f = true <-> Exists wifi_name ns).
  { unfold f. apply existsb_iff. intros n. rewrite !orb_true_iff, !str_contains_iff. unfold wifi_name.
    split; [intros [[|]|H]; auto; left; by apply infix_wlan|intros [|]; auto]. }
  destruct f; [pose proof (proj1 Hf eq_refl); split; split; intros; intuition discriminate|].
  assert (Hno : ~ Exists wifi_name ns) by (intros H; by apply Hf in H). clear Hf.
  set (g := existsb _ ns). assert (Hg : g = true <-> Exists wired_name ns).
  { unfold g. rewrite existsb_exists, Exists_exists. 
    setoid_rewrite andb_true_iff. setoid_rewrite orb_true_iff. setoid_rewrite starts_with_iff.
    split; [by intros (n & Hn & H & _); eauto|]. intros (n & Hn & H). exists n. split_and!; [done..|].
    apply negb_true_iff, not_true_iff_false. intros H1%str_contains_iff. apply Hno, Exists_exists.
    exists n. split; [done|by left]. }
  destruct g; [pose proof (proj1 Hg eq_refl); split; split; intros; intuition discriminate|].
  assert (Hnw : ~ Exists wired_name ns) by (intros H; by apply Hg in H). clear Hg.
  set (h := existsb _ ns). assert (Hh : h = true <-> Exists cellular_name ns).
  { apply existsb_iff. intros n. rewrite orb_true_iff, !str_contains_iff. done. }
  destruct h; rewrite <- Hh; split; split; intros; intuition discriminate.
Qed.

Lemma ping_args_eq windows target :
  ping_args windows target =
    (if windows then [lit "-n"; lit "1"; lit "-w"; lit "1000"] else [lit "-c"; lit "1"; lit "-W"; lit "1"]) ++ [target].
Proof. by destruct windows. Qed.

(** C35. The desktop's readings are those of the system, they make a usable
    state, and they are what the frontend is shown.  From what [sysinfo], [ping]
    and the clock report, the usage and the counters being numbers that are not
    negative:
    the latency is the time of one ping of the target, with a timeout of a second,
    that succeeded, and none otherwise; the
    link is a cable exactly if no interface is named like Wi-Fi and one like an
    Ethernet card, a modem exactly if one is named like it and none like the two
    others; no memory reported reads as none free; the rate is that of the bytes
    sent since the last snapshot, over at least a microsecond, and the next one
    counts from here.  The frontend is shown each of them, the latency in
    milliseconds; and every component of the vector that the pipeline builds
    from them, with a threat score that is a number and after any updates, lies
    in [[0, 1]]. *)
Theorem desktop_state_usable windows lower raw st ts threat :
  raw_ok raw -> is_nan threat = false -> Forall tick_ok ts ->
  let '(dev, s') := sysinfo_readings windows lower raw (app_device st) in
  let '(snap, st') := device_snapshot windows lower raw st in
  let ns := map lower (network_names raw) in
  (in_unit (cpu_load dev) /\ cpu_load dev = f_clamp (f32_div (global_cpu_usage raw) (f32_of_Z 100)) f_zero f32_one) /\
  (in_unit (ram_available_fraction dev) /\
   if decide (total_memory raw = 0) then ram_available_fraction dev = f_zero
   else ram_available_fraction dev =
     f_clamp (f32_div (f32_of_Z (available_memory raw)) (f32_of_Z (total_memory raw))) f_zero f32_one) /\
  (forall t, latency dev = Some t <->
     ping raw ((if windows then [lit "-n"; lit "1"; lit "-w"; lit "1000"] else [lit "-c"; lit "1"; lit "-W"; lit "1"])
               ++ [ping_target (app_device st)]) = Ok true /\ t = ping_elapsed raw) /\
  upload_rate_bytes_per_sec dev =
    f64_div (f64_of_Z (foldr Z.add 0 (transmitted raw) mod 2 ^ 64))
      (f_max (as_secs_f64 (Z.max 0 (sampled_at raw - last_network_sample (app_device st)))) (f64_lit 1 1000000)) /\
  ((connection_type dev = Wired <-> ~ Exists wifi_name ns /\ Exists wired_name ns) /\
   (connection_type dev = Cellular <->
      ~ Exists wifi_name ns /\ ~ Exists wired_name ns /\ Exists cellular_name ns)) /\
  (snap_cpu_load snap = cpu_load dev /\ snap_ram_available_fraction snap = ram_available_fraction dev /\
   (forall m, latency_ms snap = Some m <->
      exists t, latency dev = Some t /\ m = f64_mul (as_secs_f64 t) (f64_of_Z 1000)) /\
   snap_upload_rate_bytes_per_sec snap = upload_rate_bytes_per_sec dev /\
   snap_connection_type snap =
     match connection_type dev with
     | Wired => "Wired"
     | WifiOrUnknown => "WifiOrUnknown"
     | Cellular => "Cellular"
     end%string) /\
  (status st' = status st /\ app_device st' = s' /\
   last_network_sample s' = restarted_at raw /\ ping_target s' = ping_target (app_device st)) /\
  Forall in_unit (observe threat (foldl apply_tick (StatePipeline_new dev) ts)).
Proof.
  intros Hraw Hthreat Hts.
  pose proof (readings_in_unit windows lower raw (app_device st) ts threat Hraw Hthreat Hts) as Hunit.
  pose proof (classify_spec lower (network_names raw)) as Hlink.
  pose proof (sys_cpu_in_unit _ Hraw) as Hcpu. pose proof (sys_ram_in_unit _ Hraw) as Hram.
  unfold device_snapshot, sysinfo_readings, sys_upload_rate_bytes_per_sec in *. cbn in Hunit |- *.
  split_and!; try done; try apply Hlink; try apply Hcpu; try apply Hram.
  - unfold sys_ram_available_fraction. destruct (decide _) as [->|Hne]; [done|].
    by destruct (Z.eqb_spec (total_memory raw) 0).
  - intros t. rewrite <- ping_args_eq. unfold ping_once. destruct (ping raw _) as [[]|]; split; (done || (by intros [= <-]) || (intros [H ->]; by (reflexivity || discriminate H))).
  - by rewrite u64_sum_total.
  - intros m. destruct (ping_once _ _ _) as [t|]; simpl; split; try done.
    + intros [= <-]. eauto.
    + by intros (? & [= <-] & ->).
    + by intros (? & ? & _).
Qed.

Definition sample_raw : Raw :=
  {| global_cpu_usage := f32_of_Z 250; total_memory := 0; available_memory := 7;
     transmitted := [3; 4]; network_names := [lit "lo"; lit "eth0"]; ping := fun _ => Ok true;
     ping_elapsed := 20000000; sampled_at := 5; restarted_at := 6 |}.
Definition sample_app : AppState :=
  {| status := Connected; app_device := SysinfoDeviceState_new 9 |}.

(** A machine with a cable, overloaded and without memory figures, 20 ms from
    the target. *)
Lemma desktop_state_usable_witness :
  let '(dev, _) := sysinfo_readings true id sample_raw (app_device sample_app) in
  let '(snap, _) := device_snapshot true id sample_raw sample_app in
  latency dev = Some 20000000 /\ snap_connection_type snap = "Wired"%string /\
  ram_available_fraction dev = f_zero /\ Forall in_unit (observe f_zero (StatePipeline_new dev)).
Proof.
  assert (Hraw : raw_ok sample_raw) by (repeat split; simpl; try lia; reflexivity || discriminate).
  pose proof (desktop_state_usable true id sample_raw sample_app [] f_zero Hraw eq_refl (Forall_nil_2 _)) as H.
  destruct (sysinfo_readings _ _ _ _) as [dev s'] eqn:E, (device_snapshot _ _ _ _) as [snap st'] eqn:E'.
  destruct H as (_ & (_ & Hram) & Hlat & _ & _ & (_ & _ & _ & _ & Hc) & _ & Hu).
  split; [by apply Hlat|]. split; [|by split].
  rewrite Hc. injection E as <- _. reflexivity.
Defined.

(** ** A session, seen from its history *)

(** The commands served: those before the menu entry that ends the program. *)
Fixpoint served (es : list ui_event) : list command :=
  match es with
  | [] => []
  | Menu id :: es => if on_menu_event id then [] else served es
  | Invoke c :: es => c :: served es
  end.

Definition shown_after (v : ConnectionStatus) (c : command) : ConnectionStatus :=
  match c with Connect => Connected | Disconnect => Disconnected | Status | Snapshot _ => v end.
Definition sampled_after (t : Z) (c : command) : Z :=
  match c with Snapshot raw => restarted_at raw | _ => t end.

(** The answer to a command, the status being [v] before it. *)
Definition answers_with (v : ConnectionStatus) (c : command) (a : answer) : Prop :=
  match c, a with
  | Snapshot _, TheSnapshot _ => True
  | (Connect | Disconnect | Status), TheStatus s => s = shown_after v c
  | _, _ => False
  end.

Lemma invoke_spec windows lower c st :
  let '(a, st') := invoke windows lower c st in
  answers_with (status st) c a /\ status st' = shown_after (status st) c /\
  last_network_sample (app_device st') = sampled_after (last_network_sample (app_device st)) c /\
  ping_target (app_device st') = ping_target (app_device st).
Proof. by destruct c. Qed.

Lemma session_spec windows lower es st :
  let '(answers, st', exited) := session windows lower es st in
  let cs := served es in
  length answers = length cs /\
  (forall i c a, cs !! i = Some c -> answers !! i = Some a ->
     answers_with (foldl shown_after (status st) (take i cs)) c a) /\
  status st' = foldl shown_after (status st) cs /\
  last_network_sample (app_device st') = foldl sampled_after (last_network_sample (app_device st)) cs /\
  ping_target (app_device st') = ping_target (app_device st) /\
  (exited = true <-> exists id, Menu id ∈ es /\ on_menu_event id = true).
Proof.
  revert st. induction es as [|[c|id] es IH]; intros st; simpl.
  - do 5 (split; [done|]). split; [done|]. by intros (id & Hid%elem_of_nil & _).
  - pose proof (invoke_spec windows lower c st) as Hc. destruct (invoke _ _ _ _) as [a st1].
    destruct Hc as (Ha & Hs & Hn & Hp). specialize (IH st1). destruct (session _ _ _ _) as [[answers st2] ex].
    rewrite Hs, Hn, Hp in IH. destruct IH as (Hl & Hall & H1 & H2 & H3 & H4).
    simpl. split; [by rewrite Hl|]. split; [|do 3 (split; [done|])].
    + intros [|i] c' a'; simpl; [by intros [= <-] [= <-]|apply Hall].
    + rewrite H4. split; intros (id & Hid & Hq); exists id; (split; [|done]).
      * by apply list_elem_of_further.
      * apply elem_of_cons in Hid as [|]; done.
  - destruct (on_menu_event id) eqn:Hid.
    + do 5 (split; [done|]). split; [|done]. intros _. exists id. split; [apply list_elem_of_here|done].
    + specialize (IH st). destruct (session _ _ _ _) as [[answers st2] ex].
      destruct IH as (Hl & Hall & H1 & H2 & H3 & H4). do 5 (split; [done|]). rewrite H4.
      split; intros (id' & Hi & Hq); exists id'; (split; [|done]).
      * by apply list_elem_of_further.
      * apply elem_of_cons in Hi as [Heq|]; [|done]. injection Heq as ->. congruence.
Qed.

Lemma shown_final cs v : v <> Connecting -> foldl shown_after v cs <> Connecting.
Proof. revert v. induction cs as [|c cs IH]; intros v Hv; [done|]. by apply IH; destruct c. Qed.

(** A run of the program, seen from what was asked of it: if the tray can be set
    up, every command up to the menu entry [quit] gets its answer, the status shown is
    that of the last [connect] or [disconnect] before, never [Connecting], and
    every rate is taken since the snapshot before; and it ends at the first
    [quit], if there is one. *)
Theorem run_spec {E : Set} windows lower now (tk : Toolkit E) es :
  match run windows lower now tk es with
  | None => tk_icon tk = false \/ exists e, tk_quit_item tk = Err e \/ tk_menu tk = Err e \/ tk_tray tk = Err e
  | Some (answers, st, exited) =>
      let cs := served es in
      length answers = length cs /\
      (forall i c a, cs !! i = Some c -> answers !! i = Some a ->
         answers_with (foldl shown_after Disconnected (take i cs)) c a /\ a <> TheStatus Connecting) /\
      status st = foldl shown_after Disconnected cs /\
      app_device st = with_ping_target (foldl sampled_after now cs) DEFAULT_PING_TARGET /\
      (exited = true <-> exists id, Menu id ∈ es /\ on_menu_event id = true)
  end.
Proof.
  unfold run, setup. destruct (tk_quit_item tk) as [[]|e]; [|by eauto]. destruct (tk_menu tk) as [[]|e]; [|by eauto].
  destruct (tk_icon tk); [|by left]. destruct (tk_tray tk) as [[]|e]; [|by eauto].
  pose proof (session_spec windows lower es (initial_state now)) as H.
  destruct (session _ _ _ _) as [[answers st] ex]. destruct H as (Hl & Hall & H1 & H2 & H3 & H4).
  split; [done|]. split; [|split; [done|]; split; [|done]].
  - intros i c a Hi Ha. pose proof (Hall i c a Hi Ha) as Hans. split; [exact Hans|]. intros ->.
    pose proof (shown_final (take i (served es)) Disconnected ltac:(done)) as Hne.
    destruct c; try done; by symmetry in Hans.
  - destruct (app_device st). simpl in *. by rewrite H2, H3.
Qed.

(** The name that Windows gives a Wi-Fi adapter is not recognised: next to a
    wired one the link counts as wired. *)
Theorem windows_wifi_unrecognised lower :
  lower (lit "Wi-Fi") = lit "wi-fi" -> lower (lit "Ethernet") = lit "ethernet" ->
  classify_connection_type lower [lit "Wi-Fi"; lit "Ethernet"] = Wired.
Proof. intros H1 H2. unfold classify_connection_type. simpl map. rewrite H1, H2. reflexivity. Qed.

(** The cases of the tests of [device_state.rs], in lower case already. *)
Example wifi_first : classify_connection_type id [lit "eth0"; lit "wlan0"] = WifiOrUnknown.
Proof. vm_compute. reflexivity. Qed.
Example cellular_first : classify_connection_type id [lit "wwan0"] = Cellular.
Proof. vm_compute. reflexivity. Qed.
Example unknown_names : classify_connection_type id [lit "lo"; lit "docker0"] = WifiOrUnknown.
Proof. vm_compute. reflexivity. Qed.
