(* ===== verification/TunnelHandle.v ===== *)
(** * The client's seam to its tunnel

    The rest of [core/src/state/mod.rs]: the trait [TunnelHandle], the errors
    and status it deals in, and the in-memory double that stands in for a
    platform, with the double of [DeviceState]. *)

From S2P Require Import Prelude Utf8 Io Ieee Net StatePipeline Transport.

(** A snapshot of the tunnel; the age is a [Duration]. *)
Record TunnelStatus : Set := {
  up : bool;
  status_assigned_ip : option Ipv4Addr;
  last_handshake_age : option Z
}.

Inductive TunnelError : Set :=
  | NotPermitted (detail : rstring)
  | InterfaceUnavailable (detail : rstring)
  | Backend (detail : rstring).

(** [Debug for TunnelConfig], [debug_addr] being that of [SocketAddr]. *)
Definition TunnelConfig_debug (debug_addr : SocketAddr -> bytes) (c : TunnelConfig) : bytes :=
  String.list_byte_of_string "TunnelConfig { assigned_ip: " ++ fmt_ip (tc_assigned_ip c) ++
  String.list_byte_of_string ", server_endpoint: " ++ debug_addr (tc_server_endpoint c) ++
  String.list_byte_of_string ", psk: " ++ [x22] ++ String.list_byte_of_string "<redacted>" ++ [x22] ++
  String.list_byte_of_string " }".

(** What is printed of a configuration tells nothing of its keys. *)
Lemma debug_hides_keys debug_addr c c' :
  tc_assigned_ip c = tc_assigned_ip c' -> tc_server_endpoint c = tc_server_endpoint c' ->
  TunnelConfig_debug debug_addr c = TunnelConfig_debug debug_addr c'.
Proof. intros H1 H2. unfold TunnelConfig_debug. by rewrite H1, H2. Qed.

(** [Display for TunnelError]. *)
Definition TunnelError_to_string (e : TunnelError) : rstring :=
  match e with
  | NotPermitted detail => (lit "not permitted to configure the tunnel: " +:+ detail)%rs
  | InterfaceUnavailable detail => (lit "wireguard interface unavailable: " +:+ detail)%rs
  | Backend detail => (lit "tunnel backend error: " +:+ detail)%rs
  end.

(** The trait, over the state [T] of the platform's interface. *)
Class TunnelHandle (T : Type) : Type := {
  bring_up : TunnelConfig -> M T TunnelError unit;
  rotate_psk : arr 32 -> M T TunnelError unit;
  tear_down : M T TunnelError unit;
  handle_status : M T TunnelError TunnelStatus
}.

(** What the trait's comments promise of the key: it can be rotated exactly
    while the interface is up, and rotating does not take it down. *)
Class TunnelHandleLaws {T} (H : TunnelHandle T) (is_up : T -> bool) : Prop := {
  up_after_bring_up : forall c t, is_up (bring_up c t).2 = true;
  down_after_tear_down : forall t, is_up (tear_down t).2 = false;
  rotate_keeps_up : forall k t, is_up (rotate_psk k t).2 = is_up t;
  rotate_needs_up : forall k t, (exists u, (rotate_psk k t).1 = Ok u) <-> is_up t = true;
  status_tells : forall t, exists s, handle_status t = (Ok s, t) /\ up s = is_up t
}.

(** ** [mock] *)

(** [MockDeviceState] has the five readings as its fields. *)
Definition MockDeviceState_default : DeviceState :=
  {| cpu_load := f32_of_Z 0; ram_available_fraction := f32_of_Z 1; latency := Some (from_millis 0);
     upload_rate_bytes_per_sec := f64_of_Z 0; connection_type := Wired |}.

Record MockTunnelHandle : Set := { mock_up : bool; mock_rotations : Z }.
Definition MockTunnelHandle_default : MockTunnelHandle := {| mock_up := false; mock_rotations := 0 |}.

Definition is_up (t : MockTunnelHandle) : bool := mock_up t.
Definition rotations (t : MockTunnelHandle) : Z := mock_rotations t.

Definition mock_bring_up (_config : TunnelConfig) : M MockTunnelHandle TunnelError unit :=
  modify (fun t => {| mock_up := true; mock_rotations := mock_rotations t |}).
Definition mock_rotate_psk (_psk : arr 32) : M MockTunnelHandle TunnelError unit :=
  t ← get;
  if negb (mock_up t) then throw (InterfaceUnavailable (lit "rotate_psk before bring_up"))
  else modify (fun t => {| mock_up := mock_up t; mock_rotations := u32_wrap (mock_rotations t + 1) |}).
Definition mock_tear_down : M MockTunnelHandle TunnelError unit :=
  modify (fun t => {| mock_up := false; mock_rotations := mock_rotations t |}).
Definition mock_status : M MockTunnelHandle TunnelError TunnelStatus :=
  t ← get;
  mret {| up := mock_up t; status_assigned_ip := None; last_handshake_age := None |}.

#[export] Instance MockTunnelHandle_handle : TunnelHandle MockTunnelHandle := {
  bring_up := mock_bring_up;
  rotate_psk := mock_rotate_psk;
  tear_down := mock_tear_down;
  handle_status := mock_status
}.

#[export] Instance MockTunnelHandle_laws : TunnelHandleLaws MockTunnelHandle_handle is_up.
Proof.
  split.
  - done.
  - done.
  - intros k [[] n]; reflexivity.
  - intros k [[] n]; split; [done | by eexists | by intros [] | done].
  - intros t. by eexists.
Qed.

(** ** What any lawful handle does over a session *)

Inductive tunnel_op := BringUp (c : TunnelConfig) | Rotate (k : arr 32) | TearDown.

Section lawful.
Context {T} {H : TunnelHandle T} {is_up : T -> bool} {HL : TunnelHandleLaws H is_up}.

(** Run the operations, counting the rotations that succeed. *)
Definition run_op (st : T * Z) (o : tunnel_op) : T * Z :=
  let '(t, n) := st in
  match o with
  | BringUp c => ((bring_up c t).2, n)
  | TearDown => ((tear_down t).2, n)
  | Rotate k => let '(r, t) := rotate_psk k t in
                (t, match r with Ok _ => n + 1 | Err _ => n end)
  end.

(** The same, seen from the history alone. *)
Definition spec_op (st : bool * Z) (o : tunnel_op) : bool * Z :=
  let '(b, n) := st in
  match o with
  | BringUp _ => (true, n)
  | TearDown => (false, n)
  | Rotate _ => (b, if b then n + 1 else n)
  end.

Lemma run_op_spec st o : prod_map is_up id (run_op st o) = spec_op (prod_map is_up id st) o.
Proof.
  destruct st as [t n], o as [c|k|]; unfold run_op, spec_op, prod_map; simpl.
  - by rewrite up_after_bring_up.
  - pose proof (rotate_keeps_up k t) as Hk. pose proof (rotate_needs_up k t) as Hn.
    destruct (rotate_psk k t) as [[u|e] t']; simpl in *; rewrite Hk.
    + by rewrite (proj1 Hn) by by exists u.
    + destruct (is_up t); [|done]. by destruct (proj2 Hn eq_refl).
  - by rewrite down_after_tear_down.
Qed.

Lemma run_ops_spec ops st :
  prod_map is_up id (foldl run_op st ops) = foldl spec_op (prod_map is_up id st) ops.
Proof.
  revert st. induction ops as [|o ops IH]; intros st; [done|]. simpl. by rewrite IH, run_op_spec.
Qed.
End lawful.

(** The double counts as the trait's users would: after any operations,
    [is_up] and [rotations] are those of the history. *)
Lemma mock_counts ops :
  let t := (foldl run_op (MockTunnelHandle_default, 0) ops).1 in
  let '(b, n) := foldl spec_op (false, 0) ops in
  is_up t = b /\ rotations t = u32_wrap n.
Proof.
  assert (Hinv : forall (ops : list tunnel_op) st, rotations st.1 = u32_wrap st.2 ->
    rotations (foldl run_op st ops).1 = u32_wrap (foldl run_op st ops).2).
  { clear ops. induction ops as [|o ops IH]; intros [t n] Hst; [done|]. simpl. apply IH.
    destruct o as [c|k|], t as [[] m]; simpl in *; try done. subst m. unfold rotations, u32_wrap in *. simpl.
    apply Zplus_mod_idemp_l. }
  pose proof (run_ops_spec (is_up := is_up) ops (MockTunnelHandle_default, 0)) as Hs.
  specialize (Hinv ops (MockTunnelHandle_default, 0) eq_refl).
  destruct (foldl run_op _ ops) as [t n]. unfold prod_map in Hs. simpl in *.
  destruct (foldl spec_op _ ops) as [b n']. by injection Hs as <- <-.
Qed.
