(* ===== verification/UnitTests.v ===== *)
(** * The remaining unit tests

    The test modules of [algorithm.rs], [key_store.rs] and [state/mod.rs] of the
    core, of [registry.rs] and [tunnel.rs] of the server, and of
    [device_state.rs] of the desktop shell.  A test is [true] when no assertion
    fails and nothing it unwraps is absent; the clock's readings and the files of
    a test are arguments. *)

From S2P Require Import Prelude Utf8 Io Ieee Fs Net Algorithm Primitives.
From S2P Require ServerWire Registry RegistryFacts Main Recovery.
From S2P Require Tunnel Transport KeyStore StatePipeline TunnelHandle Desktop.

(** ** [algorithm.rs] *)

Definition returns_correct_ml_kem_names : bool :=
  String.eqb (name MlKem512) "ML-KEM-512" && String.eqb (name MlKem768) "ML-KEM-768"
  && String.eqb (name MlKem1024) "ML-KEM-1024".

Definition wire_code_round_trips : bool :=
  forallb (fun level => bool_decide (from_wire_code (wire_code level) = Some level))
    [MlKem512; MlKem768; MlKem1024]
  && bool_decide (from_wire_code x7f = None).

Definition strength_ordering_supports_no_downgrade_checks : bool :=
  level_ltb MlKem512 MlKem768 && level_ltb MlKem768 MlKem1024.

(** ** [key_store.rs] *)

Module KeyStoreTests.
Import KeyStore.

Definition stores_and_retrieves_key : bool :=
  let secret := [x0a; x14; x1e; x28; x32; x3c] in
  let key_store := store (lit "session_key") secret KeyStore_new in
  bool_decide (key_get (lit "session_key") key_store = Some secret)
  && bool_decide (key_get (lit "missing_key") key_store = None).

Definition two_keys : SecureKeyStore :=
  store (lit "second_key") [x04; x05; x06] (store (lit "first_key") [x01; x02; x03] KeyStore_new).

Definition wipes_one_key : bool :=
  let '(existed, key_store) := wipe (lit "first_key") two_keys in
  existed && bool_decide (key_get (lit "first_key") key_store = None)
  && bool_decide (key_get (lit "second_key") key_store = Some [x04; x05; x06])
  && negb (wipe (lit "first_key") key_store).1.

Definition wipes_all_keys : bool :=
  let key_store := wipe_all two_keys in
  bool_decide (key_get (lit "first_key") key_store = None)
  && bool_decide (key_get (lit "second_key") key_store = None).
End KeyStoreTests.

(** ** [state/mod.rs] *)

Module StateTests.
Import StatePipeline.
Import TunnelHandle.

(** [==] of floats: numerically equal, NaN equal to nothing. *)
Definition f_eq (x y : spec_float) : bool :=
  match SFcompare x y with Some Eq => true | _ => false end.

Definition connection_type_scores_match_the_python_observer : bool :=
  f_eq (score Wired) (f32_of_Z 0) && f_eq (score WifiOrUnknown) (f32_lit 1 2)
  && f_eq (score Cellular) (f32_of_Z 1).

Definition unreachable_target_saturates_latency : bool :=
  f_eq (normalize_latency None (from_millis 300)) (f32_of_Z 1).

Definition latency_and_upload_normalize_against_the_default_caps : bool :=
  f_eq (normalize_latency (Some (from_millis 150)) (from_millis 300)) (f32_lit 1 2)
  && f_eq (normalize_latency (Some (from_secs 2)) (from_millis 300)) (f32_of_Z 1)
  && f_eq (normalize_rate (f64_of_Z 1000000) (f64_of_Z 5000000)) (f32_lit 2 10)
  && f_eq (normalize_rate (f64_of_Z (-1)) (f64_of_Z 5000000)) (f32_of_Z 0).

Definition component (i : nat) (state : list f32) (x : f32) : bool :=
  match state !! i with Some y => f_eq y x | None => false end.

Definition observe_places_every_reading_at_its_frozen_index : bool :=
  let device := {| cpu_load := f32_lit 4 10; ram_available_fraction := f32_lit 7 10;
                   latency := Some (from_millis 150); upload_rate_bytes_per_sec := f64_of_Z 2500000;
                   connection_type := Cellular |} in
  let pipeline := StatePipeline_new device in
  let state := observe (f32_lit 1 4) pipeline in
  (length state =? STATE_DIM)%nat
  && component CPU_LOAD state (f32_lit 4 10) && component RAM_AVAIL state (f32_lit 7 10)
  && component LATENCY state (f32_lit 1 2) && component UPLOAD state (f32_lit 1 2)
  && component CONN_TYPE state (f32_of_Z 1) && component TIME_SINCE_REKEY state (f32_of_Z 0)
  && component THREAT state (f32_lit 1 4).

Definition observe_clamps_out_of_range_readings : bool :=
  let default := TunnelHandle.MockDeviceState_default in
  let device := {| cpu_load := f32_lit 3 2; ram_available_fraction := f32_lit (-2) 10;
                   latency := latency default;
                   upload_rate_bytes_per_sec := upload_rate_bytes_per_sec default;
                   connection_type := connection_type default |} in
  let state := observe (f32_of_Z 9) (StatePipeline_new device) in
  component CPU_LOAD state (f32_of_Z 1) && component RAM_AVAIL state (f32_of_Z 0)
  && component THREAT state (f32_of_Z 1).

Definition rekey_timer_advances_and_resets : bool :=
  let pipeline := StatePipeline_new TunnelHandle.MockDeviceState_default in
  let timer p := observe (f32_of_Z 0) p in
  let pipeline1 := advance (from_secs 1800) pipeline in
  let pipeline2 := advance (from_secs 3600) pipeline1 in
  let pipeline3 := mark_rekey pipeline2 in
  component TIME_SINCE_REKEY (timer pipeline1) (f32_lit 1 2)
  && component TIME_SINCE_REKEY (timer pipeline2) (f32_of_Z 1)
  && component TIME_SINCE_REKEY (timer pipeline3) (f32_of_Z 0).

(** The endpoint is 139.59.62.4:51820. *)
Definition mock_tunnel_tracks_up_state_and_rotations : bool :=
  let tunnel := TunnelHandle.MockTunnelHandle_default in
  let config := {| Transport.tc_assigned_ip := Ipv4Addr_new x0a x08 x00 x02;
                   Transport.tc_server_wg_pubkey := arr_fill 32 x00;
                   Transport.tc_server_endpoint :=
                     Transport.Build_SocketAddr (Transport.V4 (Ipv4Addr_new x8b x3b x3e x04)) (u16_of_be xca x6c);
                   Transport.tc_psk := arr_fill 32 x07 |} in
  let '(before, tunnel) := TunnelHandle.rotate_psk (arr_fill 32 x01) tunnel in
  let '(brought_up, tunnel1) := TunnelHandle.bring_up config tunnel in
  let '(rotated, tunnel2) := TunnelHandle.rotate_psk (arr_fill 32 x02) tunnel1 in
  let '(torn_down, tunnel3) := TunnelHandle.tear_down tunnel2 in
  match before, brought_up, rotated, torn_down, (TunnelHandle.handle_status tunnel3).1 with
  | Err _, Ok _, Ok _, Ok _, Ok status =>
      TunnelHandle.is_up tunnel1 && (TunnelHandle.rotations tunnel2 =? 1)
      && negb (TunnelHandle.is_up tunnel3) && negb (TunnelHandle.up status)
  | _, _, _, _, _ => false
  end.
End StateTests.

(** ** [registry.rs]

    [now i] is what the [i]-th reading of the clock gives. *)

Module RegistryTests.
Import ServerWire Registry.

Definition base : arr 4 := arr_copy 4 [x0a; x08; x00; x00].
Definition test_sid (n : u8) : arr 16 := arr_fill 16 n.
Definition pk (n : u8) : arr 32 := arr_fill 32 n.

#[export] Instance RegistryError_eq_dec : EqDecision RegistryError.
Proof. solve_decision. Defined.
#[export] Instance PeerSlot_eq_dec : EqDecision PeerSlot.
Proof. solve_decision. Defined.

Definition allocates_distinct_addresses_from_two (now : nat -> SystemTime) : bool :=
  let r := Registry_new base DEFAULT_MAX_PEERS in
  let '(a, r) := upsert_handshake (now 0%nat) (pk x01) MlKem768 (test_sid x01) r in
  let '(b, r) := upsert_handshake (now 1%nat) (pk x02) MlKem512 (test_sid x02) r in
  match a, b with
  | Ok a, Ok b =>
      bool_decide (slot_assigned_ip a = Ipv4Addr_new x0a x08 x00 x02)
      && bool_decide (slot_assigned_ip b = Ipv4Addr_new x0a x08 x00 x03)
  | _, _ => false
  end.

Definition fresh_hello_from_known_peer_keeps_ip_new_session (now : nat -> SystemTime) : bool :=
  let r := Registry_new base DEFAULT_MAX_PEERS in
  let '(a, r) := upsert_handshake (now 0%nat) (pk x07) MlKem512 (test_sid x01) r in
  let '(b, r) := upsert_handshake (now 1%nat) (pk x07) MlKem1024 (test_sid x02) r in
  match a, b with
  | Ok a, Ok b =>
      bool_decide (slot_assigned_ip a = slot_assigned_ip b)
      && negb (bool_decide (slot_session_id a = slot_session_id b)) && (registry_len r =? 1)
  | _, _ => false
  end.

Definition rekey_checks_peer_session_and_downgrade (now : nat -> SystemTime) : bool :=
  let r := Registry_new base DEFAULT_MAX_PEERS in
  let '(first, r) := upsert_handshake (now 0%nat) (pk x07) MlKem768 (test_sid x01) r in
  let '(unknown, r) := registry_rekey (now 1%nat) (pk x09) (test_sid x01) MlKem768 r in
  let '(mismatch, r) := registry_rekey (now 2%nat) (pk x07) (test_sid x02) MlKem768 r in
  let '(weaker, r) := registry_rekey (now 3%nat) (pk x07) (test_sid x01) MlKem512 r in
  let '(equal, r) := registry_rekey (now 4%nat) (pk x07) (test_sid x01) MlKem768 r in
  let '(stronger, r) := registry_rekey (now 5%nat) (pk x07) (test_sid x01) MlKem1024 r in
  bool_decide (unknown = Err UnknownPeer) && bool_decide (mismatch = Err SessionMismatch)
  && bool_decide (weaker = Err Downgrade) &&
  match first, equal, stronger with
  | Ok _, Ok _, Ok slot => bool_decide (slot_session_id slot = test_sid x01)
  | _, _, _ => false
  end.

Definition capacity_is_enforced (now : nat -> SystemTime) : bool :=
  let r := Registry_new base 2 in
  let '(a, r) := upsert_handshake (now 0%nat) (pk x01) MlKem768 (test_sid x01) r in
  let '(b, r) := upsert_handshake (now 1%nat) (pk x02) MlKem768 (test_sid x02) r in
  let '(c, r) := upsert_handshake (now 2%nat) (pk x03) MlKem768 (test_sid x03) r in
  let '(again, r) := upsert_handshake (now 3%nat) (pk x01) MlKem768 (test_sid x09) r in
  match a, b, again with
  | Ok _, Ok _, Ok _ => bool_decide (c = Err AtCapacity)
  | _, _, _ => false
  end.

Definition persist_and_reload_round_trips `{C : Codecs} (p : path) (now : nat -> SystemTime) (disk : fs) : bool :=
  let disk := Fs (delete p (files disk)) (modes disk) [] in
  match registry_load p base DEFAULT_MAX_PEERS disk with
  | (Ok (Some r), disk) =>
      let '(a, r) := upsert_handshake (now 0%nat) (pk x01) MlKem768 (test_sid x01) r in
      let '(b, r) := upsert_handshake (now 1%nat) (pk x02) MlKem1024 (test_sid x02) r in
      let '(k, r) := registry_rekey (now 2%nat) (pk x01) (test_sid x01) MlKem1024 r in
      let '(saved, disk) := persist r disk in
      match a, b, k, saved, registry_load p base DEFAULT_MAX_PEERS disk with
      | Ok _, Ok _, Ok _, Ok _, (Ok (Some r2), _) =>
          let '(c, r3) := upsert_handshake (now 3%nat) (pk x03) MlKem512 (test_sid x03) r2 in
          (registry_len r2 =? 2) && contains (pk x01) r2 &&
          match c with
          | Ok c => bool_decide (slot_assigned_ip c = Ipv4Addr_new x0a x08 x00 x04)
          | Err _ => false
          end
      | _, _, _, _, _ => false
      end
  | _ => false
  end.

Definition idle_sweep_selects_stale_peers (now : nat -> SystemTime) : bool :=
  let r := Registry_new base DEFAULT_MAX_PEERS in
  let '(a, r) := upsert_handshake (now 0%nat) (pk x01) MlKem768 (test_sid x01) r in
  let future := now 1%nat + 3600 * NANOS in
  match a with
  | Ok _ => bool_decide (idle_peers (60 * NANOS) future r = [pk x01])
            && bool_decide (idle_peers (7200 * NANOS) future r = [])
  | Err _ => false
  end.
End RegistryTests.

(** ** [tunnel.rs] *)

Module TunnelTests.
Import ServerWire Registry Tunnel.

Definition install_argv_always_sets_allowed_ips `{C : Codecs} : bool :=
  let v := install_argv (lit "wg0") (arr_fill 32 xab) (Ipv4Addr_new x0a x08 x00 x05) in
  bool_decide (take 3 v = [lit "set"; lit "wg0"; lit "peer"])
  && bool_decide (v !! 3%nat = Some (b64_encode (replicate 32 xab)))
  && bool_decide (take 2 (drop 4 v) = [lit "preshared-key"; lit "/dev/stdin"])
  && bool_decide (take 2 (drop 6 v) = [lit "allowed-ips"; lit "10.8.0.5/32"]).

Definition cidr_parsing : bool :=
  bool_decide (parse_cidr (String.list_byte_of_string "10.8.0.0/24") = Ok (arr_copy 4 [x0a; x08; x00; x00]))
  && match parse_cidr (String.list_byte_of_string "10.8.0.0/16") with Err _ => true | Ok _ => false end.

Definition dry_run_is_inert {W} (w : W) : bool :=
  let d := DryRun (W := W) in
  match (install (PskInstaller := d) (arr_fill 32 x00) (arr_fill 32 x00) (Ipv4Addr_new x0a x08 x00 x02) MlKem768 w).1,
        (list_installed_peers (PskInstaller := d) w).1,
        (remove_peer (PskInstaller := d) (arr_fill 32 x00) w).1 with
  | Ok _, Ok [], Ok _ => true
  | _, _, _ => false
  end.
End TunnelTests.

(** ** [device_state.rs] *)

Module DesktopTests.
Import StatePipeline Desktop.
Section tests.
Context (to_lowercase : rstring -> rstring).

#[local] Instance ConnectionType_eq_dec : EqDecision ConnectionType.
Proof. solve_decision. Defined.

Definition classifies (names : list string) (c : ConnectionType) : bool :=
  bool_decide (classify_connection_type to_lowercase (map lit names) = c).

Definition wifi_interface_name_is_detected : bool :=
  classifies ["wlan0"] WifiOrUnknown && classifies ["Wi-Fi"] WifiOrUnknown.
Definition wired_interface_name_is_detected : bool :=
  classifies ["eth0"] Wired && classifies ["Ethernet"] Wired.
Definition cellular_interface_name_is_detected : bool := classifies ["wwan0"] Cellular.
Definition wifi_takes_priority_over_wired_when_both_present : bool :=
  classifies ["eth0"; "wlan0"] WifiOrUnknown.
Definition unrecognized_or_empty_interface_list_defaults_to_wifi_or_unknown : bool :=
  classifies ["lo"; "docker0"] WifiOrUnknown && classifies [] WifiOrUnknown.
End tests.

(** [raw] is what the system reports to the test. *)
Definition unreachable_host_returns_none_not_an_error (windows : bool) (raw : Raw) : bool :=
  bool_decide (ping_once windows (lit "192.0.2.1") raw = None).
End DesktopTests.

(** ** They pass *)

Lemma core_unit_tests :
  forallb id
    [returns_correct_ml_kem_names; wire_code_round_trips; strength_ordering_supports_no_downgrade_checks;
     KeyStoreTests.stores_and_retrieves_key; KeyStoreTests.wipes_one_key; KeyStoreTests.wipes_all_keys;
     StateTests.connection_type_scores_match_the_python_observer;
     StateTests.unreachable_target_saturates_latency;
     StateTests.latency_and_upload_normalize_against_the_default_caps;
     StateTests.observe_places_every_reading_at_its_frozen_index;
     StateTests.observe_clamps_out_of_range_readings; StateTests.rekey_timer_advances_and_resets;
     StateTests.mock_tunnel_tracks_up_state_and_rotations; TunnelTests.cidr_parsing;
     TunnelTests.dry_run_is_inert tt] = true.
Proof. vm_compute. reflexivity. Qed.

(** With a lower-casing that is right on ASCII; "Wi-Fi" passes by the default. *)
Definition ascii_lowercase (s : rstring) : rstring :=
  from_utf8_lossy (map (fun b => if (65 <=? b2z b) && (b2z b <=? 90) then z2b (b2z b + 32) else b) (str_bytes s)).

Lemma desktop_unit_tests :
  forallb (fun t => t ascii_lowercase)
    [DesktopTests.wifi_interface_name_is_detected; DesktopTests.wired_interface_name_is_detected;
     DesktopTests.cellular_interface_name_is_detected;
     DesktopTests.wifi_takes_priority_over_wired_when_both_present;
     DesktopTests.unrecognized_or_empty_interface_list_defaults_to_wifi_or_unknown] = true.
Proof. vm_compute. reflexivity. Qed.

(** It passes where the address is unreachable, as it is meant to be, and where
    there is no [ping] to run. *)
Lemma unreachable_test_passes windows raw :
  Desktop.ping raw (Desktop.ping_args windows (lit "192.0.2.1")) <> Ok true ->
  DesktopTests.unreachable_host_returns_none_not_an_error windows raw = true.
Proof.
  intros H. apply bool_decide_eq_true. unfold Desktop.ping_once.
  destruct (Desktop.ping raw _) as [[]|]; done.
Qed.

Section registry_tests.
Import ServerWire Registry RegistryFacts Main Recovery RegistryTests.

Lemma registry_tests_pass now :
  forallb (fun t => t now)
    [allocates_distinct_addresses_from_two; fresh_hello_from_known_peer_keeps_ip_new_session;
     rekey_checks_peer_session_and_downgrade; capacity_is_enforced] = true.
Proof. vm_compute. reflexivity. Qed.

Lemma idle_test_passes now :
  now 0%nat <= now 1%nat <= now 0%nat + 3600 * NANOS -> idle_sweep_selects_stale_peers now = true.
Proof.
  intros H. unfold idle_sweep_selects_stale_peers.
  assert (Hup : exists slot, upsert_handshake (now 0%nat) (pk x01) MlKem768 (test_sid x01) (Registry_new base DEFAULT_MAX_PEERS) =
    (Ok slot, set_inner {[ pk x01 := {| wg_pubkey := pk x01; assigned_ip := slot_assigned_ip slot;
       session_id := test_sid x01; algo := MlKem768; created := now 0%nat; last_activity := now 0%nat;
       rekeys := 0 |} ]} (Registry_new base DEFAULT_MAX_PEERS))) by (exists {| slot_session_id := test_sid x01; slot_assigned_ip := Ipv4Addr_new x0a x08 x00 x02 |}; vm_compute; reflexivity).
  destruct Hup as [slot ->]. unfold idle_peers. cbn [inner set_inner]. rewrite map_to_list_singleton.
  cbn [map]. rewrite !filter_cons, !filter_nil. unfold idle, duration_since. cbn [snd last_activity wg_pubkey].
  unfold NANOS in *. rewrite (proj2 (Z.leb_le _ _)) by lia.
  cbn [default fmap option_fmap option_map from_option id].
  rewrite decide_True by (apply Z.ltb_lt; lia). rewrite decide_False by (rewrite Z.ltb_lt; lia). reflexivity.
Qed.

Context `{C : Codecs} `{CL : !CodecLaws C}.

(** The registry after the three operations of the test. *)
Definition test_ops (now : nat -> SystemTime) : list op :=
  [OpUpsert (now 0%nat) (pk x01) MlKem768 (test_sid x01);
   OpUpsert (now 1%nat) (pk x02) MlKem1024 (test_sid x02);
   OpRekey (now 2%nat) (pk x01) (test_sid x01) MlKem1024].

Lemma test_ops_registry now p :
  (forall i, shows (now i)) ->
  let r := fold_left (fun r o => apply_op o r) (test_ops now) (at_path p (Registry_new base DEFAULT_MAX_PEERS)) in
  reg_wf r /\ storable r /\ reg_path r = Some p /\ subnet_base r = base /\
  Z.min DEFAULT_MAX_PEERS POOL_SIZE = Registry.max_peers r.
Proof.
  intros Hnow. cbn [fold_left test_ops]. split_and!.
  - do 3 apply apply_op_wf. by apply at_path_wf, new_wf.
  - do 3 (apply apply_op_storable; [apply Hnow|]). by intros k q Hq.
  - by rewrite !(proj2 (proj2 (apply_op_config _ _))).
  - by rewrite !(proj1 (apply_op_config _ _)).
  - by rewrite !(proj1 (proj2 (apply_op_config _ _))).
Qed.

Lemma let_pair {A B D} (x : A * B) (f : A -> B -> D) : (let '(a, b) := x in f a b) = f x.1 x.2.
Proof. by destruct x. Qed.

Lemma persist_test_passes p now disk :
  (forall i, shows (now i)) -> persist_and_reload_round_trips p now disk = true.
Proof.
  intros Hnow. unfold persist_and_reload_round_trips.
  rewrite registry_load_absent by apply lookup_delete_eq. cbv beta iota.
  destruct (test_ops_registry now p Hnow) as (Hwf & Hst & Hp & Hb & Hm).
  cbn [fold_left test_ops apply_op] in *. rewrite 3!let_pair.
  set (r := (registry_rekey _ _ _ _ _).2) in *.
  destruct (persist_run r p (delete p (files disk)) (modes disk) Hp Hst) as (json & f' & -> & Hj & Hf & _).
  pose proof (load_saved r p json _ f' (modes disk) Hwf Hp Hst Hj Hm Hf) as Hload.
  rewrite Hb in Hload. rewrite Hload.
  clear. subst r. vm_compute. reflexivity.
Qed.
End registry_tests.

Lemma install_argv_test_passes : TunnelTests.install_argv_always_sets_allowed_ips (C := Registry.ToyCodecs.codecs) = true.
Proof. vm_compute. reflexivity. Qed.
